(** * AI-Compare_Service: a shallow embedding of the extraction engine

    The development follows the Python sources of the repository:
    - [main.py] and [unified_parser.py]: text normalisation
      ([_clean_text], [_extract_price], [_extract_data_amount]), the
      retrying fetcher, the container analysis and the merge of the
      per-operator results;
    - [several_site_analyzer.py]: the site survey ([analyze_page]) and the
      cookie-banner detection ([detect_cookie_banner]);
    - [src/utils.py] and [src/scraper.py]: name de-duplication and the
      Trustpilot enrichment.

    Texts are sequences of characters; a character is Rocq's 8-bit [ascii],
    read as a Unicode code point in U+0000..U+00FF (Latin-1, which covers the
    Norwegian alphabet).  The character classes below are the ones Python
    uses on that range. *)

From stdpp Require Import base gmap strings list.
From Stdlib Require Import ZArith QArith Qabs Ascii String Bool Lia Lqa Sorted Permutation.
From Stdlib Require Import Floats.PrimFloat Floats.SpecFloat Floats.FloatOps Uint63.

Local Open Scope list_scope.

Abbreviation text := (list ascii).

(** A string literal as a text. *)
Definition T (s : string) : text := list_ascii_of_string s.

(* ===================================================================== *)
(** ** Characters and the string primitives of Python used by the code *)
(* ===================================================================== *)

Module Text.

Definition code (c : ascii) : N := N_of_ascii c.

Definition between (lo hi : N) (c : ascii) : bool :=
  ((lo <=? code c) && (code c <=? hi))%N.

Definition is_code (n : N) (c : ascii) : bool := (code c =? n)%N.

(** [str.isspace], also the class [\s] of [re] on [str] patterns. *)
Definition isspace (c : ascii) : bool :=
  between 9 13 c || between 28 32 c || is_code 133 c || is_code 160 c.

(** The class [\d]. *)
Definition isdigit (c : ascii) : bool := between 48 57 c.

(** The class [\w]: alphanumeric characters and the underscore. *)
Definition isword (c : ascii) : bool :=
  isdigit c || between 65 90 c || is_code 95 c || between 97 122 c
  || is_code 170 c || between 178 179 c || is_code 181 c || between 185 186 c
  || between 188 190 c || between 192 214 c || between 216 246 c
  || between 248 255 c.

(** [str.lower] on one character. *)
Definition lower_char (c : ascii) : ascii :=
  if between 65 90 c || (between 192 222 c && negb (is_code 215 c))
  then ascii_of_N (code c + 32) else c.

(** [text.lower()] *)
Definition lower (s : text) : text := map lower_char s.

(** [needle in hay] on strings. *)
Fixpoint starts_with (needle hay : text) : bool :=
  match needle, hay with
  | [], _ => true
  | _ :: _, [] => false
  | a :: n', b :: h' => Ascii.eqb a b && starts_with n' h'
  end.

Fixpoint contains (needle hay : text) : bool :=
  starts_with needle hay ||
  match hay with
  | [] => false
  | _ :: h' => contains needle h'
  end.

(** [any(k in s for k in ks)] *)
Definition any_in (ks : list text) (s : text) : bool :=
  existsb (fun k => contains k s) ks.

Fixpoint lstrip (s : text) : text :=
  match s with
  | [] => []
  | c :: s' => if isspace c then lstrip s' else s
  end.

Definition rstrip (s : text) : text := rev (lstrip (rev s)).

(** [text.strip()] *)
Definition strip (s : text) : text := rstrip (lstrip s).

(** [re.sub(r'\s+', ' ', s)]: every maximal run of whitespace becomes one
    space; [in_run] tells that the previous character was whitespace. *)
Fixpoint sub_ws (in_run : bool) (s : text) : text :=
  match s with
  | [] => []
  | c :: s' =>
      if isspace c
      then (if in_run then sub_ws true s' else " "%char :: sub_ws true s')
      else c :: sub_ws false s'
  end.

(** [s.replace(',', '.')] *)
Definition comma_to_dot (s : text) : text :=
  map (fun c => if Ascii.eqb c ","%char then "."%char else c) s.

(** [s[:n]] for [n >= 0] *)
Definition prefix (n : nat) (s : text) : text := firstn n s.

(** [not text] for a string: the empty string is falsy. *)
Definition falsy (s : text) : bool :=
  match s with [] => true | _ => false end.

End Text.

(** [_clean_text] (identical in [main.py], [unified_parser.py] and
    [several_site_analyzer.py]). *)
Definition clean_text (s : text) : text :=
  if Text.falsy s then [] else Text.sub_ws false (Text.strip s).

(* ===================================================================== *)
(** ** The fragment of [re] used by the patterns of the code *)
(* ===================================================================== *)

Module Regex.
Import Text.

(** Patterns are compiled with [re.IGNORECASE]: a literal matches both
    cases.  Repetition only occurs on character classes. *)
Inductive re : Type :=
| Lit (c : ascii)
| Cls (p : ascii -> bool)
| Star (p : ascii -> bool)
| Plus (p : ascii -> bool)
| Opt (r : re)
| Seq (r1 r2 : re)
| Alt (r1 r2 : re)
| Grp (r : re)
| WordB.

(** The character before the current position after reading [w]. *)
Definition last_char (prev : option ascii) (w : text) : option ascii :=
  fold_left (fun _ c => Some c) w prev.

Definition word_opt (c : option ascii) : bool :=
  match c with Some x => isword x | None => false end.

(** [\b]: exactly one side of the position is a word character. *)
Definition at_boundary (prev : option ascii) (s : text) : bool :=
  xorb (word_opt prev) (word_opt (head s)).

(** All ways for [p*] to read a prefix of [s], longest first (greedy). *)
Fixpoint star_runs (p : ascii -> bool) (s : text) : list (text * text) :=
  match s with
  | [] => [([], [])]
  | c :: s' =>
      if p c
      then map (fun wr => (c :: fst wr, snd wr)) (star_runs p s') ++ [([], s)]
      else [([], s)]
  end.

Definition nonempty (w : text) : bool :=
  match w with [] => false | _ => true end.

(** A later group overrides an earlier one (there is one group at most). *)
Definition merge (c1 c2 : option text) : option text :=
  match c2 with Some _ => c2 | None => c1 end.

(** The backtracking matcher as a list of successes, in the order in which
    the engine tries them: each success is the text read, the content of
    group 1 and the remaining text. *)
Fixpoint run (r : re) (prev : option ascii) (s : text)
  : list (text * option text * text) :=
  match r with
  | Lit c =>
      match s with
      | x :: s' =>
          if Ascii.eqb (lower_char x) (lower_char c)
          then [([x], None, s')] else []
      | [] => []
      end
  | Cls p =>
      match s with
      | x :: s' => if p x then [([x], None, s')] else []
      | [] => []
      end
  | Star p => map (fun wr => (fst wr, None, snd wr)) (star_runs p s)
  | Plus p =>
      map (fun wr => (fst wr, None, snd wr))
          (List.filter (fun wr => nonempty (fst wr)) (star_runs p s))
  | Opt r1 => run r1 prev s ++ [([], None, s)]
  | Seq r1 r2 =>
      flat_map
        (fun m1 =>
           map (fun m2 =>
                  (fst (fst m1) ++ fst (fst m2),
                   merge (snd (fst m1)) (snd (fst m2)),
                   snd m2))
               (run r2 (last_char prev (fst (fst m1))) (snd m1)))
        (run r1 prev s)
  | Alt r1 r2 => run r1 prev s ++ run r2 prev s
  | Grp r1 => map (fun m => (fst (fst m), Some (fst (fst m)), snd m)) (run r1 prev s)
  | WordB => if at_boundary prev s then [([], None, s)] else []
  end.

(** [re.search]: the first success at the leftmost position that has one;
    the result is [(group(0), group(1))]. *)
Fixpoint search_from (r : re) (prev : option ascii) (s : text)
  : option (text * option text) :=
  match run r prev s with
  | m :: _ => Some (fst m)
  | [] =>
      match s with
      | [] => None
      | x :: s' => search_from r (Some x) s'
      end
  end.

Definition search (r : re) (s : text) : option (text * option text) :=
  search_from r None s.

(** The literal word [c w], case-insensitively. *)
Fixpoint lits (c : ascii) (w : text) : re :=
  match w with
  | [] => Lit c
  | d :: w' => Seq (Lit c) (lits d w')
  end.

(** [match.group(1)]; every pattern with a group makes it take part. *)
Definition group1 (m : text * option text) : text :=
  match snd m with Some g => g | None => [] end.

Definition group0 (m : text * option text) : text := fst m.

End Regex.

(* ===================================================================== *)
(** ** Text Normalizer *)
(* ===================================================================== *)

(** The two sources share the loop
    [for pattern in patterns: match = re.search(pattern, text, re.IGNORECASE)]:
    the first pattern of the list that matches somewhere decides. *)
Fixpoint first_match {A : Type} (ps : list (A * Regex.re)) (s : text)
  : option (A * (text * option text)) :=
  match ps with
  | [] => None
  | (a, p) :: ps' =>
      match Regex.search p s with
      | Some m => Some (a, m)
      | None => first_match ps' s
      end
  end.

Module Patterns.
Import Text Regex.

Definition is_comma (c : ascii) : bool := Ascii.eqb c ","%char.
Definition is_sep (c : ascii) : bool :=
  Ascii.eqb c ","%char || Ascii.eqb c "."%char.

(** [(\d+(?:SEP\d+)?)]: digits, and possibly a separator and digits. *)
Definition number_body (sep : ascii -> bool) : re :=
  Seq (Plus isdigit) (Opt (Seq (Cls sep) (Plus isdigit))).

(** [(\d+(?:,\d+)?)] of [main.py] *)
Definition number_comma : re := Grp (number_body is_comma).

(** [(\d+(?:[,\.]\d+)?)] of [unified_parser.py] *)
Definition number_sep : re := Grp (number_body is_sep).

(** [(\d+)] *)
Definition integer : re := Grp (Plus isdigit).

Definition ws : re := Star isspace.

Definition kr : re := lits "k" (T "r").
Definition nok : re := lits "N" (T "OK").
Definition gb : re := lits "G" (T "B").
Definition tb : re := lits "T" (T "B").
Definition mb : re := lits "M" (T "B").
Definition giga : re := lits "g" (T "iga").
Definition comma_dash : re := lits "," (T "-").

(** [num\s*unit] and [unit\s*num] *)
Definition followed_by (num unit : re) : re := Seq num (Seq ws unit).
Definition preceded_by (unit num : re) : re := Seq unit (Seq ws num).

End Patterns.

(** *** [main.py] (the same functions are in [several_site_analyzer.py]) *)
Module Main.
Import Text Regex Patterns.

Definition price_patterns : list (unit * re) :=
  [ (tt, followed_by number_comma kr);
    (tt, followed_by number_comma nok);
    (tt, preceded_by kr number_comma);
    (tt, preceded_by nok number_comma);
    (tt, followed_by number_comma comma_dash) ].

Definition extract_price (s : text) : text :=
  if falsy s then []
  else match first_match price_patterns s with
       | Some (_, m) => group1 m ++ T " kr"
       | None => clean_text s
       end.

Definition unlimited_words : list text :=
  [T "ubegrenset"; T "unlimited"; T "fri data"; T "uten grense"].

(** [r'ubegrenset|unlimited|fri\s*data'] *)
Definition unlimited_pattern : re :=
  Alt (lits "u" (T "begrenset"))
      (Alt (lits "u" (T "nlimited"))
           (Seq (lits "f" (T "ri")) (Seq ws (lits "d" (T "ata"))))).

(** The flag is [pattern.endswith('giga')]. *)
Definition data_patterns : list (bool * re) :=
  [ (false, followed_by number_comma gb);
    (false, followed_by number_comma tb);
    (false, followed_by number_comma mb);
    (false, unlimited_pattern);
    (true, followed_by integer giga) ].

Definition extract_data_amount (s : text) : text :=
  if falsy s then []
  else if any_in unlimited_words (lower s) then T "Unlimited"
  else match first_match data_patterns s with
       | Some (true, m) => group1 m ++ T " GB"
       | Some (false, m) => group0 m
       | None => clean_text s
       end.

End Main.

(** *** [unified_parser.py] *)
Module Unified.
Import Text Regex Patterns.

Definition price_patterns : list (unit * re) :=
  [ (tt, Seq (followed_by number_sep kr) WordB);
    (tt, Seq (followed_by number_sep nok) WordB);
    (tt, Seq WordB (preceded_by kr number_sep));
    (tt, followed_by number_sep comma_dash) ].

Definition extract_price (s : text) : text :=
  if falsy s then []
  else match first_match price_patterns s with
       | Some (_, m) => comma_to_dot (group1 m) ++ T " kr"
       | None => clean_text s
       end.

Definition unlimited_keywords : list text :=
  [T "ubegrenset"; T "unlimited"; T "fri data"; T "uten grense"].

(** [match.group(0)[-2:]] *)
Definition last2 (w : text) : text := skipn (List.length w - 2) w.

(** The flag is ['giga' in pattern]. *)
Definition data_patterns : list (bool * re) :=
  [ (false, Seq (followed_by number_sep gb) WordB);
    (false, Seq (followed_by number_sep tb) WordB);
    (false, Seq (followed_by number_sep mb) WordB);
    (true, Seq (followed_by integer giga) WordB) ].

Definition extract_data_amount (s : text) : text :=
  if falsy s then []
  else if any_in unlimited_keywords (lower s) then T "Unlimited"
  else match first_match data_patterns s with
       | Some (is_giga, m) =>
           comma_to_dot (group1 m) ++ T " " ++
           (if is_giga then T "GB" else last2 (group0 m))
       | None => clean_text s
       end.

End Unified.

(* ===================================================================== *)
(** ** What it means for a pattern to match: the reference semantics *)
(* ===================================================================== *)

Module RegexSem.
Import Text Regex.

(** [matches r prev w next g]: the pattern [r] reads exactly [w] when the
    character before is [prev] and the text after is [next]; [g] is the
    content of group 1, if the group took part. *)
Inductive matches : re -> option ascii -> text -> text -> option text -> Prop :=
| M_lit c x prev next :
    lower_char x = lower_char c -> matches (Lit c) prev [x] next None
| M_cls (p : ascii -> bool) x prev next :
    p x = true -> matches (Cls p) prev [x] next None
| M_star (p : ascii -> bool) w prev next :
    forallb p w = true -> matches (Star p) prev w next None
| M_plus (p : ascii -> bool) w prev next :
    w <> [] -> forallb p w = true -> matches (Plus p) prev w next None
| M_opt_some r prev w next g :
    matches r prev w next g -> matches (Opt r) prev w next g
| M_opt_none r prev next :
    matches (Opt r) prev [] next None
| M_seq r1 r2 prev w1 w2 next g1 g2 :
    matches r1 prev w1 (w2 ++ next) g1 ->
    matches r2 (last_char prev w1) w2 next g2 ->
    matches (Seq r1 r2) prev (w1 ++ w2) next (merge g1 g2)
| M_alt_l r1 r2 prev w next g :
    matches r1 prev w next g -> matches (Alt r1 r2) prev w next g
| M_alt_r r1 r2 prev w next g :
    matches r2 prev w next g -> matches (Alt r1 r2) prev w next g
| M_grp r prev w next g :
    matches r prev w next g -> matches (Grp r) prev w next (Some w)
| M_wordb prev next :
    at_boundary prev next = true -> matches WordB prev [] next None.

(** [r] matches the part [w] of [s] that starts after [pre]. *)
Definition match_at (r : re) (s pre w : text) (g : option text) : Prop :=
  exists next, s = pre ++ w ++ next /\ matches r (last_char None pre) w next g.

(** [r] matches somewhere in [s]. *)
Definition occurs (r : re) (s : text) : Prop :=
  exists pre w g, match_at r s pre w g.

(** A match of [r] in [s] such that no match of [r] starts further left. *)
Definition leftmost (r : re) (s pre w : text) (g : option text) : Prop :=
  match_at r s pre w g /\
  forall pre' w' g', match_at r s pre' w' g' -> (List.length pre <= List.length pre')%nat.

(** The match that [re.search] returns for a pattern whose group holds a
    number: a leftmost match, and of the matches that start there the one
    that reads the longest number (the quantifiers are greedy). *)
Definition first_number (r : re) (s pre w n : text) : Prop :=
  leftmost r s pre w (Some n) /\
  forall w' n', match_at r s pre w' (Some n') ->
                (List.length n' <= List.length n)%nat.

(** Whether every match of [r] fills group 1, and the patterns that stand
    inside a group. *)
Fixpoint captures (r : re) : bool :=
  match r with
  | Grp _ => true
  | Seq r1 r2 => captures r1 || captures r2
  | Alt r1 r2 => captures r1 && captures r2
  | _ => false
  end.

Fixpoint grouped (r : re) : list re :=
  match r with
  | Grp r1 => [r1]
  | Seq r1 r2 | Alt r1 r2 => grouped r1 ++ grouped r2
  | Opt r1 => grouped r1
  | _ => []
  end.

(** A number as the patterns write it: digits, and possibly a separator
    and digits again. *)
Definition digits (w : text) : Prop := w <> [] /\ forallb isdigit w = true.

Definition number (sep : ascii -> bool) (w : text) : Prop :=
  digits w \/
  exists a c b, w = a ++ c :: b /\ digits a /\ sep c = true /\ digits b.

(** A run of whitespace, and a word up to the case of its letters. *)
Definition spaces (w : text) : Prop := forallb isspace w = true.

Definition same_word (lit w : text) : Prop := map lower_char w = map lower_char lit.

(** A pattern whose group 1 holds the number. *)
Definition numbered (sep : ascii -> bool) (p : re) : Prop :=
  captures p = true /\
  grouped p = [Seq (Plus isdigit) (Opt (Seq (Cls sep) (Plus isdigit)))].

(** [m] is the number [n] with its separator, if any, turned into a dot. *)
Definition dotted (sep : ascii -> bool) (n m : text) : Prop :=
  (digits n /\ m = n) \/
  exists a c b, n = a ++ c :: b /\ digits a /\ sep c = true /\ digits b /\
                m = a ++ "."%char :: b.

End RegexSem.

(* ===================================================================== *)
(** ** Fetcher: [_fetch_with_retry] / [_fetch_page] *)
(* ===================================================================== *)

Module Fetcher.

(** What one [session.get] does: it gives a response, with its status and
    its text ([None]: reading the text raises), or it raises
    [asyncio.TimeoutError] or another [Exception].  Every failure is
    handled inside the loop: a status other than 200 is logged, the
    exceptions are caught. *)
Inductive outcome : Type :=
| Response (status : Z) (body : option text)
| TimedOut
| Failed.

(** The content that the attempt returns, if it does. *)
Definition content_of (o : outcome) : option text :=
  match o with
  | Response status body => if (status =? 200)%Z then body else None
  | _ => None
  end.

(** The network: the outcome of the request of each attempt. *)
Definition network := Z -> outcome.

Inductive event : Type :=
| Get (attempt : Z)
| Sleep (seconds : Z).

(** [for attempt in range(max_retries)], with [k] iterations left. *)
Fixpoint attempts (net : network) (max_retries attempt : Z) (k : nat)
  : list event * option text :=
  match k with
  | O => ([], None)
  | S k' =>
      match content_of (net attempt) with
      | Some content => ([Get attempt], Some content)
      | None =>
          let backoff :=
            if (attempt <? max_retries - 1)%Z then [Sleep (2 ^ attempt)%Z] else [] in
          let rest := attempts net max_retries (attempt + 1)%Z k' in
          (Get attempt :: backoff ++ fst rest, snd rest)
      end
  end.

(** The function returns [Optional[str]]: the body, or [None]. *)
Definition fetch_with_retry (net : network) (max_retries : Z)
  : list event * option text :=
  attempts net max_retries 0%Z (Z.to_nat max_retries).

(** An attempt fails when it gives no content: a timeout, a status other
    than 200, or an error of the transport. *)
Definition is_failure (o : outcome) : bool :=
  match content_of o with Some _ => false | None => true end.

Definition gets (evs : list event) : list Z :=
  flat_map (fun e => match e with Get a => [a] | Sleep _ => [] end) evs.

Definition sleeps (evs : list event) : list Z :=
  flat_map (fun e => match e with Sleep d => [d] | Get _ => [] end) evs.

Definition total_sleep (evs : list event) : Z :=
  fold_right Z.add 0%Z (sleeps evs).

(** What attempt [j] leaves in the trace when it fails: the request, and
    the wait unless [j] is the last attempt. *)
Definition failed_step (max_retries j : Z) : list event :=
  Get j :: (if (j <? max_retries - 1)%Z then [Sleep (2 ^ j)%Z] else []).

(** The network on which every request times out. *)
Definition always_timeout : network := fun _ => TimedOut.

End Fetcher.

(* ===================================================================== *)
(** ** The parsed markup, as the code queries it *)
(* ===================================================================== *)

Module Dom.

(** A [bs4] element (the soup itself is one).  The parser is a collaborator:
    the model keeps what the code reads from an element.  [select] answers
    a CSS selector; [None] stands for a selector the parser rejects by
    raising. *)
#[local] Unset Elimination Schemes.
Inductive tag : Type :=
  Tag {
    name : text;
    get_text : text;
    classes : list text;
    attr : string -> option text;
    select : string -> option (list tag)
  }.
#[local] Set Elimination Schemes.

(** [elem.select_one(sel)]: the first element of [select], or Python's
    [None]. *)
Definition select_one (e : tag) (sel : string) : option (option tag) :=
  match select e sel with
  | Some l => Some (head l)
  | None => None
  end.

(** [elem.get(a, '')] *)
Definition get (e : tag) (a : string) : text :=
  match attr e a with Some v => v | None => [] end.

(** An element without descendants. *)
Definition leaf (n : string) (cls : list string) (txt : string) : tag :=
  Tag (T n) (T txt) (map T cls) (fun _ => None) (fun _ => Some []).

(** The double quote, and the selectors that contain it. *)
Definition dq : string := String (ascii_of_N 34) EmptyString.

(** [[a*="v"]], [t[a*="v"]] and [[a="v"]] *)
Definition attr_has (a v : string) : string :=
  ("[" +:+ a +:+ "*=" +:+ dq +:+ v +:+ dq +:+ "]")%string.
Definition tag_attr_has (t a v : string) : string := (t +:+ attr_has a v)%string.
Definition attr_is (a v : string) : string :=
  ("[" +:+ a +:+ "=" +:+ dq +:+ v +:+ dq +:+ "]")%string.
(** [[a^="v"]] *)
Definition attr_starts (a v : string) : string :=
  ("[" +:+ a +:+ "^=" +:+ dq +:+ v +:+ dq +:+ "]")%string.
(** [button:-soup-contains("v")] *)
Definition button_contains (v : string) : string :=
  ("button:-soup-contains(" +:+ dq +:+ v +:+ dq +:+ ")")%string.

End Dom.

(* ===================================================================== *)
(** ** Structure Analyzer of [unified_parser.py] *)
(* ===================================================================== *)

Module Analyzer.
Import Text Dom.

(** A candidate as [_analyze_plan_containers] builds it.  The confidence
    is a Python [float], a binary64 number; the model computes it with the
    primitive floats of Rocq, which are binary64 with the same rounding. *)
Record container : Type :=
  Container {
    selector : string;
    count : nat;
    sample_text : text;
    confidence : float
  }.

Definition container_patterns : list string :=
  [ ".plan"; ".product"; ".card"; ".subscription"; ".abonnement";
    ".offer"; ".package"; ".tariff"; attr_has "class" "plan";
    attr_has "class" "product"; attr_has "class" "subscription" ]%string.

(** ['måned']: the letter U+00E5. *)
Definition maaned : text := T "m" ++ [ascii_of_N 229] ++ T "ned".

Definition keywords : list text :=
  [T "kr"; T "gb"; T "plan"; T "mobil"; T "abonnement"; maaned].

(** [sum(1 for keyword in keywords if keyword in text)] *)
Definition keyword_matches (txt : text) : nat :=
  List.length (List.filter (fun k => contains k txt) keywords).

(** An [int] that takes part in a division or an addition of floats. *)
Definition float_of_nat (n : nat) : float :=
  PrimFloat.of_uint63 (Uint63.of_Z (Z.of_nat n)).

(** [_calculate_container_confidence] *)
Definition calculate_container_confidence (elements : list tag) : float :=
  match elements with
  | [] => 0%float
  | _ =>
      (fold_left
         (fun acc e =>
            acc + float_of_nat (keyword_matches (lower (get_text e)))
                  / float_of_nat (List.length keywords))
         (firstn 3 elements) 0
       / float_of_nat (Nat.min (List.length elements) 3))%float
  end.

(** The rational number that a finite float is. *)
Definition rational (x : float) : Q :=
  match Prim2SF x with
  | S754_finite s m e =>
      let v := if (0 <=? e)%Z
               then inject_Z (Z.pos m * 2 ^ e)
               else Z.pos m # Pos.pow 2 (Z.to_pos (- e)) in
      if s then - v else v
  | _ => 0
  end.

Definition finite (x : float) : bool :=
  match Prim2SF x with
  | S754_finite _ _ _ | S754_zero _ => true
  | _ => false
  end.

(** The confidence of a candidate as a number. *)
Definition value (c : container) : Q := rational (confidence c).

(** *** The same quantities in exact arithmetic *)

(** The fraction of the keywords found in the text of an element. *)
Definition fraction (e : tag) : Q :=
  inject_Z (Z.of_nat (keyword_matches (lower (get_text e))))
  / inject_Z (Z.of_nat (List.length keywords)).

(** The expression of [_calculate_container_confidence] read over the
    rationals, without rounding. *)
Definition exact_confidence (elements : list tag) : Q :=
  match elements with
  | [] => 0
  | _ =>
      fold_left (fun acc e => acc + fraction e) (firstn 3 elements) 0
      / inject_Z (Z.of_nat (Nat.min (List.length elements) 3))
  end.

(** The average of a list of rationals, 0 for the empty list. *)
Definition total (qs : list Q) : Q := fold_right Qplus 0 qs.

Definition average (qs : list Q) : Q :=
  match qs with
  | [] => 0
  | _ => total qs / inject_Z (Z.of_nat (List.length qs))
  end.

(** The confidence depends on the elements through the numbers of keywords
    in the first three: [score] is the computation on those numbers, and
    [vectors] lists the values they can take (three numbers at most, six
    keywords). *)
Definition counts (elements : list tag) : list nat :=
  map (fun e => keyword_matches (lower (get_text e))) (firstn 3 elements).

Definition score (ms : list nat) : float :=
  match ms with
  | [] => 0%float
  | _ =>
      (fold_left (fun acc m => acc + float_of_nat m / float_of_nat 6) ms 0
       / float_of_nat (List.length ms))%float
  end.

Definition exact_score (ms : list nat) : Q :=
  average (map (fun m => inject_Z (Z.of_nat m) / 6) ms).

Fixpoint vec (n : nat) : list (list nat) :=
  match n with
  | O => [[]]
  | S n' => flat_map (fun m => map (cons m) (vec n')) (seq 0 7)
  end.

Definition vectors : list (list nat) := vec 0 ++ vec 1 ++ vec 2 ++ vec 3.

(** The floats that a confidence can be. *)
Definition scores : list float := map score vectors.

(** A float between 0 and 1 as a multiple of [2^-64]. *)
Definition scaled (x : float) : Z :=
  match Prim2SF x with
  | S754_finite false m e => Z.shiftl (Z.pos m) (e + 64)
  | _ => 0%Z
  end.

(** What is checked, by computation, on every vector: the score is a
    finite float between 0 and 1, as a float and as a number, a multiple of
    [2^-64], and within [2^-53] of the exact average; and on every pair of
    scores: the comparisons of floats are the comparisons of the numbers. *)
Definition score_ok (ms : list nat) : bool :=
  let x := score ms in
  finite x && PrimFloat.leb 0 x && PrimFloat.leb x 1
  && Qeq_bool (rational x) (scaled x # 2 ^ 64)
  && (0 <=? scaled x)%Z && (scaled x <=? 2 ^ 64)%Z
  && Qle_bool (Qabs (rational x - exact_score ms)) (1 # 2 ^ 53).

Definition valued : list (float * Z) := map (fun x => (x, scaled x)) scores.

Definition compare_ok (p q : float * Z) : bool :=
  Bool.eqb (PrimFloat.ltb (fst p) (fst q)) (snd p <? snd q)%Z
  && Bool.eqb (PrimFloat.leb (fst p) (fst q)) (snd p <=? snd q)%Z.

Definition all_pairs {A : Type} (f : A -> A -> bool) (l : list A) : bool :=
  forallb (fun x => forallb (f x) l) l.

(** Candidates whose confidence is a score. *)
Definition scored (l : list container) : Prop :=
  Forall (fun c => In (confidence c) scores) l.

(** Candidates in descending order of confidence. *)
Definition descending (l : list container) : Prop :=
  StronglySorted (fun a b => value b <= value a) l.

(** The candidates of [l] whose confidence is [q], in their order. *)
Definition with_confidence (q : Q) (l : list container) : list container :=
  List.filter (fun c => Qeq_bool (value c) q) l.

(** [sorted(containers, key=lambda x: x['confidence'], reverse=True)].
    Python's sort compares the keys with [<]; it is stable, also with
    [reverse=True], and the stable sort of a list for a given key is
    unique.  Insertion is one way to get it: a candidate goes before the
    first one that is not greater. *)
Fixpoint insert_desc (c : container) (l : list container) : list container :=
  match l with
  | [] => [c]
  | d :: l' =>
      if PrimFloat.ltb (confidence c) (confidence d)
      then d :: insert_desc c l'
      else c :: l
  end.

Definition sorted_desc (l : list container) : list container :=
  fold_right insert_desc [] l.

(** The loop over the patterns, before sorting. *)
Fixpoint collect (soup : tag) (patterns : list string) : list container :=
  match patterns with
  | [] => []
  | p :: ps =>
      match select soup p with
      | Some elements =>
          if (2 <=? List.length elements)%nat
          then Container p (List.length elements)
                 (match elements with e :: _ => prefix 100 (get_text e) | [] => [] end)
                 (calculate_container_confidence elements)
               :: collect soup ps
          else collect soup ps
      | None => collect soup ps
      end
  end.

(** [_analyze_plan_containers] *)
Definition analyze_plan_containers (soup : tag) : list container :=
  sorted_desc (collect soup container_patterns).

(** [_optimize_selectors]: the selector of the best candidate replaces
    the fallback when its confidence exceeds 0.5. *)
Definition optimize_selectors (containers : list container)
    (fallback : gmap string string) : gmap string string :=
  match containers with
  | best :: _ =>
      if PrimFloat.ltb 0.5 (confidence best)
      then <["plan_cards"%string := selector best]> fallback
      else fallback
  | [] => fallback
  end.

Definition affirmative : list text :=
  [T "godta"; T "accept"; T "ok"; T "aksepter"].

Definition accept_patterns : list string :=
  [ attr_has "data-testid" "accept"; attr_has "data-cy" "accept";
    ".cookie-accept"; ".accept-cookies"; ".gdpr-accept";
    tag_attr_has "button" "class" "accept"; tag_attr_has "button" "id" "accept";
    button_contains "Godta"; button_contains "Accept";
    button_contains "Aksepter"; attr_has "aria-label" "accept" ]%string.

Definition banner_patterns : list string :=
  [ ".cookie-banner"; ".gdpr-banner"; ".consent-banner";
    "#cookie-notice"; attr_has "class" "cookie"; attr_is "role" "dialog" ]%string.

(** [_detect_cookie_elements]: the accept patterns with an element whose
    text has an affirmative word, and the banner patterns that select
    something. *)
Definition detect_accept (soup : tag) : list string :=
  List.filter
    (fun p => match select soup p with
              | Some els =>
                  existsb (fun e => any_in affirmative (lower (strip (get_text e)))) els
              | None => false
              end)
    accept_patterns.

Definition detect_banners (soup : tag) : list string :=
  List.filter
    (fun p => match select soup p with
              | Some (_ :: _) => true
              | _ => false
              end)
    banner_patterns.

(** [has_cookie_banner] of [analyze_site_structure] *)
Definition has_cookie_banner (soup : tag) : bool :=
  negb (match detect_accept soup with [] => true | _ => false end)
  || negb (match detect_banners soup with [] => true | _ => false end).

End Analyzer.

(* ===================================================================== *)
(** ** The site survey of [several_site_analyzer.py] *)
(* ===================================================================== *)

Module Survey.
Import Text Dom.

(** An entry of [potential_plan_containers]. *)
Record potential : Type :=
  Potential { p_selector : string; p_count : nat; p_sample_text : text }.

Definition container_selectors : list string :=
  [ ".plan"; ".product"; ".card"; ".subscription"; ".abonnement";
    ".offer"; ".package"; ".tariff"; ".mobile-plan";
    attr_has "class" "plan"; attr_has "class" "product";
    attr_has "class" "card"; attr_has "class" "subscription";
    attr_has "id" "plan" ]%string.

(** The loop of [analyze_page] over [container_selectors]:
    [if elements:] keeps every selector that selects something. *)
Fixpoint plan_containers (soup : tag) (selectors : list string) : list potential :=
  match selectors with
  | [] => []
  | s :: ss =>
      match select soup s with
      | Some (e :: els) =>
          Potential s (List.length (e :: els)) (prefix 100 (get_text e))
          :: plan_containers soup ss
      | _ => plan_containers soup ss
      end
  end.

Definition potential_plan_containers (soup : tag) : list potential :=
  plan_containers soup container_selectors.

(** *** [detect_cookie_banner] *)

Definition cookie_keywords : list (text * list text) :=
  [ (T "norwegian",
     [T "informasjonskapsler"; T "samtykke"; T "personvern"; T "cookies"; T "godta"]);
    (T "english",
     [T "cookies"; T "consent"; T "privacy"; T "accept"; T "gdpr"; T "tracking"]);
    (T "common",
     [T "cookie"; T "gdpr"; T "privacy policy"; T "data protection"]) ].

(** [kw for kw_list in cookie_keywords.values() for kw in kw_list] *)
Definition all_keywords : list text := flat_map snd cookie_keywords.

Definition accept_buttons_selectors : list string :=
  [ attr_has "data-testid" "accept"; attr_has "data-cy" "accept";
    ".cookie-accept"; ".accept-cookies"; ".gdpr-accept";
    tag_attr_has "button" "class" "accept"; tag_attr_has "button" "id" "accept";
    button_contains "Godta"; button_contains "Accept";
    button_contains "Aksepter"; button_contains "OK";
    attr_has "aria-label" "accept"; attr_has "title" "accept" ]%string.

Definition close_buttons_selectors : list string :=
  [ ".cookie-close"; ".modal-close"; ".banner-close";
    tag_attr_has "button" "aria-label" "close";
    tag_attr_has "button" "title" "close";
    ".close"; "[data-dismiss]"; ".dismiss" ]%string.

Definition banner_containers_selectors : list string :=
  [ ".cookie-banner"; ".gdpr-banner"; ".consent-banner";
    ".privacy-notice"; "#cookie-notice"; "#gdpr-notice";
    attr_has "class" "cookie"; attr_has "class" "consent"; attr_has "class" "gdpr";
    attr_has "id" "cookie"; attr_has "id" "consent"; attr_is "role" "dialog" ]%string.

Definition modal_selector : string :=
  (attr_is "role" "dialog" +:+ ", .modal, .overlay, " +:+ attr_has "class" "modal"
     +:+ ", " +:+ attr_has "class" "overlay")%string.

Inductive position : Type := Top | Bottom | Center | Overlay | Unknown.

Definition position_indicators : list (position * list text) :=
  [ (Top, [T "top"; T "header"; T "fixed-top"]);
    (Bottom, [T "bottom"; T "footer"; T "fixed-bottom"]);
    (Center, [T "center"; T "modal"; T "popup"]);
    (Overlay, [T "overlay"; T "fixed"; T "absolute"]) ].

(** [' '.join(l)] *)
Fixpoint join_space (l : list text) : text :=
  match l with
  | [] => []
  | [a] => a
  | a :: l' => a ++ " "%char :: join_space l'
  end.

(** [_detect_banner_position] *)
Definition detect_banner_position (e : tag) : position :=
  let cls := lower (join_space (classes e)) in
  let style := lower (get e "style") in
  match List.find
          (fun pi => existsb (fun i => contains i cls || contains i style) (snd pi))
          position_indicators with
  | Some pi => fst pi
  | None => Unknown
  end.

Record banner_element : Type :=
  Banner {
    b_selector : string; b_text : text; b_classes : list text;
    b_id : text; b_position : position
  }.

Record accept_button : Type :=
  Accept {
    a_selector : string; a_text : text; a_element_type : text;
    a_classes : list text; a_id : text
  }.

Record close_button : Type :=
  Close {
    c_selector : string; c_element_type : text;
    c_classes : list text; c_id : text
  }.

Record cookie_info : Type :=
  CookieInfo {
    detected : bool;
    banner_elements : list banner_element;
    accept_buttons : list accept_button;
    close_buttons : list close_button;
    text_indicators : list text;
    banner_text : text;
    banner_position : position;
    modal_overlay : bool
  }.

(** [found_keywords]: one entry ["keyword (lang)"] for every keyword of
    every list that occurs in the page text. *)
Definition found_keywords (page_text : text) : list text :=
  flat_map
    (fun lk =>
       flat_map
         (fun k => if contains (lower k) page_text
                   then [k ++ T " (" ++ fst lk ++ T ")"] else [])
         (snd lk))
    cookie_keywords.

(** The banner loop; a selector that raises is skipped. *)
Definition find_banners (soup : tag) : list banner_element :=
  flat_map
    (fun s =>
       match select soup s with
       | Some els =>
           flat_map
             (fun e =>
                let txt := prefix 200 (strip (get_text e)) in
                if any_in all_keywords (lower txt)
                then [Banner s txt (classes e) (get e "id") (detect_banner_position e)]
                else [])
             els
       | None => []
       end)
    banner_containers_selectors.

Definition affirmative : list text :=
  [T "godta"; T "accept"; T "ok"; T "aksepter"].

Definition find_accept_buttons (soup : tag) : list accept_button :=
  flat_map
    (fun s =>
       match select soup s with
       | Some els =>
           flat_map
             (fun e =>
                let txt := strip (get_text e) in
                if negb (falsy txt) && any_in affirmative (lower txt)
                then [Accept s txt (name e) (classes e) (get e "id")]
                else [])
             els
       | None => []
       end)
    accept_buttons_selectors.

Definition find_close_buttons (soup : tag) : list close_button :=
  flat_map
    (fun s =>
       match select soup s with
       | Some els => map (fun e => Close s (name e) (classes e) (get e "id")) els
       | None => []
       end)
    close_buttons_selectors.

(** [detect_cookie_banner].  The query for the modal markers is outside
    any [try]: should it raise, the function raises ([None]). *)
Definition detect_cookie_banner (soup : tag) (page_text : text) : option cookie_info :=
  let found := found_keywords page_text in
  let banners := find_banners soup in
  let accepts := find_accept_buttons soup in
  let closes := find_close_buttons soup in
  match select soup modal_selector with
  | None => None
  | Some modal_indicators =>
      Some (CookieInfo
              ((2 <=? List.length found)%nat
               || (0 <? List.length banners)%nat
               || (0 <? List.length accepts)%nat)
              banners accepts closes found
              (match banners with b :: _ => b_text b | [] => [] end)
              (match banners with b :: _ => b_position b | [] => Unknown end)
              (0 <? List.length modal_indicators)%nat)
  end.

(** The keywords that occur in the page text, each counted once. *)
Definition distinct_keywords_found (page_text : text) : list text :=
  remove_dups (List.filter (fun k => contains (lower k) page_text) all_keywords).

End Survey.

(* ===================================================================== *)
(** ** Python values, exceptions, and the merge of the per-operator results *)
(* ===================================================================== *)

Module Py.

Inductive exn : Type :=
| TypeError | AttributeError | ValueError | KeyError | RuntimeError.

(** The outcome of a call that may raise. *)
Inductive result (A : Type) : Type :=
| Ret (a : A)
| Raise (e : exn).
Arguments Ret {A} a.
Arguments Raise {A} e.

Definition bind {A B : Type} (x : result A) (f : A -> result B) : result B :=
  match x with
  | Ret a => f a
  | Raise e => Raise e
  end.

(** [try: body / except Exception: handler] *)
Definition try_except {A : Type} (body : result A) (handler : exn -> result A)
  : result A :=
  match body with
  | Ret a => Ret a
  | Raise e => handler e
  end.

(** [try: ... finally: cleanup]: an exception of the cleanup replaces the
    outcome of the body. *)
Definition finally {A : Type} (body : result A) (cleanup : result unit) : result A :=
  match cleanup with
  | Ret _ => body
  | Raise e => Raise e
  end.

(** The values of the fields of an extracted record (parsed JSON): null,
    strings and integers. *)
Inductive value : Type :=
| VNone
| VStr (s : text)
| VInt (z : Z).

#[global] Instance value_eq_dec : EqDecision value.
Proof. solve_decision. Defined.

#[global] Instance value_countable : Countable value.
Proof.
  refine (inj_countable'
            (fun v => match v with
                      | VNone => inl tt
                      | VStr s => inr (inl s)
                      | VInt z => inr (inr z)
                      end)
            (fun x => match x with
                      | inl _ => VNone
                      | inr (inl s) => VStr s
                      | inr (inr z) => VInt z
                      end) _).
  intros v; destruct v; reflexivity.
Defined.

(** Truth value of a field: [None], [""] and [0] are falsy. *)
Definition truthy (v : value) : bool :=
  match v with
  | VNone => false
  | VStr s => negb (Text.falsy s)
  | VInt z => negb (z =? 0)%Z
  end.

(** [d.get(k)] and [d.get(k, default)] *)
Definition dict_get (d : gmap string value) (k : string) : value :=
  default VNone (d !! k).
Definition dict_get_or (d : gmap string value) (k : string) (dflt : value) : value :=
  default dflt (d !! k).

End Py.

Module Orchestrator.
Import Py.

(** The dataclass [MobilePlan] of [main.py] and [unified_parser.py]. *)
Record MobilePlan : Type :=
  Plan {
    name : text;
    operator : text;
    price : text;
    data : text;
    calls : text;
    sms : text;
    validity : text;
    additional_info : text;
    source_url : text
  }.

(** [parse_all_operators]: [asyncio.gather] with [return_exceptions=True]
    gives the results in the order of the tasks, an exception standing for
    the task that raised it; the loop skips the exceptions and extends
    [all_plans] with each list of plans.  In [unified_parser.py] a result
    is the pair [(plans, analysis)]; in [main.py] it is the list. *)
Fixpoint merge_unified {A : Type} (results : list (result (list MobilePlan * A)))
  : list MobilePlan :=
  match results with
  | [] => []
  | Raise _ :: rs => merge_unified rs
  | Ret (plans, _) :: rs => plans ++ merge_unified rs
  end.

Fixpoint merge_main (results : list (result (list MobilePlan))) : list MobilePlan :=
  match results with
  | [] => []
  | Raise _ :: rs => merge_main rs
  | Ret plans :: rs => plans ++ merge_main rs
  end.

(** The plan a page yields for a card with only a name. *)
Definition named (n op url : string) : MobilePlan :=
  Plan (T n) (T op) [] [] [] [] [] [] (T url).

End Orchestrator.

(* ===================================================================== *)
(** ** [src/utils.py]: de-duplication and the Trustpilot lookup *)
(* ===================================================================== *)

Module Utils.
Import Text Regex Dom Py.

(** [is_duplicated]: [name in seen_names] *)
Definition is_duplicated (name : value) (seen_names : gset value) : bool :=
  bool_decide (name ∈ seen_names).

(** [s.replace(' ', x)] *)
Definition replace_space (x : text) (s : text) : text :=
  flat_map (fun c => if Ascii.eqb c " "%char then x else [c]) s.

Definition digit_value (c : ascii) : Z := (Z.of_N (code c) - 48)%Z.

Definition decimal (w : text) : Z :=
  fold_left (fun acc c => (10 * acc + digit_value c)%Z) w 0%Z.

(** The whitespace that [int] skips around the digits: the characters of
    [\s] but the separators U+001C to U+001F, which [int] rejects. *)
Definition int_space (c : ascii) : bool :=
  between 9 13 c || is_code 32 c || is_code 133 c || is_code 160 c.

Fixpoint skip_int_space (s : text) : text :=
  match s with
  | c :: s' => if int_space c then skip_int_space s' else s
  | [] => []
  end.

(** [int(s)] for a text made of digits and whitespace, as group 1 of the
    pattern of the review count is: the whitespace that [int] skips is
    ignored around the digits; anything else that is not a digit, also
    whitespace between digits, raises [ValueError]. *)
Definition py_int (s : text) : result Z :=
  let t := rev (skip_int_space (rev (skip_int_space s))) in
  if nonempty t && forallb isdigit t then Ret (decimal t) else Raise ValueError.

(** The pattern of the review count: a digit, then digits and whitespace,
    all in group 1. *)
Definition reviews_pattern : re :=
  Grp (Seq (Cls isdigit) (Star (fun c => isdigit c || isspace c))).

(** The browser of Playwright, as far as the lookup uses it: whether each
    call of the [try] block returns ([context.new_page], [page.goto],
    [page.wait_for_timeout]), the markup of the page, and what
    [page.close] raises, if it raises. *)
Record browser : Type :=
  Browser {
    new_page : bool;
    goto : text -> bool;
    wait_for_timeout : bool;
    content : option text;
    close : option exn
  }.

(** [await page.close()], the cleanup of the [finally] block: it stands
    outside the [try] and its handler, so that what it raises leaves the
    function. *)
Definition close_page (b : browser) : result unit :=
  match close b with
  | None => Ret tt
  | Some e => Raise e
  end.

Section Lookup.

(** The values of Python's [float], and [float(s)] ([None]: it raises
    [ValueError]); [BeautifulSoup(content, 'html.parser')]. *)
Variable F : Type.
Variable py_float : text -> option F.
Variable parse : text -> tag.

Record trustpilot : Type :=
  Trustpilot {
    trustpilot_score : option F;
    trustpilot_reviews : option Z;
    trustpilot_url : option text
  }.

Definition no_data : trustpilot := Trustpilot None None None.

Definition call (ok : bool) : result unit :=
  if ok then Ret tt else Raise RuntimeError.

Definition lift {A : Type} (e : exn) (o : option A) : result A :=
  match o with Some a => Ret a | None => Raise e end.

(** [soup.select_one(a) or soup.select_one(b) or soup.select_one(c)] *)
Definition first_card (soup : tag) : result (option tag) :=
  bind (lift RuntimeError (select_one soup ".styles_businessUnitCard__container__2M5Mv"))
    (fun a => match a with
              | Some _ => Ret a
              | None =>
       bind (lift RuntimeError (select_one soup ".business-unit-card"))
         (fun b => match b with
                   | Some _ => Ret b
                   | None => lift RuntimeError (select_one soup ".card")
                   end)
              end).

Definition rating_selector : string := ".styles_rating__size-m__3HwQJ, .star-rating".
Definition reviews_selector : string := ".styles_text__2FFSI, .review-count".
Definition link_selector : string :=
  ("a" +:+ attr_starts "href" "/review/" +:+ ", a.business-unit-card")%string.

(** The part of the [try] block after the card is found. *)
Definition read_card (card : tag) : result trustpilot :=
  bind (lift RuntimeError (select_one card rating_selector)) (fun rating_element =>
  bind (match rating_element with
        | Some e => bind (lift ValueError (py_float (comma_to_dot (get_text e))))
                      (fun x => Ret (Some x))
        | None => Ret None
        end) (fun score =>
  bind (lift RuntimeError (select_one card reviews_selector)) (fun reviews_element =>
  let reviews_text :=
    match reviews_element with Some e => get_text e | None => [] end in
  bind (match search reviews_pattern (replace_space [] reviews_text) with
        | Some m => bind (py_int (group1 m)) (fun n => Ret (Some n))
        | None => Ret None
        end) (fun reviews =>
  bind (lift RuntimeError (select_one card link_selector)) (fun link_element =>
  bind (match link_element with
        | Some a => bind (lift KeyError (attr a "href"))
                      (fun h => Ret (Some (T "https://no.trustpilot.com" ++ h)))
        | None => Ret None
        end) (fun url =>
  Ret (Trustpilot score reviews url))))))).

Definition search_url (provider_name : text) : text :=
  T "https://no.trustpilot.com/search?query=" ++ replace_space (T "%20") provider_name.

(** The [try] block once the page exists. *)
Definition visit (b : browser) (provider_name : text) : result trustpilot :=
  bind (call (goto b (search_url provider_name))) (fun _ =>
  bind (call (wait_for_timeout b)) (fun _ =>
  bind (lift RuntimeError (content b)) (fun html =>
  bind (first_card (parse html)) (fun card =>
  match card with
  | None => Ret no_data
  | Some c => read_card c
  end)))).

(** [extract_trustpilot_data(provider_name, context)] *)
Definition extract_trustpilot_data (provider_name : text) (b : browser)
  : result trustpilot :=
  if falsy provider_name then Ret no_data
  else if new_page b
       then finally
              (try_except (visit b provider_name) (fun _ => Ret no_data))
              (close_page b)
       else Ret no_data.


End Lookup.

End Utils.

(* ===================================================================== *)
(** ** [src/scraper.py] *)
(* ===================================================================== *)

Module Scraper.
Import Text Py.

Record crawl_result : Type :=
  CrawlResult { success : bool; cleaned_html : text }.

(** The search of the reputation site through the crawler: [arun] answers
    a URL, or raises ([None]). *)
Definition crawler := text -> option crawl_result.

Definition TRUSTPILOT_SEARCH_URL : text := T "https://no.trustpilot.com/search?query=".

Definition no_reviews : gmap string value :=
  {[ "score"%string := VNone; "reviews"%string := VNone; "url"%string := VNone ]}.

(** [provider_name.replace(' ', '%20')]: only a string has the method. *)
Definition replace_of (provider_name : value) : result text :=
  match provider_name with
  | VStr s => Ret (Utils.replace_space (T "%20") s)
  | _ => Raise AttributeError
  end.

(** [extract_trustpilot_data(result.cleaned_html)]: the function of
    [utils.py] has the parameters [(provider_name, context)], so that the
    call with one argument raises [TypeError] when it is made. *)
Definition extract_trustpilot_data_call (cleaned_html : text)
  : result (gmap string value) :=
  Raise TypeError.

(** The [try] block of [fetch_trustpilot_reviews]; [Ret None] means that
    the block ends without [return]. *)
Definition lookup (provider_name : value) (arun : crawler)
  : result (option (gmap string value)) :=
  bind (replace_of provider_name) (fun q =>
  bind (match arun (TRUSTPILOT_SEARCH_URL ++ q) with
        | Some r => Ret r
        | None => Raise RuntimeError
        end) (fun r =>
  if success r
  then bind (extract_trustpilot_data_call (cleaned_html r)) (fun d => Ret (Some d))
  else Ret None)).

(** [fetch_trustpilot_reviews] *)
Definition fetch_trustpilot_reviews (provider_name : value) (arun : crawler)
  : result (gmap string value) :=
  if negb (truthy provider_name) then Ret no_reviews
  else match try_except (lookup provider_name arun) (fun _ => Ret None) with
       | Ret (Some d) => Ret d
       | Ret None => Ret no_reviews
       | Raise e => Raise e
       end.

(** An element of the extracted list: a JSON object, or anything else. *)
Inductive extracted : Type :=
| Dict (r : gmap string value)
| NotDict.

(** [record.get("name", "")] *)
Definition name_of (x : extracted) : result value :=
  match x with
  | Dict r => Ret (dict_get_or r "name" (VStr []))
  | NotDict => Raise AttributeError
  end.

Definition mobile_service_provider : text := T "mobile_service_provider".

Definition text_eqb (a b : text) : bool := bool_decide (a = b).

(** [record.update({...})] with the three Trustpilot fields. *)
Definition with_reviews (r tp : gmap string value) : gmap string value :=
  <["trustpilot_url"%string := dict_get tp "url"]>
    (<["trustpilot_reviews"%string := dict_get tp "reviews"]>
       (<["trustpilot_score"%string := dict_get tp "score"]> r)).

(** The record as the loop adds it: the three Trustpilot fields, empty,
    for a mobile service provider, and the date. *)
Definition enriched (model_type today : text) (r : gmap string value)
  : gmap string value :=
  <["last_updated"%string := VStr today]>
    (if text_eqb model_type mobile_service_provider
     then with_reviews r no_reviews else r).

(** The fields that the loop writes. *)
Definition written : list string :=
  ["trustpilot_score"; "trustpilot_reviews"; "trustpilot_url"; "last_updated"]%string.

(** The body of the [try] of the record loop: [Ret None] is [continue],
    [Ret (Some (name, record))] a record that is added. *)
Definition process_record (model_type today : text) (arun : crawler)
    (seen_names : gset value) (x : extracted)
  : result (option (value * gmap string value)) :=
  bind (name_of x) (fun name =>
  if negb (truthy name) || Utils.is_duplicated name seen_names then Ret None
  else
    match x with
    | NotDict => Raise AttributeError
    | Dict r =>
        bind (if text_eqb model_type mobile_service_provider
              then bind (fetch_trustpilot_reviews name arun)
                     (fun tp => Ret (with_reviews r tp))
              else Ret r) (fun r1 =>
        Ret (Some (name, <["last_updated"%string := VStr today]> r1)))
    end).

(** The record loop of [fetch_and_process_page]: a record whose
    processing raises is skipped.  The result is [all_records] and the set
    [seen_names], which the loop updates in place. *)
Fixpoint process_records (model_type today : text) (arun : crawler)
    (records : list extracted) (seen_names : gset value)
  : list (gmap string value) * gset value :=
  match records with
  | [] => ([], seen_names)
  | x :: xs =>
      match process_record model_type today arun seen_names x with
      | Ret (Some (name, r)) =>
          let rest := process_records model_type today arun xs ({[name]} ∪ seen_names) in
          (r :: fst rest, snd rest)
      | _ => process_records model_type today arun xs seen_names
      end
  end.

(** What [result.extracted_content] holds. *)
Inductive content : Type :=
| Nothing
| Invalid
| JsonList (l : list extracted)
| JsonOther (x : extracted).

(** What the page fetch does: it raises, fails, or succeeds. *)
Inductive page : Type :=
| PageRaises
| PageFailed
| PageOk (c : content).

(** [fetch_and_process_page]: the records, the flag that no results are
    left, and [seen_names] after the call. *)
Definition fetch_and_process_page (no_results : bool) (pg : page)
    (model_type today : text) (arun : crawler) (seen_names : gset value)
  : list (gmap string value) * bool * gset value :=
  if no_results then ([], true, seen_names)
  else
    match pg with
    | PageRaises | PageFailed => ([], false, seen_names)
    | PageOk c =>
        let extracted_data :=
          match c with
          | Nothing | Invalid => []
          | JsonList l => l
          | JsonOther x => [x]
          end in
        match extracted_data with
        | [] => ([], false, seen_names)
        | _ =>
            let out := process_records model_type today arun extracted_data seen_names in
            (fst out, false, snd out)
        end
    end.

(** The name of a record, and the names of the records of a list. *)
Definition name (r : gmap string value) : value := dict_get_or r "name" (VStr []).

Definition names (rs : list (gmap string value)) : list value := map name rs.

(** Whether the loop keeps a record: it has a name, not seen before. *)
Definition keeps (seen : gset value) (r : gmap string value) : bool :=
  truthy (name r) && negb (bool_decide (name r ∈ seen)).

(** The JSON objects of an extracted list. *)
Definition dicts (xs : list extracted) : list (gmap string value) :=
  flat_map (fun x => match x with Dict r => [r] | NotDict => [] end) xs.

End Scraper.

(* ===================================================================== *)
(** ** Sample pages and runs *)
(* ===================================================================== *)

Module Samples.
Import Dom Py.

(** A page given by the elements that some selectors select; every other
    selector selects nothing. *)
Fixpoint answer (table : list (string * list tag)) (sel : string)
  : option (list tag) :=
  match table with
  | [] => Some []
  | (s, els) :: table' => if String.eqb s sel then Some els else answer table' sel
  end.

Definition page_of (table : list (string * list tag)) : tag :=
  Tag (T "[document]") [] [] (fun _ => None) (answer table).

(** A page without classes, ids or buttons, such as [<p>gdpr</p>]. *)
Definition plain_page : tag := page_of [].

(** Two elements of class [plan] and three of class [product]; each text
    has one keyword, "kr". *)
Definition plans : list tag :=
  [leaf "div" ["plan"] "Basis 199 kr"; leaf "div" ["plan"] "Pluss 299 kr"].
Definition products : list tag :=
  [leaf "div" ["product"] "Ruter 499 kr"; leaf "div" ["product"] "Telefon 999 kr";
   leaf "div" ["product"] "Klokke 599 kr"].

Definition page_ties : tag :=
  page_of [ (".plan"%string, plans); (".product"%string, products);
            (attr_has "class" "plan", plans);
            (attr_has "class" "product", products) ].

(** One element of class [card]. *)
Definition card : list tag := [leaf "div" ["card"] "Telia Frihet 299 kr 50 GB"].

Definition page_single : tag :=
  page_of [ (".card"%string, card); (attr_has "class" "card", card) ].

(** Two operators whose pages both yield a plan named "Telia Frihet". *)
Definition two_targets : list (result (list Orchestrator.MobilePlan * unit)) :=
  [ Ret ([Orchestrator.named "Telia Frihet" "Telia"
            "https://www.telia.no/privat/mobil/abonnement"], tt);
    Ret ([Orchestrator.named "Telia Frihet" "Telenor"
            "https://www.telenor.no/privat/mobil/abonnement"], tt) ].

Definition two_targets_main : list (result (list Orchestrator.MobilePlan)) :=
  map (fun r => match r with
                | Ret (plans, _) => Ret plans
                | Raise e => Raise e
                end) two_targets.

(** Two extracted records whose names differ by case and by a space at
    the end. *)
Definition record_a : gmap string value :=
  {[ "name"%string := VStr (T "Telia Frihet"); "monthly_price"%string := VInt 299 ]}.
Definition record_b : gmap string value :=
  {[ "name"%string := VStr (T "telia frihet "); "monthly_price"%string := VInt 199 ]}.

(** A crawler whose every request raises, and a browser whose navigation
    fails. *)
Definition offline : Scraper.crawler := fun _ => None.


(** The same browser when the page cannot be closed either. *)
Definition stuck : Utils.browser :=
  Utils.Browser true (fun _ => false) true None (Some RuntimeError).


(** Three elements with three, two and two of the keywords. *)
Definition three_plans : list tag :=
  [leaf "div" ["plan"] "Mobil plan 199 kr"; leaf "div" ["plan"] "10 GB 299 kr";
   leaf "div" ["plan"] "Mobil abonnement"].

(** A page whose only markup of interest is an element with
    [role="alertdialog"], which [[role*="dialog"]] selects and
    [[role="dialog"]] does not. *)
Definition alert_page : tag :=
  page_of [ (attr_has "role" "dialog", [leaf "div" [] "Feil"]) ].

End Samples.
(* ===================================================================== *)
(** ** Words: [str.split] and [str.join] *)
(* ===================================================================== *)

Module Words.
Import Text.

(** [text.split()] without argument: the maximal runs of characters that
    are not whitespace, in their order; [word] is the run being read. *)
Fixpoint split_from (word s : text) : list text :=
  match s with
  | [] => if falsy word then [] else [word]
  | c :: s' =>
      if isspace c
      then (if falsy word then split_from [] s' else word :: split_from [] s')
      else split_from (word ++ [c]) s'
  end.

Definition split (s : text) : list text := split_from [] s.

(** [sep.join(l)] *)
Fixpoint join (sep : text) (l : list text) : text :=
  match l with
  | [] => []
  | [a] => a
  | a :: l' => a ++ sep ++ join sep l'
  end.

(** A text made of words with one space between them: no whitespace at
    either end, no whitespace but the space, no two of them in a row;
    [after_space] tells that the previous character was a space (or that
    the text starts here). *)
Fixpoint spaced (after_space : bool) (r : text) : bool :=
  match r with
  | [] => negb after_space
  | c :: r' =>
      if isspace c
      then negb after_space && Ascii.eqb c " "%char && spaced true r'
      else spaced false r'
  end.

Definition normalized (r : text) : bool :=
  match r with
  | [] => true
  | _ => spaced true r
  end.

(** [clean_text[:500] + '...' if len(clean_text) > 500 else clean_text],
    with [clean_text = ' '.join(text_content.split())]: the sample of the
    page text that [analyze_page] keeps. *)
Definition text_content_sample (text_content : text) : text :=
  let clean := join (T " ") (split text_content) in
  if (500 <? List.length clean)%nat then prefix 500 clean ++ T "..." else clean.

End Words.

(* ===================================================================== *)
(** ** The operators and their selectors *)
(* ===================================================================== *)

(** Selector lists are written in one string, as in
    ['.price, .monthly-price']; the code takes them apart with
    [selectors.split(', ')] and [selector.strip()]. *)
Module Selectors.
Import Text.

(** [s.split(', ')]; [cur] is the part being read. *)
Fixpoint split_comma (cur s : text) : list text :=
  match s with
  | [] => [cur]
  | c :: s' =>
      match s' with
      | d :: s'' =>
          if Ascii.eqb c ","%char && Ascii.eqb d " "%char
          then cur :: split_comma [] s''
          else split_comma (cur ++ [c]) s'
      | [] => split_comma (cur ++ [c]) s'
      end
  end.

(** [[selector.strip() for selector in selectors.split(', ')]] *)
Definition parts (selectors : string) : list string :=
  map (fun p => string_of_list_ascii (strip p)) (split_comma [] (T selectors)).

(** The dictionary of the four selector lists of an operator. *)
Definition selectors (plan_cards plan_name price data : string) : gmap string string :=
  {[ "plan_cards"%string := plan_cards; "plan_name"%string := plan_name;
     "price"%string := price; "data"%string := data ]}.

End Selectors.

(** [operators_config] of [unified_parser.py] *)
Module Operators.
Import Dom Selectors.

Record config : Type :=
  Config { url : text; name : text; fallback_selectors : gmap string string }.

Definition telia : config :=
  Config (T "https://www.telia.no/privat/mobil/abonnement") (T "Telia")
    (selectors (".product-card, .plan-card, " +:+ attr_has "data-testid" "plan")
               "h3, .plan-name, .product-title"
               (".price, .monthly-price, " +:+ attr_has "data-testid" "price")
               (".data-amount, .gb-amount, " +:+ attr_has "data-testid" "data")).

Definition telenor : config :=
  Config (T "https://www.telenor.no/privat/mobil/abonnement") (T "Telenor")
    (selectors (".product-card, .plan-item, " +:+ attr_has "data-cy" "plan")
               "h3, .plan-title, .product-name"
               (".price, .amount, " +:+ attr_has "data-cy" "price")
               (".data-text, .gb-text, " +:+ attr_has "data-cy" "data")).

Definition ice : config :=
  Config (T "https://www.ice.no/mobil/abonnement") (T "Ice")
    (selectors ".plan-card, .product-item" "h3, .plan-name, .title"
               ".price, .cost, .monthly-fee" ".data-limit, .gb-limit").

Definition mycall : config :=
  Config (T "https://mycall.no") (T "MyCall")
    (selectors ".plan-box, .offer-card" "h3, .plan-title"
               ".price, .monthly-price" ".data-amount, .gb-info").

(** The dictionary, in the order in which its keys were inserted. *)
Definition operators_config : list (string * config) :=
  [ ("telia", telia); ("telenor", telenor); ("ice", ice); ("mycall", mycall) ]%string.

(** [operators_config.get(key)] *)
Definition get (key : string) : option config :=
  match List.find (fun kc => String.eqb (fst kc) key) operators_config with
  | Some kc => Some (snd kc)
  | None => None
  end.

End Operators.

(** [operators_config] of [main.py] *)
Module MainOperators.
Import Dom Selectors.

Record config : Type :=
  Config { url : text; name : text; selectors : gmap string string }.

Definition telia : config :=
  Config (T "https://www.telia.no/privat/mobil/abonnement") (T "Telia")
    (Selectors.selectors
       (".product-card, .plan-card, " +:+ attr_has "data-testid" "plan"
          +:+ ", .subscription-card")
       "h3, .plan-name, .product-title, .subscription-name"
       (".price, .monthly-price, " +:+ attr_has "data-testid" "price")
       (".data-amount, .gb-amount, " +:+ attr_has "data-testid" "data")).

Definition telenor : config :=
  Config (T "https://www.telenor.no/privat/mobil/abonnement") (T "Telenor")
    (Selectors.selectors
       (".product-card, .plan-item, .subscription-box, " +:+ attr_has "data-cy" "plan")
       "h3, .plan-title, .product-name"
       (".price, .amount, " +:+ attr_has "data-cy" "price")
       (".data-text, .gb-text, " +:+ attr_has "data-cy" "data")).

Definition ice : config :=
  Config (T "https://www.ice.no/mobil/abonnement") (T "Ice")
    (Selectors.selectors ".plan-card, .product-item, .subscription-container"
       "h3, .plan-name, .title" ".price, .cost, .monthly-fee"
       ".data-limit, .gb-limit, .data-info").

Definition mycall : config :=
  Config (T "https://mycall.no/mobile-plans") (T "MyCall")
    (Selectors.selectors ".plan-box, .offer-card, .mobile-plan" "h3, .plan-title"
       ".price, .monthly-price" ".data-amount, .gb-info").

Definition operators_config : list (string * config) :=
  [ ("telia", telia); ("telenor", telenor); ("ice", ice); ("mycall", mycall) ]%string.

Definition get (key : string) : option config :=
  match List.find (fun kc => String.eqb (fst kc) key) operators_config with
  | Some kc => Some (snd kc)
  | None => None
  end.

End MainOperators.

(* ===================================================================== *)
(** ** [unified_parser.py]: the analysis of a site and the plans of a page *)
(* ===================================================================== *)

Module Parser.
Import Text Py.

(** The dataclass [SiteAnalysis]. *)
Record SiteAnalysis : Type :=
  Analysis {
    name : text;
    url : text;
    status : text;
    has_cookie_banner : bool;
    cookie_selectors : list string;
    requires_js : bool;
    plan_containers : list Analyzer.container;
    optimal_selectors : gmap string string
  }.

Definition js_indicators : list text :=
  [T "document.getelementbyid"; T "react"; T "vue"; T "angular"; T "loading..."].

(** [d[k]]: a missing key raises [KeyError]. *)
Definition item {V : Type} (d : gmap string V) (k : string) : result V :=
  match d !! k with
  | Some v => Ret v
  | None => Raise KeyError
  end.

(** A query of the parser that may raise. *)
Definition query {A : Type} (o : option A) : result A :=
  match o with
  | Some a => Ret a
  | None => Raise RuntimeError
  end.

(** [a or b] on strings *)
Definition or_else (a b : text) : text := if falsy a then b else a.

(** The placeholder of a field that was not found.  The literal is
    Cyrillic, outside the range of the characters of the model, which keeps
    it as the bytes of its UTF-8 encoding; so are the three notes of
    [_extract_additional_info]. *)
Definition not_specified : text := T "Не указано".

Definition unlimited_calls : text := T "Безлимитные звонки".
Definition unlimited_sms : text := T "Безлимитные SMS".
Definition five_g : text := T "5G поддержка".

Definition calls_words : list text :=
  [T "ubegrenset samtaler"; T "fri samtaler"; T "unlimited calls"].
Definition sms_words : list text :=
  [T "ubegrenset sms"; T "fri sms"; T "unlimited sms"].
Definition net_words : list text := [T "5g"; T "5g-nett"; T "5g network"].

(** The loop of [_extract_from_element]: the cleaned text of the element
    that the first selector finds; a selector that raises, or that finds
    nothing, is passed over. *)
Fixpoint first_text (element : Dom.tag) (sels : list string) : text :=
  match sels with
  | [] => []
  | s :: ss =>
      match Dom.select_one element s with
      | Some (Some elem) => clean_text (Dom.get_text elem)
      | _ => first_text element ss
      end
  end.

(** [_extract_from_element] *)
Definition extract_from_element (element : Dom.tag) (selectors : string) : text :=
  first_text element (Selectors.parts selectors).

Definition info_parts (element : Dom.tag) : list text :=
  let text := lower (Dom.get_text element) in
  (if any_in calls_words text then [unlimited_calls] else [])
  ++ (if any_in sms_words text then [unlimited_sms] else [])
  ++ (if any_in net_words text then [five_g] else []).

(** [_extract_additional_info] *)
Definition extract_additional_info (element : Dom.tag) : text :=
  Words.join (T "; ") (info_parts element).

(** The elements of all the selectors of the list, in its order; the
    first query that raises ends the loop. *)
Fixpoint select_all (soup : Dom.tag) (sels : list string) : result (list Dom.tag) :=
  match sels with
  | [] => Ret []
  | s :: ss =>
      bind (query (Dom.select soup s)) (fun elements =>
      bind (select_all soup ss) (fun rest => Ret (elements ++ rest)))
  end.

(** The body of the [try] for one card: [Ret None] when name, price and
    data are all empty. *)
Definition card_plan (analysis : SiteAnalysis) (element : Dom.tag)
  : result (option Orchestrator.MobilePlan) :=
  let selectors := optimal_selectors analysis in
  let operator := name analysis in
  bind (item selectors "plan_name") (fun plan_name =>
  let name := extract_from_element element plan_name in
  bind (item selectors "price") (fun price_sel =>
  let price := Unified.extract_price (extract_from_element element price_sel) in
  bind (item selectors "data") (fun data_sel =>
  let data := Unified.extract_data_amount (extract_from_element element data_sel) in
  let additional_info := extract_additional_info element in
  if negb (falsy name) || negb (falsy price) || negb (falsy data)
  then Ret (Some (Orchestrator.Plan
                    (or_else name not_specified) operator
                    (or_else price not_specified) (or_else data not_specified)
                    [] [] [] additional_info (url analysis)))
  else Ret None))).

(** The loop over the cards: a card whose processing raises is passed
    over. *)
Fixpoint card_plans (plan : Dom.tag -> result (option Orchestrator.MobilePlan))
    (elements : list Dom.tag) : list Orchestrator.MobilePlan :=
  match elements with
  | [] => []
  | e :: es =>
      match plan e with
      | Ret (Some p) => p :: card_plans plan es
      | _ => card_plans plan es
      end
  end.

Section Page.

(** [BeautifulSoup(html, 'html.parser')] *)
Variable parse : text -> Dom.tag.

(** [_parse_plans_from_html]: an exception while the cards are collected
    is logged and the plans found so far, none, are returned. *)
Definition parse_plans_from_html (html : text) (analysis : SiteAnalysis)
  : list Orchestrator.MobilePlan :=
  let soup := parse html in
  match bind (item (optimal_selectors analysis) "plan_cards")
             (fun plan_cards => select_all soup (Selectors.parts plan_cards)) with
  | Ret plan_elements => card_plans (card_plan analysis) plan_elements
  | Raise _ => []
  end.

(** The analysis when the page could not be loaded. *)
Definition failed (config : Operators.config) : SiteAnalysis :=
  Analysis (Operators.name config) (Operators.url config) (T "failed")
    false [] false [] (Operators.fallback_selectors config).

(** The analysis of a page that was loaded. *)
Definition analysed (config : Operators.config) (html : text) : SiteAnalysis :=
  let soup := parse html in
  let accept_buttons := Analyzer.detect_accept soup in
  let banners := Analyzer.detect_banners soup in
  let containers := Analyzer.analyze_plan_containers soup in
  Analysis (Operators.name config) (Operators.url config) (T "success")
    (negb (match accept_buttons with [] => true | _ => false end)
     || negb (match banners with [] => true | _ => false end))
    accept_buttons
    (any_in js_indicators (lower html))
    containers
    (Analyzer.optimize_selectors containers (Operators.fallback_selectors config)).


(** [analyze_site_structure], with the requests it makes; [net] gives the
    outcomes of the successive requests for the page of the operator. *)
Definition analyze_site_structure (net : Fetcher.network) (operator_key : string)
  : result (list Fetcher.event * SiteAnalysis) :=
  bind (match Operators.get operator_key with
        | Some config => Ret config
        | None => Raise KeyError
        end) (fun config =>
  let fetched := Fetcher.fetch_with_retry net 3 in
  Ret (fst fetched,
       match snd fetched with
       | Some html => if falsy html then failed config else analysed config html
       | None => failed config
       end)).

(** The network after the requests of [evs]. *)
Definition after (evs : list Fetcher.event) (net : Fetcher.network) : Fetcher.network :=
  fun attempt => net (attempt + Z.of_nat (List.length (Fetcher.gets evs)))%Z.

(** [parse_operator]: the requests of the analysis and of the second load
    of the page, the plans and the analysis. *)
Definition parse_operator (net : Fetcher.network) (operator_key : string)
  : result (list Fetcher.event * (list Orchestrator.MobilePlan * SiteAnalysis)) :=
  bind (analyze_site_structure net operator_key) (fun r =>
  let evs := fst r in
  let analysis := snd r in
  if negb (Scraper.text_eqb (status analysis) (T "success"))
  then Ret (evs, ([], analysis))
  else
    let fetched := Fetcher.fetch_with_retry (after evs net) 3 in
    match snd fetched with
    | Some html =>
        if falsy html then Ret (evs ++ fst fetched, ([], analysis))
        else Ret (evs ++ fst fetched, (parse_plans_from_html html analysis, analysis))
    | None => Ret (evs ++ fst fetched, ([], analysis))
    end).


End Page.

End Parser.

(* ===================================================================== *)
(** ** [main.py]: the plans of a page *)
(* ===================================================================== *)

Module MainParser.
Import Text Py.

(** The loops [for selector in ...: elem = element.select_one(...);
    if elem: ...; break]: the first element found; a query that raises
    ends the processing of the card. *)
Fixpoint first_found (element : Dom.tag) (sels : list string)
  : result (option Dom.tag) :=
  match sels with
  | [] => Ret None
  | s :: ss =>
      bind (Parser.query (Dom.select_one element s)) (fun found =>
      match found with
      | Some elem => Ret (Some elem)
      | None => first_found element ss
      end)
  end.

(** The text that [f] reads from the element found, or the initial [""]. *)
Definition read (f : text -> text) (found : option Dom.tag) : text :=
  match found with
  | Some elem => f (Dom.get_text elem)
  | None => []
  end.

Definition card_plan (config : MainOperators.config) (base_url : text)
    (element : Dom.tag) : result (option Orchestrator.MobilePlan) :=
  let selectors := MainOperators.selectors config in
  bind (Parser.item selectors "plan_name") (fun plan_name =>
  bind (first_found element (Selectors.parts plan_name)) (fun name_elem =>
  let name := read clean_text name_elem in
  bind (Parser.item selectors "price") (fun price_sel =>
  bind (first_found element (Selectors.parts price_sel)) (fun price_elem =>
  let price := read Main.extract_price price_elem in
  bind (Parser.item selectors "data") (fun data_sel =>
  bind (first_found element (Selectors.parts data_sel)) (fun data_elem =>
  let data := read Main.extract_data_amount data_elem in
  if negb (falsy name) || negb (falsy price) || negb (falsy data)
  then Ret (Some (Orchestrator.Plan
                    (Parser.or_else name Parser.not_specified)
                    (MainOperators.name config)
                    (Parser.or_else price Parser.not_specified)
                    (Parser.or_else data Parser.not_specified)
                    [] [] [] [] base_url))
  else Ret None)))))).

Section Page.

Variable parse : text -> Dom.tag.

(** [_parse_operator_page] *)
Definition parse_operator_page (html : text) (config : MainOperators.config)
    (base_url : text) : list Orchestrator.MobilePlan :=
  let soup := parse html in
  match bind (Parser.item (MainOperators.selectors config) "plan_cards")
             (fun plan_cards => Parser.select_all soup (Selectors.parts plan_cards)) with
  | Ret plan_elements => Parser.card_plans (card_plan config base_url) plan_elements
  | Raise _ => []
  end.

(** [parse_operator] of [main.py], with the requests it makes. *)
Definition parse_operator (net : Fetcher.network) (operator_key : string)
  : list Fetcher.event * list Orchestrator.MobilePlan :=
  match MainOperators.get operator_key with
  | None => ([], [])
  | Some config =>
      let fetched := Fetcher.fetch_with_retry net 3 in
      match snd fetched with
      | Some html =>
          if falsy html then (fst fetched, [])
          else (fst fetched,
                parse_operator_page html config (MainOperators.url config))
      | None => (fst fetched, [])
      end
  end.

End Page.

End MainParser.

(* ===================================================================== *)
(** ** [several_site_analyzer.py]: consent and scripts in [analyze_page] *)
(* ===================================================================== *)

Module Page.
Import Text.

(** [handle_cookie_consent]: nothing is clicked; the answer tells whether
    an accept button is known. *)
Definition handle_cookie_consent (cookie_info : Survey.cookie_info) : bool :=
  if negb (Survey.detected cookie_info) then false
  else (0 <? List.length (Survey.accept_buttons cookie_info))%nat.

Definition cookie_indicators : list text :=
  [T "cookie"; T "gdpr"; T "privacy"; T "consent"; T "samtykke";
   T "informasjonskapsler"; T "personvern"].

Definition js_indicators : list text :=
  [T "document.getElementById"; T "addEventListener"; T "React"; T "Vue";
   T "Angular"; T "loading..."; T "Laster..."; T "javascript"; T "noscript"].

(** The entries of the analysis that [analyze_page] sets from the consent
    detection and from the script markers. *)
Record flags : Type :=
  Flags {
    has_cookie_banner : bool;
    cookie_details : Survey.cookie_info;
    cookie_handled : bool;
    requires_js : bool
  }.

(** The part of [analyze_page] from [page_text = html.lower()] to
    [analysis['requires_js']]; [None] when the detection raises. *)
Definition consent_and_scripts (soup : Dom.tag) (html : text) : option flags :=
  let page_text := lower html in
  match Survey.detect_cookie_banner soup page_text with
  | None => None
  | Some cookie_info =>
      Some (Flags
              (if Survey.detected cookie_info then true
               else any_in cookie_indicators page_text)
              cookie_info
              (if Survey.detected cookie_info
               then handle_cookie_consent cookie_info else false)
              (existsb (fun indicator => contains (lower indicator) page_text)
                 js_indicators))
  end.

(** The consent words that contain none of the indicators. *)
Definition other_words : list text :=
  [T "godta"; T "accept"; T "tracking"; T "data protection"].

End Page.

(* ===================================================================== *)
(** ** [save_results]: the statistics of the operators *)
(* ===================================================================== *)

Module Results.

(** A dictionary with strings as keys, in the order in which the keys were
    inserted. *)
Definition dict (V : Type) : Type := list (text * V).

Fixpoint get {V : Type} (k : text) (d : dict V) : option V :=
  match d with
  | [] => None
  | (k', v) :: d' => if Scraper.text_eqb k k' then Some v else get k d'
  end.

(** [d[k] = v]: the value of a key that is there is replaced where it
    stands, a new key goes to the end. *)
Fixpoint set {V : Type} (k : text) (v : V) (d : dict V) : dict V :=
  match d with
  | [] => [(k, v)]
  | (k', v') :: d' =>
      if Scraper.text_eqb k k' then (k', v) :: d' else (k', v') :: set k v d'
  end.

(** The body of the loop over the plans:
    [if plan.operator not in operator_stats: operator_stats[plan.operator] = 0]
    and [operator_stats[plan.operator] += 1]. *)
Definition count_plan (operator_stats : dict nat) (plan : Orchestrator.MobilePlan)
  : dict nat :=
  let operator := Orchestrator.operator plan in
  let stats :=
    match get operator operator_stats with
    | None => set operator 0%nat operator_stats
    | Some _ => operator_stats
    end in
  match get operator stats with
  | Some n => set operator (n + 1)%nat stats
  | None => stats
  end.

Definition operator_stats (plans : list Orchestrator.MobilePlan) : dict nat :=
  fold_left count_plan plans [].

(** The entries [total_plans], [operators_found] and [operator_stats] of
    the metadata that [save_results] writes. *)
Record metadata : Type :=
  Metadata {
    total_plans : nat;
    operators_found : list text;
    stats : dict nat
  }.

Definition save_results (plans : list Orchestrator.MobilePlan) : metadata :=
  Metadata (List.length plans) (map fst (operator_stats plans)) (operator_stats plans).

(** The sum of the values of a dictionary. *)
Definition total (d : dict nat) : nat := fold_right Nat.add 0%nat (map snd d).

(** The elements of a list, each once, in the order in which they first
    occur. *)
Fixpoint first_occurrences (seen l : list text) : list text :=
  match l with
  | [] => []
  | x :: l' =>
      if existsb (Scraper.text_eqb x) seen then first_occurrences seen l'
      else x :: first_occurrences (seen ++ [x]) l'
  end.

(** *** The summary of the results *)

(** The body of the loop that groups the plans:
    [if plan.operator not in by_operator: by_operator[plan.operator] = []]
    and [by_operator[plan.operator].append(plan)]. *)
Definition group_plan (by_operator : dict (list Orchestrator.MobilePlan))
    (plan : Orchestrator.MobilePlan) : dict (list Orchestrator.MobilePlan) :=
  let operator := Orchestrator.operator plan in
  let groups :=
    match get operator by_operator with
    | None => set operator [] by_operator
    | Some _ => by_operator
    end in
  match get operator groups with
  | Some plans => set operator (plans ++ [plan]) groups
  | None => groups
  end.

Definition by_operator (plans : list Orchestrator.MobilePlan)
  : dict (list Orchestrator.MobilePlan) :=
  fold_left group_plan plans [].

(** A line of the summary: what one [print] writes, with the values that
    its format string interpolates. *)
Inductive line : Type :=
| NoPlans
| Heading
| Total (n : nat)
| Operator (operator : text) (n : nat)
| Plan (name price data : text)
| Info (additional_info : text)
| More (n : nat).

(** The lines of a plan; [print_analysis_summary] adds the additional
    information when there is some. *)
Definition plan_lines (with_info : bool) (plan : Orchestrator.MobilePlan) : list line :=
  Plan (Orchestrator.name plan) (Orchestrator.price plan) (Orchestrator.data plan)
  :: (if with_info && negb (Text.falsy (Orchestrator.additional_info plan))
      then [Info (Orchestrator.additional_info plan)] else []).

(** The lines of an operator: [for plan in plans[:3]], and
    [if len(plans) > 3] the number [len(plans) - 3] of the others. *)
Definition operator_lines (with_info : bool) (operator : text)
    (plans : list Orchestrator.MobilePlan) : list line :=
  Operator operator (List.length plans)
  :: flat_map (plan_lines with_info) (firstn 3 plans)
  ++ (if (3 <? List.length plans)%nat then [More (List.length plans - 3)] else []).

Definition groups_lines (with_info : bool) (plans : list Orchestrator.MobilePlan)
  : list line :=
  flat_map (fun g => operator_lines with_info (fst g) (snd g)) (by_operator plans).

(** [print_summary] of [main.py] *)
Definition print_summary (plans : list Orchestrator.MobilePlan) : list line :=
  match plans with
  | [] => [NoPlans]
  | _ => Heading :: Total (List.length plans) :: groups_lines false plans
  end.

(** The end of [print_analysis_summary] of [unified_parser.py], which
    reports the plans: the total is printed before the test. *)
Definition print_analysis_summary (plans : list Orchestrator.MobilePlan) : list line :=
  Heading :: Total (List.length plans)
  :: match plans with
     | [] => [NoPlans]
     | _ => groups_lines true plans
     end.

(** The plans that the lines show, and the plans that they only count. *)
Definition shown (lines : list line) : list (text * text * text) :=
  flat_map (fun l => match l with Plan n p d => [(n, p, d)] | _ => [] end) lines.

Definition counted (lines : list line) : nat :=
  fold_right (fun l acc => match l with More n => (n + acc)%nat | _ => acc end)
    0%nat lines.

End Results.

(* ===================================================================== *)
(** ** [src/scraper.py]: the check for the last page *)
(* ===================================================================== *)

Module Pages.
Import Text.

(** [check_no_results]: an exception of the crawler is caught and gives
    [False]. *)
Definition check_no_results (arun : Scraper.crawler) (url : text) : bool :=
  match arun url with
  | Some result =>
      Scraper.success result
      && contains (T "No Results Found") (Scraper.cleaned_html result)
  | None => false
  end.

(** [fetch_and_process_page] with its check: [pg] is what the crawl of the
    page with the extraction strategy does. *)
Definition fetch_page (arun : Scraper.crawler) (url : text) (pg : Scraper.page)
    (model_type today : text) (seen_names : gset Py.value)
  : list (gmap string Py.value) * bool * gset Py.value :=
  Scraper.fetch_and_process_page (check_no_results arun url) pg model_type today
    arun seen_names.

End Pages.

(* ===================================================================== *)
(** ** More sample pages *)
(* ===================================================================== *)

Module Cards.
Import Dom.



End Cards.


(* ===================================================================== *)
(** * Properties *)
(* ===================================================================== *)

(** ** Texts *)

Module TextFacts.
Import Text.

Lemma starts_with_app (k rest : text) : starts_with k (k ++ rest) = true.
Proof.
  induction k as [|c k IH]; simpl; [reflexivity|].
  rewrite Ascii.eqb_refl. exact IH.
Qed.

Lemma starts_with_spec (k s : text) :
  starts_with k s = true <-> exists rest, s = k ++ rest.
Proof.
  split.
  - revert s. induction k as [|c k IH]; intros s H.
    + exists s. reflexivity.
    + destruct s as [|d s]; simpl in H; [discriminate|].
      apply andb_prop in H as [Hc Hk]. apply Ascii.eqb_eq in Hc. subst d.
      destruct (IH _ Hk) as [rest ->]. exists rest. reflexivity.
  - intros [rest ->]. apply starts_with_app.
Qed.

Lemma contains_spec (k s : text) :
  contains k s = true <-> exists pre post, s = pre ++ k ++ post.
Proof.
  split.
  - induction s as [|c s IH]; simpl; intros H.
    + apply orb_prop in H as [H|H]; [|discriminate].
      apply starts_with_spec in H as [rest ->]. exists [], rest. reflexivity.
    + apply orb_prop in H as [H|H].
      * apply starts_with_spec in H as [rest ->]. exists [], rest. reflexivity.
      * destruct (IH H) as (pre & post & ->). exists (c :: pre), post. reflexivity.
  - intros (pre & post & ->). induction pre as [|c pre IH]; simpl.
    + destruct (k ++ post) eqn:E; simpl.
      * destruct k; [reflexivity|discriminate].
      * rewrite <- E, starts_with_app. reflexivity.
    + rewrite IH. apply orb_true_r.
Qed.

Lemma lower_app (a b : text) : lower (a ++ b) = lower a ++ lower b.
Proof. apply map_app. Qed.

Lemma any_in_spec (ks : list text) (s : text) :
  any_in ks s = true <-> exists k, In k ks /\ contains k s = true.
Proof. unfold any_in. apply existsb_exists. Qed.

(** Stripping: what is left starts and ends with a character that is not
    whitespace. *)
Lemma lstrip_all_space (s : text) :
  lstrip s = [] <-> forallb isspace s = true.
Proof.
  induction s as [|c s IH]; simpl; [tauto|].
  destruct (isspace c); simpl; [exact IH|]. split; discriminate.
Qed.

Lemma forallb_rev {A} (p : A -> bool) (l : list A) :
  forallb p (rev l) = forallb p l.
Proof.
  induction l as [|a l IH]; simpl; [reflexivity|].
  rewrite forallb_app, IH. simpl. rewrite andb_true_r. apply andb_comm.
Qed.

Lemma lstrip_forallb (s : text) :
  forallb isspace (lstrip s) = forallb isspace s.
Proof.
  induction s as [|c s IH]; simpl; [reflexivity|].
  destruct (isspace c) eqn:E; simpl; [exact IH|]. rewrite E. reflexivity.
Qed.

Lemma strip_all_space (s : text) :
  strip s = [] <-> forallb isspace s = true.
Proof.
  unfold strip, rstrip. split.
  - intros H. apply (f_equal (@rev ascii)) in H. rewrite rev_involutive in H.
    simpl in H. apply lstrip_all_space in H.
    rewrite forallb_rev, lstrip_forallb in H. exact H.
  - intros H.
    assert (E : lstrip (rev (lstrip s)) = []).
    { apply lstrip_all_space. rewrite forallb_rev, lstrip_forallb. exact H. }
    rewrite E. reflexivity.
Qed.

Lemma sub_ws_nil (b : bool) (s : text) :
  sub_ws b s = [] -> forallb isspace s = true.
Proof.
  revert b. induction s as [|c s IH]; intros b; simpl; [reflexivity|].
  destruct (isspace c); simpl.
  - destruct b; [apply IH | discriminate].
  - discriminate.
Qed.

Lemma strip_forallb (s : text) :
  forallb isspace (strip s) = forallb isspace s.
Proof.
  unfold strip, rstrip.
  rewrite forallb_rev, lstrip_forallb, forallb_rev, lstrip_forallb. reflexivity.
Qed.

(** [_clean_text] gives the empty text exactly on the texts made of
    whitespace only. *)
Lemma clean_text_empty (s : text) :
  clean_text s = [] <-> forallb isspace s = true.
Proof.
  unfold clean_text. destruct s as [|c s]; simpl falsy; cbv iota.
  - split; reflexivity.
  - split.
    + intros H. apply sub_ws_nil in H. rewrite strip_forallb in H. exact H.
    + intros H. apply strip_all_space in H. rewrite H. reflexivity.
Qed.

End TextFacts.

(** ** The matcher agrees with the reference semantics *)

Module RegexFacts.
Import Text Regex RegexSem.

Lemma last_char_app (prev : option ascii) (a b : text) :
  last_char prev (a ++ b) = last_char (last_char prev a) b.
Proof. unfold last_char. apply fold_left_app. Qed.

Lemma star_runs_spec (p : ascii -> bool) (s w rest : text) :
  In (w, rest) (star_runs p s) <-> s = w ++ rest /\ forallb p w = true.
Proof.
  revert w rest. induction s as [|c s IH]; intros w rest; simpl.
  - split.
    + intros [H|[]]. inversion H; subst. split; reflexivity.
    + intros [H _]. symmetry in H. apply app_eq_nil in H as [-> ->]. left. reflexivity.
  - destruct (p c) eqn:Hc.
    + rewrite in_app_iff, in_map_iff. split.
      * intros [((w0 & r0) & Heq & Hin)|[H|[]]].
        -- simpl in Heq. inversion Heq; subst. apply IH in Hin as [-> Hw].
           split; [reflexivity|]. simpl. rewrite Hc. exact Hw.
        -- inversion H; subst. split; reflexivity.
      * intros [Hs Hw]. destruct w as [|d w].
        -- right. left. simpl in Hs. subst rest. reflexivity.
        -- left. simpl in Hs. inversion Hs; subst d s. simpl in Hw.
           apply andb_prop in Hw as [_ Hw].
           exists (w, rest). split; [reflexivity|]. apply IH. split; [reflexivity|exact Hw].
    + split.
      * intros [H|[]]. inversion H; subst. split; reflexivity.
      * intros [Hs Hw]. destruct w as [|d w].
        -- left. simpl in Hs. subst rest. reflexivity.
        -- simpl in Hs. inversion Hs; subst d s. simpl in Hw. rewrite Hc in Hw. discriminate.
Qed.

Lemma run_sound (r : re) :
  forall prev s w g rest,
    In (w, g, rest) (run r prev s) -> s = w ++ rest /\ matches r prev w rest g.
Proof.
  induction r as [c|p|p|p|r IH|r1 IH1 r2 IH2|r1 IH1 r2 IH2|r IH|];
    intros prev s w g rest H; simpl in H.
  - destruct s as [|x s]; [destruct H|].
    destruct (Ascii.eqb (lower_char x) (lower_char c)) eqn:E; [|destruct H].
    destruct H as [H|[]]. inversion H; subst. apply Ascii.eqb_eq in E.
    split; [reflexivity|]. constructor. exact E.
  - destruct s as [|x s]; [destruct H|].
    destruct (p x) eqn:E; [|destruct H].
    destruct H as [H|[]]. inversion H; subst.
    split; [reflexivity|]. constructor. exact E.
  - apply in_map_iff in H as ((w0 & r0) & Heq & Hin). simpl in Heq.
    inversion Heq; subst. apply star_runs_spec in Hin as [-> Hw].
    split; [reflexivity|]. constructor. exact Hw.
  - apply in_map_iff in H as ((w0 & r0) & Heq & Hin). simpl in Heq.
    inversion Heq; subst. apply filter_In in Hin as [Hin Hne]. simpl in Hne.
    apply star_runs_spec in Hin as [-> Hw].
    split; [reflexivity|]. constructor; [|exact Hw].
    destruct w; [discriminate|]. discriminate.
  - apply in_app_iff in H as [H|[H|[]]].
    + apply IH in H as [-> Hm]. split; [reflexivity|]. apply M_opt_some. exact Hm.
    + inversion H; subst. split; [reflexivity|]. apply M_opt_none.
  - apply in_flat_map in H as (((w1 & g1) & s1) & H1 & H2). simpl in H2.
    apply in_map_iff in H2 as (((w2 & g2) & s2) & Heq & H2). simpl in Heq.
    inversion Heq; subst. apply IH1 in H1 as [-> Hm1]. apply IH2 in H2 as [-> Hm2].
    split; [rewrite app_assoc; reflexivity|]. constructor; assumption.
  - apply in_app_iff in H as [H|H].
    + apply IH1 in H as [-> Hm]. split; [reflexivity|]. apply M_alt_l. exact Hm.
    + apply IH2 in H as [-> Hm]. split; [reflexivity|]. apply M_alt_r. exact Hm.
  - apply in_map_iff in H as (((w0 & g0) & s0) & Heq & Hin). simpl in Heq.
    inversion Heq; subst. apply IH in Hin as [-> Hm].
    split; [reflexivity|]. econstructor. exact Hm.
  - destruct (at_boundary prev s) eqn:E; [|destruct H].
    destruct H as [H|[]]. inversion H; subst. split; [reflexivity|]. constructor. exact E.
Qed.

Lemma run_complete (r : re) (prev : option ascii) (w rest : text) (g : option text) :
  matches r prev w rest g -> In (w, g, rest) (run r prev (w ++ rest)).
Proof.
  induction 1; simpl.
  - rewrite (proj2 (Ascii.eqb_eq _ _) H). left. reflexivity.
  - rewrite H. left. reflexivity.
  - apply in_map_iff. exists (w, next). split; [reflexivity|].
    apply star_runs_spec. split; [reflexivity|assumption].
  - apply in_map_iff. exists (w, next). split; [reflexivity|].
    apply filter_In. split.
    + apply star_runs_spec. split; [reflexivity|assumption].
    + simpl. destruct w; [congruence|reflexivity].
  - apply in_app_iff. left. assumption.
  - apply in_app_iff. right. left. reflexivity.
  - apply in_flat_map. exists (w1, g1, w2 ++ next). split.
    + rewrite <- app_assoc. assumption.
    + simpl. apply in_map_iff. exists (w2, g2, next). split; [reflexivity|assumption].
  - apply in_app_iff. left. assumption.
  - apply in_app_iff. right. assumption.
  - apply in_map_iff. exists (w, g, next). split; [reflexivity|assumption].
  - rewrite H. left. reflexivity.
Qed.

(** [search_from] returns a match, and no match starts before it. *)
Lemma search_from_some (r : re) (s : text) :
  forall prev m,
    search_from r prev s = Some m ->
    exists pre next,
      s = pre ++ fst m ++ next /\
      matches r (last_char prev pre) (fst m) next (snd m) /\
      forall pre' w' next' g',
        s = pre' ++ w' ++ next' -> matches r (last_char prev pre') w' next' g' ->
        (List.length pre <= List.length pre')%nat.
Proof.
  induction s as [|x s IH]; intros prev m H; simpl in H.
  - destruct (run r prev []) as [|m0 l] eqn:E; [discriminate|].
    inversion H; subst m. destruct m0 as [[w g] rest].
    assert (Hin : In (w, g, rest) (run r prev [])) by (rewrite E; left; reflexivity).
    apply run_sound in Hin as [Hs Hm]. exists [], rest. simpl. repeat split; auto.
    intros. lia.
  - destruct (run r prev (x :: s)) as [|m0 l] eqn:E.
    + apply IH in H as (pre & next & Hs & Hm & Hleft).
      exists (x :: pre), next. simpl. split; [rewrite Hs; reflexivity|]. split; [exact Hm|].
      intros pre' w' next' g' Hs' Hm'. destruct pre' as [|y pre'].
      * simpl in Hs', Hm'. apply run_complete in Hm'. rewrite <- Hs', E in Hm'. destruct Hm'.
      * simpl in Hs'. inversion Hs'; subst y. simpl. apply le_n_S.
        eapply Hleft; [eassumption|]. exact Hm'.
    + inversion H; subst m. destruct m0 as [[w g] rest].
      assert (Hin : In (w, g, rest) (run r prev (x :: s))) by (rewrite E; left; reflexivity).
      apply run_sound in Hin as [Hs Hm]. exists [], rest. simpl. repeat split; auto.
      intros. lia.
Qed.

Lemma search_from_none (r : re) (s : text) :
  forall prev,
    search_from r prev s = None ->
    forall pre w next g,
      s = pre ++ w ++ next -> ~ matches r (last_char prev pre) w next g.
Proof.
  induction s as [|x s IH]; intros prev H pre w next g Hs Hm; simpl in H.
  - destruct (run r prev []) as [|m0 l] eqn:E; [|discriminate].
    symmetry in Hs. apply app_eq_nil in Hs as [-> Hs]. simpl in Hm.
    apply run_complete in Hm. rewrite Hs, E in Hm. destruct Hm.
  - destruct (run r prev (x :: s)) as [|m0 l] eqn:E; [|discriminate].
    destruct pre as [|y pre].
    + simpl in Hs, Hm. apply run_complete in Hm. rewrite <- Hs, E in Hm. destruct Hm.
    + simpl in Hs. inversion Hs; subst y. eapply IH; eauto.
Qed.

(** [re.search] finds a leftmost match when the pattern occurs, and
    nothing otherwise. *)
Lemma search_some (r : re) (s : text) (m : text * option text) :
  search r s = Some m -> exists pre, leftmost r s pre (fst m) (snd m).
Proof.
  intros H. apply search_from_some in H as (pre & next & Hs & Hm & Hleft).
  exists pre. split.
  - exists next. split; assumption.
  - intros pre' w' g' (next' & Hs' & Hm'). eapply Hleft; eassumption.
Qed.

Lemma search_none (r : re) (s : text) :
  search r s = None <-> ~ occurs r s.
Proof.
  split.
  - intros H (pre & w & g & next & Hs & Hm).
    eapply search_from_none; eassumption.
  - intros H. destruct (search r s) as [m|] eqn:E; [|reflexivity].
    exfalso. apply H. apply search_some in E as (pre & Hm & _).
    exists pre, (fst m), (snd m). exact Hm.
Qed.

Lemma search_occurs (r : re) (s : text) :
  occurs r s <-> exists m, search r s = Some m.
Proof.
  split.
  - intros H. destruct (search r s) as [m|] eqn:E; [eauto|].
    apply search_none in E. contradiction.
  - intros [m E]. apply search_some in E as (pre & Hm & _).
    exists pre, (fst m), (snd m). exact Hm.
Qed.

(** A group that every match fills, and what it holds. *)
Lemma captures_some (r : re) prev w next g :
  matches r prev w next g -> captures r = true -> exists n, g = Some n.
Proof.
  induction 1; simpl; intros Hc; try discriminate; eauto.
  - apply orb_prop in Hc as [Hc|Hc].
    + destruct g2; simpl; eauto.
    + destruct (IHmatches2 Hc) as [n ->]. simpl. eauto.
  - apply andb_prop in Hc as [Hc _]. auto.
  - apply andb_prop in Hc as [_ Hc]. auto.
Qed.

Lemma grouped_some (r : re) prev w next g n :
  matches r prev w next g -> g = Some n ->
  exists b prev' next' g', In b (grouped r) /\ matches b prev' n next' g'.
Proof.
  induction 1; simpl; intros Hg; try discriminate.
  - destruct (IHmatches Hg) as (b & p' & n' & g' & Hin & Hm). eauto 8.
  - destruct g2 as [n2|]; simpl in Hg.
    + destruct (IHmatches2 Hg) as (b & p' & n' & g' & Hin & Hm).
      exists b, p', n', g'. split; [apply in_app_iff; right; exact Hin|exact Hm].
    + destruct (IHmatches1 Hg) as (b & p' & n' & g' & Hin & Hm).
      exists b, p', n', g'. split; [apply in_app_iff; left; exact Hin|exact Hm].
  - destruct (IHmatches Hg) as (b & p' & n' & g' & Hin & Hm).
    exists b, p', n', g'. split; [apply in_app_iff; left; exact Hin|exact Hm].
  - destruct (IHmatches Hg) as (b & p' & n' & g' & Hin & Hm).
    exists b, p', n', g'. split; [apply in_app_iff; right; exact Hin|exact Hm].
  - inversion Hg; subst n. exists r, prev, next, g. split; [left; reflexivity|assumption].
Qed.

End RegexFacts.

(** ** Text Normalizer *)

Module NormalizerFacts.
Import Text Regex RegexSem Patterns TextFacts RegexFacts.

(** The loop over the patterns: the first pattern that occurs decides, by
    a leftmost match. *)
Lemma first_match_some {A : Type} (ps : list (A * re)) (s : text) a m :
  first_match ps s = Some (a, m) ->
  exists i p pre,
    ps !! i = Some (a, p) /\
    (forall j b q, (j < i)%nat -> ps !! j = Some (b, q) -> ~ occurs q s) /\
    leftmost p s pre (fst m) (snd m).
Proof.
  induction ps as [|[b q] ps IH]; simpl; [discriminate|].
  destruct (search q s) as [m0|] eqn:E.
  - intros H. inversion H; subst b m0.
    apply search_some in E as [pre Hl].
    exists 0%nat, q, pre. split; [reflexivity|]. split; [|exact Hl].
    intros j b' q' Hj. lia.
  - intros H. destruct (IH H) as (i & p & pre & Hi & Hbefore & Hl).
    exists (S i), p, pre. split; [exact Hi|]. split; [|exact Hl].
    intros j b' q' Hj Hq. destruct j as [|j]; simpl in Hq.
    + inversion Hq; subst. apply search_none. exact E.
    + eapply Hbefore; [|exact Hq]. lia.
Qed.

Lemma first_match_none {A : Type} (ps : list (A * re)) (s : text) :
  first_match ps s = None <-> forall a p, In (a, p) ps -> ~ occurs p s.
Proof.
  induction ps as [|[b q] ps IH]; simpl.
  - split; [intros _ a p []|reflexivity].
  - destruct (search q s) as [m0|] eqn:E.
    + split; [discriminate|]. intros H. exfalso. apply (H b q); [left; reflexivity|].
      apply search_occurs. eauto.
    + rewrite IH. split.
      * intros H a p [Heq|Hin]; [inversion Heq; subst; apply search_none; exact E|eauto].
      * intros H a p Hin. apply (H a p). right. exact Hin.
Qed.

(** The pattern at position [i] occurs and none before it does: the loop
    stops there. *)
Lemma first_match_at {A : Type} (ps : list (A * re)) (s : text) i a p :
  ps !! i = Some (a, p) -> occurs p s ->
  (forall j b q, (j < i)%nat -> ps !! j = Some (b, q) -> ~ occurs q s) ->
  exists m pre, first_match ps s = Some (a, m) /\ leftmost p s pre (fst m) (snd m).
Proof.
  revert i. induction ps as [|[b q] ps IH]; intros i Hi Hocc Hbefore;
    [discriminate|]. simpl.
  destruct i as [|i]; simpl in Hi.
  - inversion Hi; subst b q. apply search_occurs in Hocc as [m E]. rewrite E.
    apply search_some in E as [pre Hl]. eauto.
  - destruct (search q s) as [m0|] eqn:E.
    + exfalso. apply (Hbefore 0%nat b q); [lia|reflexivity|]. apply search_occurs. eauto.
    + apply (IH i); auto.
      intros j b' q' Hj Hq. apply (Hbefore (S j) b' q'); [lia|exact Hq].
Qed.

Ltac inv_matches :=
  repeat match goal with
    | H : matches (Seq _ _) _ _ _ _ |- _ => inversion H; subst; clear H
    | H : matches (Opt _) _ _ _ _ |- _ => inversion H; subst; clear H
    | H : matches (Plus _) _ _ _ _ |- _ => inversion H; subst; clear H
    | H : matches (Star _) _ _ _ _ |- _ => inversion H; subst; clear H
    | H : matches (Cls _) _ _ _ _ |- _ => inversion H; subst; clear H
    | H : matches (Lit _) _ _ _ _ |- _ => inversion H; subst; clear H
    | H : matches (Grp _) _ _ _ _ |- _ => inversion H; subst; clear H
    | H : matches WordB _ _ _ _ |- _ => inversion H; subst; clear H
    end.

(** What a number pattern reads. *)
Lemma number_body_number (sep : ascii -> bool) prev n next g :
  matches (number_body sep) prev n next g -> number sep n.
Proof.
  unfold number_body. intros H. inv_matches.
  - right. eexists _, _, _. split; [reflexivity|]. repeat split; auto.
  - left. rewrite app_nil_r. split; auto.
Qed.

Lemma digits_no_comma (a : text) :
  forallb isdigit a = true -> comma_to_dot a = a.
Proof.
  induction a as [|c a IH]; simpl; [reflexivity|].
  intros H. apply andb_prop in H as [Hc Ha]. rewrite (IH Ha). f_equal.
  destruct (Ascii.eqb c ",") eqn:E; [|reflexivity].
  apply Ascii.eqb_eq in E. subst c. discriminate.
Qed.

Lemma number_dotted (n : text) :
  number is_sep n -> dotted is_sep n (comma_to_dot n).
Proof.
  intros [[Hne Hd]|(a & c & b & -> & [Ha1 Ha2] & Hc & [Hb1 Hb2])].
  - left. split; [split; assumption|]. apply digits_no_comma. exact Hd.
  - right. exists a, c, b. repeat split; auto.
    unfold comma_to_dot in *. rewrite map_app. simpl.
    fold (comma_to_dot a). fold (comma_to_dot b).
    rewrite (digits_no_comma a Ha2), (digits_no_comma b Hb2). do 2 f_equal.
    unfold is_sep in Hc. apply orb_prop in Hc as [Hc|Hc].
    + rewrite Hc. reflexivity.
    + destruct (Ascii.eqb c ","); [reflexivity|]. apply Ascii.eqb_eq in Hc. auto.
Qed.

(** The patterns of a list all have the number in group 1. *)
Lemma numbered_match (sep : ascii -> bool) (p : re) prev w next g :
  numbered sep p -> matches p prev w next g ->
  exists n, g = Some n /\ number sep n.
Proof.
  intros [Hc Hg] Hm. destruct (captures_some _ _ _ _ _ Hm Hc) as [n ->].
  exists n. split; [reflexivity|].
  destruct (grouped_some _ _ _ _ _ n Hm eq_refl) as (b & p' & n' & g' & Hin & Hb).
  rewrite Hg in Hin. destruct Hin as [<-|[]].
  eapply number_body_number. exact Hb.
Qed.

Lemma unified_prices_numbered a p :
  In (a, p) Unified.price_patterns -> numbered is_sep p.
Proof.
  simpl. intros H.
  repeat (destruct H as [H|H]; [inversion H; subst; split; reflexivity|]).
  destruct H.
Qed.

Lemma main_prices_numbered a p :
  In (a, p) Main.price_patterns -> numbered is_comma p.
Proof.
  simpl. intros H.
  repeat (destruct H as [H|H]; [inversion H; subst; split; reflexivity|]).
  destruct H.
Qed.

Lemma lookup_In {A : Type} (l : list A) (i : nat) (x : A) :
  l !! i = Some x -> In x l.
Proof.
  revert i. induction l as [|y l IH]; intros [|i] H; simpl in H; try discriminate.
  - inversion H. left. reflexivity.
  - right. eauto.
Qed.

Lemma falsy_false (s : text) : s <> [] -> falsy s = false.
Proof. destruct s; [congruence|reflexivity]. Qed.

(** [_extract_price] of [unified_parser.py] on a text where the pattern
    at position [i] is the first to occur. *)
Lemma unified_price_at (s : text) i p :
  s <> [] ->
  Unified.price_patterns !! i = Some (tt, p) -> occurs p s ->
  (forall j q, (j < i)%nat -> Unified.price_patterns !! j = Some (tt, q) -> ~ occurs q s) ->
  exists pre w n m,
    leftmost p s pre w (Some n) /\ dotted is_sep n m /\
    Unified.extract_price s = m ++ T " kr".
Proof.
  intros Hne Hi Hocc Hbefore.
  destruct (first_match_at Unified.price_patterns s i tt p) as (m & pre & Hfm & Hl); auto.
  { intros j [] q. apply Hbefore. }
  destruct m as [w g]. simpl in Hl.
  assert (Hnum : exists n, g = Some n /\ number is_sep n).
  { destruct Hl as [(next & _ & Hm) _].
    eapply numbered_match; [|exact Hm].
    eapply unified_prices_numbered. eapply lookup_In. exact Hi. }
  destruct Hnum as (n & -> & Hn).
  exists pre, w, n, (comma_to_dot n). split; [exact Hl|]. split; [apply number_dotted; exact Hn|].
  unfold Unified.extract_price. rewrite (falsy_false s Hne), Hfm. reflexivity.
Qed.

Lemma unified_price_none (s : text) :
  (forall p, In (tt, p) Unified.price_patterns -> ~ occurs p s) ->
  Unified.extract_price s = clean_text s.
Proof.
  intros H. unfold Unified.extract_price.
  destruct (falsy s) eqn:Hf.
  - destruct s; [reflexivity|discriminate].
  - assert (E : first_match Unified.price_patterns s = None).
    { apply first_match_none. intros [] p. apply H. }
    rewrite E. reflexivity.
Qed.

(** The same for [main.py], which has the pattern with [NOK] first, reads
    the comma only, and returns the number as it stands. *)
Lemma main_price_at (s : text) i p :
  s <> [] ->
  Main.price_patterns !! i = Some (tt, p) -> occurs p s ->
  (forall j q, (j < i)%nat -> Main.price_patterns !! j = Some (tt, q) -> ~ occurs q s) ->
  exists pre w n,
    leftmost p s pre w (Some n) /\ number is_comma n /\
    Main.extract_price s = n ++ T " kr".
Proof.
  intros Hne Hi Hocc Hbefore.
  destruct (first_match_at Main.price_patterns s i tt p) as (m & pre & Hfm & Hl); auto.
  { intros j [] q. apply Hbefore. }
  destruct m as [w g]. simpl in Hl.
  assert (Hnum : exists n, g = Some n /\ number is_comma n).
  { destruct Hl as [(next & _ & Hm) _].
    eapply numbered_match; [|exact Hm].
    eapply main_prices_numbered. eapply lookup_In. exact Hi. }
  destruct Hnum as (n & -> & Hn).
  exists pre, w, n. split; [exact Hl|]. split; [exact Hn|].
  unfold Main.extract_price. rewrite (falsy_false s Hne), Hfm. reflexivity.
Qed.

Lemma main_price_none (s : text) :
  (forall p, In (tt, p) Main.price_patterns -> ~ occurs p s) ->
  Main.extract_price s = clean_text s.
Proof.
  intros H. unfold Main.extract_price.
  destruct (falsy s) eqn:Hf.
  - destruct s; [reflexivity|discriminate].
  - assert (E : first_match Main.price_patterns s = None).
    { apply first_match_none. intros [] p. apply H. }
    rewrite E. reflexivity.
Qed.

(** An unlimited word, in any case, somewhere in the text. *)
Lemma unlimited_found (ks : list text) (s pre mid post k : text) :
  In k ks -> s = pre ++ mid ++ post -> lower mid = k ->
  any_in ks (lower s) = true.
Proof.
  intros Hin -> Hk. apply any_in_spec. exists k. split; [exact Hin|].
  apply contains_spec. exists (lower pre), (lower post).
  rewrite !lower_app, Hk. reflexivity.
Qed.

End NormalizerFacts.

(** *** What the patterns read, in words *)

Module PatternFacts.
Import Text Regex RegexSem Patterns RegexFacts NormalizerFacts.

Lemma matches_seq (r1 r2 : re) prev w next g :
  matches (Seq r1 r2) prev w next g <->
  exists w1 w2 g1 g2,
    w = w1 ++ w2 /\ matches r1 prev w1 (w2 ++ next) g1 /\
    matches r2 (last_char prev w1) w2 next g2 /\ g = merge g1 g2.
Proof.
  split.
  - intros H. inversion H; subst. eauto 10.
  - intros (w1 & w2 & g1 & g2 & -> & H1 & H2 & ->). constructor; assumption.
Qed.

Lemma matches_wordb prev w next g :
  matches WordB prev w next g <-> w = [] /\ at_boundary prev next = true /\ g = None.
Proof.
  split.
  - intros H. inversion H; subst. auto.
  - intros (-> & H & ->). constructor. exact H.
Qed.

Lemma matches_ws prev w next g :
  matches ws prev w next g <-> spaces w /\ g = None.
Proof.
  unfold ws, spaces. split.
  - intros H. inversion H; subst. auto.
  - intros (H & ->). constructor. exact H.
Qed.

Lemma matches_lits (c : ascii) (w0 : text) :
  forall prev w next g,
    matches (lits c w0) prev w next g <-> same_word (c :: w0) w /\ g = None.
Proof.
  unfold same_word. revert c. induction w0 as [|d w0 IH]; intros c prev w next g;
    cbn [lits].
  - split.
    + intros H. inversion H; subst. simpl. split; [congruence|reflexivity].
    + intros (H & ->). destruct w as [|x [|y w]]; simpl in H; try discriminate.
      inversion H. constructor. assumption.
  - rewrite matches_seq. split.
    + intros (w1 & w2 & g1 & g2 & -> & H1 & H2 & ->).
      inversion H1; subst. apply IH in H2 as [H2 ->]. split; [|reflexivity].
      simpl in *. congruence.
    + intros (H & ->). destruct w as [|x w]; [discriminate|].
      simpl in H. inversion H as [[Hx Hw]].
      exists [x], w, None, None. split; [reflexivity|].
      split; [constructor; exact Hx|]. split; [|reflexivity].
      apply IH. split; [exact Hw|reflexivity].
Qed.

Lemma matches_number (sep : ascii -> bool) prev w next g :
  matches (Grp (number_body sep)) prev w next g <-> number sep w /\ g = Some w.
Proof.
  split.
  - intros H. inversion H; subst. split; [|reflexivity].
    eapply number_body_number. eassumption.
  - intros (H & ->). apply (M_grp _ _ _ _ None). unfold number_body.
    destruct H as [[Hne Hd]|(a & c & b & -> & [Ha1 Ha2] & Hc & [Hb1 Hb2])].
    + rewrite <- (app_nil_r w) at 1. apply (M_seq _ _ _ _ _ _ None None).
      * constructor; assumption.
      * apply M_opt_none.
    + apply (M_seq _ _ _ _ _ _ None None).
      * constructor; assumption.
      * apply M_opt_some. apply (M_seq _ _ _ [c] b _ None None).
        -- constructor. exact Hc.
        -- constructor; assumption.
Qed.

(** A number, whitespace, and the unit: [num\s*unit]. *)
Lemma followed_shape (sep : ascii -> bool) (c : ascii) (w0 : text) prev w next g :
  matches (followed_by (Grp (number_body sep)) (lits c w0)) prev w next g <->
  exists n sp u,
    w = n ++ sp ++ u /\ number sep n /\ spaces sp /\ same_word (c :: w0) u /\
    g = Some n.
Proof.
  unfold followed_by. rewrite matches_seq. split.
  - intros (n & w2 & g1 & g2 & -> & H1 & H2 & ->).
    apply matches_number in H1 as [Hn ->].
    apply matches_seq in H2 as (sp & u & g3 & g4 & -> & H3 & H4 & ->).
    apply matches_ws in H3 as [Hsp ->]. apply matches_lits in H4 as [Hu ->].
    exists n, sp, u. auto.
  - intros (n & sp & u & -> & Hn & Hsp & Hu & ->).
    exists n, (sp ++ u), (Some n), None. split; [reflexivity|].
    split; [apply matches_number; auto|]. split; [|reflexivity].
    apply matches_seq. exists sp, u, None, None. split; [reflexivity|].
    split; [apply matches_ws; auto|]. split; [|reflexivity].
    apply matches_lits. auto.
Qed.

(** The same at the end of a word: [num\s*unit\b]. *)
Lemma followed_word_shape (sep : ascii -> bool) (c : ascii) (w0 : text)
    prev w next g :
  matches (Seq (followed_by (Grp (number_body sep)) (lits c w0)) WordB) prev w next g <->
  exists n sp u,
    w = n ++ sp ++ u /\ number sep n /\ spaces sp /\ same_word (c :: w0) u /\
    at_boundary (last_char prev w) next = true /\ g = Some n.
Proof.
  rewrite matches_seq. split.
  - intros (w1 & w2 & g1 & g2 & -> & H1 & H2 & ->).
    apply matches_wordb in H2 as (-> & Hb & ->).
    rewrite app_nil_l in H1. apply followed_shape in H1 as (n & sp & u & -> & H).
    exists n, sp, u. rewrite app_nil_r. intuition.
  - intros (n & sp & u & -> & Hn & Hsp & Hu & Hb & ->).
    exists (n ++ sp ++ u), [], (Some n), None. rewrite app_nil_r, app_nil_l.
    split; [reflexivity|]. split; [apply followed_shape; eauto 10|].
    split; [|reflexivity]. apply matches_wordb. auto.
Qed.

(** The unit at the start of a word, whitespace, and a number:
    [\bunit\s*num]. *)
Lemma preceded_word_shape (sep : ascii -> bool) (c : ascii) (w0 : text)
    prev w next g :
  matches (Seq WordB (preceded_by (lits c w0) (Grp (number_body sep)))) prev w next g <->
  exists u sp n,
    w = u ++ sp ++ n /\ same_word (c :: w0) u /\ spaces sp /\ number sep n /\
    at_boundary prev (w ++ next) = true /\ g = Some n.
Proof.
  unfold preceded_by. rewrite matches_seq. split.
  - intros (w1 & w2 & g1 & g2 & -> & H1 & H2 & ->).
    apply matches_wordb in H1 as (-> & Hb & ->). cbn [app last_char fold_left] in *.
    apply matches_seq in H2 as (u & w3 & g3 & g4 & -> & H3 & H4 & ->).
    apply matches_lits in H3 as [Hu ->].
    apply matches_seq in H4 as (sp & n & g5 & g6 & -> & H5 & H6 & ->).
    apply matches_ws in H5 as [Hsp ->]. apply matches_number in H6 as [Hn ->].
    exists u, sp, n. auto 10.
  - intros (u & sp & n & -> & Hu & Hsp & Hn & Hb & ->).
    exists [], (u ++ sp ++ n), None, (Some n). split; [reflexivity|].
    split; [apply matches_wordb; auto|]. split; [|reflexivity].
    cbn [last_char fold_left].
    apply matches_seq. exists u, (sp ++ n), None, (Some n). split; [reflexivity|].
    split; [apply matches_lits; auto|]. split; [|reflexivity].
    apply matches_seq. exists sp, n, None, (Some n). split; [reflexivity|].
    split; [apply matches_ws; auto|]. split; [|reflexivity].
    apply matches_number. auto.
Qed.

End PatternFacts.

(** *** The number that the search reads *)

Module GreedyFacts.
Import Text Regex RegexSem Patterns TextFacts RegexFacts NormalizerFacts PatternFacts.

Lemma space_not_digit (c : ascii) : isspace c = true -> isdigit c = false.
Proof. destruct c as [[] [] [] [] [] [] [] []]; vm_compute; congruence. Qed.

Lemma digit_not_space (c : ascii) : isdigit c = true -> isspace c = false.
Proof.
  destruct c as [[|] [|] [|] [|] [|] [|] [|] [|]]; vm_compute; congruence.
Qed.

Lemma sep_not_space (x : ascii) : is_sep x = true -> isspace x = false.
Proof.
  unfold is_sep. intros H. apply orb_prop in H as [H|H];
    apply Ascii.eqb_eq in H; subst x; reflexivity.
Qed.

Lemma comma_not_space (x : ascii) : is_comma x = true -> isspace x = false.
Proof. unfold is_comma. intros H. apply Ascii.eqb_eq in H. subst x. reflexivity. Qed.

Lemma sep_not_digit (x : ascii) : is_sep x = true -> isdigit x = false.
Proof.
  unfold is_sep. intros H. apply orb_prop in H as [H|H];
    apply Ascii.eqb_eq in H; subst x; reflexivity.
Qed.

Lemma comma_not_digit (x : ascii) : is_comma x = true -> isdigit x = false.
Proof. unfold is_comma. intros H. apply Ascii.eqb_eq in H. subst x. reflexivity. Qed.

Lemma same_word_length (lit u : text) :
  same_word lit u -> List.length u = List.length lit.
Proof.
  unfold same_word. intros H. apply (f_equal (@List.length ascii)) in H.
  rewrite !length_map in H. exact H.
Qed.

(** A run of characters of one class at the start of a text is determined
    by the text: it ends before the first character that is not in the
    class.  So is the number that a pattern reads at the start of a text,
    and the whitespace after it. *)
Lemma prefix_unique (P : ascii -> bool) (n m : text) :
  forallb P n = true -> forallb P m = true ->
  forall x r1 y r2,
    n ++ x :: r1 = m ++ y :: r2 -> P x = false -> P y = false -> n = m.
Proof.
  revert m. induction n as [|c n IH]; intros m Hn Hm x r1 y r2 E Hx Hy.
  - destruct m as [|d m]; [reflexivity|]. simpl in E, Hm. injection E as <- _.
    apply andb_prop in Hm as [Hd _]. congruence.
  - destruct m as [|d m]; simpl in E, Hn.
    + injection E as <- _. apply andb_prop in Hn as [Hc _]. congruence.
    + injection E as <- E. simpl in Hm.
      apply andb_prop in Hn as [_ Hn]. apply andb_prop in Hm as [_ Hm].
      f_equal. eapply IH; eauto.
Qed.

(** A run that ends before a character outside the class, or at the end
    of the text, is the longest: every other run is a part of it. *)
Lemma run_longest (P : ascii -> bool) (w : text) :
  forall a r rest,
    (forall c r', r = c :: r' -> P c = false) ->
    a ++ r = w ++ rest -> forallb P w = true -> exists w2, a = w ++ w2.
Proof.
  induction w as [|x w IH]; intros a r rest Hr E Hw; [exists a; reflexivity|].
  cbn [forallb] in Hw. apply andb_prop in Hw as [Hx Hw].
  destruct a as [|y a].
  - cbn [app] in E. rewrite (Hr x (w ++ rest) E) in Hx. discriminate.
  - cbn [app] in E. injection E as -> E.
    destruct (IH a r rest Hr E Hw) as [w2 ->]. exists w2. reflexivity.
Qed.

(** The greedy star reads the longest run first. *)
Lemma star_runs_head (p : ascii -> bool) (w : text) :
  forall r,
    forallb p w = true -> (forall c r', r = c :: r' -> p c = false) ->
    exists tl, star_runs p (w ++ r) = (w, r) :: tl.
Proof.
  induction w as [|c w IH]; intros r Hw Hr; cbn [app].
  - destruct r as [|c r']; cbn [star_runs]; [eauto|].
    rewrite (Hr c r' eq_refl). eauto.
  - cbn [forallb] in Hw. apply andb_prop in Hw as [Hc Hw].
    cbn [star_runs]. rewrite Hc. destruct (IH r Hw Hr) as [tl ->].
    cbn [map fst snd app]. eauto.
Qed.

(** Every text starts with a longest run. *)
Lemma longest_run (p : ascii -> bool) (s : text) :
  exists w r, s = w ++ r /\ forallb p w = true /\
              forall c r', r = c :: r' -> p c = false.
Proof.
  induction s as [|c s (w & r & -> & Hw & Hr)].
  - exists [], []. repeat split. intros c r' H. discriminate.
  - destruct (p c) eqn:E.
    + exists (c :: w), r. cbn [forallb app]. rewrite E, Hw. auto.
    + exists [], (c :: w ++ r). repeat split. intros c' r' [= <- _]. exact E.
Qed.

(** What [p+] reads first. *)
Lemma plus_head (p : ascii -> bool) (prev : option ascii) (a r : text) :
  a <> [] -> forallb p a = true -> (forall c r', r = c :: r' -> p c = false) ->
  exists tl, run (Plus p) prev (a ++ r) = (a, None, r) :: tl.
Proof.
  intros Hne Ha Hr. cbn [run]. destruct (star_runs_head p a r Ha Hr) as [tl ->].
  cbn [List.filter fst]. destruct a as [|c a]; [congruence|].
  cbn [nonempty map fst snd]. eauto.
Qed.

Lemma plus_none (p : ascii -> bool) (prev : option ascii) (r : text) :
  (forall c r', r = c :: r' -> p c = false) -> run (Plus p) prev r = [].
Proof.
  intros Hr. cbn [run]. destruct r as [|c r']; [reflexivity|].
  cbn [star_runs]. rewrite (Hr c r' eq_refl). reflexivity.
Qed.

(** The first success of a sequence: a success of the first part, and
    the first success of the second part after it. *)
Lemma seq_head (r1 r2 : re) (prev : option ascii) (s : text) x l :
  run (Seq r1 r2) prev s = x :: l ->
  exists m1 m2 l2,
    In m1 (run r1 prev s) /\
    run r2 (last_char prev (fst (fst m1))) (snd m1) = m2 :: l2 /\
    x = (fst (fst m1) ++ fst (fst m2), merge (snd (fst m1)) (snd (fst m2)), snd m2).
Proof.
  cbn [run]. induction (run r1 prev s) as [|m1 l1 IH]; cbn [flat_map]; [discriminate|].
  destruct (run r2 (last_char prev (fst (fst m1))) (snd m1)) as [|m2 l2] eqn:E.
  - cbn [map app]. intros H. destruct (IH H) as (m & m' & l' & Hin & Hr & Hx).
    exists m, m', l'. split; [right; exact Hin|auto].
  - cbn [map app]. intros [= <- _]. exists m1, m2, l2.
    split; [left; reflexivity|]. split; [exact E|reflexivity].
Qed.

Lemma run_seq (r1 r2 : re) (prev : option ascii) (s : text) :
  run (Seq r1 r2) prev s =
  flat_map
    (fun m1 =>
       map (fun m2 =>
              (fst (fst m1) ++ fst (fst m2),
               merge (snd (fst m1)) (snd (fst m2)),
               snd m2))
           (run r2 (last_char prev (fst (fst m1))) (snd m1)))
    (run r1 prev s).
Proof. reflexivity. Qed.

Lemma run_opt (r : re) (prev : option ascii) (s : text) :
  run (Opt r) prev s = run r prev s ++ [([], None, s)].
Proof. reflexivity. Qed.

Lemma run_grp (r : re) (prev : option ascii) (s : text) :
  run (Grp r) prev s = map (fun m => (fst (fst m), Some (fst (fst m)), snd m)) (run r prev s).
Proof. reflexivity. Qed.

(** The separator and the digits after it, read first. *)
Lemma fraction_head (sep : ascii -> bool) (pa : option ascii) (c : ascii) (b r : text) :
  sep c = true -> b <> [] -> forallb isdigit b = true ->
  (forall x r', r = x :: r' -> isdigit x = false) ->
  exists tl, run (Seq (Cls sep) (Plus isdigit)) pa (c :: b ++ r) = (c :: b, None, r) :: tl.
Proof.
  intros Hc Hne Hb Hr. rewrite run_seq.
  change (run (Cls sep) pa (c :: b ++ r))
    with (if sep c then [([c], @None text, b ++ r)] else []).
  rewrite Hc. cbn [flat_map fst snd].
  destruct (plus_head isdigit (last_char pa [c]) b r Hne Hb Hr) as [tl ->].
  cbn [map app fst snd merge]. eauto.
Qed.

(** The number that the pattern of a number reads first is the longest
    number at the start of the text. *)
Lemma number_first (sep : ascii -> bool) (prev : option ascii) (s : text) m l :
  (forall c, sep c = true -> isdigit c = false) ->
  run (number_body sep) prev s = m :: l ->
  forall n rest, s = n ++ rest -> number sep n ->
                 (List.length n <= List.length (fst (fst m)))%nat.
Proof.
  intros Hsep Hrun n rest Hs Hn.
  destruct (longest_run isdigit s) as (a & r & Ea & Ha & Hr).
  unfold number_body in Hrun. rewrite run_seq in Hrun.
  destruct a as [|d a].
  { exfalso. cbn [app] in Ea. subst r.
    rewrite (plus_none isdigit prev s Hr) in Hrun. discriminate. }
  assert (HneA : d :: a <> []) by discriminate.
  destruct (plus_head isdigit prev (d :: a) r HneA Ha Hr) as [tl Hp].
  rewrite Ea in Hrun, Hs. clear Ea. rewrite Hp in Hrun.
  cbn [flat_map fst snd] in Hrun. rewrite run_opt in Hrun.
  assert (Hdig : forall w rest', (d :: a) ++ r = w ++ rest' -> forallb isdigit w = true ->
                   (List.length w <= List.length (d :: a))%nat).
  { intros w rest' E Hw.
    destruct (run_longest isdigit w (d :: a) r rest' Hr E Hw) as [w2 ->].
    rewrite length_app. lia. }
  assert (Hfrac : forall a' c' b',
            n = a' ++ c' :: b' -> forallb isdigit a' = true -> sep c' = true ->
            a' = d :: a /\ r = c' :: b' ++ rest).
  { intros a' c' b' En Ha' Hc'. rewrite En, <- app_assoc in Hs.
    change ((c' :: b') ++ rest) with (c' :: b' ++ rest) in Hs.
    destruct (run_longest isdigit a' (d :: a) r (c' :: b' ++ rest) Hr Hs Ha') as [w2 E2].
    destruct w2 as [|x w2].
    - rewrite app_nil_r in E2. split; [congruence|].
      rewrite E2 in Hs. apply app_inv_head in Hs. exact Hs.
    - exfalso. rewrite E2, <- app_assoc in Hs. apply app_inv_head in Hs.
      cbn [app] in Hs. injection Hs as Hx _.
      rewrite E2, forallb_app in Ha. apply andb_prop in Ha as [_ Ha].
      cbn [forallb] in Ha. apply andb_prop in Ha as [Ha _].
      rewrite Hx, (Hsep c' Hc') in Ha. discriminate. }
  destruct Hn as [[_ Hnd]|(a' & c' & b' & En & [_ Ha'] & Hc' & [Hb1 Hb2])].
  { (* digits only *)
    specialize (Hdig n rest Hs Hnd).
    destruct (run (Seq (Cls sep) (Plus isdigit)) (last_char prev (d :: a)) r)
      as [|mx lx]; cbn [app map fst snd] in Hrun; injection Hrun as <- _;
      cbn [fst List.length] in *; rewrite ?length_app; lia. }
  destruct (Hfrac a' c' b' En Ha' Hc') as [Ea' Er].
  destruct (longest_run isdigit (b' ++ rest)) as (b & r2 & Eb & Hb & Hr2).
  destruct (run_longest isdigit b' b r2 rest Hr2 (eq_sym Eb) Hb2) as [w2 Ew2].
  assert (Hbne : b <> []) by (destruct b'; [congruence|rewrite Ew2; discriminate]).
  destruct (fraction_head sep (last_char prev (d :: a)) c' b r2 Hc' Hbne Hb Hr2)
    as [tl' E'].
  rewrite Er, Eb, E' in Hrun. cbn [app map fst snd] in Hrun. injection Hrun as <- _.
  cbn [fst]. rewrite En, Ea', Ew2. cbn [List.length app].
  rewrite ?length_app. cbn [List.length]. rewrite ?length_app. lia.
Qed.

Lemma number_starts (sep : ascii -> bool) (n : text) :
  number sep n -> exists d n', n = d :: n' /\ isdigit d = true.
Proof.
  intros [[Hne Hd]|(a & c & b & -> & [Hne Hd] & _)].
  - destruct n as [|d n]; [congruence|]. cbn [forallb] in Hd.
    apply andb_prop in Hd as [Hd _]. eauto.
  - destruct a as [|d a]; [congruence|]. cbn [forallb] in Hd.
    apply andb_prop in Hd as [Hd _]. exists d, (a ++ c :: b). auto.
Qed.

(** The first success of a pattern has the number that [re.search]
    returns: no match at the same place reads a longer one, and one that
    reads a number as long reads the same. *)
Local Abbreviation greedy p :=
  (forall prev s w g rest l,
      run p prev s = (w, g, rest) :: l ->
      exists n, g = Some n /\
        forall w' next' n',
          s = w' ++ next' -> matches p prev w' next' (Some n') ->
          (List.length n' <= List.length n)%nat /\
          (List.length n' = List.length n -> n' = n)).

Lemma greedy_word_before (p : re) : greedy p -> greedy (Seq WordB p).
Proof.
  intros Hp prev s w g rest l H.
  apply seq_head in H as ([[w1 g1] s1] & [[w2 g2] s2] & l2 & Hin & H2 & Hx).
  cbn [fst snd] in *. apply run_sound in Hin as [E1 Hm1].
  apply matches_wordb in Hm1 as (-> & _ & ->). cbn [app last_char fold_left] in *.
  subst s1. injection Hx as -> -> ->.
  destruct (Hp prev s w2 g2 s2 l2 H2) as (n & -> & Hmax).
  exists n. split; [reflexivity|]. intros w' next' n' Es Hm.
  apply matches_seq in Hm as (x1 & x2 & y1 & y2 & -> & Hb & Hm & Hg).
  apply matches_wordb in Hb as (-> & _ & ->). cbn [app last_char fold_left] in *.
  destruct y2 as [n2|]; [|discriminate]. injection Hg as ->.
  apply (Hmax x2 next' n2 Es Hm).
Qed.

(** *** The unit before the number *)

Section Preceded.
Variable sep : ascii -> bool.
Hypothesis sep_digit : forall x, sep x = true -> isdigit x = false.
Variable c : ascii.
Variable w0 : text.

(** The unit, whitespace, and a number: [unit\s*num]. *)
Lemma preceded_shape prev w next g :
  matches (preceded_by (lits c w0) (Grp (number_body sep))) prev w next g <->
  exists u sp n,
    w = u ++ sp ++ n /\ same_word (c :: w0) u /\ spaces sp /\ number sep n /\
    g = Some n.
Proof.
  unfold preceded_by. rewrite matches_seq. split.
  - intros (u & w3 & g3 & g4 & -> & H3 & H4 & ->).
    apply matches_lits in H3 as [Hu ->].
    apply matches_seq in H4 as (sp & n & g5 & g6 & -> & H5 & H6 & ->).
    apply matches_ws in H5 as [Hsp ->]. apply matches_number in H6 as [Hn ->].
    exists u, sp, n. auto 10.
  - intros (u & sp & n & -> & Hu & Hsp & Hn & ->).
    exists u, (sp ++ n), None, (Some n). split; [reflexivity|].
    split; [apply matches_lits; auto|]. split; [|reflexivity].
    apply matches_seq. exists sp, n, None, (Some n). split; [reflexivity|].
    split; [apply matches_ws; auto|]. split; [|reflexivity].
    apply matches_number. auto.
Qed.

(** Where the number stands: after the unit and all the whitespace. *)
Lemma preceded_parts (u sp n rest u' sp' n' rest' : text) :
  same_word (c :: w0) u -> same_word (c :: w0) u' ->
  spaces sp -> spaces sp' -> number sep n -> number sep n' ->
  u ++ sp ++ n ++ rest = u' ++ sp' ++ n' ++ rest' ->
  u = u' /\ sp = sp' /\ n ++ rest = n' ++ rest'.
Proof.
  intros Hu Hu' Hsp Hsp' Hn Hn' E.
  assert (Hlen : List.length u = List.length u').
  { rewrite (same_word_length _ _ Hu), (same_word_length _ _ Hu'). reflexivity. }
  destruct (app_inj_1 _ _ _ _ Hlen E) as [-> E1]. split; [reflexivity|].
  destruct (number_starts sep n Hn) as (d & n1 & -> & Hd).
  destruct (number_starts sep n' Hn') as (d' & n1' & -> & Hd').
  cbn [app] in E1.
  assert (Es : sp = sp').
  { apply (prefix_unique isspace sp sp' Hsp Hsp' d (n1 ++ rest) d' (n1' ++ rest') E1);
      apply digit_not_space; assumption. }
  subst sp'. apply app_inv_head in E1. auto.
Qed.

Lemma preceded_greedy : greedy (preceded_by (lits c w0) (Grp (number_body sep))).
Proof.
  intros prev s w g rest l H. unfold preceded_by in H.
  apply seq_head in H as ([[u g1] s1] & m2 & l2 & Hin1 & H2 & Hx).
  cbn [fst snd] in *. apply run_sound in Hin1 as [E1 Hm1].
  apply matches_lits in Hm1 as [Hu ->].
  apply seq_head in H2 as ([[sp g3] s2] & m4 & l4 & Hin3 & H4 & ->).
  cbn [fst snd] in *. apply run_sound in Hin3 as [E3 Hm3].
  apply matches_ws in Hm3 as [Hsp ->].
  rewrite run_grp in H4.
  destruct (run (number_body sep) (last_char (last_char prev u) sp) s2)
    as [|[[n0 g5] r5] l5] eqn:E5; [discriminate|].
  cbn [map fst snd] in H4. injection H4 as <- _. cbn [fst snd merge] in Hx.
  injection Hx as -> -> ->.
  assert (Hin5 : In (n0, g5, r5) (run (number_body sep) (last_char (last_char prev u) sp) s2))
    by (rewrite E5; left; reflexivity).
  apply run_sound in Hin5 as [E2 Hm5]. apply number_body_number in Hm5.
  exists n0. split; [reflexivity|]. intros w' next' n' Es Hm.
  apply preceded_shape in Hm as (u' & sp' & n1 & -> & Hu' & Hsp' & Hn' & Hg).
  injection Hg as <-.
  assert (E : u' ++ sp' ++ n' ++ next' = u ++ sp ++ n0 ++ r5).
  { rewrite <- E2, <- E3, <- E1, Es, <- !app_assoc. reflexivity. }
  destruct (preceded_parts u' sp' n' next' u sp n0 r5 Hu' Hu Hsp' Hsp Hn' Hm5 E)
    as (-> & -> & En).
  split.
  - apply (number_first sep _ s2 _ _ sep_digit E5 n' next'); [|exact Hn'].
    rewrite E2. symmetry. exact En.
  - intros Hlen. destruct (app_inj_1 _ _ _ _ Hlen En) as [-> _]. reflexivity.
Qed.

End Preceded.

(** *** The unit after the number *)

(** The text after a number that is followed by its unit: it starts with
    a character that is not a digit, and when that character is a separator
    the next one is not a digit either. *)
Local Abbreviation stops sep t :=
  (exists x r, t = x :: r /\ isdigit x = false /\
               (sep x = true -> forall y r', r = y :: r' -> isdigit y = false)).

Section Followed.
Variable sep : ascii -> bool.
Hypothesis sep_digit : forall x, sep x = true -> isdigit x = false.
Hypothesis sep_space : forall x, sep x = true -> isspace x = false.
Variable c : ascii.
Variable w0 : text.
Hypothesis unit_stops :
  forall u next, same_word (c :: w0) u -> stops sep (u ++ next).

Lemma tail_stops (sp u next : text) :
  spaces sp -> same_word (c :: w0) u -> stops sep (sp ++ u ++ next).
Proof.
  intros Hsp Hu. destruct sp as [|x sp]; [exact (unit_stops u next Hu)|].
  exists x, (sp ++ u ++ next). split; [reflexivity|].
  unfold spaces in Hsp. cbn [forallb] in Hsp. apply andb_prop in Hsp as [Hx _].
  split; [apply space_not_digit; exact Hx|].
  intros Hs. rewrite (sep_space x Hs) in Hx. discriminate.
Qed.

(** A number that stands before such a text is the longest at its place:
    every number that starts there is a part of it. *)
Lemma number_stops (n n' t rest' : text) :
  number sep n -> number sep n' -> stops sep t ->
  n ++ t = n' ++ rest' -> exists w2, n = n' ++ w2.
Proof.
  intros Hn Hn' (x & r & -> & Hx & Hxr) E.
  assert (Hstop : forall y r', x :: r = y :: r' -> isdigit y = false).
  { intros y r' [= <- _]. exact Hx. }
  destruct Hn as [[_ Hd]|(a & s1 & b & -> & [_ Ha] & Hs1 & [_ Hb])];
    destruct Hn' as [[_ Hd']|(a' & s1' & b' & -> & [_ Ha'] & Hs1' & [Hbne' Hb'])].
  - apply (run_longest isdigit n' n (x :: r) rest' Hstop E Hd').
  - exfalso. rewrite <- app_assoc in E. cbn [app] in E.
    assert (Ea : n = a').
    { apply (prefix_unique isdigit n a' Hd Ha' x r s1' (b' ++ rest') E Hx).
      apply sep_digit. exact Hs1'. }
    subst a'. apply app_inv_head in E. injection E as -> E.
    destruct b' as [|y b']; [congruence|]. cbn [app forallb] in E, Hb'.
    apply andb_prop in Hb' as [Hy _].
    rewrite (Hxr Hs1' y (b' ++ rest') E) in Hy. discriminate.
  - rewrite <- app_assoc in E. cbn [app] in E.
    assert (Hstop1 : forall y r', s1 :: b ++ x :: r = y :: r' -> isdigit y = false).
    { intros y r' [= <- _]. apply sep_digit. exact Hs1. }
    destruct (run_longest isdigit n' a (s1 :: b ++ x :: r) rest' Hstop1 E Hd') as [w2 ->].
    exists (w2 ++ s1 :: b). rewrite <- app_assoc. reflexivity.
  - rewrite <- !app_assoc in E. cbn [app] in E.
    assert (Ea : a = a').
    { apply (prefix_unique isdigit a a' Ha Ha' s1 (b ++ x :: r) s1' (b' ++ rest') E);
        apply sep_digit; assumption. }
    subst a'. apply app_inv_head in E. injection E as -> E.
    destruct (run_longest isdigit b' b (x :: r) rest' Hstop E Hb') as [w2 ->].
    exists w2. rewrite <- app_assoc. reflexivity.
Qed.

(** So the number of [num\s*unit] is determined by the place where the
    match starts. *)
Lemma followed_unique (n sp u next n' sp' u' next' : text) :
  number sep n -> number sep n' -> spaces sp -> spaces sp' ->
  same_word (c :: w0) u -> same_word (c :: w0) u' ->
  n ++ sp ++ u ++ next = n' ++ sp' ++ u' ++ next' -> n = n'.
Proof.
  intros Hn Hn' Hsp Hsp' Hu Hu' E.
  destruct (number_stops n n' _ _ Hn Hn' (tail_stops sp u next Hsp Hu) E) as [w2 E2].
  destruct (number_stops n' n _ _ Hn' Hn (tail_stops sp' u' next' Hsp' Hu') (eq_sym E))
    as [w3 E3].
  assert (Hlen : List.length w2 = 0%nat).
  { apply (f_equal (@List.length ascii)) in E2, E3. rewrite length_app in E2, E3. lia. }
  destruct w2; [|discriminate]. rewrite app_nil_r in E2. exact E2.
Qed.

Lemma followed_greedy : greedy (followed_by (Grp (number_body sep)) (lits c w0)).
Proof.
  intros prev s w g rest l H.
  assert (Hin : In (w, g, rest) (run (followed_by (Grp (number_body sep)) (lits c w0)) prev s))
    by (rewrite H; left; reflexivity).
  apply run_sound in Hin as [Es Hm].
  apply followed_shape in Hm as (n & sp & u & -> & Hn & Hsp & Hu & ->).
  exists n. split; [reflexivity|]. intros w' next' n' Es' Hm'.
  apply followed_shape in Hm' as (n1 & sp' & u' & -> & Hn' & Hsp' & Hu' & Hg).
  injection Hg as <-.
  assert (E : n' ++ sp' ++ u' ++ next' = n ++ sp ++ u ++ rest).
  { rewrite Es' in Es. rewrite <- !app_assoc in Es. exact Es. }
  rewrite (followed_unique _ _ _ _ _ _ _ _ Hn' Hn Hsp' Hsp Hu' Hu E). auto.
Qed.

Lemma followed_word_greedy :
  greedy (Seq (followed_by (Grp (number_body sep)) (lits c w0)) WordB).
Proof.
  intros prev s w g rest l H.
  assert (Hin : In (w, g, rest)
                  (run (Seq (followed_by (Grp (number_body sep)) (lits c w0)) WordB) prev s))
    by (rewrite H; left; reflexivity).
  apply run_sound in Hin as [Es Hm].
  apply followed_word_shape in Hm as (n & sp & u & -> & Hn & Hsp & Hu & _ & ->).
  exists n. split; [reflexivity|]. intros w' next' n' Es' Hm'.
  apply followed_word_shape in Hm' as (n1 & sp' & u' & -> & Hn' & Hsp' & Hu' & _ & Hg).
  injection Hg as <-.
  assert (E : n' ++ sp' ++ u' ++ next' = n ++ sp ++ u ++ rest).
  { rewrite Es' in Es. rewrite <- !app_assoc in Es. exact Es. }
  rewrite (followed_unique _ _ _ _ _ _ _ _ Hn' Hn Hsp' Hsp Hu' Hu E). auto.
Qed.

End Followed.

(** The units [kr], [NOK] and [,-]. *)
Lemma lower_k (x : ascii) :
  lower_char x = lower_char "k" -> x = "k"%char \/ x = "K"%char.
Proof.
  destruct x as [[] [] [] [] [] [] [] []]; vm_compute; intros H;
    try discriminate; auto.
Qed.

Lemma lower_n (x : ascii) :
  lower_char x = lower_char "N" -> x = "n"%char \/ x = "N"%char.
Proof.
  destruct x as [[] [] [] [] [] [] [] []]; vm_compute; intros H;
    try discriminate; auto.
Qed.

Lemma lower_comma (x : ascii) : lower_char x = lower_char "," -> x = ","%char.
Proof.
  destruct x as [[] [] [] [] [] [] [] []]; vm_compute; intros H;
    try discriminate; auto.
Qed.

Lemma lower_dash (x : ascii) : lower_char x = lower_char "-" -> x = "-"%char.
Proof.
  destruct x as [[] [] [] [] [] [] [] []]; vm_compute; intros H;
    try discriminate; auto.
Qed.

Lemma kr_stops (sep : ascii -> bool) (u next : text) :
  sep "k"%char = false -> sep "K"%char = false ->
  same_word (T "kr") u -> stops sep (u ++ next).
Proof.
  intros Hk HK Hu. destruct u as [|x u]; [discriminate|].
  unfold same_word in Hu. cbn [T list_ascii_of_string map] in Hu.
  injection Hu as Hx _. exists x, (u ++ next). split; [reflexivity|].
  destruct (lower_k x Hx) as [-> | ->]; (split; [reflexivity|congruence]).
Qed.

Lemma nok_stops (sep : ascii -> bool) (u next : text) :
  sep "n"%char = false -> sep "N"%char = false ->
  same_word (T "NOK") u -> stops sep (u ++ next).
Proof.
  intros Hk HK Hu. destruct u as [|x u]; [discriminate|].
  unfold same_word in Hu. cbn [T list_ascii_of_string map] in Hu.
  injection Hu as Hx _. exists x, (u ++ next). split; [reflexivity|].
  destruct (lower_n x Hx) as [-> | ->]; (split; [reflexivity|congruence]).
Qed.

Lemma dash_stops (sep : ascii -> bool) (u next : text) :
  same_word (T ",-") u -> stops sep (u ++ next).
Proof.
  intros Hu. destruct u as [|x [|y u]]; try discriminate.
  unfold same_word in Hu. cbn [T list_ascii_of_string map] in Hu.
  injection Hu as Hx Hy _. apply lower_comma in Hx. apply lower_dash in Hy. subst x y.
  exists ","%char, ("-"%char :: u ++ next). split; [reflexivity|].
  split; [reflexivity|]. intros _ y r' [= <- _]. reflexivity.
Qed.

Lemma unified_prices_greedy a p : In (a, p) Unified.price_patterns -> greedy p.
Proof.
  simpl. intros [E|[E|[E|[E|[]]]]]; injection E as _ <-.
  - apply (followed_word_greedy is_sep sep_not_digit sep_not_space "k" (T "r")).
    intros u next. apply kr_stops; reflexivity.
  - apply (followed_word_greedy is_sep sep_not_digit sep_not_space "N" (T "OK")).
    intros u next. apply nok_stops; reflexivity.
  - apply greedy_word_before.
    apply (preceded_greedy is_sep sep_not_digit "k" (T "r")).
  - apply (followed_greedy is_sep sep_not_digit sep_not_space "," (T "-")).
    intros u next. apply dash_stops.
Qed.

Lemma main_prices_greedy a p : In (a, p) Main.price_patterns -> greedy p.
Proof.
  simpl. intros [E|[E|[E|[E|[E|[]]]]]]; injection E as _ <-.
  - apply (followed_greedy is_comma comma_not_digit comma_not_space "k" (T "r")).
    intros u next. apply kr_stops; reflexivity.
  - apply (followed_greedy is_comma comma_not_digit comma_not_space "N" (T "OK")).
    intros u next. apply nok_stops; reflexivity.
  - apply (preceded_greedy is_comma comma_not_digit "k" (T "r")).
  - apply (preceded_greedy is_comma comma_not_digit "N" (T "OK")).
  - apply (followed_greedy is_comma comma_not_digit comma_not_space "," (T "-")).
    intros u next. apply dash_stops.
Qed.

(** [search_from] returns the first success at the leftmost place that
    has one. *)
Lemma search_from_head (r : re) (s : text) :
  forall prev m,
    search_from r prev s = Some m ->
    exists pre s1 rest l,
      s = pre ++ s1 /\
      run r (last_char prev pre) s1 = (fst m, snd m, rest) :: l /\
      forall pre' w' next' g',
        s = pre' ++ w' ++ next' -> matches r (last_char prev pre') w' next' g' ->
        (List.length pre <= List.length pre')%nat.
Proof.
  induction s as [|x s IH]; intros prev m H; cbn [search_from] in H.
  - destruct (run r prev []) as [|[[w g] rest] l] eqn:E; [discriminate|].
    injection H as <-. exists [], [], rest, l. cbn [app last_char fold_left fst snd].
    split; [reflexivity|]. split; [exact E|]. intros. cbn. lia.
  - destruct (run r prev (x :: s)) as [|[[w g] rest] l] eqn:E.
    + apply IH in H as (pre & s1 & rest & l & Hs & Hr & Hleft).
      exists (x :: pre), s1, rest, l. cbn [app]. split; [rewrite Hs; reflexivity|].
      split; [exact Hr|].
      intros pre' w' next' g' Hs' Hm'. destruct pre' as [|y pre'].
      * cbn [app last_char fold_left] in Hs', Hm'. apply run_complete in Hm'.
        rewrite <- Hs', E in Hm'. destruct Hm'.
      * cbn [app] in Hs'. injection Hs' as <- Hs'. cbn [List.length]. apply le_n_S.
        apply (Hleft pre' w' next' g' Hs' Hm').
    + injection H as <-. exists [], (x :: s), rest, l.
      cbn [app last_char fold_left fst snd].
      split; [reflexivity|]. split; [exact E|]. intros. cbn. lia.
Qed.

(** What [re.search] returns for a pattern of a price: the match of
    [first_number], and the number of every such match. *)
Lemma search_first_number (p : re) (s : text) (m : text * option text) :
  greedy p -> search p s = Some m ->
  exists pre n,
    snd m = Some n /\ first_number p s pre (fst m) n /\
    forall pre' w' n', first_number p s pre' w' n' -> n' = n.
Proof.
  intros Hp H. apply search_from_head in H as (pre & s1 & rest & l & Hs & Hr & Hleft).
  destruct m as [w g]. cbn [fst snd] in *.
  destruct (Hp _ _ _ _ _ _ Hr) as (n & -> & Hmax).
  assert (Hin : In (w, Some n, rest) (run p (last_char None pre) s1))
    by (rewrite Hr; left; reflexivity).
  apply run_sound in Hin as [E1 Hm].
  assert (Hat : match_at p s pre w (Some n)).
  { exists rest. split; [rewrite Hs, E1; reflexivity|exact Hm]. }
  assert (Hfirst : first_number p s pre w n).
  { split; [split; [exact Hat|]|].
    - intros pre' w' g' (next' & Hs' & Hm'). apply (Hleft pre' w' next' g' Hs' Hm').
    - intros w' n' (next' & Hs' & Hm'). apply (Hmax w' next' n'); [|exact Hm'].
      rewrite Hs in Hs'. apply app_inv_head in Hs'. exact Hs'. }
  exists pre, n. split; [reflexivity|]. split; [exact Hfirst|].
  intros pre' w' n' [[Hat' Hleft'] Hmax'].
  assert (Hlen : List.length pre' = List.length pre).
  { pose proof (Hleft' _ _ _ Hat). destruct Hat' as (next' & Hs' & Hm').
    pose proof (Hleft pre' w' next' (Some n') Hs' Hm'). lia. }
  destruct Hat' as (next' & Hs' & Hm').
  assert (Epre : pre' = pre /\ w' ++ next' = s1).
  { rewrite Hs in Hs'. symmetry in Hs'. apply (app_inj_1 _ _ _ _ Hlen Hs'). }
  destruct Epre as [-> E']. symmetry in E'.
  destruct (Hmax w' next' n' E' Hm') as [Hle Heq]. apply Heq.
  specialize (Hmax' w n Hat). lia.
Qed.

(** The loop over the patterns stops at the first pattern that occurs,
    with the result of its search. *)
Lemma first_match_search {A : Type} (ps : list (A * re)) (s : text) i a p :
  ps !! i = Some (a, p) -> occurs p s ->
  (forall j b q, (j < i)%nat -> ps !! j = Some (b, q) -> ~ occurs q s) ->
  exists m, first_match ps s = Some (a, m) /\ search p s = Some m.
Proof.
  revert i. induction ps as [|[b q] ps IH]; intros i Hi Hocc Hbefore;
    [discriminate|]. cbn [first_match].
  destruct i as [|i]; simpl in Hi.
  - inversion Hi; subst b q. apply search_occurs in Hocc as [m E]. rewrite E. eauto.
  - destruct (search q s) as [m0|] eqn:E.
    + exfalso. apply (Hbefore 0%nat b q); [lia|reflexivity|]. apply search_occurs. eauto.
    + apply (IH i); auto.
      intros j b' q' Hj Hq. apply (Hbefore (S j) b' q'); [lia|exact Hq].
Qed.

(** [_extract_price] of [unified_parser.py] on a text where the pattern
    at position [i] is the first to occur. *)
Lemma unified_price_first (s : text) i p :
  s <> [] ->
  Unified.price_patterns !! i = Some (tt, p) -> occurs p s ->
  (forall j q, (j < i)%nat -> Unified.price_patterns !! j = Some (tt, q) -> ~ occurs q s) ->
  (exists pre w n, first_number p s pre w n) /\
  (forall pre w n, first_number p s pre w n ->
     exists m, dotted is_sep n m /\ Unified.extract_price s = m ++ T " kr").
Proof.
  intros Hne Hi Hocc Hbefore.
  destruct (first_match_search Unified.price_patterns s i tt p) as (m & Hfm & Hsearch); auto.
  { intros j [] q. apply Hbefore. }
  pose proof (unified_prices_greedy tt p (lookup_In _ _ _ Hi)) as Hg.
  destruct (search_first_number p s m Hg Hsearch) as (pre & n & Hgn & Hfirst & Huniq).
  split; [eauto|]. intros pre' w' n' H'. rewrite (Huniq pre' w' n' H').
  assert (Hn : number is_sep n).
  { destruct Hfirst as [[(next & _ & Hm) _] _].
    destruct (numbered_match is_sep p _ _ _ _
                (unified_prices_numbered tt p (lookup_In _ _ _ Hi)) Hm) as (n1 & E & Hn1).
    injection E as <-. exact Hn1. }
  exists (comma_to_dot n). split; [apply number_dotted; exact Hn|].
  unfold Unified.extract_price, group1. rewrite (falsy_false s Hne), Hfm, Hgn. reflexivity.
Qed.

(** The same for [main.py], which has the pattern with [NOK] first, reads
    the comma only, and returns the number as it stands. *)
Lemma main_price_first (s : text) i p :
  s <> [] ->
  Main.price_patterns !! i = Some (tt, p) -> occurs p s ->
  (forall j q, (j < i)%nat -> Main.price_patterns !! j = Some (tt, q) -> ~ occurs q s) ->
  (exists pre w n, first_number p s pre w n) /\
  (forall pre w n, first_number p s pre w n ->
     number is_comma n /\ Main.extract_price s = n ++ T " kr").
Proof.
  intros Hne Hi Hocc Hbefore.
  destruct (first_match_search Main.price_patterns s i tt p) as (m & Hfm & Hsearch); auto.
  { intros j [] q. apply Hbefore. }
  pose proof (main_prices_greedy tt p (lookup_In _ _ _ Hi)) as Hg.
  destruct (search_first_number p s m Hg Hsearch) as (pre & n & Hgn & Hfirst & Huniq).
  split; [eauto|]. intros pre' w' n' H'. rewrite (Huniq pre' w' n' H').
  assert (Hn : number is_comma n).
  { destruct Hfirst as [[(next & _ & Hm) _] _].
    destruct (numbered_match is_comma p _ _ _ _
                (main_prices_numbered tt p (lookup_In _ _ _ Hi)) Hm) as (n1 & E & Hn1).
    injection E as <-. exact Hn1. }
  split; [exact Hn|].
  unfold Main.extract_price, group1. rewrite (falsy_false s Hne), Hfm, Hgn. reflexivity.
Qed.

End GreedyFacts.

(** *** The claims on the Text Normalizer *)

(** C2 (as amended).  [_extract_price] tries its patterns in the order of
    the list: in [unified_parser.py] a number followed by the word kr, a
    number followed by the word NOK, the word-initial kr followed by a
    number, a number followed by ",-".  On a non-empty text in which the
    pattern at position [i] is the first that occurs, the result is
    "<amount> kr", where the amount is the first matched number, the one
    that [re.search] reads: the number of the leftmost match of that
    pattern and, of the numbers that a match starting there can read, the
    longest; its separator (comma or dot) is turned into a dot.  In
    [main.py], whose list also has NOK followed by a number and has no word
    boundaries, only the comma separates and that number is returned as it
    stands.  When no pattern occurs the result is the whitespace-collapsed
    text, which is empty exactly when the text is made of whitespace only.
    The last two parts say what the patterns of the two lists read. *)
Theorem C2_extract_price (s : text) :
  (forall i p,
      s <> [] ->
      Unified.price_patterns !! i = Some (tt, p) -> RegexSem.occurs p s ->
      (forall j q, (j < i)%nat -> Unified.price_patterns !! j = Some (tt, q) ->
                   ~ RegexSem.occurs q s) ->
      (exists pre w n, RegexSem.first_number p s pre w n) /\
      (forall pre w n,
          RegexSem.first_number p s pre w n ->
          exists m, RegexSem.dotted Patterns.is_sep n m /\
                    Unified.extract_price s = m ++ T " kr")) /\
  ((forall p, In (tt, p) Unified.price_patterns -> ~ RegexSem.occurs p s) ->
   Unified.extract_price s = clean_text s) /\
  (forall i p,
      s <> [] ->
      Main.price_patterns !! i = Some (tt, p) -> RegexSem.occurs p s ->
      (forall j q, (j < i)%nat -> Main.price_patterns !! j = Some (tt, q) ->
                   ~ RegexSem.occurs q s) ->
      (exists pre w n, RegexSem.first_number p s pre w n) /\
      (forall pre w n,
          RegexSem.first_number p s pre w n ->
          RegexSem.number Patterns.is_comma n /\
          Main.extract_price s = n ++ T " kr")) /\
  ((forall p, In (tt, p) Main.price_patterns -> ~ RegexSem.occurs p s) ->
   Main.extract_price s = clean_text s) /\
  (clean_text s = [] <-> forallb Text.isspace s = true) /\
  (exists p0 p1 p2 p3,
      Unified.price_patterns = [(tt, p0); (tt, p1); (tt, p2); (tt, p3)] /\
      forall prev w next g,
        (RegexSem.matches p0 prev w next g <->
         exists n sp u,
           w = n ++ sp ++ u /\ RegexSem.number Patterns.is_sep n /\
           RegexSem.spaces sp /\ RegexSem.same_word (T "kr") u /\
           Regex.at_boundary (Regex.last_char prev w) next = true /\ g = Some n) /\
        (RegexSem.matches p1 prev w next g <->
         exists n sp u,
           w = n ++ sp ++ u /\ RegexSem.number Patterns.is_sep n /\
           RegexSem.spaces sp /\ RegexSem.same_word (T "NOK") u /\
           Regex.at_boundary (Regex.last_char prev w) next = true /\ g = Some n) /\
        (RegexSem.matches p2 prev w next g <->
         exists u sp n,
           w = u ++ sp ++ n /\ RegexSem.same_word (T "kr") u /\
           RegexSem.spaces sp /\ RegexSem.number Patterns.is_sep n /\
           Regex.at_boundary prev (w ++ next) = true /\ g = Some n) /\
        (RegexSem.matches p3 prev w next g <->
         exists n sp u,
           w = n ++ sp ++ u /\ RegexSem.number Patterns.is_sep n /\
           RegexSem.spaces sp /\ RegexSem.same_word (T ",-") u /\ g = Some n)) /\
  (exists p0 p1 p2 p3 p4,
      Main.price_patterns = [(tt, p0); (tt, p1); (tt, p2); (tt, p3); (tt, p4)] /\
      forall prev w next g,
        (RegexSem.matches p0 prev w next g <->
         exists n sp u,
           w = n ++ sp ++ u /\ RegexSem.number Patterns.is_comma n /\
           RegexSem.spaces sp /\ RegexSem.same_word (T "kr") u /\ g = Some n) /\
        (RegexSem.matches p1 prev w next g <->
         exists n sp u,
           w = n ++ sp ++ u /\ RegexSem.number Patterns.is_comma n /\
           RegexSem.spaces sp /\ RegexSem.same_word (T "NOK") u /\ g = Some n) /\
        (RegexSem.matches p2 prev w next g <->
         exists u sp n,
           w = u ++ sp ++ n /\ RegexSem.same_word (T "kr") u /\
           RegexSem.spaces sp /\ RegexSem.number Patterns.is_comma n /\ g = Some n) /\
        (RegexSem.matches p3 prev w next g <->
         exists u sp n,
           w = u ++ sp ++ n /\ RegexSem.same_word (T "NOK") u /\
           RegexSem.spaces sp /\ RegexSem.number Patterns.is_comma n /\ g = Some n) /\
        (RegexSem.matches p4 prev w next g <->
         exists n sp u,
           w = n ++ sp ++ u /\ RegexSem.number Patterns.is_comma n /\
           RegexSem.spaces sp /\ RegexSem.same_word (T ",-") u /\ g = Some n)).
Proof.
  split; [|split; [|split; [|split; [|split; [|split]]]]].
  - intros i p. apply GreedyFacts.unified_price_first.
  - apply NormalizerFacts.unified_price_none.
  - intros i p. apply GreedyFacts.main_price_first.
  - apply NormalizerFacts.main_price_none.
  - apply TextFacts.clean_text_empty.
  - do 4 eexists. split; [reflexivity|]. intros prev w next g.
    split; [apply (PatternFacts.followed_word_shape Patterns.is_sep "k" (T "r"))|].
    split; [apply (PatternFacts.followed_word_shape Patterns.is_sep "N" (T "OK"))|].
    split; [apply (PatternFacts.preceded_word_shape Patterns.is_sep "k" (T "r"))|].
    apply (PatternFacts.followed_shape Patterns.is_sep "," (T "-")).
  - do 5 eexists. split; [reflexivity|]. intros prev w next g.
    split; [apply (PatternFacts.followed_shape Patterns.is_comma "k" (T "r"))|].
    split; [apply (PatternFacts.followed_shape Patterns.is_comma "N" (T "OK"))|].
    split; [apply (GreedyFacts.preceded_shape Patterns.is_comma "k" (T "r"))|].
    split; [apply (GreedyFacts.preceded_shape Patterns.is_comma "N" (T "OK"))|].
    apply (PatternFacts.followed_shape Patterns.is_comma "," (T "-")).
Qed.

(** On "kr 1299" the third pattern of [unified_parser.py] is the first
    that occurs; the number it reads there is 1299, not 1 or 12. *)
Lemma C2_extract_price_witness :
  (exists pre w n,
     RegexSem.first_number
       (Regex.Seq Regex.WordB (Patterns.preceded_by Patterns.kr Patterns.number_sep))
       (T "kr 1299") pre w n) /\
  (forall pre w n,
     RegexSem.first_number
       (Regex.Seq Regex.WordB (Patterns.preceded_by Patterns.kr Patterns.number_sep))
       (T "kr 1299") pre w n ->
     exists m, RegexSem.dotted Patterns.is_sep n m /\
               Unified.extract_price (T "kr 1299") = m ++ T " kr") /\
  Unified.extract_price (T "kr 1299") = T "1299 kr".
Proof.
  split; [|split; [|vm_compute; reflexivity]];
    apply (proj1 (C2_extract_price (T "kr 1299")) 2%nat).
  - discriminate.
  - reflexivity.
  - apply RegexFacts.search_occurs. eexists. vm_compute. reflexivity.
  - intros j q Hj Hq. apply RegexFacts.search_none.
    destruct j as [|[|j]]; [| |lia]; inversion Hq; subst q; vm_compute; reflexivity.
  - discriminate.
  - reflexivity.
  - apply RegexFacts.search_occurs. eexists. vm_compute. reflexivity.
  - intros j q Hj Hq. apply RegexFacts.search_none.
    destruct j as [|[|j]]; [| |lia]; inversion Hq; subst q; vm_compute; reflexivity.
Defined.

(** C2, the claim as it stands fails: a text made of a space is not empty,
    no pattern occurs in it, and the result is empty; [unified_parser.py]
    has no pattern for NOK before the number; [main.py] keeps the comma. *)
Lemma C2_counterexample :
  T " " <> [] /\
  first_match Unified.price_patterns (T " ") = None /\
  Unified.extract_price (T " ") = [] /\
  first_match Main.price_patterns (T " ") = None /\
  Main.extract_price (T " ") = [] /\
  Unified.extract_price (T "NOK 299") = T "NOK 299" /\
  Main.extract_price (T "12,5 kr") = T "12,5 kr".
Proof. repeat split; try discriminate; vm_compute; reflexivity. Qed.

(** C3.  A text that contains one of the unlimited keywords, in any letter
    case, gives "Unlimited", whatever else it contains: a number of GB, TB or
    MB around the keyword changes nothing. *)
Theorem C3_unlimited_first (s pre mid post k : text) :
  In k Unified.unlimited_keywords ->
  s = pre ++ mid ++ post ->
  Text.lower mid = k ->
  Unified.extract_data_amount s = T "Unlimited" /\
  Main.extract_data_amount s = T "Unlimited".
Proof.
  intros Hin Hs Hk.
  assert (Hne : s <> []).
  { intros E. rewrite E in Hs. symmetry in Hs.
    apply app_eq_nil in Hs as [_ Hs]. apply app_eq_nil in Hs as [Hm _].
    subst mid k. simpl in Hin. intuition discriminate. }
  unfold Unified.extract_data_amount, Main.extract_data_amount.
  rewrite (NormalizerFacts.falsy_false s Hne).
  change Main.unlimited_words with Unified.unlimited_keywords.
  rewrite (NormalizerFacts.unlimited_found _ s pre mid post k Hin Hs Hk).
  split; reflexivity.
Qed.

(** "100 GB, UBEGRENSET data": the keyword in capitals next to an amount. *)
Lemma C3_unlimited_first_witness :
  Unified.extract_data_amount (T "100 GB, UBEGRENSET data") = T "Unlimited" /\
  Main.extract_data_amount (T "100 GB, UBEGRENSET data") = T "Unlimited".
Proof.
  apply (C3_unlimited_first (T "100 GB, UBEGRENSET data")
           (T "100 GB, ") (T "UBEGRENSET") (T " data") (T "ubegrenset")).
  - left. reflexivity.
  - reflexivity.
  - reflexivity.
Defined.

(** ** Fetcher *)

Module FetcherFacts.
Import Fetcher.

Local Open Scope Z_scope.

Lemma total_sleep_get (a : Z) (evs : list event) :
  total_sleep (Get a :: evs) = total_sleep evs.
Proof. reflexivity. Qed.

Lemma total_sleep_sleep (d : Z) (evs : list event) :
  total_sleep (Sleep d :: evs) = d + total_sleep evs.
Proof. reflexivity. Qed.

Lemma attempts_fail (net : network) (n : Z) (k : nat) :
  forall a,
    (forall j, a <= j < a + Z.of_nat k -> is_failure (net j) = true) ->
    attempts net n a k =
      (flat_map (failed_step n) (map (fun i => a + Z.of_nat i) (seq 0 k)), None).
Proof.
  induction k as [|k IH]; intros a Hfail; [reflexivity|].
  cbn [attempts].
  assert (Ha : is_failure (net a) = true) by (apply Hfail; lia).
  assert (Hrest : attempts net n (a + 1) k =
                    (flat_map (failed_step n) (map (fun i => a + 1 + Z.of_nat i) (seq 0 k)), None)).
  { apply IH. intros j Hj. apply Hfail. lia. }
  assert (Hshift : map (fun i => a + Z.of_nat i) (seq 1 k)
                   = map (fun i => a + 1 + Z.of_nat i) (seq 0 k)).
  { rewrite <- seq_shift, map_map. apply map_ext. intros i. lia. }
  cbn [seq map flat_map]. rewrite Hshift, Z.add_0_r.
  unfold is_failure in Ha. destruct (content_of (net a)); [discriminate|].
  rewrite Hrest. cbn [fst snd]. unfold failed_step.
  rewrite <- app_comm_cons. reflexivity.
Qed.

Lemma gets_steps (n : Z) (l : list Z) : gets (flat_map (failed_step n) l) = l.
Proof.
  induction l as [|j l IH]; [reflexivity|].
  cbn [flat_map]. unfold gets in *. rewrite flat_map_app, IH.
  unfold failed_step. destruct (j <? n - 1); reflexivity.
Qed.

Lemma sleeps_steps (n : Z) (l : list Z) :
  sleeps (flat_map (failed_step n) l) =
    map (fun j => 2 ^ j) (List.filter (fun j => j <? n - 1) l).
Proof.
  induction l as [|j l IH]; [reflexivity|].
  cbn [flat_map List.filter]. unfold sleeps in *. rewrite flat_map_app, IH.
  unfold failed_step. destruct (j <? n - 1); reflexivity.
Qed.

(** The waits from attempt [a] on, when [k] attempts are left, add up to
    [2^(n-1) - 2^a]. *)
Lemma total_sleep_steps (n : Z) (k : nat) :
  forall a,
    0 <= a -> a + Z.of_nat k = n ->
    total_sleep (flat_map (failed_step n) (map (fun i => a + Z.of_nat i) (seq 0 k)))
    = match k with O => 0 | S _ => 2 ^ (n - 1) - 2 ^ a end.
Proof.
  induction k as [|k IH]; intros a Ha Hn; [reflexivity|].
  assert (Hshift : map (fun i => a + Z.of_nat i) (seq 1 k)
                   = map (fun i => a + 1 + Z.of_nat i) (seq 0 k)).
  { rewrite <- seq_shift, map_map. apply map_ext. intros i. lia. }
  cbn [seq map flat_map]. rewrite Hshift, Z.add_0_r.
  unfold failed_step at 1. rewrite <- app_comm_cons, total_sleep_get.
  destruct k as [|k].
  - assert (E : (a <? n - 1) = false) by (apply Z.ltb_ge; lia).
    rewrite E. cbn. replace (n - 1) with a by lia. lia.
  - assert (E : (a <? n - 1) = true) by (apply Z.ltb_lt; lia).
    rewrite E. cbn [app]. rewrite total_sleep_sleep, (IH (a + 1)) by lia.
    rewrite Z.pow_add_r by lia. lia.
Qed.

End FetcherFacts.

(** C6 (as amended).  When every attempt fails (a status other than 200, a
    timeout or another error), the fetcher makes exactly [max_retries]
    requests, the attempts 0, ..., [max_retries - 1]; after each failed
    attempt but the last it waits [2^attempt] seconds, and after the last it
    does not wait; the waits add up to [2^(max_retries - 1) - 1] seconds,
    which is 1 + 2 = 3 seconds for three attempts; and the result is [None],
    no exception. *)
Theorem C6_fetch_all_fail (net : Fetcher.network) (max_retries : Z) :
  (0 <= max_retries)%Z ->
  (forall a, (0 <= a < max_retries)%Z -> Fetcher.is_failure (net a) = true) ->
  let run := Fetcher.fetch_with_retry net max_retries in
  snd run = None /\
  fst run = flat_map (Fetcher.failed_step max_retries)
              (map Z.of_nat (seq 0 (Z.to_nat max_retries))) /\
  Fetcher.gets (fst run) = map Z.of_nat (seq 0 (Z.to_nat max_retries)) /\
  List.length (Fetcher.gets (fst run)) = Z.to_nat max_retries /\
  Fetcher.sleeps (fst run) =
    map (fun a => 2 ^ a)%Z
        (List.filter (fun a => a <? max_retries - 1)%Z
           (map Z.of_nat (seq 0 (Z.to_nat max_retries)))) /\
  Fetcher.total_sleep (fst run) =
    (if max_retries =? 0 then 0 else 2 ^ (max_retries - 1) - 1)%Z.
Proof.
  intros Hn Hfail run.
  assert (E : run = (flat_map (Fetcher.failed_step max_retries)
                       (map Z.of_nat (seq 0 (Z.to_nat max_retries))), None)).
  { unfold run, Fetcher.fetch_with_retry.
    rewrite (FetcherFacts.attempts_fail net max_retries (Z.to_nat max_retries) 0%Z).
    - reflexivity.
    - intros j Hj. apply Hfail. lia. }
  rewrite E. cbn [fst snd].
  split; [reflexivity|]. split; [reflexivity|].
  split; [apply FetcherFacts.gets_steps|].
  split; [rewrite FetcherFacts.gets_steps, length_map, length_seq; reflexivity|].
  split; [apply FetcherFacts.sleeps_steps|].
  change (map Z.of_nat (seq 0 (Z.to_nat max_retries)))
    with (map (fun i => 0 + Z.of_nat i)%Z (seq 0 (Z.to_nat max_retries))).
  rewrite FetcherFacts.total_sleep_steps by lia.
  destruct (Z.to_nat max_retries) eqn:Ek.
  - assert (max_retries = 0)%Z by lia. subst. reflexivity.
  - assert (Hpos : (max_retries =? 0)%Z = false) by (apply Z.eqb_neq; lia).
    rewrite Hpos. reflexivity.
Qed.

(** Three attempts that time out. *)
Lemma C6_fetch_all_fail_witness :
  let run := Fetcher.fetch_with_retry Fetcher.always_timeout 3 in
  snd run = None /\
  fst run = flat_map (Fetcher.failed_step 3) (map Z.of_nat (seq 0 (Z.to_nat 3))) /\
  Fetcher.gets (fst run) = map Z.of_nat (seq 0 (Z.to_nat 3)) /\
  List.length (Fetcher.gets (fst run)) = Z.to_nat 3 /\
  Fetcher.sleeps (fst run) =
    map (fun a => 2 ^ a)%Z
        (List.filter (fun a => a <? 3 - 1)%Z (map Z.of_nat (seq 0 (Z.to_nat 3)))) /\
  Fetcher.total_sleep (fst run) = (if 3 =? 0 then 0 else 2 ^ (3 - 1) - 1)%Z.
Proof.
  apply (C6_fetch_all_fail Fetcher.always_timeout 3).
  - lia.
  - intros a _. reflexivity.
Defined.

(** C6, the claim as it stands fails: with three attempts that time out the
    fetcher waits 1 and 2 seconds, 3 seconds in all and not 1 + 2 + 4. *)
Lemma C6_counterexample :
  let run := Fetcher.fetch_with_retry Fetcher.always_timeout 3 in
  fst run = [Fetcher.Get 0; Fetcher.Sleep 1; Fetcher.Get 1; Fetcher.Sleep 2; Fetcher.Get 2] /\
  snd run = None /\
  Fetcher.sleeps (fst run) = [1; 2]%Z /\
  Fetcher.total_sleep (fst run) = 3%Z /\
  Fetcher.total_sleep (fst run) <> (1 + 2 + 4)%Z.
Proof. cbv zeta. repeat split; try reflexivity. vm_compute. discriminate. Qed.


(** ** Structure Analyzer *)

Module AnalyzerFacts.
Import Text Dom Analyzer.

(** *** The values that a confidence takes *)

Lemma vec_In (ms : list nat) :
  List.Forall (fun m => (m < 7)%nat) ms -> In ms (vec (List.length ms)).
Proof.
  induction ms as [|m ms IH]; intros H; cbn [List.length vec].
  - left. reflexivity.
  - inversion H as [|? ? Hm Hms]; subst.
    apply in_flat_map. exists m. split.
    + apply in_seq. lia.
    + apply in_map. apply IH. exact Hms.
Qed.

Lemma keyword_matches_le (txt : text) :
  (keyword_matches txt <= 6)%nat.
Proof.
  unfold keyword_matches.
  change 6%nat with (List.length keywords). apply filter_length_le.
Qed.

Lemma counts_length (elements : list tag) :
  List.length (counts elements) = Nat.min (List.length elements) 3.
Proof.
  unfold counts. rewrite length_map, length_firstn. apply Nat.min_comm.
Qed.

Lemma counts_In (elements : list tag) : In (counts elements) vectors.
Proof.
  assert (Hall : List.Forall (fun m => (m < 7)%nat) (counts elements)).
  { unfold counts. apply List.Forall_forall. intros m Hm.
    apply in_map_iff in Hm as (e & <- & _).
    pose proof (keyword_matches_le (lower (get_text e))). lia. }
  pose proof (vec_In _ Hall) as Hin.
  pose proof (counts_length elements) as Hlen.
  unfold vectors. rewrite !in_app_iff.
  destruct (List.length (counts elements)) as [|[|[|[|n]]]]; [tauto|tauto|tauto|tauto|lia].
Qed.

Lemma fold_left_map_float (f : float -> nat -> float) (g : tag -> nat)
    (l : list tag) (a : float) :
  fold_left (fun acc e => f acc (g e)) l a = fold_left f (map g l) a.
Proof. revert a. induction l as [|e l IH]; intros a; simpl; [reflexivity|apply IH]. Qed.

(** The confidence is the score of the numbers of keywords. *)
Lemma confidence_score (elements : list tag) :
  calculate_container_confidence elements = score (counts elements).
Proof.
  destruct elements as [|e els]; [reflexivity|].
  unfold calculate_container_confidence, score.
  rewrite counts_length.
  rewrite (fold_left_map_float
             (fun acc m => (acc + float_of_nat m / float_of_nat 6)%float)
             (fun e => keyword_matches (lower (get_text e)))).
  fold (counts (e :: els)).
  destruct (counts (e :: els)) eqn:E; [discriminate|reflexivity].
Qed.

Lemma confidence_In (elements : list tag) :
  In (calculate_container_confidence elements) scores.
Proof.
  rewrite confidence_score. unfold scores. apply in_map. apply counts_In.
Qed.

Lemma all_pairs_In {A : Type} (f : A -> A -> bool) (l : list A) (x y : A) :
  all_pairs f l = true -> In x l -> In y l -> f x y = true.
Proof.
  unfold all_pairs. intros H Hx Hy.
  rewrite forallb_forall in H. specialize (H x Hx).
  rewrite forallb_forall in H. exact (H y Hy).
Qed.

Lemma all_scores_ok : forallb score_ok vectors = true.
Proof. vm_compute. reflexivity. Qed.

Lemma all_compare_ok : all_pairs compare_ok valued = true.
Proof. vm_compute. reflexivity. Qed.

Lemma score_facts (ms : list nat) :
  In ms vectors ->
  finite (score ms) = true /\
  PrimFloat.leb 0 (score ms) = true /\ PrimFloat.leb (score ms) 1 = true /\
  rational (score ms) == scaled (score ms) # 2 ^ 64 /\
  (0 <= scaled (score ms) <= 2 ^ 64)%Z /\
  Qabs (rational (score ms) - exact_score ms) <= 1 # 2 ^ 53.
Proof.
  intros Hin. pose proof (proj1 (forallb_forall _ _) all_scores_ok ms Hin) as H.
  unfold score_ok in H. cbv zeta in H. rewrite !andb_true_iff in H.
  destruct H as [[[[[[H1 H2] H3] H4] H5] H6] H7].
  apply Qeq_bool_iff in H4. apply Z.leb_le in H5, H6. apply Qle_bool_iff in H7.
  repeat split; assumption.
Qed.

Lemma rational_scaled (x : float) :
  In x scores -> rational x == scaled x # 2 ^ 64.
Proof.
  unfold scores. intros Hx. apply in_map_iff in Hx as (ms & <- & Hms).
  apply score_facts. exact Hms.
Qed.

Lemma Qlt_scaled (a b : Z) : a # 2 ^ 64 < b # 2 ^ 64 <-> (a < b)%Z.
Proof. unfold Qlt. cbn [Qnum Qden]. lia. Qed.

Lemma Qle_scaled (a b : Z) : a # 2 ^ 64 <= b # 2 ^ 64 <-> (a <= b)%Z.
Proof. unfold Qle. cbn [Qnum Qden]. lia. Qed.

(** On scores, [<] and [<=] of floats are those of the numbers. *)
Lemma compare_scores (x y : float) :
  In x scores -> In y scores ->
  (PrimFloat.ltb x y = true <-> rational x < rational y) /\
  (PrimFloat.leb x y = true <-> rational x <= rational y).
Proof.
  intros Hx Hy.
  pose proof (all_pairs_In compare_ok valued (x, scaled x) (y, scaled y)
                all_compare_ok
                (in_map (fun x => (x, scaled x)) scores x Hx)
                (in_map (fun x => (x, scaled x)) scores y Hy)) as H.
  unfold compare_ok in H. cbn [fst snd] in H. apply andb_prop in H as [H1 H2].
  apply Bool.eqb_prop in H1, H2.
  rewrite (rational_scaled x Hx), (rational_scaled y Hy), Qlt_scaled, Qle_scaled.
  rewrite H1, H2, Z.ltb_lt, Z.leb_le. tauto.
Qed.

(** The confidence as a number: between 0 and 1, and within [2^-53] of
    the exact score. *)
Lemma score_bounds (ms : list nat) :
  In ms vectors -> 0 <= rational (score ms) <= 1.
Proof.
  intros Hin. destruct (score_facts ms Hin) as (_ & _ & _ & E & [H0 H1] & _).
  rewrite E. unfold Qle. cbn [Qnum Qden]. split; lia.
Qed.

(** *** Sorting *)

Lemma insert_desc_perm (c : container) (l : list container) :
  Permutation (insert_desc c l) (c :: l).
Proof.
  induction l as [|d l IH]; simpl; [reflexivity|].
  destruct (PrimFloat.ltb (confidence c) (confidence d)); [|reflexivity].
  rewrite IH. apply perm_swap.
Qed.

Lemma sorted_desc_perm (l : list container) : Permutation (sorted_desc l) l.
Proof.
  induction l as [|c l IH]; simpl; [reflexivity|].
  rewrite insert_desc_perm, IH. reflexivity.
Qed.

Lemma sorted_desc_In (c : container) (l : list container) :
  In c (sorted_desc l) <-> In c l.
Proof.
  split; apply Permutation_in; [|symmetry]; apply sorted_desc_perm.
Qed.

Lemma scored_perm (l l' : list container) :
  Permutation l l' -> scored l -> scored l'.
Proof.
  unfold scored. intros Hp H. rewrite List.Forall_forall in *.
  intros c Hc. apply H. eapply Permutation_in; [symmetry; exact Hp|exact Hc].
Qed.

Lemma insert_desc_descending (c : container) (l : list container) :
  scored (c :: l) -> descending l -> descending (insert_desc c l).
Proof.
  unfold descending, scored. induction l as [|d l IH]; intros Hsc Hs; simpl.
  - constructor; constructor.
  - inversion Hsc as [|? ? Hc Hdl]; subst. inversion Hdl as [|? ? Hd Hl]; subst.
    destruct (compare_scores _ _ Hc Hd) as [Hlt _].
    inversion Hs as [|? ? Hs' Hall]; subst.
    destruct (PrimFloat.ltb (confidence c) (confidence d)) eqn:E.
    + assert (L : value c < value d) by (apply Hlt; reflexivity).
      constructor; [apply IH; [constructor; assumption|exact Hs']|].
      apply List.Forall_forall. intros x Hx.
      apply (Permutation_in _ (insert_desc_perm c l)) in Hx. destruct Hx as [<-|Hx].
      * apply Qlt_le_weak. exact L.
      * rewrite List.Forall_forall in Hall. apply Hall. exact Hx.
    + assert (L : value d <= value c).
      { apply Qnot_lt_le. intros L. apply Hlt in L. congruence. }
      constructor; [exact Hs|]. constructor; [exact L|].
      eapply Forall_impl; [exact Hall|]. intros x Hx. simpl in Hx.
      eapply Qle_trans; eassumption.
Qed.

Lemma sorted_desc_descending (l : list container) :
  scored l -> descending (sorted_desc l).
Proof.
  induction l as [|c l IH]; intros Hsc; simpl; [constructor|].
  inversion Hsc as [|? ? Hc Hl]; subst.
  apply insert_desc_descending.
  - constructor; [exact Hc|]. eapply scored_perm; [symmetry; apply sorted_desc_perm|exact Hl].
  - apply IH. exact Hl.
Qed.

(** The sort is stable: the candidates of one confidence keep their
    order. *)
Lemma insert_desc_stable (q : Q) (c : container) (l : list container) :
  scored (c :: l) ->
  with_confidence q (insert_desc c l) = with_confidence q (c :: l).
Proof.
  unfold with_confidence, scored. induction l as [|d l IH]; intros Hsc; simpl;
    [reflexivity|].
  inversion Hsc as [|? ? Hc Hdl]; subst. inversion Hdl as [|? ? Hd Hl]; subst.
  destruct (PrimFloat.ltb (confidence c) (confidence d)) eqn:E; [|reflexivity].
  simpl. rewrite IH by (constructor; assumption). simpl.
  destruct (Qeq_bool (value d) q) eqn:Ed;
    destruct (Qeq_bool (value c) q) eqn:Ec; try reflexivity.
  exfalso. apply Qeq_bool_iff in Ed, Ec.
  destruct (compare_scores _ _ Hc Hd) as [Hlt _]. apply Hlt in E.
  unfold value in Ed, Ec. rewrite Ed, Ec in E. apply (Qlt_irrefl _ E).
Qed.

Lemma sorted_desc_stable (q : Q) (l : list container) :
  scored l -> with_confidence q (sorted_desc l) = with_confidence q l.
Proof.
  induction l as [|c l IH]; intros Hsc; simpl; [reflexivity|].
  inversion Hsc as [|? ? Hc Hl]; subst.
  rewrite insert_desc_stable.
  - unfold with_confidence in *. simpl. rewrite IH by exact Hl. reflexivity.
  - constructor; [exact Hc|]. eapply scored_perm; [symmetry; apply sorted_desc_perm|exact Hl].
Qed.

(** What the loop collects: a pattern with two elements or more. *)
Lemma collect_In (soup : tag) (ps : list string) (c : container) :
  In c (collect soup ps) ->
  In (selector c) ps /\
  exists els,
    select soup (selector c) = Some els /\
    count c = List.length els /\ (2 <= List.length els)%nat /\
    confidence c = calculate_container_confidence els.
Proof.
  induction ps as [|p ps IH]; cbn [collect]; [intros []|].
  destruct (select soup p) as [els|] eqn:E.
  - destruct (2 <=? List.length els)%nat eqn:E2.
    + intros [<-|H].
      * cbn [selector count confidence]. split; [left; reflexivity|]. exists els.
        apply Nat.leb_le in E2. auto.
      * destruct (IH H) as [H1 H2]. split; [right; exact H1|exact H2].
    + intros H. destruct (IH H) as [H1 H2]. split; [right; exact H1|exact H2].
  - intros H. destruct (IH H) as [H1 H2]. split; [right; exact H1|exact H2].
Qed.

Lemma collect_scored (soup : tag) (ps : list string) : scored (collect soup ps).
Proof.
  unfold scored. apply List.Forall_forall. intros c Hc.
  apply collect_In in Hc as (_ & els & _ & _ & _ & ->). apply confidence_In.
Qed.

(** The candidates come in the order of the patterns. *)
Lemma collect_sublist (soup : tag) (ps : list string) :
  sublist (map selector (collect soup ps)) ps.
Proof.
  induction ps as [|p ps IH]; cbn [collect]; [constructor|].
  destruct (select soup p) as [els|].
  - destruct (2 <=? List.length els)%nat; cbn [map selector].
    + apply sublist_skip. exact IH.
    + apply sublist_cons. exact IH.
  - apply sublist_cons. exact IH.
Qed.

(** *** The confidence in exact arithmetic *)

Lemma fold_left_total (f : tag -> Q) (l : list tag) (acc : Q) :
  fold_left (fun a e => a + f e) l acc == acc + total (map f l).
Proof.
  revert acc. induction l as [|e l IH]; intros acc; simpl.
  - unfold total. simpl. ring.
  - rewrite IH. unfold total. simpl. ring.
Qed.

Lemma fraction_bounds (e : tag) : 0 <= fraction e <= 1.
Proof.
  unfold fraction.
  pose proof (keyword_matches_le (lower (get_text e))) as H.
  change (List.length keywords) with 6%nat in *.
  set (k := keyword_matches (lower (get_text e))) in *.
  split.
  - apply Qle_shift_div_l; [reflexivity|]. rewrite Qmult_0_l.
    change 0 with (inject_Z 0). rewrite <- Zle_Qle. lia.
  - apply Qle_shift_div_r; [reflexivity|]. rewrite Qmult_1_l.
    rewrite <- Zle_Qle. lia.
Qed.

Lemma total_bounds (qs : list Q) :
  (forall q, In q qs -> 0 <= q <= 1) ->
  0 <= total qs <= inject_Z (Z.of_nat (List.length qs)).
Proof.
  induction qs as [|q qs IH]; intros H.
  - simpl. split; apply Qle_refl.
  - destruct (H q (or_introl eq_refl)) as [H0 H1].
    destruct IH as [I0 I1]; [intros x Hx; apply H; right; exact Hx|].
    unfold total in *. cbn [fold_right List.length].
    rewrite Nat2Z.inj_succ, <- Z.add_1_l, inject_Z_plus.
    change (inject_Z 1) with 1.
    set (n := inject_Z (Z.of_nat (List.length qs))) in *.
    set (t := fold_right Qplus 0 qs) in *.
    clearbody n t. clear H. split; lra.
Qed.

Lemma average_bounds (qs : list Q) :
  (forall q, In q qs -> 0 <= q <= 1) -> 0 <= average qs <= 1.
Proof.
  intros H. destruct qs as [|q qs]; [split; [apply Qle_refl|discriminate]|].
  unfold average. destruct (total_bounds (q :: qs) H) as [H0 H1].
  set (n := inject_Z (Z.of_nat (List.length (q :: qs)))) in *.
  assert (Hn : 0 < n).
  { unfold n. change 0 with (inject_Z 0). rewrite <- Zlt_Qlt. simpl. lia. }
  split.
  - apply Qle_shift_div_l; [exact Hn|]. rewrite Qmult_0_l. exact H0.
  - apply Qle_shift_div_r; [exact Hn|]. rewrite Qmult_1_l. exact H1.
Qed.

Lemma firstn_length_min {A} (n : nat) (l : list A) :
  List.length (firstn n l) = Nat.min (List.length l) n.
Proof. rewrite length_firstn. apply Nat.min_comm. Qed.

Lemma average_nonempty (qs : list Q) :
  qs <> [] -> average qs = total qs / inject_Z (Z.of_nat (List.length qs)).
Proof. destruct qs; [congruence|reflexivity]. Qed.

(** Without rounding, the confidence is the average of the fractions of
    the first three elements. *)
Lemma exact_confidence_average (elements : list tag) :
  exact_confidence elements == average (map fraction (firstn 3 elements)).
Proof.
  destruct elements as [|e els]; [reflexivity|].
  rewrite average_nonempty by discriminate.
  unfold exact_confidence.
  rewrite fold_left_total, Qplus_0_l.
  rewrite length_map, firstn_length_min. reflexivity.
Qed.

Lemma exact_score_counts (elements : list tag) :
  exact_score (counts elements) = average (map fraction (firstn 3 elements)).
Proof.
  unfold exact_score, counts. rewrite map_map. reflexivity.
Qed.

End AnalyzerFacts.

(** *** The claims on the Structure Analyzer *)

(** C4 (as amended).  Every candidate that [_analyze_plan_containers] of
    [unified_parser.py] returns stands for a pattern that selects two
    elements or more, and its count is the number of those elements; a
    pattern that selects exactly one element gives no candidate there.  The
    survey of [several_site_analyzer.py] ([analyze_page]) lists in
    [potential_plan_containers] every selector that selects one element or
    more. *)
Theorem C4_candidates_repeat (soup : Dom.tag) :
  (forall c, In c (Analyzer.analyze_plan_containers soup) ->
     (2 <= Analyzer.count c)%nat /\
     exists els, Dom.select soup (Analyzer.selector c) = Some els /\
                 Analyzer.count c = List.length els) /\
  (forall p e, Dom.select soup p = Some [e] ->
     forall c, In c (Analyzer.analyze_plan_containers soup) ->
               Analyzer.selector c <> p) /\
  (forall c, In c (Survey.potential_plan_containers soup) ->
     (1 <= Survey.p_count c)%nat /\
     exists els, Dom.select soup (Survey.p_selector c) = Some els /\
                 Survey.p_count c = List.length els) /\
  (forall s e els, In s Survey.container_selectors ->
     Dom.select soup s = Some (e :: els) ->
     In (Survey.Potential s (S (List.length els)) (Text.prefix 100 (Dom.get_text e)))
        (Survey.potential_plan_containers soup)).
Proof.
  assert (H2 : forall c, In c (Analyzer.analyze_plan_containers soup) ->
     (2 <= Analyzer.count c)%nat /\
     exists els, Dom.select soup (Analyzer.selector c) = Some els /\
                 Analyzer.count c = List.length els).
  { intros c Hc. unfold Analyzer.analyze_plan_containers in Hc.
    apply (proj1 (AnalyzerFacts.sorted_desc_In _ _)) in Hc.
    apply AnalyzerFacts.collect_In in Hc as (_ & els & Hs & Hn & Hle & _).
    split; [lia|]. exists els. auto. }
  split; [exact H2|]. split; [|split].
  - intros p e Hp c Hc Heq. destruct (H2 c Hc) as (Hle & els & Hs & Hn).
    rewrite Heq, Hp in Hs. inversion Hs; subst els. simpl in Hn. lia.
  - unfold Survey.potential_plan_containers.
    induction Survey.container_selectors as [|s ss IH]; cbn [Survey.plan_containers];
      [intros c []|].
    intros c. destruct (Dom.select soup s) as [[|e els]|] eqn:E; try exact (IH c).
    intros [<-|Hin]; [|exact (IH c Hin)].
    cbn [Survey.p_count Survey.p_selector]. split; [simpl; lia|].
    exists (e :: els). auto.
  - unfold Survey.potential_plan_containers.
    induction Survey.container_selectors as [|s ss IH]; cbn [Survey.plan_containers];
      intros s0 e els Hin Hs; [destruct Hin|].
    destruct Hin as [->|Hin].
    + rewrite Hs. left. reflexivity.
    + destruct (Dom.select soup s) as [[|e' els']|]; try (eapply IH; eassumption).
      right. eapply IH; eassumption.
Qed.

(** The first candidate on the page with two plans and three products. *)
Lemma C4_candidates_repeat_witness :
  let c := nth 0 (Analyzer.analyze_plan_containers Samples.page_ties)
             (Analyzer.Container "" 0 [] 0) in
  (2 <= Analyzer.count c)%nat /\
  exists els, Dom.select Samples.page_ties (Analyzer.selector c) = Some els /\
              Analyzer.count c = List.length els.
Proof.
  apply (proj1 (C4_candidates_repeat Samples.page_ties)).
  vm_compute. left. reflexivity.
Defined.

(** C4, the claim as it stands fails for the survey: on a page with one
    element of class [card] it lists two selectors with one element each,
    where the analyzer of [unified_parser.py] returns nothing. *)
Lemma C4_counterexample :
  map (fun c => (Survey.p_selector c, Survey.p_count c))
      (Survey.potential_plan_containers Samples.page_single)
  = [(".card"%string, 1%nat); (Dom.attr_has "class" "card", 1%nat)] /\
  Analyzer.analyze_plan_containers Samples.page_single = [].
Proof. split; vm_compute; reflexivity. Qed.

(** C5 (as amended).  The list that [_analyze_plan_containers] returns is
    in descending order of confidence; it has the candidates that the loop
    collected, each once; and candidates of equal confidence keep the order
    in which the loop collected them, which is the order of the fixed list
    of patterns (the sort is stable and compares nothing but the
    confidence).  On the candidates, the comparison of the floats is the
    comparison of the numbers they are. *)
Theorem C5_sorted_stable (soup : Dom.tag) :
  let found := Analyzer.collect soup Analyzer.container_patterns in
  let l := Analyzer.analyze_plan_containers soup in
  Analyzer.descending l /\
  Permutation l found /\
  (forall q, Analyzer.with_confidence q l = Analyzer.with_confidence q found) /\
  sublist (map Analyzer.selector found) Analyzer.container_patterns /\
  (forall a b, In a l -> In b l ->
     (PrimFloat.ltb (Analyzer.confidence a) (Analyzer.confidence b) = true
      <-> Analyzer.value a < Analyzer.value b) /\
     (PrimFloat.leb (Analyzer.confidence a) (Analyzer.confidence b) = true
      <-> Analyzer.value a <= Analyzer.value b)).
Proof.
  cbv zeta. unfold Analyzer.analyze_plan_containers.
  pose proof (AnalyzerFacts.collect_scored soup Analyzer.container_patterns) as Hsc.
  split; [apply AnalyzerFacts.sorted_desc_descending; exact Hsc|].
  split; [apply AnalyzerFacts.sorted_desc_perm|].
  split; [intros q; apply AnalyzerFacts.sorted_desc_stable; exact Hsc|].
  split; [apply AnalyzerFacts.collect_sublist|].
  intros a b Ha Hb.
  apply (proj1 (AnalyzerFacts.sorted_desc_In _ _)) in Ha.
  apply (proj1 (AnalyzerFacts.sorted_desc_In _ _)) in Hb.
  unfold Analyzer.scored in Hsc. rewrite List.Forall_forall in Hsc.
  apply AnalyzerFacts.compare_scores; apply Hsc; assumption.
Qed.

(** C5, the claim as it stands fails: on a page with two elements of class
    [plan] and three of class [product] that all mention one keyword, the
    first two candidates have the same confidence and the one with fewer
    elements comes first. *)
Lemma C5_counterexample :
  exists a b rest,
    Analyzer.analyze_plan_containers Samples.page_ties = a :: b :: rest /\
    Analyzer.confidence a = Analyzer.confidence b /\
    Analyzer.value a == Analyzer.value b /\
    (Analyzer.count a < Analyzer.count b)%nat /\
    Analyzer.selector a = ".plan"%string /\
    Analyzer.selector b = ".product"%string.
Proof.
  do 3 eexists. split; [vm_compute; reflexivity|].
  split; [vm_compute; reflexivity|]. split; [vm_compute; reflexivity|].
  split; [vm_compute; lia|]. split; reflexivity.
Qed.

(** C9 (as amended).  The confidence is a finite float between 0 and 1,
    and it is within [2^-53] of the average, over the first three elements
    at most, of the fraction of the six keywords found in the lower-cased
    text of an element; it need not equal that average, which the
    expression of the code gives when it is read over the rationals, without
    rounding.  For no element it is 0. *)
Theorem C9_confidence (elements : list Dom.tag) :
  let c := Analyzer.calculate_container_confidence elements in
  let a := Analyzer.average (map Analyzer.fraction (firstn 3 elements)) in
  Analyzer.exact_confidence elements == a /\
  0 <= a <= 1 /\
  Analyzer.finite c = true /\
  PrimFloat.leb 0 c = true /\ PrimFloat.leb c 1 = true /\
  0 <= Analyzer.rational c <= 1 /\
  Qabs (Analyzer.rational c - a) <= 1 # 2 ^ 53 /\
  Analyzer.calculate_container_confidence [] = 0%float /\
  (List.length (firstn 3 elements) <= 3)%nat /\
  (forall e,
      Analyzer.fraction e
      == inject_Z (Z.of_nat
           (List.length
              (List.filter (fun k => Text.contains k (Text.lower (Dom.get_text e)))
                 Analyzer.keywords))) / 6 /\
      0 <= Analyzer.fraction e <= 1).
Proof.
  cbv zeta.
  assert (Hb : 0 <= Analyzer.average (map Analyzer.fraction (firstn 3 elements)) <= 1).
  { apply AnalyzerFacts.average_bounds. intros q Hq.
    apply in_map_iff in Hq as (e & <- & _). apply AnalyzerFacts.fraction_bounds. }
  pose proof (AnalyzerFacts.counts_In elements) as Hin.
  destruct (AnalyzerFacts.score_facts _ Hin) as (F1 & F2 & F3 & _ & _ & F6).
  pose proof (AnalyzerFacts.score_bounds _ Hin) as F4.
  rewrite AnalyzerFacts.exact_score_counts in F6.
  rewrite AnalyzerFacts.confidence_score.
  split; [apply AnalyzerFacts.exact_confidence_average|].
  split; [exact Hb|].
  repeat (split; [assumption|]).
  split; [reflexivity|]. split; [apply firstn_le_length|].
  intros e. split; [reflexivity|apply AnalyzerFacts.fraction_bounds].
Qed.

(** C9, the claim as it stands fails: for three elements with three, two
    and two of the six keywords the average is 7/18; the float that the
    code computes is 875699927544263 / 2^51, which is below 7/18 and is not
    the float nearest to 7/18 either. *)
Lemma C9_counterexample :
  let c := Analyzer.calculate_container_confidence Samples.three_plans in
  let a := Analyzer.average (map Analyzer.fraction (firstn 3 Samples.three_plans)) in
  Analyzer.counts Samples.three_plans = [3; 2; 2]%nat /\
  a == 7 # 18 /\
  Analyzer.rational c == 875699927544263 # 2 ^ 51 /\
  Analyzer.rational c < a /\
  ~ Analyzer.rational c == a /\
  PrimFloat.ltb c (7 / 18)%float = true /\
  PrimFloat.eqb c (7 / 18)%float = false.
Proof.
  cbv zeta.
  assert (Ea : Analyzer.average (map Analyzer.fraction (firstn 3 Samples.three_plans))
               == 7 # 18) by (vm_compute; reflexivity).
  assert (Ec : Analyzer.rational (Analyzer.calculate_container_confidence Samples.three_plans)
               == 875699927544263 # 2 ^ 51) by (vm_compute; reflexivity).
  split; [vm_compute; reflexivity|]. split; [exact Ea|]. split; [exact Ec|].
  split; [rewrite Ea, Ec; vm_compute; reflexivity|].
  split; [rewrite Ea, Ec; vm_compute; discriminate|].
  split; vm_compute; reflexivity.
Qed.

(** ** Consent detection *)

Module SurveyFacts.
Import Text Dom Survey.

Lemma flat_map_nonempty {A B : Type} (f : A -> list B) (l : list A) :
  flat_map f l <> [] <-> exists x, In x l /\ f x <> [].
Proof.
  induction l as [|a l IH]; simpl.
  - split; [congruence|intros (x & [] & _)].
  - split.
    + intros H. destruct (f a) eqn:E.
      * simpl in H. apply IH in H as (x & Hx & Hf). eauto.
      * exists a. split; [left; reflexivity|congruence].
    + intros (x & [->|Hx] & Hf) H; apply app_eq_nil in H as [H1 H2].
      * contradiction.
      * apply (proj2 IH); eauto.
Qed.

(** The number of hits: one for each entry of the three lists whose
    keyword occurs; "cookies" and "gdpr" stand in two lists. *)
Lemma found_keywords_length (page_text : text) :
  List.length (found_keywords page_text)
  = List.length (List.filter (fun k => contains (lower k) page_text) all_keywords).
Proof.
  unfold found_keywords, all_keywords.
  induction cookie_keywords as [|[lang ks] l IH]; [reflexivity|].
  cbn [flat_map]. rewrite length_app, List.filter_app, length_app, IH. f_equal.
  cbn [snd fst]. clear IH. induction ks as [|k ks IH]; [reflexivity|].
  cbn [flat_map List.filter].
  destruct (contains (lower k) page_text); cbn [app List.length]; [f_equal|]; exact IH.
Qed.

Lemma banners_found (soup : tag) :
  find_banners soup <> [] <->
  exists s els e,
    In s banner_containers_selectors /\ select soup s = Some els /\ In e els /\
    any_in all_keywords (lower (prefix 200 (strip (get_text e)))) = true.
Proof.
  unfold find_banners. rewrite flat_map_nonempty. split.
  - intros (s & Hs & Hne). destruct (select soup s) as [els|] eqn:E; [|congruence].
    apply flat_map_nonempty in Hne as (e & He & Hne).
    destruct (any_in all_keywords (lower (prefix 200 (strip (get_text e))))) eqn:Ek;
      [|congruence].
    exists s, els, e. auto.
  - intros (s & els & e & Hs & E & He & Hk). exists s. split; [exact Hs|].
    rewrite E. apply flat_map_nonempty. exists e. split; [exact He|].
    cbv zeta. rewrite Hk. discriminate.
Qed.

Lemma accepts_found (soup : tag) :
  find_accept_buttons soup <> [] <->
  exists s els e,
    In s accept_buttons_selectors /\ select soup s = Some els /\ In e els /\
    strip (get_text e) <> [] /\
    any_in affirmative (lower (strip (get_text e))) = true.
Proof.
  unfold find_accept_buttons. rewrite flat_map_nonempty. split.
  - intros (s & Hs & Hne). destruct (select soup s) as [els|] eqn:E; [|congruence].
    apply flat_map_nonempty in Hne as (e & He & Hne). cbv zeta in Hne.
    destruct (negb (falsy (strip (get_text e)))
              && any_in affirmative (lower (strip (get_text e)))) eqn:Ek; [|congruence].
    apply andb_prop in Ek as [E1 E2].
    exists s, els, e. repeat split; auto.
    intros E0. rewrite E0 in E1. discriminate.
  - intros (s & els & e & Hs & E & He & Hne & Hk). exists s. split; [exact Hs|].
    rewrite E. apply flat_map_nonempty. exists e. split; [exact He|].
    cbv zeta. rewrite Hk. destruct (strip (get_text e)); [congruence|]. discriminate.
Qed.

Lemma length_pos {A : Type} (l : list A) :
  (0 <? List.length l)%nat = true <-> l <> [].
Proof.
  destruct l; simpl; split; intros H; try discriminate; try reflexivity.
  exfalso. apply H. reflexivity.
Qed.

(** The patterns that [_detect_cookie_elements] of [unified_parser.py]
    keeps. *)
Lemma accept_detected (soup : tag) :
  Analyzer.detect_accept soup <> [] <->
  exists s els e,
    In s Analyzer.accept_patterns /\ select soup s = Some els /\ In e els /\
    any_in Analyzer.affirmative (lower (strip (get_text e))) = true.
Proof.
  unfold Analyzer.detect_accept.
  induction Analyzer.accept_patterns as [|p ps IH]; cbn [List.filter].
  - split; [congruence|]. intros (s & els & e & [] & _).
  - destruct (select soup p) as [els|] eqn:E.
    + destruct (existsb _ els) eqn:Ex.
      * split; [|discriminate]. intros _. apply existsb_exists in Ex as (e & He & Hk).
        exists p, els, e. split; [left; reflexivity|auto].
      * rewrite IH. split.
        -- intros (s & els' & e & Hs & H). exists s, els', e. split; [right; exact Hs|exact H].
        -- intros (s & els' & e & [<-|Hs] & Hsel & He & Hk); [|eauto 10].
           exfalso. rewrite E in Hsel. injection Hsel as <-.
           assert (Ht : existsb
                          (fun e => any_in Analyzer.affirmative (lower (strip (get_text e))))
                          els = true)
             by (apply existsb_exists; eauto).
           rewrite Ht in Ex. discriminate.
    + rewrite IH. split.
      * intros (s & els' & e & Hs & H). exists s, els', e. split; [right; exact Hs|exact H].
      * intros (s & els' & e & [<-|Hs] & Hsel & He & Hk); [congruence|eauto 10].
Qed.

Lemma banners_detected (soup : tag) :
  Analyzer.detect_banners soup <> [] <->
  exists s e els, In s Analyzer.banner_patterns /\ select soup s = Some (e :: els).
Proof.
  unfold Analyzer.detect_banners.
  induction Analyzer.banner_patterns as [|p ps IH]; cbn [List.filter].
  - split; [congruence|]. intros (s & e & els & [] & _).
  - destruct (select soup p) as [[|e els]|] eqn:E.
    + rewrite IH. split.
      * intros (s & e & els & Hs & H). exists s, e, els. split; [right; exact Hs|exact H].
      * intros (s & e & els & [<-|Hs] & Hsel); [congruence|eauto 10].
    + split; [|discriminate]. intros _. exists p, e, els. split; [left; reflexivity|exact E].
    + rewrite IH. split.
      * intros (s & e & els & Hs & H). exists s, e, els. split; [right; exact Hs|exact H].
      * intros (s & e & els & [<-|Hs] & Hsel); [congruence|eauto 10].
Qed.

End SurveyFacts.

(** C7 (as amended).  [detect_cookie_banner] returns whenever the query for
    the modal markers does, and then [detected] is true if and only if there
    are two keyword hits or more, or a banner element, or an accept button.
    A hit is an entry of the three keyword lists whose keyword occurs in the
    page text, so that a keyword that stands in two lists ("cookies", "gdpr")
    counts twice; a banner element is an element of a banner selector whose
    text has a consent keyword; an accept button is an element of an accept
    selector whose text has an affirmative word.  In [unified_parser.py],
    [has_cookie_banner] is true if and only if an accept pattern selects an
    element whose text has an affirmative word, or a banner pattern selects
    an element (whatever its text): the page text is not read, and keyword
    hits alone do not set the flag. *)
Theorem C7_detected (soup : Dom.tag) (page_text : text) :
  (forall m, Dom.select soup Survey.modal_selector = Some m ->
     exists info, Survey.detect_cookie_banner soup page_text = Some info) /\
  (forall info, Survey.detect_cookie_banner soup page_text = Some info ->
     (Survey.detected info = true <->
        (2 <= List.length (Survey.text_indicators info))%nat \/
        Survey.banner_elements info <> [] \/
        Survey.accept_buttons info <> []) /\
     List.length (Survey.text_indicators info)
     = List.length (List.filter (fun k => Text.contains (Text.lower k) page_text)
                      Survey.all_keywords) /\
     (Survey.banner_elements info <> [] <->
        exists s els e,
          In s Survey.banner_containers_selectors /\
          Dom.select soup s = Some els /\ In e els /\
          Text.any_in Survey.all_keywords
            (Text.lower (Text.prefix 200 (Text.strip (Dom.get_text e)))) = true) /\
     (Survey.accept_buttons info <> [] <->
        exists s els e,
          In s Survey.accept_buttons_selectors /\
          Dom.select soup s = Some els /\ In e els /\
          Text.strip (Dom.get_text e) <> [] /\
          Text.any_in Survey.affirmative
            (Text.lower (Text.strip (Dom.get_text e))) = true)) /\
  (Analyzer.has_cookie_banner soup = true <->
     (exists s els e,
        In s Analyzer.accept_patterns /\
        Dom.select soup s = Some els /\ In e els /\
        Text.any_in Analyzer.affirmative
          (Text.lower (Text.strip (Dom.get_text e))) = true) \/
     (exists s e els,
        In s Analyzer.banner_patterns /\ Dom.select soup s = Some (e :: els))).
Proof.
  split; [|split].
  - intros m Hm. unfold Survey.detect_cookie_banner. rewrite Hm. eauto.
  - intros info. unfold Survey.detect_cookie_banner.
    destruct (Dom.select soup Survey.modal_selector) as [m|]; [|discriminate].
    intros [= <-].
    cbn [Survey.detected Survey.text_indicators Survey.banner_elements
           Survey.accept_buttons].
    split; [|split; [apply SurveyFacts.found_keywords_length|
                     split; [apply SurveyFacts.banners_found|apply SurveyFacts.accepts_found]]].
    rewrite !orb_true_iff, !SurveyFacts.length_pos.
    destruct (List.length (Survey.found_keywords page_text)) as [|[|n]];
      intuition (try discriminate; try lia).
  - rewrite <- SurveyFacts.accept_detected, <- SurveyFacts.banners_detected.
    unfold Analyzer.has_cookie_banner. rewrite orb_true_iff.
    destruct (Analyzer.detect_accept soup), (Analyzer.detect_banners soup); simpl;
      split; intros [H|H]; try discriminate; try congruence; auto; try (left; discriminate);
      right; discriminate.
Qed.

(** On a page without markup for banners, two hits decide. *)
Lemma C7_detected_witness :
  exists info, Survey.detect_cookie_banner Samples.plain_page (T "<p>cookies</p>") = Some info.
Proof.
  exact (proj1 (C7_detected Samples.plain_page (T "<p>cookies</p>")) [] eq_refl).
Defined.

(** C7, the claim as it stands fails: in the text of the page [<p>gdpr</p>]
    one keyword occurs, there is no banner element and no accept button, and
    yet [detected] is true, because "gdpr" stands in two lists; and on the
    page [<p>cookies</p>], [has_cookie_banner] of [unified_parser.py] is
    false. *)
Lemma C7_counterexample :
  exists info,
    Survey.detect_cookie_banner Samples.plain_page (T "<p>gdpr</p>") = Some info /\
    Survey.detected info = true /\
    Survey.distinct_keywords_found (T "<p>gdpr</p>") = [T "gdpr"] /\
    Survey.banner_elements info = [] /\
    Survey.accept_buttons info = [] /\
    Analyzer.has_cookie_banner Samples.plain_page = false.
Proof.
  eexists. split; [vm_compute; reflexivity|].
  repeat split; vm_compute; reflexivity.
Qed.

(** ** The record loop of [fetch_and_process_page] and the enrichment *)

Module ScraperFacts.
Import Text Py Scraper.

(** The lookup of [scraper.py] never gives data: the call of
    [extract_trustpilot_data] with one argument raises inside the [try],
    as every other failure does, and the function returns the empty
    answer. *)
Lemma fetch_trustpilot_reviews_empty (provider_name : value) (arun : crawler) :
  fetch_trustpilot_reviews provider_name arun = Ret no_reviews.
Proof.
  unfold fetch_trustpilot_reviews, lookup, replace_of, extract_trustpilot_data_call.
  destruct (truthy provider_name); [|reflexivity]. cbn [negb].
  destruct provider_name as [|s|z]; cbn [bind try_except]; try reflexivity.
  destruct (arun _) as [r|]; cbn [bind try_except]; [|reflexivity].
  destruct (success r); reflexivity.
Qed.

Lemma process_record_dict (model_type today : text) (arun : crawler)
    (seen : gset value) (r : gmap string value) :
  process_record model_type today arun seen (Dict r) =
    if negb (truthy (name r)) || bool_decide (name r ∈ seen)
    then Ret None
    else Ret (Some (name r, enriched model_type today r)).
Proof.
  unfold process_record, name_of, Utils.is_duplicated, enriched. cbn [bind].
  fold (name r).
  destruct (negb (truthy (name r)) || bool_decide (name r ∈ seen)); [reflexivity|].
  destruct (text_eqb model_type mobile_service_provider); [|reflexivity].
  rewrite fetch_trustpilot_reviews_empty. reflexivity.
Qed.

Lemma keeps_spec (seen : gset value) (r : gmap string value) :
  keeps seen r = true <-> truthy (name r) = true /\ name r ∉ seen.
Proof.
  unfold keeps. rewrite andb_true_iff, negb_true_iff, bool_decide_eq_false. tauto.
Qed.

Lemma process_records_dict (model_type today : text) (arun : crawler)
    (seen : gset value) (r : gmap string value) (xs : list extracted) :
  process_records model_type today arun (Dict r :: xs) seen =
    if keeps seen r
    then (enriched model_type today r
            :: fst (process_records model_type today arun xs ({[name r]} ∪ seen)),
          snd (process_records model_type today arun xs ({[name r]} ∪ seen)))
    else process_records model_type today arun xs seen.
Proof.
  cbn [process_records]. rewrite process_record_dict. unfold keeps.
  destruct (truthy (name r)); cbn [negb orb andb]; [|reflexivity].
  destruct (bool_decide (name r ∈ seen)); reflexivity.
Qed.

Lemma process_records_other (model_type today : text) (arun : crawler)
    (seen : gset value) (xs : list extracted) :
  process_records model_type today arun (NotDict :: xs) seen =
    process_records model_type today arun xs seen.
Proof. reflexivity. Qed.

(** The loop writes four fields and leaves the others, the name among
    them, as they are. *)
Lemma enriched_other (model_type today : text) (r : gmap string value) (k : string) :
  ~ In k written -> enriched model_type today r !! k = r !! k.
Proof.
  intros Hk. unfold enriched, with_reviews.
  assert (H1 : "last_updated"%string <> k) by (intros <-; apply Hk; simpl; tauto).
  assert (H2 : "trustpilot_url"%string <> k) by (intros <-; apply Hk; simpl; tauto).
  assert (H3 : "trustpilot_reviews"%string <> k) by (intros <-; apply Hk; simpl; tauto).
  assert (H4 : "trustpilot_score"%string <> k) by (intros <-; apply Hk; simpl; tauto).
  rewrite lookup_insert_ne by exact H1.
  destruct (text_eqb model_type mobile_service_provider); [|reflexivity].
  rewrite !lookup_insert_ne by assumption. reflexivity.
Qed.

Lemma enriched_name (model_type today : text) (r : gmap string value) :
  name (enriched model_type today r) = name r.
Proof.
  unfold name, dict_get_or. rewrite enriched_other; [reflexivity|].
  simpl. intros H. repeat (destruct H as [H|H]; [discriminate|]). exact H.
Qed.


Section Loop.
Variables (model_type today : text) (arun : crawler).

Local Abbreviation run := (process_records model_type today arun).
Local Abbreviation enrich := (enriched model_type today).

Lemma names_kept (xs : list extracted) :
  forall seen n,
    In n (names (fst (run xs seen))) -> truthy n = true /\ n ∉ seen.
Proof.
  induction xs as [|[r|] xs IH]; intros seen n.
  - intros [].
  - rewrite process_records_dict. destruct (keeps seen r) eqn:K.
    + cbn [fst names map]. intros [<-|Hin].
      * rewrite enriched_name. apply keeps_spec. exact K.
      * destruct (IH _ _ Hin) as [Ht Hn]. split; [exact Ht|]. set_solver.
    + apply IH.
  - rewrite process_records_other. apply IH.
Qed.

Lemma names_nodup (xs : list extracted) :
  forall seen, List.NoDup (names (fst (run xs seen))).
Proof.
  induction xs as [|[r|] xs IH]; intros seen.
  - constructor.
  - rewrite process_records_dict. destruct (keeps seen r) eqn:K; [|apply IH].
    cbn [fst names map]. constructor; [|apply IH].
    rewrite enriched_name. intros Hin.
    destruct (names_kept _ _ _ Hin) as [_ Hn]. set_solver.
  - rewrite process_records_other. apply IH.
Qed.

Lemma seen_after (xs : list extracted) :
  forall seen, snd (run xs seen) = list_to_set (names (fst (run xs seen))) ∪ seen.
Proof.
  induction xs as [|[r|] xs IH]; intros seen.
  - cbn. set_solver.
  - rewrite process_records_dict. destruct (keeps seen r) eqn:K; [|apply IH].
    cbn [fst snd names map list_to_set]. rewrite IH, enriched_name.
    unfold names. set_solver.
  - rewrite process_records_other. apply IH.
Qed.

Lemma kept_in_order (xs : list extracted) :
  forall seen, sublist (fst (run xs seen)) (map enrich (dicts xs)).
Proof.
  induction xs as [|[r|] xs IH]; intros seen.
  - constructor.
  - rewrite process_records_dict. cbn [dicts flat_map app map].
    destruct (keeps seen r) eqn:K.
    + cbn [fst]. apply sublist_skip. apply IH.
    + apply sublist_cons. apply IH.
  - rewrite process_records_other. apply IH.
Qed.

Lemma first_kept (pre : list extracted) :
  forall seen r post,
    truthy (name r) = true -> name r ∉ seen ->
    ~ In (name r) (names (dicts pre)) ->
    In (enrich r) (fst (run (pre ++ Dict r :: post) seen)).
Proof.
  induction pre as [|[r0|] pre IH]; intros seen r post Ht Hn Hpre; cbn [app].
  - rewrite process_records_dict.
    rewrite (proj2 (keeps_spec seen r) (conj Ht Hn)). left. reflexivity.
  - rewrite process_records_dict.
    assert (Hne : name r <> name r0).
    { intros E. apply Hpre. cbn. left. symmetry. exact E. }
    assert (Hpre' : ~ In (name r) (names (dicts pre))).
    { intros H. apply Hpre. cbn. right. exact H. }
    destruct (keeps seen r0).
    + cbn [fst]. right. apply IH; auto. set_solver.
    + apply IH; auto.
  - rewrite process_records_other. apply IH; auto.
Qed.

Lemma kept_first (xs : list extracted) :
  forall seen r',
    In r' (fst (run xs seen)) ->
    exists pre r post,
      xs = pre ++ Dict r :: post /\ r' = enrich r /\
      truthy (name r) = true /\ (name r ∉ seen) /\
      ~ In (name r) (names (dicts pre)).
Proof.
  induction xs as [|[r0|] xs IH]; intros seen r'.
  - intros [].
  - rewrite process_records_dict. destruct (keeps seen r0) eqn:K.
    + cbn [fst]. intros [<-|Hin].
      * apply keeps_spec in K as [Ht Hn].
        exists [], r0, xs. repeat split; auto.
      * destruct (IH _ _ Hin) as (pre & r & post & -> & -> & Ht & Hn & Hpre).
        exists (Dict r0 :: pre), r, post. repeat split; auto; [set_solver|].
        cbn. intros [E|H]; [|contradiction]. set_solver.
    + intros Hin.
      destruct (IH _ _ Hin) as (pre & r & post & -> & -> & Ht & Hn & Hpre).
      exists (Dict r0 :: pre), r, post. repeat split; auto.
      cbn. intros [E|H]; [|contradiction].
      assert (K' : keeps seen r0 = true).
      { apply keeps_spec. rewrite E. auto. }
      congruence.
  - rewrite process_records_other. intros Hin.
    destruct (IH _ _ Hin) as (pre & r & post & -> & -> & Ht & Hn & Hpre).
    exists (NotDict :: pre), r, post. repeat split; auto.
Qed.

(** Two calls that share the set behave as one call on both lists. *)
Lemma run_app (xs ys : list extracted) :
  forall seen,
    run (xs ++ ys) seen =
      (fst (run xs seen) ++ fst (run ys (snd (run xs seen))),
       snd (run ys (snd (run xs seen)))).
Proof.
  induction xs as [|[r|] xs IH]; intros seen; cbn [app].
  - cbn [process_records fst snd app]. destruct (process_records _ _ _ ys seen).
    reflexivity.
  - rewrite !process_records_dict. destruct (keeps seen r); [|apply IH].
    cbn [fst snd]. rewrite IH. reflexivity.
  - rewrite !process_records_other. apply IH.
Qed.

End Loop.

End ScraperFacts.

Module OrchestratorFacts.
Import Py Orchestrator.

Lemma merge_unified_app {A : Type} (rs1 rs2 : list (result (list MobilePlan * A))) :
  merge_unified (rs1 ++ rs2) = merge_unified rs1 ++ merge_unified rs2.
Proof.
  induction rs1 as [|[[plans a]|e] rs1 IH]; cbn [app merge_unified];
    [reflexivity| |exact IH].
  rewrite IH, app_assoc. reflexivity.
Qed.

Lemma merge_main_app (rs1 rs2 : list (result (list MobilePlan))) :
  merge_main (rs1 ++ rs2) = merge_main rs1 ++ merge_main rs2.
Proof.
  induction rs1 as [|[plans|e] rs1 IH]; cbn [app merge_main];
    [reflexivity| |exact IH].
  rewrite IH, app_assoc. reflexivity.
Qed.

End OrchestratorFacts.

Module UtilsFacts.
Import Text Dom Py Utils.

Section Lookup.
Variable F : Type.
Variable py_float : text -> option F.
Variable parse : text -> tag.





(** One of the ways a card cannot be read: a rating that is not a
    number. *)
Lemma bad_rating (card e : tag) :
  select_one card rating_selector = Some (Some e) ->
  py_float (comma_to_dot (get_text e)) = None ->
  read_card F py_float card = Raise ValueError.
Proof.
  intros H1 H2. unfold read_card. rewrite H1. cbn [lift bind]. rewrite H2.
  reflexivity.
Qed.

End Lookup.

End UtilsFacts.

(** *** The claims on de-duplication and enrichment *)

(** C1 (as amended).  The record loop of [fetch_and_process_page] keeps one
    record at most for each name, among the names that the shared set
    [seen_names] did not hold: the first record with that name, in the order
    of the extracted list (a record without name is dropped); the set grows
    by the kept names, so that two calls on the same set act as one call on
    both lists.  The merge of [parse_all_operators] joins the lists of plans
    of the operators in the order of submission and drops nothing: plans
    with the same name all stay. *)
Theorem C1_first_seen_wins
    (model_type today : text) (arun : Scraper.crawler)
    (records more : list Scraper.extracted) (seen : gset Py.value) :
  let run := Scraper.process_records model_type today arun in
  let out := run records seen in
  List.NoDup (Scraper.names (fst out)) /\
  (forall n, In n (Scraper.names (fst out)) -> Py.truthy n = true /\ n ∉ seen) /\
  sublist (fst out) (map (Scraper.enriched model_type today) (Scraper.dicts records)) /\
  (forall pre r post,
      records = pre ++ Scraper.Dict r :: post ->
      Py.truthy (Scraper.name r) = true -> Scraper.name r ∉ seen ->
      ~ In (Scraper.name r) (Scraper.names (Scraper.dicts pre)) ->
      In (Scraper.enriched model_type today r) (fst out)) /\
  (forall r', In r' (fst out) ->
      exists pre r post,
        records = pre ++ Scraper.Dict r :: post /\
        r' = Scraper.enriched model_type today r /\
        Scraper.name r' = Scraper.name r /\
        ~ In (Scraper.name r) (Scraper.names (Scraper.dicts pre))) /\
  snd out = list_to_set (Scraper.names (fst out)) ∪ seen /\
  run (records ++ more) seen
  = (fst out ++ fst (run more (snd out)), snd (run more (snd out))) /\
  (forall (A : Type) (rs1 rs2 : list (Py.result (list Orchestrator.MobilePlan * A)))
          plans a e,
      Orchestrator.merge_unified (rs1 ++ Py.Ret (plans, a) :: rs2)
      = Orchestrator.merge_unified rs1 ++ plans ++ Orchestrator.merge_unified rs2 /\
      Orchestrator.merge_unified (rs1 ++ Py.Raise e :: rs2)
      = Orchestrator.merge_unified rs1 ++ Orchestrator.merge_unified rs2) /\
  (forall (rs1 rs2 : list (Py.result (list Orchestrator.MobilePlan))) plans e,
      Orchestrator.merge_main (rs1 ++ Py.Ret plans :: rs2)
      = Orchestrator.merge_main rs1 ++ plans ++ Orchestrator.merge_main rs2 /\
      Orchestrator.merge_main (rs1 ++ Py.Raise e :: rs2)
      = Orchestrator.merge_main rs1 ++ Orchestrator.merge_main rs2).
Proof.
  cbv zeta.
  split; [apply ScraperFacts.names_nodup|].
  split; [apply ScraperFacts.names_kept|].
  split; [apply ScraperFacts.kept_in_order|].
  split.
  { intros pre r post -> Ht Hn Hpre. apply ScraperFacts.first_kept; assumption. }
  split.
  { intros r' Hin.
    destruct (ScraperFacts.kept_first _ _ _ _ _ _ Hin)
      as (pre & r & post & E & -> & _ & _ & Hpre).
    exists pre, r, post. repeat split; auto. apply ScraperFacts.enriched_name. }
  split; [apply ScraperFacts.seen_after|].
  split; [apply ScraperFacts.run_app|].
  split.
  - intros A rs1 rs2 plans a e.
    rewrite !OrchestratorFacts.merge_unified_app. split; reflexivity.
  - intros rs1 rs2 plans e.
    rewrite !OrchestratorFacts.merge_main_app. split; reflexivity.
Qed.

(** The record ["Telia Frihet"] twice, with a record of another name in
    between: the first one is kept. *)
Lemma C1_first_seen_wins_witness :
  In (Scraper.enriched Scraper.mobile_service_provider (T "2025-06-01") Samples.record_a)
     (fst (Scraper.process_records Scraper.mobile_service_provider (T "2025-06-01")
             Samples.offline
             ([] ++ Scraper.Dict Samples.record_a
                 :: [Scraper.Dict Samples.record_b; Scraper.Dict Samples.record_a])
             ∅)).
Proof.
  refine (proj1 (proj2 (proj2 (proj2
            (C1_first_seen_wins Scraper.mobile_service_provider (T "2025-06-01")
               Samples.offline _ [] ∅))))
            [] Samples.record_a _ eq_refl _ _ _).
  - reflexivity.
  - apply not_elem_of_empty.
  - intros [].
Defined.

(** C1, the claim as it stands fails for the merge over the targets: when
    two operators both yield a plan named "Telia Frihet", the merged list
    has both. *)
Lemma C1_counterexample :
  map Orchestrator.name (Orchestrator.merge_unified Samples.two_targets)
  = [T "Telia Frihet"; T "Telia Frihet"] /\
  map Orchestrator.operator (Orchestrator.merge_unified Samples.two_targets)
  = [T "Telia"; T "Telenor"] /\
  map Orchestrator.name (Orchestrator.merge_main Samples.two_targets_main)
  = [T "Telia Frihet"; T "Telia Frihet"].
Proof. repeat split. Qed.

(** C10.  The test for a duplicate is membership of the name, as it was
    extracted, in the set of the names seen: two records whose names differ
    in any character, be it the case of a letter or a space around the name,
    do not exclude one another.  When neither name was seen before, both
    records are kept. *)
Theorem C10_exact_names
    (model_type today : text) (arun : Scraper.crawler) (seen : gset Py.value)
    (r1 r2 : gmap string Py.value) (n1 n2 : text) :
  r1 !! "name"%string = Some (Py.VStr n1) ->
  r2 !! "name"%string = Some (Py.VStr n2) ->
  n1 <> [] -> n2 <> [] -> n1 <> n2 ->
  (Utils.is_duplicated (Py.VStr n2) ({[Py.VStr n1]} ∪ seen)
   = Utils.is_duplicated (Py.VStr n2) seen) /\
  (Utils.is_duplicated (Py.VStr n1) seen = true <-> Py.VStr n1 ∈ seen) /\
  (Py.VStr n1 ∉ seen -> Py.VStr n2 ∉ seen ->
   Scraper.process_records model_type today arun [Scraper.Dict r1; Scraper.Dict r2] seen
   = ([Scraper.enriched model_type today r1; Scraper.enriched model_type today r2],
      {[Py.VStr n2]} ∪ ({[Py.VStr n1]} ∪ seen))).
Proof.
  intros H1 H2 Hn1 Hn2 Hne.
  assert (E1 : Scraper.name r1 = Py.VStr n1).
  { unfold Scraper.name, Py.dict_get_or. rewrite H1. reflexivity. }
  assert (E2 : Scraper.name r2 = Py.VStr n2).
  { unfold Scraper.name, Py.dict_get_or. rewrite H2. reflexivity. }
  assert (T1 : Py.truthy (Py.VStr n1) = true) by (destruct n1; [congruence|reflexivity]).
  assert (T2 : Py.truthy (Py.VStr n2) = true) by (destruct n2; [congruence|reflexivity]).
  split; [|split].
  - unfold Utils.is_duplicated. apply bool_decide_ext. set_solver.
  - unfold Utils.is_duplicated. apply bool_decide_eq_true.
  - intros S1 S2.
    rewrite ScraperFacts.process_records_dict.
    rewrite (proj2 (ScraperFacts.keeps_spec seen r1)) by (rewrite E1; auto).
    rewrite ScraperFacts.process_records_dict.
    rewrite (proj2 (ScraperFacts.keeps_spec _ r2)) by (rewrite E1, E2; split; [auto|set_solver]).
    rewrite E1, E2. reflexivity.
Qed.

(** "Telia Frihet" and "telia frihet " are two names. *)
Lemma C10_exact_names_witness :
  (Utils.is_duplicated (Py.VStr (T "telia frihet ")) ({[Py.VStr (T "Telia Frihet")]} ∪ ∅)
   = Utils.is_duplicated (Py.VStr (T "telia frihet ")) ∅) /\
  (Utils.is_duplicated (Py.VStr (T "Telia Frihet")) ∅ = true
   <-> Py.VStr (T "Telia Frihet") ∈ (∅ : gset Py.value)) /\
  (Py.VStr (T "Telia Frihet") ∉ (∅ : gset Py.value) ->
   Py.VStr (T "telia frihet ") ∉ (∅ : gset Py.value) ->
   Scraper.process_records Scraper.mobile_service_provider (T "2025-06-01")
     Samples.offline [Scraper.Dict Samples.record_a; Scraper.Dict Samples.record_b] ∅
   = ([Scraper.enriched Scraper.mobile_service_provider (T "2025-06-01") Samples.record_a;
       Scraper.enriched Scraper.mobile_service_provider (T "2025-06-01") Samples.record_b],
      {[Py.VStr (T "telia frihet ")]} ∪ ({[Py.VStr (T "Telia Frihet")]} ∪ ∅))).
Proof.
  apply (C10_exact_names Scraper.mobile_service_provider (T "2025-06-01")
           Samples.offline ∅ Samples.record_a Samples.record_b
           (T "Telia Frihet") (T "telia frihet ")).
  - reflexivity.
  - reflexivity.
  - discriminate.
  - discriminate.
  - discriminate.
Defined.




(** ** The models on the examples of the specification *)

Module Examples.

Example price_299 : Unified.extract_price (T "299 kr") = T "299 kr".
Proof. vm_compute. reflexivity. Qed.

Example price_thousands : Unified.extract_price (T "kr 1.099,-") = T "1.099 kr".
Proof. vm_compute. reflexivity. Qed.

Example price_comma : Unified.extract_price (T "Pris: 299,50 NOK/mnd") = T "299.50 kr".
Proof. vm_compute. reflexivity. Qed.

Example price_kroner : Unified.extract_price (T "299 kroner") = T "299 kroner".
Proof. vm_compute. reflexivity. Qed.

Example price_order :
  Unified.extract_price (T "kr 100 eller 200 kr") = T "200 kr".
Proof. vm_compute. reflexivity. Qed.

Example price_main_dot : Main.extract_price (T "12.5 kr") = T "5 kr".
Proof. vm_compute. reflexivity. Qed.

(** The number after the unit is read to its end. *)
Example price_greedy : Unified.extract_price (T "kr 1299") = T "1299 kr".
Proof. vm_compute. reflexivity. Qed.

Example price_main_nok : Main.extract_price (T "NOK 12,50") = T "12,50 kr".
Proof. vm_compute. reflexivity. Qed.

Example price_fallback : Unified.extract_price (T "  ring  oss ") = T "ring oss".
Proof. vm_compute. reflexivity. Qed.

Example data_50 : Unified.extract_data_amount (T "50 GB") = T "50 GB".
Proof. vm_compute. reflexivity. Qed.

Example data_decimal : Unified.extract_data_amount (T "1,5 gb/mnd") = T "1.5 gb".
Proof. vm_compute. reflexivity. Qed.

Example data_giga : Unified.extract_data_amount (T "5 giga") = T "5 GB".
Proof. vm_compute. reflexivity. Qed.

Example data_main : Main.extract_data_amount (T "10GB") = T "10GB".
Proof. vm_compute. reflexivity. Qed.

Example data_unlimited :
  Unified.extract_data_amount (T "Ubegrenset data, 100 GB i EU") = T "Unlimited".
Proof. vm_compute. reflexivity. Qed.

(** A response with status 200 on the second attempt. *)
Example fetch_second :
  Fetcher.fetch_with_retry
    (fun a => if (a =? 1)%Z then Fetcher.Response 200 (Some (T "<html>"))
              else Fetcher.Response 503 None) 3
  = ([Fetcher.Get 0; Fetcher.Sleep 1; Fetcher.Get 1], Some (T "<html>")).
Proof. vm_compute. reflexivity. Qed.

(** One card out of three has all six keywords, the others none. *)
Example confidence_third :
  Analyzer.calculate_container_confidence
    [Dom.leaf "div" [] ("Mobil abonnement: plan 10 GB, 199 kr per m"
                          +:+ String (ascii_of_N 229) "ned");
     Dom.leaf "div" [] "Les mer"; Dom.leaf "div" [] "Bestill"; Dom.leaf "div" [] "kr"]
  = (6 / 6 / 3)%float.
Proof. vm_compute. reflexivity. Qed.

(** The candidates of the page with two plans and three products. *)
Example candidates_ties :
  map (fun c => (Analyzer.selector c, Analyzer.count c))
      (Analyzer.analyze_plan_containers Samples.page_ties)
  = [(".plan"%string, 2%nat); (".product"%string, 3%nat);
     (Dom.attr_has "class" "plan", 2%nat); (Dom.attr_has "class" "product", 3%nat)].
Proof. vm_compute. reflexivity. Qed.

(** A record without name, a record seen before and something that is not
    an object are skipped. *)
Example loop_skips :
  fst (Scraper.process_records Scraper.mobile_service_provider (T "2025-06-01")
         Samples.offline
         [Scraper.Dict ∅; Scraper.NotDict; Scraper.Dict Samples.record_a;
          Scraper.Dict Samples.record_a]
         ∅)
  = [Scraper.enriched Scraper.mobile_service_provider (T "2025-06-01") Samples.record_a].
Proof. vm_compute. reflexivity. Qed.

(** An element with [role="alertdialog"] is no banner for
    [unified_parser.py]. *)
Example banner_alert :
  Dom.select Samples.alert_page (Dom.attr_has "role" "dialog")
  = Some [Dom.leaf "div" [] "Feil"] /\
  Analyzer.detect_banners Samples.alert_page = [] /\
  Analyzer.has_cookie_banner Samples.alert_page = false.
Proof. repeat split; vm_compute; reflexivity. Qed.

(** [int] skips a no-break space and rejects the separator U+001C. *)
Example int_spaces :
  Utils.py_int (T "12" ++ [ascii_of_N 160]) = Py.Ret 12%Z /\
  Utils.py_int (T "12" ++ [ascii_of_N 28]) = Py.Raise Py.ValueError /\
  Utils.py_int (T "1" ++ [ascii_of_N 160] ++ T "2") = Py.Raise Py.ValueError.
Proof. repeat split; vm_compute; reflexivity. Qed.

(** A page that cannot be closed. *)
Example close_raises :
  Utils.extract_trustpilot_data unit (fun _ => None) (fun _ => Samples.plain_page)
    (T "Telia") Samples.stuck
  = Py.Raise Py.RuntimeError /\
  Utils.extract_trustpilot_data unit (fun _ => None) (fun _ => Samples.plain_page)
    [] Samples.stuck
  = Py.Ret (Utils.no_data unit).
Proof. split; reflexivity. Qed.

End Examples.
(* ===================================================================== *)
(** * Further properties of the code *)
(* ===================================================================== *)

(** ** Whitespace normalisation *)

Module WordsFacts.
Import Text Words TextFacts.

(** A text that does not end with whitespace. *)
Local Abbreviation ends_ok u := (forall r c, u = r ++ [c] -> isspace c = false).

Lemma ends_ok_tail (c : ascii) (u : text) : ends_ok (c :: u) -> ends_ok u.
Proof. intros H r d ->. apply (H (c :: r) d). reflexivity. Qed.

Lemma ends_ok_nonempty (c : ascii) (u : text) :
  ends_ok (c :: u) -> isspace c = true -> u <> [].
Proof.
  intros H Hc ->. rewrite (H [] c eq_refl) in Hc. discriminate.
Qed.

Lemma sub_ws_space (s : text) :
  forall b c, In c (sub_ws b s) -> isspace c = true -> c = " "%char.
Proof.
  induction s as [|d s IH]; intros b c; simpl; [intros []|].
  destruct (isspace d) eqn:E.
  - destruct b; [apply IH|]. intros [<-|H]; [reflexivity|]. eapply IH. exact H.
  - intros [<-|H]; [congruence|]. eapply IH. exact H.
Qed.

Lemma sub_ws_head_true (s : text) :
  forall c r, sub_ws true s = c :: r -> isspace c = false.
Proof.
  induction s as [|d s IH]; intros c r; simpl; [discriminate|].
  destruct (isspace d) eqn:E; [apply IH|]. intros [= <- _]. exact E.
Qed.

Lemma sub_ws_adjacent (s : text) :
  forall b pre x y post,
    sub_ws b s = pre ++ x :: y :: post -> isspace x = true -> isspace y = false.
Proof.
  induction s as [|d s IH]; intros b pre x y post; simpl.
  - destruct pre; discriminate.
  - destruct (isspace d) eqn:E.
    + destruct b; [apply IH|].
      destruct pre as [|p pre]; simpl.
      * intros [= <- H] _. eapply sub_ws_head_true. exact H.
      * intros [= _ H]. eapply IH. exact H.
    + destruct pre as [|p pre]; simpl.
      * intros [= <- _] Hx. congruence.
      * intros [= _ H]. eapply IH. exact H.
Qed.

Lemma sub_ws_filter (s : text) :
  forall b, List.filter (fun c => negb (isspace c)) (sub_ws b s)
            = List.filter (fun c => negb (isspace c)) s.
Proof.
  induction s as [|d s IH]; intros b; simpl; [reflexivity|].
  destruct (isspace d) eqn:E; simpl.
  - destruct b; [apply IH|]. simpl. apply IH.
  - rewrite E. simpl. f_equal. apply IH.
Qed.

Lemma sub_ws_snoc (x : text) (d : ascii) :
  isspace d = false -> forall b, sub_ws b (x ++ [d]) = sub_ws b x ++ [d].
Proof.
  intros Hd. induction x as [|c x IH]; intros b; simpl.
  - rewrite Hd. reflexivity.
  - destruct (isspace c); [destruct b|]; rewrite IH; reflexivity.
Qed.

Lemma lstrip_head (s : text) :
  forall c r, lstrip s = c :: r -> isspace c = false.
Proof.
  induction s as [|d s IH]; intros c r; simpl; [discriminate|].
  destruct (isspace d) eqn:E; [apply IH|]. intros [= <- _]. exact E.
Qed.

Lemma lstrip_parts (s : text) :
  exists t, s = t ++ lstrip s /\ forallb isspace t = true.
Proof.
  induction s as [|d s (t & Ht & Hs)]; simpl.
  - exists []. split; reflexivity.
  - destruct (isspace d) eqn:E.
    + exists (d :: t). simpl. rewrite E, Hs. split; [f_equal; exact Ht|reflexivity].
    + exists []. split; reflexivity.
Qed.

Lemma lstrip_snoc (x : text) (c : ascii) :
  isspace c = false -> lstrip (x ++ [c]) = lstrip x ++ [c].
Proof.
  intros Hc. induction x as [|d x IH]; simpl.
  - rewrite Hc. reflexivity.
  - destruct (isspace d); [exact IH|reflexivity].
Qed.

Lemma strip_head (s : text) :
  forall c r, strip s = c :: r -> isspace c = false.
Proof.
  intros c r. unfold strip, rstrip.
  destruct (lstrip s) as [|d u] eqn:E; [discriminate|].
  pose proof (lstrip_head s d u E) as Hd.
  simpl rev. rewrite (lstrip_snoc _ _ Hd), rev_app_distr. simpl.
  intros [= <- _]. exact Hd.
Qed.

Lemma strip_last (s : text) :
  forall r c, strip s = r ++ [c] -> isspace c = false.
Proof.
  intros r c. unfold strip, rstrip. intros H.
  apply (f_equal (@rev ascii)) in H. rewrite rev_involutive, rev_app_distr in H.
  simpl in H. eapply lstrip_head. exact H.
Qed.

Lemma strip_parts (s : text) :
  exists a b, s = a ++ strip s ++ b /\
              forallb isspace a = true /\ forallb isspace b = true.
Proof.
  destruct (lstrip_parts s) as (a & Ha & Hsa).
  destruct (lstrip_parts (rev (lstrip s))) as (t & Ht & Hst).
  exists a, (rev t). split; [|split; [exact Hsa|rewrite forallb_rev; exact Hst]].
  unfold strip, rstrip. rewrite <- rev_app_distr, <- Ht, rev_involutive. exact Ha.
Qed.

Lemma filter_spaces (t : text) :
  forallb isspace t = true -> List.filter (fun c => negb (isspace c)) t = [].
Proof.
  induction t as [|c t IH]; simpl; [reflexivity|].
  intros H. apply andb_prop in H as [Hc Ht]. rewrite Hc. simpl. auto.
Qed.

Lemma strip_filter (s : text) :
  List.filter (fun c => negb (isspace c)) (strip s)
  = List.filter (fun c => negb (isspace c)) s.
Proof.
  destruct (strip_parts s) as (a & b & E & Ha & Hb).
  rewrite E at 2. rewrite !List.filter_app, (filter_spaces a Ha), (filter_spaces b Hb).
  rewrite app_nil_r. reflexivity.
Qed.

(** *** Splitting into words *)

Lemma join_cons (sep a : text) (l : list text) :
  l <> [] -> join sep (a :: l) = a ++ sep ++ join sep l.
Proof. destruct l; [congruence|reflexivity]. Qed.

Lemma split_from_spaces (t : text) :
  forallb isspace t = true ->
  forall w, split_from w t = if falsy w then [] else [w].
Proof.
  induction t as [|c t IH]; intros H w; simpl; [reflexivity|].
  simpl in H. apply andb_prop in H as [Hc Ht]. rewrite Hc, (IH Ht []). reflexivity.
Qed.

Lemma split_from_trailing (s t : text) :
  forallb isspace t = true ->
  forall w, split_from w (s ++ t) = split_from w s.
Proof.
  intros Ht. induction s as [|c s IH]; intros w; simpl.
  - apply split_from_spaces. exact Ht.
  - rewrite !IH. reflexivity.
Qed.

Lemma split_leading (t s : text) :
  forallb isspace t = true -> split_from [] (t ++ s) = split_from [] s.
Proof.
  induction t as [|c t IH]; simpl; [reflexivity|].
  intros H. apply andb_prop in H as [Hc Ht]. rewrite Hc. auto.
Qed.

Lemma split_strip (s : text) : split (strip s) = split s.
Proof.
  destruct (strip_parts s) as (a & b & E & Ha & Hb). unfold split.
  rewrite E at 2. rewrite (split_leading a _ Ha), (split_from_trailing _ b Hb).
  reflexivity.
Qed.

Lemma split_from_words (u : text) :
  forall w, split_from w u = [] -> w = [] /\ forallb isspace u = true.
Proof.
  induction u as [|c u IH]; intros w; simpl.
  - destruct w; [auto|discriminate].
  - destruct (isspace c) eqn:E; simpl.
    + destruct w; simpl; [|discriminate]. intros H. destruct (IH _ H). auto.
    + intros H. destruct (IH _ H) as [K _]. destruct w; discriminate.
Qed.

Lemma ends_ok_split (u : text) :
  u <> [] -> ends_ok u -> split_from [] u <> [].
Proof.
  intros Hne He H. apply split_from_words in H as [_ H].
  destruct (exists_last Hne) as (r & c & ->).
  rewrite forallb_app in H. apply andb_prop in H as [_ H]. simpl in H.
  rewrite (He r c eq_refl) in H. discriminate.
Qed.

(** Collapsing the whitespace of a text that does not end with whitespace
    is joining its words. *)
Lemma sub_ws_join (u : text) :
  ends_ok u ->
  sub_ws true u = join (T " ") (split_from [] u) /\
  forall w,
    (w = [] -> forall c r, u = c :: r -> isspace c = false) ->
    w ++ sub_ws false u = join (T " ") (split_from w u).
Proof.
  induction u as [|c u IH]; intros He.
  - split; [reflexivity|]. intros w _. simpl. rewrite app_nil_r.
    destruct w; reflexivity.
  - destruct (IH (ends_ok_tail _ _ He)) as [IH1 IH2]. cbn [sub_ws split_from app].
    destruct (isspace c) eqn:E.
    + split; [exact IH1|]. intros w Hw.
      destruct w as [|x w]; [rewrite (Hw eq_refl c u eq_refl) in E; discriminate|].
      cbn [falsy].
      rewrite join_cons
        by (apply ends_ok_split; [eapply ends_ok_nonempty; eauto|eapply ends_ok_tail; eauto]).
      rewrite <- IH1. reflexivity.
    + split.
      * rewrite <- (IH2 [c]); [reflexivity|discriminate].
      * intros w _. rewrite <- (IH2 (w ++ [c])).
        -- rewrite <- app_assoc. reflexivity.
        -- destruct w; discriminate.
Qed.

Lemma clean_text_words (s : text) :
  clean_text s = join (T " ") (split s).
Proof.
  unfold clean_text. destruct s as [|c s]; [reflexivity|]. cbn [falsy].
  rewrite <- split_strip. unfold split.
  destruct (sub_ws_join (strip (c :: s)) (strip_last (c :: s))) as [_ H].
  rewrite <- (H []); [reflexivity|]. intros _. apply strip_head.
Qed.

(** *** The normal form *)

Lemma spaced_sub_ws (r : text) :
  forall a i, (i = true -> a = true) -> spaced a r = true -> sub_ws i r = r.
Proof.
  induction r as [|c r IH]; intros a i Hi; simpl; [reflexivity|].
  destruct (isspace c) eqn:E.
  - intros H. apply andb_prop in H as [H Hr]. apply andb_prop in H as [Ha Hc].
    apply negb_true_iff in Ha. apply Ascii.eqb_eq in Hc. subst c.
    destruct i; [rewrite Hi in Ha by reflexivity; discriminate|].
    f_equal. eapply IH; [|exact Hr]. auto.
  - intros H. f_equal. eapply IH; [|exact H]. discriminate.
Qed.

Lemma spaced_last (x : text) (c : ascii) :
  forall a, spaced a (x ++ [c]) = true -> isspace c = false.
Proof.
  induction x as [|d x IH]; intros a; simpl.
  - destruct (isspace c); [|reflexivity]. rewrite !andb_false_r. discriminate.
  - destruct (isspace d).
    + intros H. apply andb_prop in H as [_ H]. eapply IH. exact H.
    + apply IH.
Qed.

Lemma normalized_strip (r : text) : normalized r = true -> strip r = r.
Proof.
  destruct r as [|c r]; [reflexivity|]. unfold normalized. intros H.
  assert (Hc : isspace c = false).
  { simpl in H. destruct (isspace c); [discriminate|reflexivity]. }
  unfold strip. cbn [lstrip]. rewrite Hc. unfold rstrip.
  assert (Hne : c :: r <> []) by discriminate.
  destruct (exists_last Hne) as (x & d & E). rewrite E in *.
  rewrite rev_app_distr. simpl. rewrite (spaced_last _ _ _ H).
  simpl. rewrite rev_involutive. reflexivity.
Qed.

Lemma spaced_collapsed (u : text) :
  ends_ok u ->
  (u <> [] -> spaced true (sub_ws true u) = true) /\
  spaced false (sub_ws false u) = true.
Proof.
  induction u as [|c u IH]; intros He; [split; [congruence|reflexivity]|].
  destruct (IH (ends_ok_tail _ _ He)) as [IH1 IH2]. simpl.
  destruct (isspace c) eqn:E.
  - assert (Hu : u <> []) by (eapply ends_ok_nonempty; eauto).
    split; [intros _; auto|]. simpl. rewrite (IH1 Hu). reflexivity.
  - simpl. rewrite E. split; [intros _|]; exact IH2.
Qed.

Lemma normalized_clean (s : text) : normalized (clean_text s) = true.
Proof.
  unfold clean_text. destruct s as [|c0 s0]; [reflexivity|]. cbn [falsy].
  pose proof (strip_head (c0 :: s0)) as Hh. pose proof (strip_last (c0 :: s0)) as Hl.
  destruct (strip (c0 :: s0)) as [|d t]; [reflexivity|].
  pose proof (Hh d t eq_refl) as Hd. simpl. rewrite Hd. simpl. rewrite Hd.
  apply spaced_collapsed. eapply ends_ok_tail. exact Hl.
Qed.

Lemma clean_normalized (r : text) : normalized r = true -> clean_text r = r.
Proof.
  intros H. unfold clean_text. destruct r as [|c r]; [reflexivity|]. cbn [falsy].
  rewrite (normalized_strip _ H). eapply spaced_sub_ws; [|exact H]. discriminate.
Qed.

End WordsFacts.

(** X1.  The text that [_clean_text] returns has no whitespace at either
    end, no whitespace character other than the space, and no two spaces in
    a row; its characters that are not whitespace are those of the input, in
    the same order. *)
Theorem X1_clean_text_shape (s : text) :
  let r := clean_text s in
  (forall c, In c r -> Text.isspace c = true -> c = " "%char) /\
  (forall c r', r = c :: r' -> Text.isspace c = false) /\
  (forall r' c, r = r' ++ [c] -> Text.isspace c = false) /\
  (forall pre x y post,
      r = pre ++ x :: y :: post -> Text.isspace x = true -> Text.isspace y = false) /\
  List.filter (fun c => negb (Text.isspace c)) r
  = List.filter (fun c => negb (Text.isspace c)) s.
Proof.
  cbv zeta. unfold clean_text. destruct s as [|c0 s0].
  { cbn [Text.falsy]. repeat split; try (intros; exfalso).
    - contradiction.
    - discriminate.
    - destruct r'; discriminate.
    - destruct pre; discriminate. }
  cbn [Text.falsy]. set (s := c0 :: s0).
  split; [apply WordsFacts.sub_ws_space|].
  split.
  { intros c r' H. pose proof (WordsFacts.strip_head s) as Hh.
    destruct (Text.strip s) as [|d t]; [discriminate|].
    pose proof (Hh d t eq_refl) as Hd. simpl in H. rewrite Hd in H.
    inversion H; subst. exact Hd. }
  split.
  { intros r' c H. pose proof (WordsFacts.strip_last s) as Hl.
    destruct (Text.strip s) as [|d t] eqn:E; [destruct r'; discriminate|].
    assert (Hne : d :: t <> []) by discriminate.
    destruct (exists_last Hne) as (x & e & Ex). rewrite Ex in *.
    pose proof (Hl x e eq_refl) as He.
    rewrite (WordsFacts.sub_ws_snoc _ _ He) in H.
    apply app_inj_tail in H as [_ <-]. exact He. }
  split; [apply WordsFacts.sub_ws_adjacent|].
  rewrite WordsFacts.sub_ws_filter. apply WordsFacts.strip_filter.
Qed.

(** X2.  [_clean_text] is idempotent, and the texts it leaves unchanged
    are exactly the normalised ones: words separated by one space each. *)
Theorem X2_clean_text_idempotent (s : text) :
  clean_text (clean_text s) = clean_text s /\
  (clean_text s = s <-> Words.normalized s = true).
Proof.
  split.
  - apply WordsFacts.clean_normalized, WordsFacts.normalized_clean.
  - split.
    + intros H. rewrite <- H. apply WordsFacts.normalized_clean.
    + apply WordsFacts.clean_normalized.
Qed.

(** X3.  The sample of the page text in [analyze_page], that is
    [' '.join(text.split())], is the text that [_clean_text] gives; the
    sample kept is that text when it has 500 characters at most, and
    otherwise its first 500 characters followed by three dots, 503
    characters in all. *)
Theorem X3_text_content_sample (text_content : text) :
  let clean := clean_text text_content in
  Words.join (T " ") (Words.split text_content) = clean /\
  ((List.length clean <= 500)%nat -> Words.text_content_sample text_content = clean) /\
  ((500 < List.length clean)%nat ->
     Words.text_content_sample text_content = firstn 500 clean ++ T "..." /\
     List.length (Words.text_content_sample text_content) = 503%nat) /\
  (List.length (Words.text_content_sample text_content) <= 503)%nat.
Proof.
  cbv zeta. unfold Words.text_content_sample.
  rewrite <- WordsFacts.clean_text_words.
  split; [reflexivity|].
  destruct (500 <? List.length (clean_text text_content))%nat eqn:E.
  - apply Nat.ltb_lt in E. split; [lia|].
    assert (L : List.length (Text.prefix 500 (clean_text text_content) ++ T "...") = 503%nat).
    { rewrite length_app. unfold Text.prefix. rewrite firstn_length_le by lia. reflexivity. }
    split; [intros _; split; [reflexivity|exact L]|]. rewrite L. lia.
  - apply Nat.ltb_ge in E. split; [reflexivity|]. split; [lia|lia].
Qed.

(** ** The data amount *)

Module AmountFacts.
Import Text Regex RegexSem Patterns TextFacts RegexFacts NormalizerFacts PatternFacts.
Import GreedyFacts.

Lemma matches_integer prev w next g :
  matches integer prev w next g <-> digits w /\ g = Some w.
Proof.
  unfold integer, digits. split.
  - intros H. inv_matches. auto.
  - intros ([Hne Hd] & ->). apply (M_grp _ _ _ _ None). constructor; assumption.
Qed.

(** The digits, whitespace and the unit at the end of a word:
    [(\d+)\s*unit\b]. *)
Lemma integer_word_shape (c : ascii) (w0 : text) prev w next g :
  matches (Seq (followed_by integer (lits c w0)) WordB) prev w next g <->
  exists n sp u,
    w = n ++ sp ++ u /\ digits n /\ spaces sp /\ same_word (c :: w0) u /\
    at_boundary (last_char prev w) next = true /\ g = Some n.
Proof.
  rewrite matches_seq. split.
  - intros (w1 & w2 & g1 & g2 & -> & H1 & H2 & ->).
    apply matches_wordb in H2 as (-> & Hb & ->). rewrite app_nil_l in H1.
    unfold followed_by in H1.
    apply matches_seq in H1 as (n & w2 & g1' & g2 & -> & H1 & H2 & ->).
    apply matches_integer in H1 as [Hn ->].
    apply matches_seq in H2 as (sp & u & g3 & g4 & -> & H3 & H4 & ->).
    apply matches_ws in H3 as [Hsp ->]. apply matches_lits in H4 as [Hu ->].
    exists n, sp, u. rewrite app_nil_r. auto 10.
  - intros (n & sp & u & -> & Hn & Hsp & Hu & Hb & ->).
    exists (n ++ sp ++ u), [], (Some n), None. rewrite app_nil_r, app_nil_l.
    split; [reflexivity|]. split; [|split; [apply matches_wordb; auto|reflexivity]].
    unfold followed_by. apply matches_seq.
    exists n, (sp ++ u), (Some n), None. split; [reflexivity|].
    split; [apply matches_integer; auto|]. split; [|reflexivity].
    apply matches_seq. exists sp, u, None, None. split; [reflexivity|].
    split; [apply matches_ws; auto|]. split; [|reflexivity].
    apply matches_lits. auto.
Qed.

Lemma integer_shape (c : ascii) (w0 : text) prev w next g :
  matches (followed_by integer (lits c w0)) prev w next g <->
  exists n sp u,
    w = n ++ sp ++ u /\ digits n /\ spaces sp /\ same_word (c :: w0) u /\ g = Some n.
Proof.
  unfold followed_by. rewrite matches_seq. split.
  - intros (n & w2 & g1' & g2 & -> & H1 & H2 & ->).
    apply matches_integer in H1 as [Hn ->].
    apply matches_seq in H2 as (sp & u & g3 & g4 & -> & H3 & H4 & ->).
    apply matches_ws in H3 as [Hsp ->]. apply matches_lits in H4 as [Hu ->].
    exists n, sp, u. auto 10.
  - intros (n & sp & u & -> & Hn & Hsp & Hu & ->).
    exists n, (sp ++ u), (Some n), None. split; [reflexivity|].
    split; [apply matches_integer; auto|]. split; [|reflexivity].
    apply matches_seq. exists sp, u, None, None. split; [reflexivity|].
    split; [apply matches_ws; auto|]. split; [|reflexivity].
    apply matches_lits. auto.
Qed.

Lemma last2_app (x u : text) :
  List.length u = 2%nat -> Unified.last2 (x ++ u) = u.
Proof.
  intros H. unfold Unified.last2. rewrite length_app, H.
  replace (List.length x + 2 - 2)%nat with (List.length x + 0)%nat by lia.
  rewrite skipn_app, Nat.add_0_r, skipn_all, Nat.sub_diag. reflexivity.
Qed.

Lemma digits_number (sep : ascii -> bool) (n : text) : digits n -> number sep n.
Proof. intros H. left. exact H. Qed.

(** A word written in small letters is what its spellings in any case
    become in lower case. *)
Lemma same_word_lower (lit u : text) :
  lower lit = lit -> same_word lit u -> lower u = lit.
Proof. unfold same_word, lower. intros Hl H. rewrite H. exact Hl. Qed.

Lemma keyword_absent (ks : list text) (s pre mid post k : text) :
  any_in ks (lower s) = false ->
  In k ks -> s = pre ++ mid ++ post -> lower mid = k -> False.
Proof.
  intros Hno Hin Hs Hk.
  rewrite (unlimited_found ks s pre mid post k Hin Hs Hk) in Hno. discriminate.
Qed.

Lemma matches_alt (r1 r2 : re) prev w next g :
  matches (Alt r1 r2) prev w next g <->
  matches r1 prev w next g \/ matches r2 prev w next g.
Proof.
  split.
  - intros H. inversion H; subst; auto.
  - intros [H|H]; [apply M_alt_l|apply M_alt_r]; exact H.
Qed.

(** What the pattern [ubegrenset|unlimited|fri\s*data] reads. *)
Lemma unlimited_shape prev w next g :
  matches Main.unlimited_pattern prev w next g ->
  same_word (T "ubegrenset") w \/ same_word (T "unlimited") w \/
  exists a sp b,
    w = a ++ sp ++ b /\ same_word (T "fri") a /\ spaces sp /\ same_word (T "data") b.
Proof.
  unfold Main.unlimited_pattern. rewrite !matches_alt. intros [H1|[H2|H2]].
  - left. apply (matches_lits "u" (T "begrenset")) in H1 as [H1 _]. exact H1.
  - right. left. apply (matches_lits "u" (T "nlimited")) in H2 as [H2 _]. exact H2.
  - right. right. apply matches_seq in H2 as (a & w2 & g1 & g2 & -> & Ha & H2 & _).
    apply (matches_lits "f" (T "ri")) in Ha as [Ha _].
    apply matches_seq in H2 as (sp & b & g3 & g4 & -> & Hsp & Hb & _).
    apply matches_ws in Hsp as [Hsp _].
    apply (matches_lits "d" (T "ata")) in Hb as [Hb _].
    exists a, sp, b. auto.
Qed.

End AmountFacts.

(** X4.  [_extract_data_amount] of [unified_parser.py], on a text without
    an unlimited keyword: the patterns are tried in the order GB, TB, MB,
    giga, wherever they stand in the text, and the first that occurs
    decides by its leftmost match, a number, whitespace and the unit at the
    end of a word.  The result is the number with a comma turned into a
    dot, a space, and the unit as the text spells it (its last two
    characters, in their case); for giga the number has digits only and the
    unit is "GB".  When no pattern occurs the result is the cleaned
    text. *)
Theorem X4_data_amount_unified (s : text) :
  s <> [] ->
  Text.any_in Unified.unlimited_keywords (Text.lower s) = false ->
  (forall i is_giga p,
      Unified.data_patterns !! i = Some (is_giga, p) -> RegexSem.occurs p s ->
      (forall j b q, (j < i)%nat -> Unified.data_patterns !! j = Some (b, q) ->
                     ~ RegexSem.occurs q s) ->
      exists pre n sp u,
        RegexSem.leftmost p s pre (n ++ sp ++ u) (Some n) /\
        RegexSem.number Patterns.is_sep n /\
        RegexSem.dotted Patterns.is_sep n (Text.comma_to_dot n) /\
        RegexSem.spaces sp /\
        RegexSem.same_word (nth i [T "GB"; T "TB"; T "MB"; T "giga"] []) u /\
        (is_giga = true <-> i = 3%nat) /\
        (is_giga = true -> RegexSem.digits n) /\
        Unified.extract_data_amount s
        = Text.comma_to_dot n ++ T " " ++ (if is_giga then T "GB" else u)) /\
  ((forall b p, In (b, p) Unified.data_patterns -> ~ RegexSem.occurs p s) ->
   Unified.extract_data_amount s = clean_text s).
Proof.
  intros Hne Hno. split.
  - intros i is_giga p Hi Hocc Hbefore.
    destruct (NormalizerFacts.first_match_at Unified.data_patterns s i is_giga p)
      as (m & pre & Hfm & Hl); auto.
    destruct m as [w g]. cbn [fst snd] in Hl.
    assert (E : Unified.extract_data_amount s
                = Text.comma_to_dot (Regex.group1 (w, g)) ++ T " " ++
                  (if is_giga then T "GB" else Unified.last2 (Regex.group0 (w, g)))).
    { unfold Unified.extract_data_amount.
      rewrite (NormalizerFacts.falsy_false s Hne), Hno, Hfm. reflexivity. }
    destruct Hl as [(next & Hs & Hm) Hleft].
    assert (Hshape :
      exists n sp u,
        w = n ++ sp ++ u /\ RegexSem.number Patterns.is_sep n /\ RegexSem.spaces sp /\
        RegexSem.same_word (nth i [T "GB"; T "TB"; T "MB"; T "giga"] []) u /\
        (is_giga = true <-> i = 3%nat) /\
        (is_giga = true -> RegexSem.digits n) /\ g = Some n).
    { destruct i as [|[|[|[|i]]]]; cbn in Hi; try discriminate;
        inversion Hi; subst is_giga p; clear Hi.
      - apply (PatternFacts.followed_word_shape Patterns.is_sep "G" (T "B")) in Hm
          as (n & sp & u & -> & Hn & Hsp & Hu & _ & ->).
        exists n, sp, u. repeat split; auto; discriminate.
      - apply (PatternFacts.followed_word_shape Patterns.is_sep "T" (T "B")) in Hm
          as (n & sp & u & -> & Hn & Hsp & Hu & _ & ->).
        exists n, sp, u. repeat split; auto; discriminate.
      - apply (PatternFacts.followed_word_shape Patterns.is_sep "M" (T "B")) in Hm
          as (n & sp & u & -> & Hn & Hsp & Hu & _ & ->).
        exists n, sp, u. repeat split; auto; discriminate.
      - apply (AmountFacts.integer_word_shape "g" (T "iga")) in Hm
          as (n & sp & u & -> & Hn & Hsp & Hu & _ & ->).
        exists n, sp, u. split; [reflexivity|]. split; [left; exact Hn|].
        split; [exact Hsp|]. split; [exact Hu|]. split; [split; reflexivity|].
        split; [intros _; exact Hn|reflexivity]. }
    destruct Hshape as (n & sp & u & -> & Hn & Hsp & Hu & Hg & Hd & ->).
    exists pre, n, sp, u.
    split; [split; [exists next; auto|exact Hleft]|].
    split; [exact Hn|]. split; [apply NormalizerFacts.number_dotted; exact Hn|].
    split; [exact Hsp|]. split; [exact Hu|]. split; [exact Hg|]. split; [exact Hd|].
    rewrite E. cbn [Regex.group1 Regex.group0 fst snd].
    destruct is_giga; [reflexivity|].
    assert (L : List.length u = 2%nat).
    { apply GreedyFacts.same_word_length in Hu. rewrite Hu.
      destruct i as [|[|[|[|i]]]]; cbn in Hi; try discriminate; reflexivity. }
    rewrite (app_assoc n sp u), (AmountFacts.last2_app _ u L). reflexivity.
  - intros Hnone. unfold Unified.extract_data_amount.
    rewrite (NormalizerFacts.falsy_false s Hne), Hno.
    assert (E : first_match Unified.data_patterns s = None).
    { apply NormalizerFacts.first_match_none. exact Hnone. }
    rewrite E. reflexivity.
Qed.

(** "500 MB eller 10 gb": GB is tried first, and the unit keeps the small
    letters of the text. *)
Lemma X4_data_amount_unified_witness :
  Unified.extract_data_amount (T "500 MB eller 10 gb") = T "10 gb" /\
  exists pre n sp u,
    RegexSem.leftmost
      (Regex.Seq (Patterns.followed_by Patterns.number_sep Patterns.gb) Regex.WordB)
      (T "500 MB eller 10 gb") pre (n ++ sp ++ u) (Some n) /\
    Unified.extract_data_amount (T "500 MB eller 10 gb")
    = Text.comma_to_dot n ++ T " " ++ u.
Proof.
  split; [vm_compute; reflexivity|].
  destruct (proj1 (X4_data_amount_unified (T "500 MB eller 10 gb")
                     ltac:(discriminate) ltac:(reflexivity))
                  0%nat false _ eq_refl) as (pre & n & sp & u & H1 & _ & _ & _ & _ & _ & _ & H2).
  - apply RegexFacts.search_occurs. eexists. vm_compute. reflexivity.
  - intros j b q Hj. lia.
  - exists pre, n, sp, u. split; [exact H1|exact H2].
Defined.

(** X5.  [_extract_data_amount] of [main.py] (and of
    [several_site_analyzer.py]), on a text without an unlimited keyword:
    for GB, TB and MB the result is the match as the text has it, with its
    whitespace, its comma and its case; the pattern of the unlimited words
    can then only read "fri" and "data" with no whitespace or with
    whitespace other than one space between them, and the result is that
    phrase as written, not "Unlimited"; for giga the result is the digits
    and "GB". *)
Theorem X5_data_amount_main (s : text) :
  s <> [] ->
  Text.any_in Main.unlimited_words (Text.lower s) = false ->
  (forall i flag p,
      Main.data_patterns !! i = Some (flag, p) -> RegexSem.occurs p s ->
      (forall j b q, (j < i)%nat -> Main.data_patterns !! j = Some (b, q) ->
                     ~ RegexSem.occurs q s) ->
      exists pre w g,
        RegexSem.leftmost p s pre w g /\
        ((i < 3)%nat ->
           Main.extract_data_amount s = w /\
           exists n sp u,
             w = n ++ sp ++ u /\ RegexSem.number Patterns.is_comma n /\
             RegexSem.spaces sp /\
             RegexSem.same_word (nth i [T "GB"; T "TB"; T "MB"] []) u) /\
        (i = 3%nat ->
           Main.extract_data_amount s = w /\
           exists a sp b,
             w = a ++ sp ++ b /\ RegexSem.same_word (T "fri") a /\
             RegexSem.spaces sp /\ sp <> T " " /\ RegexSem.same_word (T "data") b) /\
        (i = 4%nat ->
           exists n sp u,
             w = n ++ sp ++ u /\ RegexSem.digits n /\ RegexSem.spaces sp /\
             RegexSem.same_word (T "giga") u /\
             Main.extract_data_amount s = n ++ T " GB")) /\
  ((forall b p, In (b, p) Main.data_patterns -> ~ RegexSem.occurs p s) ->
   Main.extract_data_amount s = clean_text s).
Proof.
  intros Hne Hno. split.
  - intros i flag p Hi Hocc Hbefore.
    destruct (NormalizerFacts.first_match_at Main.data_patterns s i flag p)
      as (m & pre & Hfm & Hl); auto.
    destruct m as [w g]. cbn [fst snd] in Hl.
    assert (E : Main.extract_data_amount s
                = if flag then Regex.group1 (w, g) ++ T " GB" else Regex.group0 (w, g)).
    { unfold Main.extract_data_amount.
      rewrite (NormalizerFacts.falsy_false s Hne), Hno, Hfm. destruct flag; reflexivity. }
    exists pre, w, g. split; [exact Hl|].
    destruct Hl as [(next & Hs & Hm) _].
    destruct i as [|[|[|[|[|i]]]]]; cbn in Hi; try discriminate;
      inversion Hi; subst flag p; clear Hi;
      (split; [intros Hi|split; intros Hi]); try lia; try discriminate.
    + split; [exact E|].
      apply (PatternFacts.followed_shape Patterns.is_comma "G" (T "B")) in Hm
        as (n & sp & u & -> & Hn & Hsp & Hu & _). eauto 10.
    + split; [exact E|].
      apply (PatternFacts.followed_shape Patterns.is_comma "T" (T "B")) in Hm
        as (n & sp & u & -> & Hn & Hsp & Hu & _). eauto 10.
    + split; [exact E|].
      apply (PatternFacts.followed_shape Patterns.is_comma "M" (T "B")) in Hm
        as (n & sp & u & -> & Hn & Hsp & Hu & _). eauto 10.
    + split; [exact E|].
      apply AmountFacts.unlimited_shape in Hm as [Hw|[Hw|(a & sp & b & -> & Ha & Hsp & Hb)]].
      * exfalso. apply (AmountFacts.keyword_absent _ s pre w next (T "ubegrenset") Hno);
          [simpl; auto|exact Hs|].
        apply AmountFacts.same_word_lower; [reflexivity|exact Hw].
      * exfalso. apply (AmountFacts.keyword_absent _ s pre w next (T "unlimited") Hno);
          [simpl; auto|exact Hs|].
        apply AmountFacts.same_word_lower; [reflexivity|exact Hw].
      * exists a, sp, b. repeat split; auto. intros ->.
        apply (AmountFacts.keyword_absent _ s pre (a ++ T " " ++ b) next (T "fri data") Hno);
          [simpl; auto|exact Hs|].
        rewrite !TextFacts.lower_app.
        rewrite (AmountFacts.same_word_lower (T "fri") a eq_refl Ha).
        rewrite (AmountFacts.same_word_lower (T "data") b eq_refl Hb). reflexivity.
    + apply (AmountFacts.integer_shape "g" (T "iga")) in Hm
        as (n & sp & u & -> & Hn & Hsp & Hu & ->).
      exists n, sp, u. repeat split; auto; apply Hn.
  - intros Hnone. unfold Main.extract_data_amount.
    rewrite (NormalizerFacts.falsy_false s Hne), Hno.
    assert (E : first_match Main.data_patterns s = None).
    { apply NormalizerFacts.first_match_none. exact Hnone. }
    rewrite E. reflexivity.
Qed.

(** "Fri  data" with two spaces: the words are found by the pattern, not by
    the keyword test, and come back as written. *)
Lemma X5_data_amount_main_witness :
  Main.extract_data_amount (T "Fri  data i 30 dager") = T "Fri  data" /\
  exists pre w g,
    RegexSem.leftmost Main.unlimited_pattern (T "Fri  data i 30 dager") pre w g /\
    Main.extract_data_amount (T "Fri  data i 30 dager") = w.
Proof.
  split; [vm_compute; reflexivity|].
  destruct (proj1 (X5_data_amount_main (T "Fri  data i 30 dager")
                     ltac:(discriminate) ltac:(reflexivity))
                  3%nat false _ eq_refl) as (pre & w & g & H1 & _ & H2 & _).
  - apply RegexFacts.search_occurs. eexists. vm_compute. reflexivity.
  - intros j b q Hj Hq. apply RegexFacts.search_none.
    destruct j as [|[|[|j]]]; [| | |lia]; inversion Hq; subst q; vm_compute; reflexivity.
  - exists pre, w, g. split; [exact H1|apply H2; reflexivity].
Defined.

(** ** The fetcher when an attempt succeeds *)

Module RetryFacts.
Import Fetcher FetcherFacts.

Local Open Scope Z_scope.

Lemma shift_seq (a : Z) (k : nat) :
  map (fun i => a + Z.of_nat i) (seq 1 k)
  = map (fun i => a + 1 + Z.of_nat i) (seq 0 k).
Proof. rewrite <- seq_shift, map_map. apply map_ext. intros i. lia. Qed.

(** The attempts from [a] on: [k1] failures, then a success. *)
Lemma attempts_success (net : network) (n : Z) (c : text) (k2 : nat) (k1 : nat) :
  forall a,
    (forall j, a <= j < a + Z.of_nat k1 -> is_failure (net j) = true) ->
    content_of (net (a + Z.of_nat k1)) = Some c ->
    attempts net n a (k1 + S k2) =
      (flat_map (failed_step n) (map (fun i => a + Z.of_nat i) (seq 0 k1))
         ++ [Get (a + Z.of_nat k1)], Some c).
Proof.
  induction k1 as [|k1 IH]; intros a Hfail Hc.
  - cbn [Nat.add attempts seq map flat_map app]. rewrite Z.add_0_r in Hc.
    rewrite Hc, Z.add_0_r. reflexivity.
  - cbn [Nat.add attempts].
    assert (Ha : is_failure (net a) = true) by (apply Hfail; lia).
    unfold is_failure in Ha. destruct (content_of (net a)); [discriminate|].
    rewrite (IH (a + 1)).
    + cbn [fst snd seq map flat_map]. rewrite shift_seq, Z.add_0_r.
      replace (a + 1 + Z.of_nat k1) with (a + Z.of_nat (S k1)) by lia.
      unfold failed_step at 2. rewrite <- !app_assoc. reflexivity.
    + intros j Hj. apply Hfail. lia.
    + replace (a + 1 + Z.of_nat k1) with (a + Z.of_nat (S k1)) by lia. exact Hc.
Qed.

(** Either every attempt fails, or there is a first one that succeeds. *)
Lemma attempts_cases (net : network) (n : Z) (k : nat) :
  forall a,
    ((forall j, a <= j < a + Z.of_nat k -> is_failure (net j) = true) /\
     attempts net n a k =
       (flat_map (failed_step n) (map (fun i => a + Z.of_nat i) (seq 0 k)), None)) \/
    (exists k1 c,
        (k1 < k)%nat /\
        (forall j, a <= j < a + Z.of_nat k1 -> is_failure (net j) = true) /\
        content_of (net (a + Z.of_nat k1)) = Some c /\
        attempts net n a k =
          (flat_map (failed_step n) (map (fun i => a + Z.of_nat i) (seq 0 k1))
             ++ [Get (a + Z.of_nat k1)], Some c)).
Proof.
  induction k as [|k IH]; intros a.
  - left. split; [intros j Hj; lia|reflexivity].
  - destruct (content_of (net a)) as [c|] eqn:Hc.
    + right. exists 0%nat, c. rewrite Z.add_0_r.
      split; [lia|]. split; [intros j Hj; lia|]. split; [exact Hc|].
      cbn [attempts]. rewrite Hc. reflexivity.
    + assert (Ha : is_failure (net a) = true) by (unfold is_failure; rewrite Hc; reflexivity).
      destruct (IH (a + 1)) as [[Hfail _]|(k1 & c & Hk & Hfail & Hok & _)].
      * left. assert (Hall : forall j, a <= j < a + Z.of_nat (S k) -> is_failure (net j) = true).
        { intros j Hj. destruct (Z.eq_dec j a) as [->|Hne]; [exact Ha|]. apply Hfail. lia. }
        split; [exact Hall|]. apply attempts_fail. exact Hall.
      * right. exists (S k1), c.
        assert (Hall : forall j, a <= j < a + Z.of_nat (S k1) -> is_failure (net j) = true).
        { intros j Hj. destruct (Z.eq_dec j a) as [->|Hne]; [exact Ha|]. apply Hfail. lia. }
        assert (Hok' : content_of (net (a + Z.of_nat (S k1))) = Some c).
        { replace (a + Z.of_nat (S k1)) with (a + 1 + Z.of_nat k1) by lia. exact Hok. }
        split; [lia|]. split; [exact Hall|]. split; [exact Hok'|].
        replace (S k) with (S k1 + S (k - S k1))%nat by lia.
        apply attempts_success; assumption.
Qed.

(** The waits after the failed attempts [a], ..., [a + k - 1], none of
    which is the last attempt. *)
Lemma total_sleep_prefix (n : Z) (k : nat) :
  forall a,
    0 <= a -> a + Z.of_nat k <= n - 1 ->
    total_sleep (flat_map (failed_step n) (map (fun i => a + Z.of_nat i) (seq 0 k)))
    = 2 ^ (a + Z.of_nat k) - 2 ^ a.
Proof.
  induction k as [|k IH]; intros a Ha Hn.
  - cbn. rewrite Z.add_0_r. lia.
  - cbn [seq map flat_map]. rewrite shift_seq, Z.add_0_r.
    unfold failed_step at 1.
    assert (E : (a <? n - 1) = true) by (apply Z.ltb_lt; lia).
    rewrite E. cbn [app]. rewrite total_sleep_get, total_sleep_sleep, (IH (a + 1)) by lia.
    replace (a + 1 + Z.of_nat k) with (a + Z.of_nat (S k)) by lia.
    rewrite (Z.pow_add_r 2 a 1) by lia. lia.
Qed.

Lemma total_sleep_app (evs evs' : list event) :
  total_sleep (evs ++ evs') = total_sleep evs + total_sleep evs'.
Proof.
  unfold total_sleep, sleeps. rewrite flat_map_app.
  induction (flat_map _ evs) as [|d l IH]; cbn [app fold_right]; [reflexivity|].
  rewrite IH. lia.
Qed.

Lemma gets_app (evs evs' : list event) : gets (evs ++ evs') = gets evs ++ gets evs'.
Proof. unfold gets. apply flat_map_app. Qed.

Lemma sleeps_app (evs evs' : list event) :
  sleeps (evs ++ evs') = sleeps evs ++ sleeps evs'.
Proof. unfold sleeps. apply flat_map_app. Qed.

Lemma seq_snoc_Z (k : nat) :
  map Z.of_nat (seq 0 k) ++ [Z.of_nat k] = map Z.of_nat (seq 0 (S k)).
Proof. rewrite seq_S, map_app. reflexivity. Qed.

Lemma failed_steps_last (n : Z) (l : list Z) (evs : list event) (d : Z) :
  Forall (fun j => n - 1 <= j) (match rev l with [] => [] | j :: _ => [j] end) ->
  flat_map (failed_step n) l <> evs ++ [Sleep d].
Proof.
  destruct (rev l) as [|j r] eqn:E.
  - intros _. apply (f_equal (@rev Z)) in E. rewrite rev_involutive in E. subst l.
    destruct evs; discriminate.
  - intros Hj. apply (f_equal (@rev Z)) in E. rewrite rev_involutive in E. subst l.
    cbn [rev]. rewrite flat_map_app. cbn [flat_map]. rewrite app_nil_r.
    inversion Hj as [|? ? Hle _]; subst. unfold failed_step.
    assert (Ej : (j <? n - 1) = false) by (apply Z.ltb_ge; lia).
    rewrite Ej. intros H.
    change (flat_map (failed_step n) (rev r) ++ [Get j])
      with (flat_map (fun j0 => Get j0 :: (if j0 <? n - 1 then [Sleep (2 ^ j0)] else []))
              (rev r) ++ [Get j]) in H.
    apply app_inj_tail in H as [_ H]. discriminate.
Qed.

(** The requests and the waits of one call, on any network. *)
Lemma fetch_gets_bound (net : network) (n : Z) :
  (List.length (gets (fst (fetch_with_retry net n))) <= Z.to_nat n)%nat.
Proof.
  unfold fetch_with_retry.
  destruct (attempts_cases net n (Z.to_nat n) 0) as [[_ E]|(k1 & c & Hk & _ & _ & E)];
    rewrite E; cbn [fst].
  - rewrite gets_steps, length_map, length_seq. lia.
  - rewrite gets_app, gets_steps, length_app, length_map, length_seq. cbn. lia.
Qed.




End RetryFacts.

(** X6.  When attempt [k] is the first that gives content, the fetcher
    returns that content after [k + 1] requests, the attempts 0, ..., [k];
    it has waited [2^j] seconds after each failed attempt [j], that is
    [2^k - 1] seconds in all, and it makes no request and waits no more
    after the success. *)
Theorem X6_fetch_first_success
    (net : Fetcher.network) (max_retries : Z) (k : nat) (c : text) :
  (Z.of_nat k < max_retries)%Z ->
  Fetcher.content_of (net (Z.of_nat k)) = Some c ->
  (forall a, (0 <= a < Z.of_nat k)%Z -> Fetcher.is_failure (net a) = true) ->
  let run := Fetcher.fetch_with_retry net max_retries in
  snd run = Some c /\
  fst run = flat_map (fun j => [Fetcher.Get j; Fetcher.Sleep (2 ^ j)%Z])
              (map Z.of_nat (seq 0 k)) ++ [Fetcher.Get (Z.of_nat k)] /\
  Fetcher.gets (fst run) = map Z.of_nat (seq 0 (S k)) /\
  Fetcher.sleeps (fst run) = map (fun j => 2 ^ j)%Z (map Z.of_nat (seq 0 k)) /\
  Fetcher.total_sleep (fst run) = (2 ^ Z.of_nat k - 1)%Z.
Proof.
  intros Hk Hc Hfail run.
  assert (Hsteps : flat_map (Fetcher.failed_step max_retries) (map Z.of_nat (seq 0 k))
                   = flat_map (fun j => [Fetcher.Get j; Fetcher.Sleep (2 ^ j)%Z])
                       (map Z.of_nat (seq 0 k))).
  { rewrite !List.flat_map_concat_map. f_equal. apply List.map_ext_in. intros j Hj. apply in_map_iff in Hj as (i & <- & Hi).
    apply in_seq in Hi. unfold Fetcher.failed_step.
    assert (E : (Z.of_nat i <? max_retries - 1)%Z = true) by (apply Z.ltb_lt; lia).
    rewrite E. reflexivity. }
  assert (E : run = (flat_map (Fetcher.failed_step max_retries) (map Z.of_nat (seq 0 k))
                       ++ [Fetcher.Get (Z.of_nat k)], Some c)).
  { unfold run, Fetcher.fetch_with_retry.
    replace (Z.to_nat max_retries) with (k + S (Z.to_nat max_retries - S k))%nat by lia.
    rewrite (RetryFacts.attempts_success net max_retries c _ k 0%Z).
    - reflexivity.
    - intros j Hj. apply Hfail. lia.
    - exact Hc. }
  rewrite E. cbn [fst snd].
  split; [reflexivity|]. split; [rewrite Hsteps; reflexivity|].
  split.
  { rewrite RetryFacts.gets_app, FetcherFacts.gets_steps. apply RetryFacts.seq_snoc_Z. }
  split.
  { rewrite RetryFacts.sleeps_app, FetcherFacts.sleeps_steps. cbn [Fetcher.sleeps flat_map].
    rewrite app_nil_r. f_equal. apply forallb_filter_id.
    apply forallb_forall. intros j Hj. apply in_map_iff in Hj as (i & <- & Hi).
    apply in_seq in Hi. apply Z.ltb_lt. lia. }
  rewrite RetryFacts.total_sleep_app.
  change (map Z.of_nat (seq 0 k)) with (map (fun i => 0 + Z.of_nat i)%Z (seq 0 k)).
  rewrite RetryFacts.total_sleep_prefix by lia.
  rewrite (FetcherFacts.total_sleep_get (Z.of_nat k) []), Z.add_0_l, Z.pow_0_r.
  change (Fetcher.total_sleep []) with 0%Z. lia.
Qed.

(** The first two attempts fail, the third gives the page. *)
Lemma X6_fetch_first_success_witness :
  let net := fun a => if (a =? 2)%Z then Fetcher.Response 200 (Some (T "<html>"))
                      else Fetcher.Response 503 None in
  let run := Fetcher.fetch_with_retry net 3 in
  snd run = Some (T "<html>") /\
  fst run = [Fetcher.Get 0; Fetcher.Sleep 1; Fetcher.Get 1; Fetcher.Sleep 2; Fetcher.Get 2] /\
  Fetcher.total_sleep (fst run) = 3%Z.
Proof.
  cbv zeta.
  destruct (X6_fetch_first_success
              (fun a => if (a =? 2)%Z then Fetcher.Response 200 (Some (T "<html>"))
                        else Fetcher.Response 503 None) 3 2 (T "<html>"))
    as (H1 & H2 & _ & _ & H3).
  - lia.
  - reflexivity.
  - intros a Ha. assert (E : (a =? 2)%Z = false) by (apply Z.eqb_neq; lia).
    rewrite E. reflexivity.
  - split; [exact H1|]. split; [exact H2|exact H3].
Defined.

(** X7.  On any network: the fetcher makes the attempts 0, 1, ... in
    order, [max_retries] at most (none when [max_retries] is not
    positive); it returns [None] exactly when every attempt fails, and
    otherwise the content of the first attempt that has one; it never
    ends with a wait; and it waits [2^(max_retries - 1) - 1] seconds at
    most, 3 seconds with the default of three attempts. *)
Theorem X7_fetch_bounds (net : Fetcher.network) (max_retries : Z) :
  let run := Fetcher.fetch_with_retry net max_retries in
  (List.length (Fetcher.gets (fst run)) <= Z.to_nat max_retries)%nat /\
  Fetcher.gets (fst run)
  = map Z.of_nat (seq 0 (List.length (Fetcher.gets (fst run)))) /\
  (snd run = None <->
     forall a, (0 <= a < max_retries)%Z -> Fetcher.is_failure (net a) = true) /\
  (forall c, snd run = Some c ->
     exists k, (0 <= k < max_retries)%Z /\ Fetcher.content_of (net k) = Some c /\
               (forall a, (0 <= a < k)%Z -> Fetcher.is_failure (net a) = true) /\
               List.length (Fetcher.gets (fst run)) = S (Z.to_nat k)) /\
  ((max_retries <= 0)%Z -> run = ([], None)) /\
  (forall evs d, fst run <> evs ++ [Fetcher.Sleep d]) /\
  (0 <= Fetcher.total_sleep (fst run))%Z /\
  ((1 <= max_retries)%Z ->
   (Fetcher.total_sleep (fst run) <= 2 ^ (max_retries - 1) - 1)%Z).
Proof.
  intros run.
  destruct (RetryFacts.attempts_cases net max_retries (Z.to_nat max_retries) 0%Z)
    as [[Hfail E]|(k1 & c & Hk & Hfail & Hok & E)];
    fold (Fetcher.fetch_with_retry net max_retries) in E; fold run in E;
    change (fun i => 0 + Z.of_nat i)%Z with Z.of_nat in E;
    rewrite E; cbn [fst snd].
  - rewrite FetcherFacts.gets_steps, length_map, length_seq.
    split; [lia|]. split; [reflexivity|].
    split; [split; [intros _ a Ha; apply Hfail; lia|reflexivity]|].
    split; [discriminate|].
    split.
    { intros Hle. replace (Z.to_nat max_retries) with 0%nat by lia. reflexivity. }
    split.
    { intros evs d. apply RetryFacts.failed_steps_last.
      destruct (Z.to_nat max_retries) as [|n] eqn:En; [constructor|].
      rewrite seq_S, map_app, rev_app_distr. cbn. constructor; [lia|constructor]. }
    change (map Z.of_nat (seq 0 (Z.to_nat max_retries)))
      with (map (fun i => 0 + Z.of_nat i)%Z (seq 0 (Z.to_nat max_retries))).
    destruct (Z_le_gt_dec max_retries 0) as [Hle|Hgt].
    + replace (Z.to_nat max_retries) with 0%nat by lia. cbn. split; [lia|]. intros; lia.
    + rewrite FetcherFacts.total_sleep_steps by lia.
      destruct (Z.to_nat max_retries) eqn:En; [lia|].
      assert (0 < 2 ^ (max_retries - 1))%Z by (apply Z.pow_pos_nonneg; lia).
      cbn. split; [lia|]. intros; lia.
  - rewrite RetryFacts.gets_app, FetcherFacts.gets_steps. cbn [Fetcher.gets flat_map app].
    rewrite Z.add_0_l in *.
    rewrite RetryFacts.seq_snoc_Z, length_map, length_seq.
    split; [lia|]. split; [reflexivity|].
    split.
    { split; [discriminate|]. intros Hall.
      assert (Hf : Fetcher.is_failure (net (Z.of_nat k1)) = true) by (apply Hall; lia).
      unfold Fetcher.is_failure in Hf. rewrite Hok in Hf. discriminate. }
    split.
    { intros c' [= <-]. exists (Z.of_nat k1). split; [lia|]. split; [exact Hok|].
      split; [intros a Ha; apply Hfail; lia|]. rewrite Nat2Z.id. reflexivity. }
    split; [intros Hle; lia|].
    split.
    { intros evs d H. apply app_inj_tail in H as [_ H]. discriminate. }
    rewrite RetryFacts.total_sleep_app.
    change (map Z.of_nat (seq 0 k1)) with (map (fun i => 0 + Z.of_nat i)%Z (seq 0 k1)).
    rewrite RetryFacts.total_sleep_prefix by lia.
    rewrite (FetcherFacts.total_sleep_get (Z.of_nat k1) []), Z.add_0_l, Z.pow_0_r.
    change (Fetcher.total_sleep []) with 0%Z.
    assert (0 < 2 ^ Z.of_nat k1)%Z by (apply Z.pow_pos_nonneg; lia).
    split; [lia|]. intros _.
    assert (2 ^ Z.of_nat k1 <= 2 ^ (max_retries - 1))%Z
      by (apply Z.pow_le_mono_r; lia).
    lia.
Qed.

(** ** The plans of a page *)

Module ParserFacts.
Import Text Py Parser.

Lemma first_text_normalized (element : Dom.tag) (sels : list string) :
  Words.normalized (first_text element sels) = true.
Proof.
  induction sels as [|s ss IH]; cbn [first_text]; [reflexivity|].
  destruct (Dom.select_one element s) as [[elem|]|]; try exact IH.
  apply WordsFacts.normalized_clean.
Qed.

Lemma first_text_found (element : Dom.tag) (pre : list string) :
  forall s e post,
    (forall p, In p pre ->
       Dom.select_one element p = None \/ Dom.select_one element p = Some None) ->
    Dom.select_one element s = Some (Some e) ->
    first_text element (pre ++ s :: post) = clean_text (Dom.get_text e).
Proof.
  induction pre as [|q pre IH]; intros s e post Hpre Hs; cbn [app first_text].
  - rewrite Hs. reflexivity.
  - destruct (Hpre q (or_introl eq_refl)) as [E|E]; rewrite E;
      apply IH; auto; intros p Hp; apply Hpre; right; exact Hp.
Qed.

Lemma first_text_none (element : Dom.tag) (sels : list string) :
  (forall p, In p sels ->
     Dom.select_one element p = None \/ Dom.select_one element p = Some None) ->
  first_text element sels = [].
Proof.
  induction sels as [|q sels IH]; intros H; cbn [first_text]; [reflexivity|].
  destruct (H q (or_introl eq_refl)) as [E|E]; rewrite E;
    apply IH; intros p Hp; apply H; right; exact Hp.
Qed.


Lemma or_else_truthy (a b : text) : a <> [] -> or_else a b = a.
Proof. unfold or_else. destruct a; cbn [falsy]; [congruence|reflexivity]. Qed.



Lemma card_plans_app (plan : Dom.tag -> result (option Orchestrator.MobilePlan))
    (es es' : list Dom.tag) :
  card_plans plan (es ++ es') = card_plans plan es ++ card_plans plan es'.
Proof.
  induction es as [|e es IH]; cbn [app card_plans]; [reflexivity|].
  destruct (plan e) as [[q|]|x]; rewrite IH; reflexivity.
Qed.

(** The elements that the selectors of a list select. *)
Lemma select_all_ret (soup : Dom.tag) (sels : list string) (cards : list Dom.tag) :
  select_all soup sels = Ret cards ->
  cards = flat_map (fun s => default [] (Dom.select soup s)) sels /\
  forall s, In s sels -> Dom.select soup s <> None.
Proof.
  revert cards. induction sels as [|s ss IH]; intros cards; cbn [select_all].
  - intros [= <-]. split; [reflexivity|intros s []].
  - destruct (Dom.select soup s) as [els|] eqn:E; cbn [query bind]; [|discriminate].
    destruct (select_all soup ss) as [rest|x]; cbn [bind]; [|discriminate].
    intros [= <-]. destruct (IH rest eq_refl) as [-> Hall].
    split; [cbn [flat_map]; rewrite E; reflexivity|].
    intros s' [<-|Hin]; [congruence|auto].
Qed.




Section Page.
Variable parse : text -> Dom.tag.


End Page.

End ParserFacts.

(** X8.  [_extract_from_element] returns the cleaned text of the element
    that the first selector of the list finds; the selectors before it
    that raise or find nothing are passed over, and the selectors after it
    are not tried, even when that text is empty.  It returns the empty
    text when no selector finds an element.  The result is always in the
    normal form of [_clean_text]. *)
Theorem X8_extract_from_element (element : Dom.tag) (selectors : string) :
  let r := Parser.extract_from_element element selectors in
  (forall pre s e post,
      Selectors.parts selectors = pre ++ s :: post ->
      (forall p, In p pre ->
         Dom.select_one element p = None \/ Dom.select_one element p = Some None) ->
      Dom.select_one element s = Some (Some e) ->
      r = clean_text (Dom.get_text e)) /\
  ((forall p, In p (Selectors.parts selectors) ->
      Dom.select_one element p = None \/ Dom.select_one element p = Some None) ->
   r = []) /\
  Words.normalized r = true.
Proof.
  cbv zeta. unfold Parser.extract_from_element. split; [|split].
  - intros pre s e post -> Hpre Hs. apply ParserFacts.first_text_found; assumption.
  - apply ParserFacts.first_text_none.
  - apply ParserFacts.first_text_normalized.
Qed.


(** ** The analysis of a site *)

Module SiteFacts.
Import Text Py Parser.

Lemma contains_trans (a b s : text) :
  contains a b = true -> contains b s = true -> contains a s = true.
Proof.
  rewrite !TextFacts.contains_spec.
  intros (p1 & q1 & ->) (p2 & q2 & ->).
  exists (p2 ++ p1), (q1 ++ q2). rewrite <- !app_assoc. reflexivity.
Qed.

(** The words "5g-nett" and "5g network" add nothing to "5g". *)
Lemma net_words_5g (s : text) : any_in net_words s = contains (T "5g") s.
Proof.
  unfold any_in, net_words. cbn [existsb]. rewrite orb_false_r.
  destruct (contains (T "5g") s) eqn:E; [reflexivity|]. cbn [orb].
  destruct (contains (T "5g-nett") s) eqn:E1.
  { rewrite (contains_trans (T "5g") (T "5g-nett") s eq_refl E1) in E. discriminate. }
  destruct (contains (T "5g network") s) eqn:E2; [|reflexivity].
  rewrite (contains_trans (T "5g") (T "5g network") s eq_refl E2) in E. discriminate.
Qed.

Lemma half_score : In 0.5%float Analyzer.scores.
Proof.
  change 0.5%float with (Analyzer.score [3%nat]).
  unfold Analyzer.scores. apply in_map. unfold Analyzer.vectors.
  rewrite !in_app_iff. right. left. vm_compute. tauto.
Qed.

Lemma half_value : Analyzer.rational 0.5%float == 1 # 2.
Proof. vm_compute. reflexivity. Qed.

(** The first candidate of a sorted list has the greatest confidence. *)
Lemma descending_head (best : Analyzer.container) (rest : list Analyzer.container) :
  Analyzer.descending (best :: rest) ->
  forall c, In c (best :: rest) -> Analyzer.value c <= Analyzer.value best.
Proof.
  unfold Analyzer.descending. intros H c [<-|Hin]; [apply Qle_refl|].
  inversion H as [|? ? _ Hall]; subst.
  rewrite List.Forall_forall in Hall. apply Hall. exact Hin.
Qed.

Lemma get_listed (key : string) (config : Operators.config) :
  In (key, config) Operators.operators_config -> Operators.get key = Some config.
Proof.
  cbn. intros H.
  repeat (destruct H as [H|H]; [inversion H; subst; reflexivity|]). destruct H.
Qed.

Lemma get_some (key : string) (config : Operators.config) :
  Operators.get key = Some config -> In (key, config) Operators.operators_config.
Proof.
  unfold Operators.get. destruct (List.find _ _) as [[k c]|] eqn:E; [|discriminate].
  intros [= <-]. apply find_some in E as [Hin Hk]. cbn [fst] in Hk.
  apply String.eqb_eq in Hk. subst k. exact Hin.
Qed.

End SiteFacts.

(** X10.  [_extract_additional_info] lists its notes in a fixed order:
    unlimited calls, unlimited SMS, 5G.  The 5G note is there exactly when
    the lower-cased text of the element contains "5g" (the other two
    words of that test contain it), and the result is empty exactly when
    none of the three tests finds a word. *)
Theorem X10_additional_info (element : Dom.tag) :
  let text := Text.lower (Dom.get_text element) in
  Parser.info_parts element
  = (if Text.any_in Parser.calls_words text then [Parser.unlimited_calls] else [])
    ++ (if Text.any_in Parser.sms_words text then [Parser.unlimited_sms] else [])
    ++ (if Text.contains (T "5g") text then [Parser.five_g] else []) /\
  sublist (Parser.info_parts element)
    [Parser.unlimited_calls; Parser.unlimited_sms; Parser.five_g] /\
  (In Parser.five_g (Parser.info_parts element) <-> Text.contains (T "5g") text = true) /\
  (Parser.extract_additional_info element = [] <->
     Text.any_in Parser.calls_words text = false /\
     Text.any_in Parser.sms_words text = false /\
     Text.contains (T "5g") text = false).
Proof.
  cbv zeta. unfold Parser.extract_additional_info, Parser.info_parts.
  rewrite SiteFacts.net_words_5g.
  destruct (Text.any_in Parser.calls_words _), (Text.any_in Parser.sms_words _),
    (Text.contains (T "5g") _); cbn [app];
    (split; [reflexivity|]);
    (split; [repeat first [apply sublist_nil | apply sublist_skip | apply sublist_cons]|]);
    (split; [split; [try discriminate; cbn; intuition discriminate
                    |try discriminate; intros _; cbn; tauto]|]);
    (split; [vm_compute; try discriminate; tauto
            |try tauto; intros (? & ? & ?); discriminate]).
Qed.


(** X12.  The selectors that the analysis of a loaded page proposes are
    the fallback selectors of the operator, but for [plan_cards]: this one
    is replaced by the selector of the first candidate when its confidence
    exceeds 0.5 (and only then).  The selector that replaces it is one of
    the fixed container patterns, it selects two elements of the page or
    more, and no candidate has a greater confidence. *)
Theorem X12_optimal_selectors (soup : Dom.tag) (fallback : gmap string string) :
  let containers := Analyzer.analyze_plan_containers soup in
  let optimal := Analyzer.optimize_selectors containers fallback in
  (forall k, k <> "plan_cards"%string -> optimal !! k = fallback !! k) /\
  (containers = [] -> optimal = fallback) /\
  (forall best rest, containers = best :: rest ->
     (Analyzer.value best <= 1 # 2 -> optimal = fallback) /\
     (1 # 2 < Analyzer.value best ->
        optimal !! "plan_cards"%string = Some (Analyzer.selector best)) /\
     In (Analyzer.selector best) Analyzer.container_patterns /\
     (exists els, Dom.select soup (Analyzer.selector best) = Some els /\
                  (2 <= List.length els)%nat /\
                  Analyzer.count best = List.length els) /\
     (forall c, In c containers -> Analyzer.value c <= Analyzer.value best)).
Proof.
  cbv zeta.
  pose proof (AnalyzerFacts.collect_scored soup Analyzer.container_patterns) as Hsc.
  pose proof (AnalyzerFacts.sorted_desc_descending _ Hsc) as Hdesc.
  fold (Analyzer.analyze_plan_containers soup) in Hdesc.
  assert (Hin : forall c, In c (Analyzer.analyze_plan_containers soup) ->
                          In c (Analyzer.collect soup Analyzer.container_patterns)).
  { intros c Hc. apply (proj1 (AnalyzerFacts.sorted_desc_In _ _)). exact Hc. }
  assert (Hcmp : forall c, In c (Analyzer.analyze_plan_containers soup) ->
            (PrimFloat.ltb 0.5 (Analyzer.confidence c) = true <-> 1 # 2 < Analyzer.value c)).
  { intros c Hc. unfold Analyzer.scored in Hsc. rewrite List.Forall_forall in Hsc.
    destruct (AnalyzerFacts.compare_scores 0.5%float (Analyzer.confidence c)
                SiteFacts.half_score (Hsc c (Hin c Hc))) as [H _].
    rewrite H, SiteFacts.half_value. reflexivity. }
  unfold Analyzer.optimize_selectors.
  destruct (Analyzer.analyze_plan_containers soup) as [|best rest] eqn:E.
  - split; [reflexivity|]. split; [reflexivity|]. intros best rest. discriminate.
  - split.
    { intros k Hk. destruct (PrimFloat.ltb 0.5 (Analyzer.confidence best)); [|reflexivity].
      apply lookup_insert_ne. congruence. }
    split; [discriminate|].
    intros best' rest' [= <- <-].
    pose proof (Hcmp best (or_introl eq_refl)) as Hb.
    split.
    { intros Hle. destruct (PrimFloat.ltb 0.5 (Analyzer.confidence best)); [|reflexivity].
      exfalso. apply (Qlt_not_le _ _ (proj1 Hb eq_refl)). exact Hle. }
    split.
    { intros Hlt. rewrite (proj2 Hb Hlt). apply lookup_insert_eq. }
    destruct (AnalyzerFacts.collect_In _ _ _ (Hin best (or_introl eq_refl)))
      as (Hp & els & Hs & Hn & Hle & _).
    split; [exact Hp|]. split; [exists els; auto|].
    apply SiteFacts.descending_head. exact Hdesc.
Qed.

(** ** One operator, and all of them *)

Module OperatorFacts.
Import Text Py Parser.

Section Page.
Variable parse : text -> Dom.tag.



Lemma after_gets (evs : list Fetcher.event) (net : Fetcher.network) :
  (List.length (Fetcher.gets (fst (Fetcher.fetch_with_retry (after evs net) 3))) <= 3)%nat.
Proof. apply (RetryFacts.fetch_gets_bound (after evs net) 3). Qed.

End Page.

End OperatorFacts.



(** ** [main.py]: the plans of a page *)

Module MainParserFacts.
Import Text Py MainParser.


Lemma first_found_some (element : Dom.tag) (pre : list string) :
  forall s e post,
    (forall p, In p pre -> Dom.select_one element p = Some None) ->
    Dom.select_one element s = Some (Some e) ->
    first_found element (pre ++ s :: post) = Ret (Some e).
Proof.
  induction pre as [|q pre IH]; intros s e post Hpre Hs; cbn [app first_found].
  - rewrite Hs. reflexivity.
  - rewrite (Hpre q (or_introl eq_refl)). cbn [Parser.query bind].
    apply IH; [|exact Hs]. intros p Hp. apply Hpre. right. exact Hp.
Qed.




Section Page.
Variable parse : text -> Dom.tag.


End Page.

End MainParserFacts.


(** ** The survey: position of a banner, consent and scripts *)

Module PageFacts.
Import Text Survey Page.

Lemma has_trans (a b c s : text) :
  contains a b = true ->
  contains b c || contains b s = true -> contains a c || contains a s = true.
Proof.
  intros Hab H. apply orb_prop in H as [H|H].
  - rewrite (SiteFacts.contains_trans a b c Hab H). reflexivity.
  - rewrite (SiteFacts.contains_trans a b s Hab H). apply orb_true_r.
Qed.

Lemma orb_absorb (x y z : bool) : (z = true -> x = true) -> x || (y || z) = x || y.
Proof. destruct x, y, z; simpl; intros H; try reflexivity. discriminate (H eq_refl). Qed.

Lemma absent_trans (a b s : text) :
  contains a b = true -> contains a s = false -> contains b s = false.
Proof.
  intros Hab Ha. destruct (contains b s) eqn:E; [|reflexivity].
  rewrite (SiteFacts.contains_trans a b s Hab E) in Ha. discriminate.
Qed.

Lemma filter_map_swap {A B : Type} (f : A -> B) (p : B -> bool) (l : list A) :
  List.length (List.filter (fun x => p (f x)) l)
  = List.length (List.filter p (map f l)).
Proof.
  induction l as [|x l IH]; cbn [List.filter map]; [reflexivity|].
  destruct (p (f x)); cbn [List.length]; rewrite IH; reflexivity.
Qed.

(** Without an indicator in the page text, the hits are the occurrences of
    the four other words. *)
Lemma hits_other (page_text : text) :
  any_in cookie_indicators page_text = false ->
  List.length (found_keywords page_text)
  = List.length (List.filter (fun k => contains k page_text) other_words).
Proof.
  intros H. rewrite SurveyFacts.found_keywords_length.
  rewrite (filter_map_swap lower (fun k => contains k page_text)).
  unfold any_in, cookie_indicators in H. cbn [existsb] in H.
  apply orb_false_elim in H as [H1 H]. apply orb_false_elim in H as [H2 H].
  apply orb_false_elim in H as [H3 H]. apply orb_false_elim in H as [H4 H].
  apply orb_false_elim in H as [H5 H]. apply orb_false_elim in H as [H6 H].
  apply orb_false_elim in H as [H7 _].
  pose proof (absent_trans (T "cookie") (T "cookies") page_text eq_refl H1) as H8.
  pose proof (absent_trans (T "privacy") (T "privacy policy") page_text eq_refl H3) as H9.
  change (map lower all_keywords)
    with [T "informasjonskapsler"; T "samtykke"; T "personvern"; T "cookies"; T "godta";
          T "cookies"; T "consent"; T "privacy"; T "accept"; T "gdpr"; T "tracking";
          T "cookie"; T "gdpr"; T "privacy policy"; T "data protection"].
  unfold other_words. cbn [List.filter].
  rewrite H1, H2, H3, H4, H5, H6, H7, H8, H9. reflexivity.
Qed.

Lemma filter_sublist {A : Type} (f : A -> bool) (l : list A) :
  sublist (List.filter f l) l.
Proof.
  induction l as [|x l IH]; cbn [List.filter]; [constructor|].
  destruct (f x); [apply sublist_skip|apply sublist_cons]; exact IH.
Qed.

Lemma detected_spec (soup : Dom.tag) (page_text : text) (info : cookie_info) :
  detect_cookie_banner soup page_text = Some info ->
  detected info
  = (2 <=? List.length (found_keywords page_text))%nat
    || (0 <? List.length (banner_elements info))%nat
    || (0 <? List.length (accept_buttons info))%nat /\
  accept_buttons info = find_accept_buttons soup /\
  banner_elements info = find_banners soup.
Proof.
  unfold detect_cookie_banner.
  destruct (Dom.select soup modal_selector); [|discriminate].
  intros [= <-]. cbn. auto.
Qed.

Lemma handled_spec (soup : Dom.tag) (page_text : text) (info : cookie_info) :
  detect_cookie_banner soup page_text = Some info ->
  (if detected info then handle_cookie_consent info else false)
  = (0 <? List.length (accept_buttons info))%nat.
Proof.
  intros H. apply detected_spec in H as (H & _ & _).
  unfold handle_cookie_consent. rewrite H.
  destruct (2 <=? _)%nat, (0 <? List.length (banner_elements info))%nat,
    (0 <? List.length (accept_buttons info))%nat; reflexivity.
Qed.

End PageFacts.

(** X16.  [_detect_banner_position] reads the classes and the style of the
    element, in lower case, and answers by the first group of words of
    which one occurs in either: top for "top" or "header", else bottom for
    "bottom" or "footer", else center for "center", "modal" or "popup",
    else overlay for "overlay", "fixed" or "absolute", else unknown.  The
    words "fixed-top" and "fixed-bottom" of the code change nothing, since
    they contain "top" and "bottom". *)
Theorem X16_banner_position (e : Dom.tag) :
  let classes := Text.lower (Survey.join_space (Dom.classes e)) in
  let style := Text.lower (Dom.get e "style") in
  let has := fun w => Text.contains (T w) classes || Text.contains (T w) style in
  Survey.detect_banner_position e
  = if has "top"%string || has "header"%string then Survey.Top
    else if has "bottom"%string || has "footer"%string then Survey.Bottom
    else if has "center"%string || has "modal"%string || has "popup"%string
         then Survey.Center
    else if has "overlay"%string || has "fixed"%string || has "absolute"%string
         then Survey.Overlay
    else Survey.Unknown.
Proof.
  cbv zeta. unfold Survey.detect_banner_position.
  set (classes := Text.lower (Survey.join_space (Dom.classes e))).
  set (style := Text.lower (Dom.get e "style")).
  cbn [Survey.position_indicators List.find existsb snd fst].
  rewrite !orb_false_r.
  rewrite (PageFacts.orb_absorb _ _ _
             (PageFacts.has_trans (T "top") (T "fixed-top") classes style eq_refl)).
  rewrite (PageFacts.orb_absorb _ _ _
             (PageFacts.has_trans (T "bottom") (T "fixed-bottom") classes style eq_refl)).
  rewrite !orb_assoc.
  destruct (_ || _ || _ || _); [reflexivity|].
  destruct (_ || _ || _ || _); [reflexivity|].
  destruct (_ || _ || _ || _ || _ || _); [reflexivity|].
  destruct (_ || _ || _ || _ || _ || _); reflexivity.
Qed.

(** X17.  In [analyze_page], when the consent detection returns:
    [cookie_handled] is true exactly when an accept button was found, and
    then [has_cookie_banner] is true; [has_cookie_banner] is true exactly
    when there is a banner element or an accept button, or the lower-cased
    page contains one of the seven indicators (cookie, gdpr, privacy,
    consent, samtykke, informasjonskapsler, personvern), or it contains two
    at least of "godta", "accept", "tracking" and "data protection"; and
    [requires_js] is true on every page on which [unified_parser.py] says
    so.  When the detection raises, nothing is set. *)
Theorem X17_consent_flags (soup : Dom.tag) (html : text) :
  (Dom.select soup Survey.modal_selector = None ->
   Page.consent_and_scripts soup html = None) /\
  (forall flags, Page.consent_and_scripts soup html = Some flags ->
     let page_text := Text.lower html in
     let info := Page.cookie_details flags in
     Survey.detect_cookie_banner soup page_text = Some info /\
     (Page.cookie_handled flags = true <-> Survey.accept_buttons info <> []) /\
     (Page.cookie_handled flags = true -> Page.has_cookie_banner flags = true) /\
     (Page.has_cookie_banner flags = true <->
        Survey.banner_elements info <> [] \/ Survey.accept_buttons info <> [] \/
        Text.any_in Page.cookie_indicators page_text = true \/
        (2 <= List.length
                (List.filter (fun k => Text.contains k page_text) Page.other_words))%nat) /\
     (Text.any_in Parser.js_indicators page_text = true ->
      Page.requires_js flags = true)).
Proof.
  unfold Page.consent_and_scripts. split.
  - intros H. unfold Survey.detect_cookie_banner. rewrite H. reflexivity.
  - intros flags. cbv zeta.
    set (ind := Text.any_in Page.cookie_indicators (Text.lower html)).
    set (unified_js := Text.any_in Parser.js_indicators (Text.lower html)).
    set (js := existsb _ Page.js_indicators).
    destruct (Survey.detect_cookie_banner soup (Text.lower html)) as [info|] eqn:E;
      [|discriminate].
    intros [= <-].
    cbn [Page.cookie_details Page.cookie_handled Page.has_cookie_banner Page.requires_js].
    split; [reflexivity|].
    rewrite (PageFacts.handled_spec _ _ _ E).
    destruct (PageFacts.detected_spec _ _ _ E) as (Hd & _ & _).
    split; [apply SurveyFacts.length_pos|].
    split.
    { intros Ha. rewrite Hd, Ha. rewrite orb_true_r. reflexivity. }
    split.
    { rewrite Hd. rewrite <- !SurveyFacts.length_pos.
      pose proof (PageFacts.hits_other (Text.lower html)) as Hh. fold ind in Hh.
      clear Hd.
      set (n := List.length (Survey.found_keywords (Text.lower html))) in *.
      set (m := List.length (List.filter _ Page.other_words)) in *.
      destruct ind.
      - split; [intros _; right; right; left; reflexivity|].
        intros _. destruct (_ || _ || _); reflexivity.
      - rewrite (Hh eq_refl).
        destruct (2 <=? m)%nat eqn:E2;
          [apply Nat.leb_le in E2|apply Nat.leb_gt in E2];
          destruct (0 <? List.length (Survey.banner_elements info))%nat;
          destruct (0 <? List.length (Survey.accept_buttons info))%nat;
          cbn [orb]; (split; [intros H|intros [H|[H|[H|H]]]]);
          try reflexivity; try discriminate; try lia; auto. }
    intros Hjs. unfold js. apply existsb_exists.
    unfold unified_js in Hjs. apply existsb_exists in Hjs as (k & Hk & Hc).
    unfold Parser.js_indicators in Hk. cbn [In] in Hk.
    destruct Hk as [<-|[<-|[<-|[<-|[<-|[]]]]]];
      [exists (T "document.getElementById")|exists (T "React")|exists (T "Vue")
      |exists (T "Angular")|exists (T "loading...")];
      (split; [cbn; tauto|exact Hc]).
Qed.

(** X18.  [_detect_cookie_elements] of [unified_parser.py] lists each
    accept pattern once at most, in the order of the patterns, and lists it
    exactly when one of the elements it selects has an affirmative word in
    its stripped, lower-cased text.  For every pattern it lists, the survey
    of [several_site_analyzer.py] finds an accept button with that
    selector; so whenever [unified_parser.py] finds an accept pattern, the
    survey detects a banner and reports the consent as handled. *)
Theorem X18_accept_patterns (soup : Dom.tag) :
  sublist (Analyzer.detect_accept soup) Analyzer.accept_patterns /\
  List.NoDup (Analyzer.detect_accept soup) /\
  (forall p, In p (Analyzer.detect_accept soup) <->
     In p Analyzer.accept_patterns /\
     exists els e,
       Dom.select soup p = Some els /\ In e els /\
       Text.any_in Analyzer.affirmative
         (Text.lower (Text.strip (Dom.get_text e))) = true) /\
  (forall p, In p (Analyzer.detect_accept soup) ->
     exists b, In b (Survey.find_accept_buttons soup) /\ Survey.a_selector b = p) /\
  (Analyzer.detect_accept soup <> [] ->
   forall page_text info,
     Survey.detect_cookie_banner soup page_text = Some info ->
     Survey.detected info = true /\ Page.handle_cookie_consent info = true).
Proof.
  assert (Hspec : forall p, In p (Analyzer.detect_accept soup) <->
     In p Analyzer.accept_patterns /\
     exists els e,
       Dom.select soup p = Some els /\ In e els /\
       Text.any_in Analyzer.affirmative
         (Text.lower (Text.strip (Dom.get_text e))) = true).
  { intros p. unfold Analyzer.detect_accept. rewrite filter_In. split.
    - intros [Hp H]. split; [exact Hp|].
      destruct (Dom.select soup p) as [els|]; [|discriminate].
      apply existsb_exists in H as (e & He & Hk). eauto.
    - intros [Hp (els & e & -> & He & Hk)]. split; [exact Hp|].
      apply existsb_exists. eauto. }
  assert (Hbutton : forall p, In p (Analyzer.detect_accept soup) ->
     exists b, In b (Survey.find_accept_buttons soup) /\ Survey.a_selector b = p).
  { intros p Hp. apply Hspec in Hp as [Hp (els & e & Hs & He & Hk)].
    assert (Hin : In p Survey.accept_buttons_selectors).
    { revert Hp. unfold Analyzer.accept_patterns, Survey.accept_buttons_selectors.
      cbn [In]. intuition. }
    assert (Hne : Text.strip (Dom.get_text e) <> []).
    { intros E0. rewrite E0 in Hk. discriminate. }
    exists (Survey.Accept p (Text.strip (Dom.get_text e)) (Dom.name e) (Dom.classes e)
              (Dom.get e "id")).
    split; [|reflexivity].
    unfold Survey.find_accept_buttons. apply in_flat_map. exists p.
    split; [exact Hin|]. rewrite Hs. apply in_flat_map. exists e.
    split; [exact He|]. cbv zeta.
    change Survey.affirmative with Analyzer.affirmative. rewrite Hk.
    destruct (Text.strip (Dom.get_text e)); [congruence|]. left. reflexivity. }
  split.
  { apply PageFacts.filter_sublist. }
  split.
  { unfold Analyzer.detect_accept. apply List.NoDup_filter.
    unfold Analyzer.accept_patterns.
    repeat (constructor; [cbn [In]; intros H;
                          repeat (destruct H as [H|H]; [discriminate H|]); exact H|]).
    constructor. }
  split; [exact Hspec|]. split; [exact Hbutton|].
  intros Hne page_text info Hinfo.
  destruct (Analyzer.detect_accept soup) as [|p l] eqn:E; [congruence|].
  destruct (Hbutton p (or_introl eq_refl)) as (b & Hb & _).
  destruct (PageFacts.detected_spec _ _ _ Hinfo) as (Hd & Ha & _).
  assert (Hpos : (0 <? List.length (Survey.accept_buttons info))%nat = true).
  { apply SurveyFacts.length_pos. rewrite Ha. intros E0. rewrite E0 in Hb. destruct Hb. }
  assert (Hdet : Survey.detected info = true).
  { rewrite Hd, Hpos. apply orb_true_r. }
  split; [exact Hdet|]. unfold Page.handle_cookie_consent. rewrite Hdet. exact Hpos.
Qed.

(** ** The statistics of [save_results] *)

Module ResultsFacts.
Import Results.

Lemma text_eqb_eq (a b : text) : Scraper.text_eqb a b = true <-> a = b.
Proof. unfold Scraper.text_eqb. apply bool_decide_eq_true. Qed.

Lemma text_eqb_neq (a b : text) : Scraper.text_eqb a b = false <-> a <> b.
Proof. unfold Scraper.text_eqb. apply bool_decide_eq_false. Qed.

Lemma text_eqb_refl (a : text) : Scraper.text_eqb a a = true.
Proof. apply text_eqb_eq. reflexivity. Qed.

(** The number that a key counts, 0 for a key that is not there. *)
Local Abbreviation value k d := (default 0%nat (get k d)).

Lemma get_none {V : Type} (k : text) (d : dict V) : get k d = None <-> ~ In k (map fst d).
Proof.
  induction d as [|[k' v] d IH]; cbn [get map fst In]; [tauto|].
  destruct (Scraper.text_eqb k k') eqn:E.
  - apply text_eqb_eq in E. subst. split; [discriminate|]. intros H. exfalso. auto.
  - apply text_eqb_neq in E. rewrite IH. split; [intros H [H'|H']; auto|tauto].
Qed.

Lemma get_set_same {V : Type} (k : text) (v : V) (d : dict V) : get k (set k v d) = Some v.
Proof.
  induction d as [|[k' v'] d IH]; cbn [set get].
  - rewrite text_eqb_refl. reflexivity.
  - destruct (Scraper.text_eqb k k') eqn:E; cbn [get]; rewrite E; [reflexivity|exact IH].
Qed.

Lemma get_set_other {V : Type} (k k' : text) (v : V) (d : dict V) :
  k <> k' -> get k' (set k v d) = get k' d.
Proof.
  intros Hne.
  assert (E' : Scraper.text_eqb k' k = false) by (apply text_eqb_neq; congruence).
  induction d as [|[k0 v0] d IH]; cbn [set get].
  - rewrite E'. reflexivity.
  - destruct (Scraper.text_eqb k k0) eqn:E; cbn [get].
    + apply text_eqb_eq in E. subst k0. rewrite E'. reflexivity.
    + rewrite IH. reflexivity.
Qed.

Lemma keys_set {V : Type} (k : text) (v : V) (d : dict V) :
  map fst (set k v d)
  = if existsb (Scraper.text_eqb k) (map fst d) then map fst d else map fst d ++ [k].
Proof.
  induction d as [|[k' v'] d IH]; cbn [set map fst existsb app]; [reflexivity|].
  destruct (Scraper.text_eqb k k') eqn:E; cbn [orb map fst]; [reflexivity|].
  rewrite IH. destruct (existsb _ _); reflexivity.
Qed.

Lemma total_set (k : text) (v : nat) (d : dict nat) :
  (total (set k v d) + value k d = total d + v)%nat.
Proof.
  unfold total.
  induction d as [|[k' v'] d IH]; cbn [set get map snd fold_right]; [simpl; lia|].
  destruct (Scraper.text_eqb k k') eqn:E; cbn [map snd fold_right]; simpl default; lia.
Qed.

Lemma existsb_keys {V : Type} (k : text) (d : dict V) :
  existsb (Scraper.text_eqb k) (map fst d) = match get k d with Some _ => true | None => false end.
Proof.
  induction d as [|[k' v'] d IH]; cbn [get map fst existsb]; [reflexivity|].
  destruct (Scraper.text_eqb k k'); [reflexivity|exact IH].
Qed.

(** One plan more: its operator counts one more, the others do not
    change; a new operator goes to the end of the keys. *)
Lemma count_plan_spec (d : dict nat) (p : Orchestrator.MobilePlan) :
  let op := Orchestrator.operator p in
  (forall k, value k (count_plan d p)
             = (value k d + if Scraper.text_eqb k op then 1 else 0)%nat) /\
  map fst (count_plan d p)
  = (if existsb (Scraper.text_eqb op) (map fst d) then map fst d else map fst d ++ [op]) /\
  total (count_plan d p) = (total d + 1)%nat.
Proof.
  cbv zeta. unfold count_plan. set (op := Orchestrator.operator p).
  rewrite existsb_keys.
  destruct (get op d) as [n|] eqn:E.
  - rewrite E. split; [|split].
    + intros k. destruct (Scraper.text_eqb k op) eqn:Ek.
      * apply text_eqb_eq in Ek. subst k. rewrite get_set_same, E. reflexivity.
      * apply text_eqb_neq in Ek. rewrite get_set_other by congruence. lia.
    + rewrite keys_set, existsb_keys, E. reflexivity.
    + pose proof (total_set op (n + 1)%nat d) as H. rewrite E in H. simpl default in H. lia.
  - rewrite get_set_same. split; [|split].
    + intros k. destruct (Scraper.text_eqb k op) eqn:Ek.
      * apply text_eqb_eq in Ek. subst k. rewrite get_set_same, E. reflexivity.
      * apply text_eqb_neq in Ek. rewrite !get_set_other by congruence. lia.
    + rewrite keys_set, existsb_keys, get_set_same, keys_set, existsb_keys, E.
      reflexivity.
    + pose proof (total_set op (0 + 1)%nat (set op 0%nat d)) as H1.
      pose proof (total_set op 0%nat d) as H2.
      rewrite get_set_same in H1. rewrite E in H2. simpl default in H1, H2. lia.
Qed.

Lemma fold_stats (plans : list Orchestrator.MobilePlan) :
  forall d,
    let out := fold_left count_plan plans d in
    (forall k, value k out
               = (value k d
                  + List.length (List.filter (Scraper.text_eqb k)
                                   (map Orchestrator.operator plans)))%nat) /\
    map fst out
    = map fst d ++ first_occurrences (map fst d) (map Orchestrator.operator plans) /\
    total out = (total d + List.length plans)%nat.
Proof.
  induction plans as [|p plans IH]; intros d; cbv zeta.
  - cbn. rewrite app_nil_r. repeat split; auto.
  - cbn [fold_left map List.filter List.length first_occurrences].
    destruct (IH (count_plan d p)) as (H1 & H2 & H3). cbv zeta in H1, H2, H3.
    destruct (count_plan_spec d p) as (C1 & C2 & C3). cbv zeta in C1, C2, C3.
    split; [|split].
    + intros k. rewrite H1, C1.
      destruct (Scraper.text_eqb k (Orchestrator.operator p)); cbn [List.length]; lia.
    + rewrite H2, C2.
      destruct (existsb (Scraper.text_eqb (Orchestrator.operator p)) (map fst d));
        [reflexivity|]. rewrite <- app_assoc. reflexivity.
    + rewrite H3, C3. lia.
Qed.

Lemma existsb_In (x : text) (l : list text) :
  existsb (Scraper.text_eqb x) l = true <-> In x l.
Proof.
  rewrite existsb_exists. split.
  - intros (y & Hy & E). apply text_eqb_eq in E. subst. exact Hy.
  - intros H. exists x. split; [exact H|apply text_eqb_refl].
Qed.

Lemma first_occurrences_In (l : list text) :
  forall seen x, In x (first_occurrences seen l) <-> In x l /\ ~ In x seen.
Proof.
  induction l as [|y l IH]; intros seen x; cbn [first_occurrences In]; [tauto|].
  destruct (existsb (Scraper.text_eqb y) seen) eqn:E.
  - apply existsb_In in E. rewrite IH. split; [tauto|].
    intros [[->|H] Hn]; [contradiction|auto].
  - assert (Hy : ~ In y seen).
    { intros H. apply existsb_In in H. congruence. }
    cbn [In]. rewrite IH, in_app_iff. cbn [In]. split.
    + intros [<-|[H1 H2]]; [auto|]. split; [auto|]. intros H. apply H2. auto.
    + intros [[<-|H1] H2]; [auto|].
      destruct (decide (y = x)) as [->|Hne]; [auto|].
      right. split; [exact H1|]. intros [H|[H|[]]]; auto.
Qed.

Lemma first_occurrences_NoDup (l : list text) :
  forall seen, List.NoDup (first_occurrences seen l).
Proof.
  induction l as [|y l IH]; intros seen; cbn [first_occurrences]; [constructor|].
  destruct (existsb (Scraper.text_eqb y) seen); [apply IH|].
  constructor; [|apply IH]. rewrite first_occurrences_In, in_app_iff. cbn. tauto.
Qed.

Lemma filter_count_pos (x : text) (l : list text) :
  (1 <= List.length (List.filter (Scraper.text_eqb x) l))%nat <-> In x l.
Proof.
  induction l as [|y l IH]; cbn [List.filter In List.length]; [split; [lia|tauto]|].
  destruct (Scraper.text_eqb x y) eqn:E.
  - apply text_eqb_eq in E. subst. cbn [List.length]. split; [auto|lia].
  - apply text_eqb_neq in E. rewrite IH. split; [auto|]. intros [H|H]; [congruence|auto].
Qed.

End ResultsFacts.

(** X19.  The metadata that [save_results] writes are consistent:
    [total_plans] is the number of plans and the sum of the numbers of
    [operator_stats]; [operators_found] lists the operators of the plans,
    each once, in the order in which they first occur; and the number that
    [operator_stats] holds for an operator is the number of its plans, one
    at least. *)
Theorem X19_operator_stats (plans : list Orchestrator.MobilePlan) :
  let m := Results.save_results plans in
  let operators := map Orchestrator.operator plans in
  Results.total_plans m = List.length plans /\
  Results.total (Results.stats m) = Results.total_plans m /\
  Results.operators_found m = Results.first_occurrences [] operators /\
  List.NoDup (Results.operators_found m) /\
  (forall op, In op (Results.operators_found m) <-> In op operators) /\
  (forall op n,
      Results.get op (Results.stats m) = Some n <->
      n = List.length (List.filter (Scraper.text_eqb op) operators) /\ (1 <= n)%nat).
Proof.
  cbv zeta. unfold Results.save_results, Results.operator_stats.
  cbn [Results.total_plans Results.stats Results.operators_found].
  destruct (ResultsFacts.fold_stats plans []) as (H1 & H2 & H3). cbv zeta in H1, H2, H3.
  cbn [map app] in H2.
  split; [reflexivity|]. split; [exact H3|]. split; [exact H2|].
  split; [rewrite H2; apply ResultsFacts.first_occurrences_NoDup|].
  assert (Hin : forall op,
             In op (map fst (fold_left Results.count_plan plans []))
             <-> In op (map Orchestrator.operator plans)).
  { intros op. rewrite H2, ResultsFacts.first_occurrences_In. cbn. tauto. }
  split; [exact Hin|].
  intros op n. specialize (H1 op). simpl in H1.
  split.
  - intros Hg. rewrite Hg in H1. simpl default in H1. split; [lia|].
    rewrite H1. apply ResultsFacts.filter_count_pos. apply Hin.
    apply Decidable.not_not.
    { unfold Decidable.decidable.
      destruct (existsb (Scraper.text_eqb op)
                  (map fst (fold_left Results.count_plan plans []))) eqn:Ex.
      - left. apply ResultsFacts.existsb_In. exact Ex.
      - right. intros H. apply ResultsFacts.existsb_In in H. congruence. }
    intros H. apply ResultsFacts.get_none in H. congruence.
  - intros [-> Hpos].
    destruct (Results.get op (fold_left Results.count_plan plans [])) as [n|] eqn:Hg.
    + simpl default in H1. f_equal. lia.
    + exfalso. apply ResultsFacts.get_none in Hg. apply Hg, Hin.
      apply ResultsFacts.filter_count_pos. exact Hpos.
Qed.

(** ** The number of reviews *)

Module ReviewsFacts.
Import Text Regex Py Utils GreedyFacts.

Local Abbreviation in_number := (fun c : ascii => isdigit c || isspace c).


Lemma search_no_digit (s : text) :
  forall prev,
    forallb (fun c => negb (isdigit c)) s = true ->
    search_from reviews_pattern prev s = None.
Proof.
  induction s as [|c s IH]; intros prev H.
  - reflexivity.
  - cbn [forallb] in H. apply andb_prop in H as [Hc H]. apply negb_true_iff in Hc.
    unfold reviews_pattern. cbn [search_from run]. rewrite Hc. cbn [flat_map map].
    apply IH. exact H.
Qed.

(** The whitespace that [int] skips is whitespace, and no digit is. *)
Lemma int_space_space (c : ascii) : int_space c = true -> isspace c = true.
Proof. destruct c as [[] [] [] [] [] [] [] []]; vm_compute; congruence. Qed.













End ReviewsFacts.



(** ** One page of the crawl *)

(** X21.  [fetch_and_process_page] reports that no results are left
    exactly when the crawler loads the page for the check and its cleaned
    markup contains "No Results Found"; it then returns no
    record and leaves [seen_names] as it was, and so it does when the page
    cannot be crawled or has no content that can be read.  A failure of
    the check itself stops nothing.  In every case [seen_names] after the
    call is the set before it and the names of the records returned, which
    are all different, are not empty and were not in the set. *)
Theorem X21_fetch_page
    (arun : Scraper.crawler) (url : text) (pg : Scraper.page)
    (model_type today : text) (seen : gset Py.value) :
  let out := Pages.fetch_page arun url pg model_type today seen in
  let records := fst (fst out) in
  let stop := snd (fst out) in
  (stop = true <->
     exists result pre post,
       arun url = Some result /\ Scraper.success result = true /\
       Scraper.cleaned_html result = pre ++ T "No Results Found" ++ post) /\
  (arun url = None -> stop = false) /\
  (stop = true -> records = [] /\ snd out = seen) /\
  (pg = Scraper.PageRaises \/ pg = Scraper.PageFailed \/
   pg = Scraper.PageOk Scraper.Nothing \/ pg = Scraper.PageOk Scraper.Invalid ->
   records = [] /\ snd out = seen) /\
  (forall x, stop = false -> pg = Scraper.PageOk (Scraper.JsonOther x) ->
     out = Pages.fetch_page arun url (Scraper.PageOk (Scraper.JsonList [x]))
             model_type today seen) /\
  snd out = list_to_set (Scraper.names records) ∪ seen /\
  seen ⊆ snd out /\
  List.NoDup (Scraper.names records) /\
  (forall n, In n (Scraper.names records) -> Py.truthy n = true /\ n ∉ seen).
Proof.
  cbv zeta. unfold Pages.fetch_page, Scraper.fetch_and_process_page.
  assert (Hcheck : Pages.check_no_results arun url = true <->
     exists result pre post,
       arun url = Some result /\ Scraper.success result = true /\
       Scraper.cleaned_html result = pre ++ T "No Results Found" ++ post).
  { unfold Pages.check_no_results. destruct (arun url) as [r|].
    - rewrite andb_true_iff, TextFacts.contains_spec. split.
      + intros (Hs & pre & post & Hc). exists r, pre, post. auto.
      + intros (r' & pre & post & [= <-] & Hs & Hc). eauto.
    - split; [discriminate|]. intros (r' & pre & post & H & _). discriminate. }
  assert (Hempty : (∅ : gset Py.value) ∪ seen = seen) by set_solver.
  destruct (Pages.check_no_results arun url) eqn:Ec; cbn [fst snd].
  - split; [exact Hcheck|]. split.
    { intros Hn. destruct (proj1 Hcheck eq_refl) as (r & _ & _ & H & _). congruence. }
    split; [auto|]. split; [auto|]. split; [discriminate|].
    split; [cbn; set_solver|]. split; [set_solver|]. split; [constructor|intros n []].
  - assert (Htriv :
      (false = true <->
         exists result pre post,
           arun url = Some result /\ Scraper.success result = true /\
           Scraper.cleaned_html result = pre ++ T "No Results Found" ++ post) /\
      (arun url = None -> false = false))
      by (split; [exact Hcheck|reflexivity]).
    destruct pg as [| |[| |l|x]]; cbn [fst snd];
      try (split; [apply Htriv|]; split; [apply Htriv|]; split; [discriminate|];
           split; [auto|]; split; [intros x _ H; discriminate|];
           split; [cbn; set_solver|]; split; [set_solver|];
           split; [constructor|intros n []]).
    + destruct l as [|x l]; cbn [fst snd];
        (split; [apply Htriv|]); (split; [apply Htriv|]); (split; [discriminate|]);
        (split; [intros [H|[H|[H|H]]]; discriminate|]);
        (split; [intros x' _ H; discriminate|]).
      * split; [cbn; set_solver|]. split; [set_solver|].
        split; [constructor|intros n []].
      * split; [apply ScraperFacts.seen_after|].
        split; [rewrite ScraperFacts.seen_after; set_solver|].
        split; [apply ScraperFacts.names_nodup|apply ScraperFacts.names_kept].
    + split; [apply Htriv|]. split; [apply Htriv|]. split; [discriminate|].
      split; [intros [H|[H|[H|H]]]; discriminate|].
      split; [intros x' _ [= <-]; reflexivity|].
      split; [apply ScraperFacts.seen_after|].
      split; [rewrite ScraperFacts.seen_after; set_solver|].
      split; [apply ScraperFacts.names_nodup|apply ScraperFacts.names_kept].
Qed.

(** ** Normalising a field twice *)

(** The plan fields are normalised texts; the lemmas below relate what a
    pattern reads in the cleaned text to what it reads in the text
    itself: a word of the cleaned text is a word of the text, and the
    whitespace between two words is a single space of the cleaned text. *)

Module AlignFacts.
Import Text Regex RegexSem Patterns TextFacts RegexFacts NormalizerFacts.
Import PatternFacts WordsFacts AmountFacts GreedyFacts.

(** A text without whitespace. *)
Local Abbreviation solid w := (forallb (fun c => negb (isspace c)) w = true).

Lemma space_not_word (c : ascii) : isspace c = true -> isword c = false.
Proof. destruct c as [[] [] [] [] [] [] [] []]; vm_compute; congruence. Qed.

Lemma lower_space (c : ascii) : isspace (lower_char c) = isspace c.
Proof. destruct c as [[] [] [] [] [] [] [] []]; vm_compute; reflexivity. Qed.

Lemma lower_digit (c : ascii) : isdigit (lower_char c) = isdigit c.
Proof. destruct c as [[] [] [] [] [] [] [] []]; vm_compute; reflexivity. Qed.

Lemma solid_app (a b : text) : solid (a ++ b) <-> solid a /\ solid b.
Proof. rewrite forallb_app, andb_true_iff. tauto. Qed.

Lemma solid_lower (w : text) :
  forallb (fun c => negb (isspace c)) (lower w)
  = forallb (fun c => negb (isspace c)) w.
Proof.
  induction w as [|c w IH]; simpl; [reflexivity|].
  rewrite lower_space, IH. reflexivity.
Qed.

Lemma digits_solid (n : text) : forallb isdigit n = true -> solid n.
Proof.
  induction n as [|c n IH]; simpl; [reflexivity|].
  intros H. apply andb_prop in H as [Hc Hn]. rewrite (IH Hn), andb_true_r.
  destruct (isspace c) eqn:E; [|reflexivity].
  rewrite (space_not_digit c E) in Hc. discriminate.
Qed.

Lemma number_solid (sep : ascii -> bool) (n : text) :
  (forall c, sep c = true -> isspace c = false) ->
  number sep n -> n <> [] /\ solid n.
Proof.
  intros Hsep [[Hne Hd]|(a & c & b & -> & [Ha Hda] & Hc & [Hb Hdb])].
  - split; [exact Hne|apply digits_solid; exact Hd].
  - split; [destruct a; discriminate|].
    apply solid_app. split; [apply digits_solid; exact Hda|].
    simpl. rewrite (Hsep c Hc). apply digits_solid. exact Hdb.
Qed.

Lemma word_solid (lit u : text) :
  lit <> [] -> solid lit -> same_word lit u -> u <> [] /\ solid u.
Proof.
  unfold same_word. intros Hne Hl H. split.
  - intros ->. destruct lit; [congruence|discriminate].
  - rewrite <- solid_lower. unfold lower. rewrite H.
    fold (lower lit). rewrite solid_lower. exact Hl.
Qed.

Lemma last_char_nonempty (prev : option ascii) (x u : text) :
  u <> [] -> last_char prev (x ++ u) = last_char None u.
Proof.
  intros Hu. destruct (exists_last Hu) as (r & c & ->).
  rewrite app_assoc, !last_char_app. reflexivity.
Qed.

Lemma head_nonempty (u x : text) : u <> [] -> head (u ++ x) = head u.
Proof. destruct u; [congruence|reflexivity]. Qed.

(** *** Words of the collapsed text *)

(** A word at the start of the collapsed text stands at the start of the
    text. *)
Lemma sub_ws_solid (B : text) :
  solid B ->
  forall s y, sub_ws false s = B ++ y ->
              exists s', s = B ++ s' /\ sub_ws false s' = y.
Proof.
  induction B as [|c B IH]; intros HB s y H.
  - exists s. auto.
  - simpl in HB. apply andb_prop in HB as [Hc HB]. apply negb_true_iff in Hc.
    destruct s as [|d s]; [discriminate|]. simpl in H.
    destruct (isspace d) eqn:E.
    + injection H as <- _. vm_compute in Hc. discriminate.
    + injection H as <- H. destruct (IH HB s y H) as (s' & -> & Hs').
      exists s'. auto.
Qed.

Lemma sub_ws_run (s : text) :
  forall c z, sub_ws true s = c :: z ->
    exists g s0, s = g ++ c :: s0 /\ spaces g /\ sub_ws false s0 = z.
Proof.
  induction s as [|d s IH]; intros c z H; simpl in H; [discriminate|].
  destruct (isspace d) eqn:E.
  - destruct (IH c z H) as (g & s0 & -> & Hg & Hz). exists (d :: g), s0.
    split; [reflexivity|]. split; [|exact Hz].
    unfold spaces. simpl. rewrite E. exact Hg.
  - injection H as <- <-. exists [], s. repeat split.
Qed.

(** The whitespace between two words. *)
Lemma sub_ws_gap (s sp : text) (c : ascii) (z : text) :
  spaces sp -> isspace c = false -> sub_ws false s = sp ++ c :: z ->
  exists sp' s0, s = sp' ++ c :: s0 /\ spaces sp' /\ sub_ws false s0 = z.
Proof.
  unfold spaces. intros Hsp Hc H.
  destruct s as [|d s]; [destruct sp; discriminate|]. simpl in H.
  destruct (isspace d) eqn:E.
  - destruct sp as [|x sp]; simpl in H.
    + injection H as <- _. vm_compute in Hc. discriminate.
    + injection H as _ H. destruct sp as [|y sp]; simpl in H.
      * destruct (sub_ws_run s c z H) as (g & s0 & -> & Hg & Hz).
        exists (d :: g), s0. split; [reflexivity|]. split; [|exact Hz].
        simpl. rewrite E. exact Hg.
      * exfalso. pose proof (sub_ws_head_true s y _ H) as Hy.
        simpl in Hsp. rewrite Hy, andb_false_r in Hsp. discriminate.
  - destruct sp as [|x sp]; simpl in H.
    + injection H as <- <-. exists [], s. repeat split.
    + injection H as <- _. simpl in Hsp. rewrite E in Hsp. discriminate.
Qed.

(** The character before a word is a word character in the text exactly
    when it is one in the collapsed text. *)
Lemma sub_ws_before (s : text) :
  forall b pre c z prev prev',
    word_opt prev = word_opt prev' -> (b = true -> word_opt prev = false) ->
    isspace c = false -> sub_ws b s = pre ++ c :: z ->
    exists pre' s0,
      s = pre' ++ c :: s0 /\ sub_ws false s0 = z /\
      word_opt (last_char prev' pre') = word_opt (last_char prev pre).
Proof.
  induction s as [|d s IH]; intros b pre c z prev prev' Hp Hb Hc H; simpl in H.
  - destruct pre; discriminate.
  - destruct (isspace d) eqn:E.
    + destruct b.
      * assert (Hd : word_opt prev = word_opt (Some d)).
        { simpl. rewrite (space_not_word d E). auto. }
        destruct (IH true pre c z prev (Some d) Hd Hb Hc H)
          as (pre' & s0 & -> & Hz & Hl).
        exists (d :: pre'), s0. auto.
      * destruct pre as [|x pre]; simpl in H.
        { injection H as <- _. vm_compute in Hc. discriminate. }
        injection H as <- H.
        assert (Hd : word_opt (Some " "%char) = word_opt (Some d)).
        { simpl. rewrite (space_not_word d E). reflexivity. }
        destruct (IH true pre c z (Some " "%char) (Some d) Hd (fun _ => eq_refl) Hc H)
          as (pre' & s0 & -> & Hz & Hl).
        exists (d :: pre'), s0. auto.
    + destruct pre as [|x pre]; simpl in H.
      * injection H as <- <-. exists [], s. simpl. auto.
      * injection H as <- H.
        assert (Hf : false = true -> word_opt (Some d) = false) by discriminate.
        destruct (IH false pre c z (Some d) (Some d) eq_refl Hf Hc H)
          as (pre' & s0 & -> & Hz & Hl).
        exists (d :: pre'), s0. auto.
Qed.

Lemma sub_ws_first (s : text) :
  word_opt (head (sub_ws false s)) = word_opt (head s).
Proof.
  destruct s as [|d s]; simpl; [reflexivity|].
  destruct (isspace d) eqn:E; simpl; [|reflexivity].
  rewrite (space_not_word d E). reflexivity.
Qed.

(** One word of the collapsed text. *)
Lemma collapsed_block (u pre A rest : text) (prev' : option ascii) :
  sub_ws false u = pre ++ A ++ rest -> A <> [] -> solid A ->
  word_opt prev' = false ->
  exists pre' rest',
    u = pre' ++ A ++ rest' /\ sub_ws false rest' = rest /\
    word_opt (last_char prev' pre') = word_opt (last_char None pre).
Proof.
  intros H HA Hs Hp. destruct A as [|a A]; [congruence|].
  simpl in Hs. apply andb_prop in Hs as [Ha Hs]. apply negb_true_iff in Ha.
  assert (Hb : false = true -> word_opt None = false) by discriminate.
  destruct (sub_ws_before u false pre a (A ++ rest) None prev' (eq_sym Hp) Hb Ha H)
    as (pre' & s0 & -> & Hz & Hl).
  destruct (sub_ws_solid A Hs s0 rest Hz) as (rest' & -> & Hr).
  exists pre', rest'. auto.
Qed.

(** Two words of the collapsed text with whitespace or nothing between
    them. *)
Lemma collapsed_blocks (u pre A sp B next : text) (prev' : option ascii) :
  sub_ws false u = pre ++ A ++ sp ++ B ++ next ->
  A <> [] -> solid A -> spaces sp -> B <> [] -> solid B ->
  word_opt prev' = false ->
  exists pre' sp' next',
    u = pre' ++ A ++ sp' ++ B ++ next' /\ spaces sp' /\
    sub_ws false next' = next /\
    word_opt (last_char prev' pre') = word_opt (last_char None pre).
Proof.
  intros H HA HsA Hsp HB HsB Hp.
  destruct (collapsed_block u pre A (sp ++ B ++ next) prev' H HA HsA Hp)
    as (pre' & rest' & -> & Hr & Hl).
  destruct B as [|b B]; [congruence|].
  simpl in HsB. apply andb_prop in HsB as [Hb HsB]. apply negb_true_iff in Hb.
  destruct (sub_ws_gap rest' sp b (B ++ next) Hsp Hb Hr) as (sp' & s0 & -> & Hsp' & Hz).
  destruct (sub_ws_solid B HsB s0 next Hz) as (next' & -> & Hn).
  exists pre', sp', next'. auto.
Qed.

(** *** Words of the cleaned text *)

Lemma clean_text_strip (s : text) :
  clean_text s <> [] ->
  exists x y, s = x ++ strip s ++ y /\ spaces x /\ spaces y /\
              clean_text s = sub_ws false (strip s).
Proof.
  intros Hne. destruct (strip_parts s) as (x & y & E & Hx & Hy).
  exists x, y. split; [exact E|]. split; [exact Hx|]. split; [exact Hy|].
  unfold clean_text in *. destruct s; [exfalso; apply Hne; reflexivity|reflexivity].
Qed.

Lemma spaces_last (x : text) : spaces x -> word_opt (last_char None x) = false.
Proof.
  unfold spaces. intros H. destruct x as [|c x]; [reflexivity|].
  assert (Hne : c :: x <> []) by discriminate.
  destruct (exists_last Hne) as (r & d & E). rewrite E in *.
  rewrite last_char_app. simpl. rewrite forallb_app in H.
  apply andb_prop in H as [_ H]. simpl in H. rewrite andb_true_r in H.
  apply space_not_word. exact H.
Qed.

Lemma spaces_first (rest y : text) :
  spaces y -> word_opt (head (rest ++ y)) = word_opt (head (sub_ws false rest)).
Proof.
  unfold spaces. intros Hy. rewrite sub_ws_first. destruct rest as [|c rest]; [|reflexivity].
  destruct y as [|d y]; [reflexivity|]. simpl in *.
  apply andb_prop in Hy as [Hd _]. apply space_not_word. exact Hd.
Qed.

Lemma clean_text_block (s pre A rest : text) :
  clean_text s = pre ++ A ++ rest -> A <> [] -> solid A ->
  exists pre' rest',
    s = pre' ++ A ++ rest' /\
    word_opt (last_char None pre') = word_opt (last_char None pre) /\
    word_opt (head rest') = word_opt (head rest).
Proof.
  intros H HA Hs.
  destruct (clean_text_strip s) as (x & y & E & Hx & Hy & Hc).
  { rewrite H. destruct pre; [destruct A; [congruence|discriminate]|discriminate]. }
  rewrite Hc in H.
  destruct (collapsed_block _ pre A rest (last_char None x) H HA Hs (spaces_last x Hx))
    as (pre' & rest' & Eu & Hr & Hl).
  exists (x ++ pre'), (rest' ++ y). split.
  - rewrite E at 1. rewrite Eu, <- !app_assoc. reflexivity.
  - rewrite last_char_app. split; [exact Hl|].
    rewrite (spaces_first rest' y Hy), Hr. reflexivity.
Qed.

Lemma clean_text_blocks (s pre A sp B next : text) :
  clean_text s = pre ++ A ++ sp ++ B ++ next ->
  A <> [] -> solid A -> spaces sp -> B <> [] -> solid B ->
  exists pre' sp' next',
    s = pre' ++ A ++ sp' ++ B ++ next' /\ spaces sp' /\
    word_opt (last_char None pre') = word_opt (last_char None pre) /\
    word_opt (head next') = word_opt (head next).
Proof.
  intros H HA HsA Hsp HB HsB.
  destruct (clean_text_strip s) as (x & y & E & Hx & Hy & Hc).
  { rewrite H. destruct pre; [destruct A; [congruence|discriminate]|discriminate]. }
  rewrite Hc in H.
  destruct (collapsed_blocks _ pre A sp B next (last_char None x) H HA HsA Hsp HB HsB
              (spaces_last x Hx))
    as (pre' & sp' & next' & Eu & Hsp' & Hn & Hl).
  exists (x ++ pre'), sp', (next' ++ y). split.
  - rewrite E at 1. rewrite Eu, <- !app_assoc. reflexivity.
  - split; [exact Hsp'|]. rewrite last_char_app. split; [exact Hl|].
    rewrite (spaces_first next' y Hy), Hn. reflexivity.
Qed.

(** *** A pattern that occurs in the cleaned text occurs in the text *)

Lemma boundary_eq (p p' : option ascii) (x x' : text) :
  word_opt p' = word_opt p -> word_opt (head x') = word_opt (head x) ->
  at_boundary p' x' = at_boundary p x.
Proof. unfold at_boundary. intros -> ->. reflexivity. Qed.

Section Units.
Variable sep : ascii -> bool.
Hypothesis sep_solid : forall c, sep c = true -> isspace c = false.
Variables (c : ascii) (w0 : text).
Hypothesis unit_solid : solid (c :: w0).

Lemma unit_word (u : text) : same_word (c :: w0) u -> u <> [] /\ solid u.
Proof. apply word_solid; [discriminate|exact unit_solid]. Qed.

Lemma followed_clean (s : text) :
  occurs (followed_by (Grp (number_body sep)) (lits c w0)) (clean_text s) ->
  occurs (followed_by (Grp (number_body sep)) (lits c w0)) s.
Proof.
  intros (pre & w & g & next & Hs & Hm).
  apply followed_shape in Hm as (n & sp & u & -> & Hn & Hsp & Hu & ->).
  destruct (number_solid sep n sep_solid Hn) as [Hn1 Hn2].
  destruct (unit_word u Hu) as [Hu1 Hu2].
  rewrite <- !app_assoc in Hs.
  destruct (clean_text_blocks s pre n sp u next Hs Hn1 Hn2 Hsp Hu1 Hu2)
    as (pre' & sp' & next' & -> & Hsp' & _ & _).
  exists pre', (n ++ sp' ++ u), (Some n), next'.
  split; [rewrite <- !app_assoc; reflexivity|].
  apply followed_shape. exists n, sp', u. auto.
Qed.

Lemma followed_word_clean (s : text) :
  occurs (Seq (followed_by (Grp (number_body sep)) (lits c w0)) WordB) (clean_text s) ->
  occurs (Seq (followed_by (Grp (number_body sep)) (lits c w0)) WordB) s.
Proof.
  intros (pre & w & g & next & Hs & Hm).
  apply followed_word_shape in Hm as (n & sp & u & -> & Hn & Hsp & Hu & Hb & ->).
  destruct (number_solid sep n sep_solid Hn) as [Hn1 Hn2].
  destruct (unit_word u Hu) as [Hu1 Hu2].
  rewrite <- !app_assoc in Hs.
  destruct (clean_text_blocks s pre n sp u next Hs Hn1 Hn2 Hsp Hu1 Hu2)
    as (pre' & sp' & next' & -> & Hsp' & _ & Hh).
  exists pre', (n ++ sp' ++ u), (Some n), next'.
  split; [rewrite <- !app_assoc; reflexivity|].
  apply followed_word_shape. exists n, sp', u.
  split; [reflexivity|]. split; [exact Hn|]. split; [exact Hsp'|].
  split; [exact Hu|]. split; [|reflexivity].
  rewrite <- Hb. rewrite !app_assoc, !(last_char_nonempty _ _ u Hu1).
  apply boundary_eq; [reflexivity|exact Hh].
Qed.

Lemma integer_word_clean (s : text) :
  occurs (Seq (followed_by integer (lits c w0)) WordB) (clean_text s) ->
  occurs (Seq (followed_by integer (lits c w0)) WordB) s.
Proof.
  intros (pre & w & g & next & Hs & Hm).
  apply integer_word_shape in Hm as (n & sp & u & -> & Hn & Hsp & Hu & Hb & ->).
  destruct Hn as [Hn1 Hd]. pose proof (digits_solid n Hd) as Hn2.
  destruct (unit_word u Hu) as [Hu1 Hu2].
  rewrite <- !app_assoc in Hs.
  destruct (clean_text_blocks s pre n sp u next Hs Hn1 Hn2 Hsp Hu1 Hu2)
    as (pre' & sp' & next' & -> & Hsp' & _ & Hh).
  exists pre', (n ++ sp' ++ u), (Some n), next'.
  split; [rewrite <- !app_assoc; reflexivity|].
  apply integer_word_shape. exists n, sp', u.
  split; [reflexivity|]. split; [split; assumption|]. split; [exact Hsp'|].
  split; [exact Hu|]. split; [|reflexivity].
  rewrite <- Hb. rewrite !app_assoc, !(last_char_nonempty _ _ u Hu1).
  apply boundary_eq; [reflexivity|exact Hh].
Qed.

Lemma integer_clean (s : text) :
  occurs (followed_by integer (lits c w0)) (clean_text s) ->
  occurs (followed_by integer (lits c w0)) s.
Proof.
  intros (pre & w & g & next & Hs & Hm).
  apply integer_shape in Hm as (n & sp & u & -> & Hn & Hsp & Hu & ->).
  destruct Hn as [Hn1 Hd]. pose proof (digits_solid n Hd) as Hn2.
  destruct (unit_word u Hu) as [Hu1 Hu2].
  rewrite <- !app_assoc in Hs.
  destruct (clean_text_blocks s pre n sp u next Hs Hn1 Hn2 Hsp Hu1 Hu2)
    as (pre' & sp' & next' & -> & Hsp' & _ & _).
  exists pre', (n ++ sp' ++ u), (Some n), next'.
  split; [rewrite <- !app_assoc; reflexivity|].
  apply integer_shape. exists n, sp', u.
  split; [reflexivity|]. split; [split; assumption|]. auto.
Qed.

Lemma preceded_clean (s : text) :
  occurs (preceded_by (lits c w0) (Grp (number_body sep))) (clean_text s) ->
  occurs (preceded_by (lits c w0) (Grp (number_body sep))) s.
Proof.
  intros (pre & w & g & next & Hs & Hm).
  apply preceded_shape in Hm as (u & sp & n & -> & Hu & Hsp & Hn & ->).
  destruct (number_solid sep n sep_solid Hn) as [Hn1 Hn2].
  destruct (unit_word u Hu) as [Hu1 Hu2].
  rewrite <- !app_assoc in Hs.
  destruct (clean_text_blocks s pre u sp n next Hs Hu1 Hu2 Hsp Hn1 Hn2)
    as (pre' & sp' & next' & -> & Hsp' & _ & _).
  exists pre', (u ++ sp' ++ n), (Some n), next'.
  split; [rewrite <- !app_assoc; reflexivity|].
  apply preceded_shape. exists u, sp', n. auto.
Qed.

Lemma preceded_word_clean (s : text) :
  occurs (Seq WordB (preceded_by (lits c w0) (Grp (number_body sep)))) (clean_text s) ->
  occurs (Seq WordB (preceded_by (lits c w0) (Grp (number_body sep)))) s.
Proof.
  intros (pre & w & g & next & Hs & Hm).
  apply preceded_word_shape in Hm as (u & sp & n & -> & Hu & Hsp & Hn & Hb & ->).
  destruct (number_solid sep n sep_solid Hn) as [Hn1 Hn2].
  destruct (unit_word u Hu) as [Hu1 Hu2].
  rewrite <- !app_assoc in Hs.
  destruct (clean_text_blocks s pre u sp n next Hs Hu1 Hu2 Hsp Hn1 Hn2)
    as (pre' & sp' & next' & -> & Hsp' & Hl & _).
  exists pre', (u ++ sp' ++ n), (Some n), next'.
  split; [rewrite <- !app_assoc; reflexivity|].
  apply preceded_word_shape. exists u, sp', n.
  split; [reflexivity|]. split; [exact Hu|]. split; [exact Hsp'|].
  split; [exact Hn|]. split; [|reflexivity].
  rewrite <- Hb. rewrite <- !app_assoc.
  apply boundary_eq; [exact Hl|]. rewrite !(head_nonempty u _ Hu1). reflexivity.
Qed.

End Units.

Lemma unified_prices_clean (s : text) :
  first_match Unified.price_patterns s = None ->
  first_match Unified.price_patterns (clean_text s) = None.
Proof.
  rewrite !first_match_none. intros H a p Hin Hocc. apply (H a p Hin).
  simpl in Hin. destruct Hin as [E|[E|[E|[E|[]]]]]; injection E as _ <-.
  - apply (followed_word_clean is_sep sep_not_space "k" (T "r") eq_refl s Hocc).
  - apply (followed_word_clean is_sep sep_not_space "N" (T "OK") eq_refl s Hocc).
  - apply (preceded_word_clean is_sep sep_not_space "k" (T "r") eq_refl s Hocc).
  - apply (followed_clean is_sep sep_not_space "," (T "-") eq_refl s Hocc).
Qed.

Lemma main_prices_clean (s : text) :
  first_match Main.price_patterns s = None ->
  first_match Main.price_patterns (clean_text s) = None.
Proof.
  rewrite !first_match_none. intros H a p Hin Hocc. apply (H a p Hin).
  simpl in Hin. destruct Hin as [E|[E|[E|[E|[E|[]]]]]]; injection E as _ <-.
  - apply (followed_clean is_comma comma_not_space "k" (T "r") eq_refl s Hocc).
  - apply (followed_clean is_comma comma_not_space "N" (T "OK") eq_refl s Hocc).
  - apply (preceded_clean is_comma comma_not_space "k" (T "r") eq_refl s Hocc).
  - apply (preceded_clean is_comma comma_not_space "N" (T "OK") eq_refl s Hocc).
  - apply (followed_clean is_comma comma_not_space "," (T "-") eq_refl s Hocc).
Qed.

(** *** The price of a number followed by " kr" *)

(** The characters of a number. *)
Lemma number_chars (sep : ascii -> bool) (n : text) :
  number sep n -> forallb (fun c => isdigit c || sep c) n = true.
Proof.
  assert (Hd : forall a, forallb isdigit a = true ->
                         forallb (fun c => isdigit c || sep c) a = true).
  { induction a as [|c a IH]; simpl; [reflexivity|].
    intros H. apply andb_prop in H as [-> Ha]. simpl. auto. }
  intros [[_ H]|(a & c & b & -> & [_ Ha] & Hc & [_ Hb])]; [auto|].
  rewrite forallb_app. simpl. rewrite Hc, orb_true_r, (Hd a Ha), (Hd b Hb).
  reflexivity.
Qed.

Lemma number_before_kr (sep : ascii -> bool) (n m sp u next : text) :
  (forall c, sep c = true -> isspace c = false) ->
  sep "k"%char = false -> sep "K"%char = false ->
  number sep n -> number sep m -> spaces sp -> same_word (T "kr") u ->
  m ++ T " kr" = n ++ sp ++ u ++ next -> n = m.
Proof.
  intros Hsep Hk HK Hn Hm Hsp Hu E.
  assert (Hx : exists x r1, sp ++ u ++ next = x :: r1 /\ isdigit x || sep x = false).
  { destruct sp as [|x sp].
    - destruct u as [|x u]; [discriminate|]. exists x, (u ++ next).
      split; [reflexivity|]. unfold same_word in Hu. simpl in Hu.
      injection Hu as Hx _.
      assert (Hc : x = "k"%char \/ x = "K"%char).
      { revert Hx. clear. destruct x as [[] [] [] [] [] [] [] []]; vm_compute;
          intros H; try discriminate; auto. }
      destruct Hc as [-> | ->]; simpl; assumption.
    - exists x, (sp ++ u ++ next). split; [reflexivity|].
      unfold spaces in Hsp. simpl in Hsp. apply andb_prop in Hsp as [Hx _].
      rewrite (space_not_digit x Hx). simpl.
      destruct (sep x) eqn:Es; [|reflexivity]. rewrite (Hsep x Es) in Hx. discriminate. }
  destruct Hx as (x & r1 & Ex & Hx). rewrite Ex in E. symmetry in E.
  apply (prefix_unique (fun c => isdigit c || sep c) n m
           (number_chars sep n Hn) (number_chars sep m Hm) x r1 " "%char (T "kr") E Hx).
  simpl. destruct (sep " "%char) eqn:Es; [|reflexivity].
  discriminate (Hsep _ Es).
Qed.

Lemma unified_price_number (m : text) :
  number is_sep m ->
  Unified.extract_price (m ++ T " kr") = comma_to_dot m ++ T " kr".
Proof.
  intros Hm.
  assert (Hocc : match_at (Seq (followed_by number_sep kr) WordB) (m ++ T " kr")
                   [] (m ++ T " kr") (Some m)).
  { exists []. split; [rewrite app_nil_r; reflexivity|].
    apply (followed_word_shape is_sep "k" (T "r")). exists m, (T " "), (T "kr").
    split; [reflexivity|]. split; [exact Hm|]. split; [reflexivity|].
    split; [reflexivity|]. split; [|reflexivity].
    rewrite last_char_app. reflexivity. }
  destruct (first_match_at Unified.price_patterns (m ++ T " kr") 0 tt
              (Seq (followed_by number_sep kr) WordB)) as (r & pre & Hfm & Hl & Hleft).
  { reflexivity. }
  { exists [], (m ++ T " kr"), (Some m). exact Hocc. }
  { intros j b q Hj. lia. }
  specialize (Hleft _ _ _ Hocc). destruct pre; [|simpl in Hleft; lia].
  destruct Hl as (next & E & Hmt). simpl in E, Hmt.
  apply (followed_word_shape is_sep "k" (T "r")) in Hmt
    as (n & sp & u & Ew & Hn & Hsp & Hu & _ & Hg).
  rewrite Ew, <- !app_assoc in E.
  assert (En : n = m).
  { apply (number_before_kr is_sep n m sp u next sep_not_space eq_refl eq_refl
             Hn Hm Hsp Hu E). }
  unfold Unified.extract_price, group1. rewrite Hfm, Hg, En.
  destruct m; [destruct Hm as [[H _]|(a & c & b & H & _)];
               [congruence|destruct a; discriminate]|].
  reflexivity.
Qed.

Lemma main_price_number (m : text) :
  number is_comma m -> Main.extract_price (m ++ T " kr") = m ++ T " kr".
Proof.
  intros Hm.
  assert (Hocc : match_at (followed_by number_comma kr) (m ++ T " kr")
                   [] (m ++ T " kr") (Some m)).
  { exists []. split; [rewrite app_nil_r; reflexivity|].
    apply (followed_shape is_comma "k" (T "r")). exists m, (T " "), (T "kr").
    split; [reflexivity|]. split; [exact Hm|]. split; [reflexivity|].
    split; reflexivity. }
  destruct (first_match_at Main.price_patterns (m ++ T " kr") 0 tt
              (followed_by number_comma kr)) as (r & pre & Hfm & Hl & Hleft).
  { reflexivity. }
  { exists [], (m ++ T " kr"), (Some m). exact Hocc. }
  { intros j b q Hj. lia. }
  specialize (Hleft _ _ _ Hocc). destruct pre; [|simpl in Hleft; lia].
  destruct Hl as (next & E & Hmt). simpl in E, Hmt.
  apply (followed_shape is_comma "k" (T "r")) in Hmt
    as (n & sp & u & Ew & Hn & Hsp & Hu & Hg).
  rewrite Ew, <- !app_assoc in E.
  assert (En : n = m).
  { apply (number_before_kr is_comma n m sp u next comma_not_space eq_refl eq_refl
             Hn Hm Hsp Hu E). }
  unfold Main.extract_price, group1. rewrite Hfm, Hg, En.
  destruct m; [destruct Hm as [[H _]|(a & c & b & H & _)];
               [congruence|destruct a; discriminate]|].
  reflexivity.
Qed.

Lemma comma_to_dot_twice (n : text) :
  comma_to_dot (comma_to_dot n) = comma_to_dot n.
Proof.
  unfold comma_to_dot. rewrite map_map. apply map_ext. intros c.
  destruct (Ascii.eqb c ","%char) eqn:E; [reflexivity|]. rewrite E. reflexivity.
Qed.

Lemma dotted_number (n : text) : number is_sep n -> number is_sep (comma_to_dot n).
Proof.
  intros H. destruct (number_dotted n H) as [[Hd ->]|(a & c & b & _ & Ha & _ & Hb & ->)].
  - left. exact Hd.
  - right. exists a, "."%char, b. auto.
Qed.

(** A number followed by " kr" is in the normal form of [_clean_text]. *)
Lemma spaced_solid (n rest : text) :
  solid n -> forall a, n <> [] -> Words.spaced a (n ++ rest) = Words.spaced false rest.
Proof.
  induction n as [|c n IH]; intros Hs a Hne; [congruence|].
  simpl in Hs. apply andb_prop in Hs as [Hc Hs]. apply negb_true_iff in Hc.
  simpl. rewrite Hc. destruct n as [|d n]; [reflexivity|].
  apply IH; [exact Hs|discriminate].
Qed.

Lemma price_normalized (sep : ascii -> bool) (n : text) :
  (forall c, sep c = true -> isspace c = false) ->
  number sep n -> clean_text (n ++ T " kr") = n ++ T " kr".
Proof.
  intros Hsep Hn. destruct (number_solid sep n Hsep Hn) as [Hne Hs].
  apply clean_normalized. unfold Words.normalized.
  destruct (n ++ T " kr") eqn:E; [reflexivity|]. rewrite <- E.
  rewrite (spaced_solid n (T " kr") Hs true Hne). reflexivity.
Qed.

End AlignFacts.

(** X22.  [_extract_price] is idempotent in both files, and what it
    returns is in the normal form of [_clean_text]: a price field that is
    normalised again does not change.  The result is either a number (with
    a dot for the comma in [unified_parser.py]) followed by " kr", or the
    cleaned text, in which no price pattern occurs. *)
Theorem X22_extract_price_idempotent (s : text) :
  let u := Unified.extract_price s in
  let m := Main.extract_price s in
  Unified.extract_price u = u /\ clean_text u = u /\
  Main.extract_price m = m /\ clean_text m = m /\
  ((exists n, RegexSem.number Patterns.is_sep n /\
              u = Text.comma_to_dot n ++ T " kr") \/
   (u = clean_text s /\ first_match Unified.price_patterns u = None)) /\
  ((exists n, RegexSem.number Patterns.is_comma n /\ m = n ++ T " kr") \/
   (m = clean_text s /\ first_match Main.price_patterns m = None)).
Proof.
  cbv zeta.
  assert (HU : (exists n, RegexSem.number Patterns.is_sep n /\
                  Unified.extract_price s = Text.comma_to_dot n ++ T " kr") \/
               (Unified.extract_price s = clean_text s /\
                first_match Unified.price_patterns (clean_text s) = None)).
  { unfold Unified.extract_price. destruct s as [|c s]; [right; split; reflexivity|].
    cbn [Text.falsy].
    destruct (first_match Unified.price_patterns (c :: s)) as [[a r]|] eqn:E.
    - left. apply NormalizerFacts.first_match_some in E
        as (i & p & pre & Hi & _ & (next & _ & Hm) & _).
      destruct (NormalizerFacts.numbered_match Patterns.is_sep p _ _ _ _
                  (NormalizerFacts.unified_prices_numbered a p
                     (NormalizerFacts.lookup_In _ _ _ Hi)) Hm) as (n & Hg & Hn).
      exists n. split; [exact Hn|]. unfold Regex.group1. rewrite Hg. reflexivity.
    - right. split; [reflexivity|]. apply AlignFacts.unified_prices_clean. exact E. }
  assert (HM : (exists n, RegexSem.number Patterns.is_comma n /\
                  Main.extract_price s = n ++ T " kr") \/
               (Main.extract_price s = clean_text s /\
                first_match Main.price_patterns (clean_text s) = None)).
  { unfold Main.extract_price. destruct s as [|c s]; [right; split; reflexivity|].
    cbn [Text.falsy].
    destruct (first_match Main.price_patterns (c :: s)) as [[a r]|] eqn:E.
    - left. apply NormalizerFacts.first_match_some in E
        as (i & p & pre & Hi & _ & (next & _ & Hm) & _).
      destruct (NormalizerFacts.numbered_match Patterns.is_comma p _ _ _ _
                  (NormalizerFacts.main_prices_numbered a p
                     (NormalizerFacts.lookup_In _ _ _ Hi)) Hm) as (n & Hg & Hn).
      exists n. split; [exact Hn|]. unfold Regex.group1. rewrite Hg. reflexivity.
    - right. split; [reflexivity|]. apply AlignFacts.main_prices_clean. exact E. }
  assert (Hfix : forall t, clean_text (clean_text t) = clean_text t).
  { intros t. apply WordsFacts.clean_normalized, WordsFacts.normalized_clean. }
  split; [|split; [|split; [|split; [|split]]]].
  - destruct HU as [(n & Hn & ->)|[-> Hnone]].
    + rewrite (AlignFacts.unified_price_number _ (AlignFacts.dotted_number n Hn)).
      rewrite AlignFacts.comma_to_dot_twice. reflexivity.
    + unfold Unified.extract_price. rewrite Hnone, Hfix.
      destruct (clean_text s); reflexivity.
  - destruct HU as [(n & Hn & ->)|[-> _]]; [|apply Hfix].
    apply (AlignFacts.price_normalized Patterns.is_sep _ GreedyFacts.sep_not_space).
    apply AlignFacts.dotted_number. exact Hn.
  - destruct HM as [(n & Hn & ->)|[-> Hnone]].
    + apply AlignFacts.main_price_number. exact Hn.
    + unfold Main.extract_price. rewrite Hnone, Hfix.
      destruct (clean_text s); reflexivity.
  - destruct HM as [(n & Hn & ->)|[-> _]]; [|apply Hfix].
    apply (AlignFacts.price_normalized Patterns.is_comma _ GreedyFacts.comma_not_space).
    exact Hn.
  - destruct HU as [H|[E Hnone]]; [left; exact H|right].
    split; [exact E|]. rewrite E. exact Hnone.
  - destruct HM as [H|[E Hnone]]; [left; exact H|right].
    split; [exact E|]. rewrite E. exact Hnone.
Qed.
(** ** The data amount, normalised twice *)

Module TwiceFacts.
Import Text Regex RegexSem Patterns TextFacts RegexFacts NormalizerFacts.
Import PatternFacts WordsFacts AmountFacts AlignFacts GreedyFacts.

(** Lower case and cleaning commute: no letter is whitespace. *)
Lemma lower_sub_ws (s : text) :
  forall b, lower (sub_ws b s) = sub_ws b (lower s).
Proof.
  induction s as [|c s IH]; intros b; simpl; [reflexivity|].
  rewrite lower_space. destruct (isspace c); [destruct b|]; simpl; rewrite IH;
    reflexivity.
Qed.

Lemma lower_lstrip (s : text) : lower (lstrip s) = lstrip (lower s).
Proof.
  induction s as [|c s IH]; simpl; [reflexivity|].
  rewrite lower_space. destruct (isspace c); [exact IH|reflexivity].
Qed.

Lemma lower_strip (s : text) : lower (strip s) = strip (lower s).
Proof.
  unfold strip, rstrip, lower.
  rewrite List.map_rev. fold (lower (lstrip (rev (lstrip s)))).
  rewrite lower_lstrip. unfold lower at 1. rewrite List.map_rev.
  fold (lower (lstrip s)). rewrite lower_lstrip. reflexivity.
Qed.

Lemma lower_clean (s : text) : lower (clean_text s) = clean_text (lower s).
Proof.
  unfold clean_text. destruct s as [|c s]; [reflexivity|]. cbn [falsy lower map].
  rewrite lower_sub_ws, lower_strip. reflexivity.
Qed.

(** A word of the cleaned text is in the text. *)
Lemma contains_clean (k t : text) :
  k <> [] -> forallb (fun c => negb (isspace c)) k = true ->
  contains k (clean_text t) = true -> contains k t = true.
Proof.
  intros Hne Hs H. apply contains_spec in H as (pre & post & H).
  destruct (clean_text_block t pre k post H Hne Hs) as (pre' & rest' & -> & _).
  apply contains_spec. eauto.
Qed.

Lemma keyword_clean (k s : text) :
  k <> [] -> forallb (fun c => negb (isspace c)) k = true ->
  contains k (lower s) = false -> contains k (lower (clean_text s)) = false.
Proof.
  intros Hne Hs H. destruct (contains k (lower (clean_text s))) eqn:E; [|reflexivity].
  rewrite lower_clean in E. rewrite (contains_clean k (lower s) Hne Hs E) in H.
  discriminate.
Qed.

(** The four unlimited words, after cleaning: only the two that have a
    space can appear. *)
Lemma keywords_clean (s : text) :
  any_in Unified.unlimited_keywords (lower s) = false ->
  any_in Unified.unlimited_keywords (lower (clean_text s))
  = any_in [T "fri data"; T "uten grense"] (lower (clean_text s)).
Proof.
  unfold any_in, Unified.unlimited_keywords. cbn [existsb]. intros H.
  apply orb_false_elim in H as [H1 H]. apply orb_false_elim in H as [H2 _].
  rewrite (keyword_clean (T "ubegrenset") s), (keyword_clean (T "unlimited") s);
    auto; discriminate.
Qed.

(** The data patterns of the two files. *)
Lemma unified_data_clean (s : text) :
  first_match Unified.data_patterns s = None ->
  first_match Unified.data_patterns (clean_text s) = None.
Proof.
  rewrite !first_match_none. intros H a p Hin Hocc. apply (H a p Hin).
  simpl in Hin. destruct Hin as [E|[E|[E|[E|[]]]]]; injection E as _ <-.
  - apply (followed_word_clean is_sep sep_not_space "G" (T "B") eq_refl s Hocc).
  - apply (followed_word_clean is_sep sep_not_space "T" (T "B") eq_refl s Hocc).
  - apply (followed_word_clean is_sep sep_not_space "M" (T "B") eq_refl s Hocc).
  - apply (integer_word_clean "g" (T "iga") eq_refl s Hocc).
Qed.

Lemma unlimited_clean (s : text) :
  occurs Main.unlimited_pattern (clean_text s) -> occurs Main.unlimited_pattern s.
Proof.
  intros (pre & w & g & next & Hs & Hm).
  apply unlimited_shape in Hm as [H|[H|(a & sp & b & -> & Ha & Hsp & Hb)]].
  - destruct (word_solid (T "ubegrenset") w ltac:(discriminate) eq_refl H) as [Hne Hw].
    destruct (clean_text_block s pre w next Hs Hne Hw) as (pre' & rest' & -> & _).
    exists pre', w, None, rest'. split; [reflexivity|].
    apply M_alt_l. apply (matches_lits "u" (T "begrenset")). auto.
  - destruct (word_solid (T "unlimited") w ltac:(discriminate) eq_refl H) as [Hne Hw].
    destruct (clean_text_block s pre w next Hs Hne Hw) as (pre' & rest' & -> & _).
    exists pre', w, None, rest'. split; [reflexivity|].
    apply M_alt_r, M_alt_l. apply (matches_lits "u" (T "nlimited")). auto.
  - destruct (word_solid (T "fri") a ltac:(discriminate) eq_refl Ha) as [Ha1 Ha2].
    destruct (word_solid (T "data") b ltac:(discriminate) eq_refl Hb) as [Hb1 Hb2].
    rewrite <- !app_assoc in Hs.
    destruct (clean_text_blocks s pre a sp b next Hs Ha1 Ha2 Hsp Hb1 Hb2)
      as (pre' & sp' & next' & -> & Hsp' & _ & _).
    exists pre', (a ++ sp' ++ b), None, next'.
    split; [rewrite <- !app_assoc; reflexivity|].
    apply M_alt_r, M_alt_r. apply matches_seq.
    exists a, (sp' ++ b), None, None. split; [reflexivity|].
    split; [apply (matches_lits "f" (T "ri")); auto|]. split; [|reflexivity].
    apply matches_seq. exists sp', b, None, None. split; [reflexivity|].
    split; [apply matches_ws; auto|]. split; [|reflexivity].
    apply (matches_lits "d" (T "ata")). auto.
Qed.

Lemma main_data_clean (s : text) :
  first_match Main.data_patterns s = None ->
  first_match Main.data_patterns (clean_text s) = None.
Proof.
  rewrite !first_match_none. intros H a p Hin Hocc. apply (H a p Hin).
  simpl in Hin. destruct Hin as [E|[E|[E|[E|[E|[]]]]]]; injection E as _ <-.
  - apply (followed_clean is_comma comma_not_space "G" (T "B") eq_refl s Hocc).
  - apply (followed_clean is_comma comma_not_space "T" (T "B") eq_refl s Hocc).
  - apply (followed_clean is_comma comma_not_space "M" (T "B") eq_refl s Hocc).
  - apply unlimited_clean. exact Hocc.
  - apply (integer_clean "g" (T "iga") eq_refl s Hocc).
Qed.

(** The fallback of [_extract_data_amount], applied again. *)
Section Fallback.
Variable f : text -> text.
Variable ps : list (bool * re).
Hypothesis f_unlimited :
  forall r, r <> [] -> any_in Unified.unlimited_keywords (lower r) = true ->
            f r = T "Unlimited".
Hypothesis f_fallback :
  forall r, any_in Unified.unlimited_keywords (lower r) = false ->
            first_match ps r = None -> f r = clean_text r.
Hypothesis ps_clean :
  forall r, first_match ps r = None -> first_match ps (clean_text r) = None.

Lemma fallback_twice (s : text) :
  any_in Unified.unlimited_keywords (lower s) = false ->
  first_match ps s = None ->
  f s = clean_text s /\
  (f (f s) <> f s <->
     any_in [T "fri data"; T "uten grense"] (lower (f s)) = true) /\
  (f (f s) <> f s -> f (f s) = T "Unlimited").
Proof.
  intros Hk Hp. pose proof (f_fallback s Hk Hp) as E. rewrite E.
  pose proof (keywords_clean s Hk) as Hkc.
  assert (Hyes : any_in [T "fri data"; T "uten grense"] (lower (clean_text s)) = true ->
                 f (clean_text s) = T "Unlimited").
  { intros H. apply f_unlimited; [|rewrite Hkc; exact H].
    intros E0. rewrite E0 in H. discriminate. }
  assert (Hno : any_in [T "fri data"; T "uten grense"] (lower (clean_text s)) = false ->
                f (clean_text s) = clean_text s).
  { intros H. rewrite f_fallback.
    - apply clean_normalized, normalized_clean.
    - rewrite Hkc. exact H.
    - apply ps_clean. exact Hp. }
  split; [reflexivity|]. split; [split|].
  - intros Hd.
    destruct (any_in [T "fri data"; T "uten grense"] (lower (clean_text s))) eqn:Ea;
      [reflexivity|].
    exfalso. apply Hd. apply Hno. reflexivity.
  - intros Ha Heq. rewrite (Hyes Ha) in Heq. rewrite <- Heq in Ha. discriminate.
  - intros Hd.
    destruct (any_in [T "fri data"; T "uten grense"] (lower (clean_text s))) eqn:Ea;
      [apply Hyes; reflexivity|].
    exfalso. apply Hd. apply Hno. reflexivity.
Qed.

End Fallback.

End TwiceFacts.

(** X23.  [_extract_data_amount] is not idempotent, in either file.  On
    a text without an unlimited keyword in which no data pattern occurs
    the result is the cleaned text; normalising that result again changes
    it exactly when it contains "fri data" or "uten grense" (a keyword whose
    two words were separated in the text by whitespace other than one
    space), and the second result is then "Unlimited".  The other two
    keywords cannot appear by cleaning, and no data pattern can. *)
Theorem X23_data_amount_twice (s : text) :
  let twice (f : text -> text) :=
    f s = clean_text s /\
    (f (f s) <> f s <->
       Text.any_in [T "fri data"; T "uten grense"] (Text.lower (f s)) = true) /\
    (f (f s) <> f s -> f (f s) = T "Unlimited") in
  (Text.any_in Unified.unlimited_keywords (Text.lower s) = false ->
   first_match Unified.data_patterns s = None ->
   twice Unified.extract_data_amount) /\
  (Text.any_in Main.unlimited_words (Text.lower s) = false ->
   first_match Main.data_patterns s = None ->
   twice Main.extract_data_amount) /\
  (exists t, Unified.extract_data_amount (Unified.extract_data_amount t)
             <> Unified.extract_data_amount t) /\
  (exists t, Main.extract_data_amount (Main.extract_data_amount t)
             <> Main.extract_data_amount t).
Proof.
  cbv zeta. split; [|split; [|split]].
  - apply (TwiceFacts.fallback_twice Unified.extract_data_amount Unified.data_patterns).
    + intros r Hne H. unfold Unified.extract_data_amount.
      rewrite (NormalizerFacts.falsy_false r Hne), H. reflexivity.
    + intros r Hk Hp. unfold Unified.extract_data_amount.
      rewrite Hk, Hp. destruct r; reflexivity.
    + apply TwiceFacts.unified_data_clean.
  - apply (TwiceFacts.fallback_twice Main.extract_data_amount Main.data_patterns).
    + intros r Hne H. unfold Main.extract_data_amount.
      rewrite (NormalizerFacts.falsy_false r Hne).
      change Main.unlimited_words with Unified.unlimited_keywords. rewrite H.
      reflexivity.
    + intros r Hk Hp. unfold Main.extract_data_amount.
      change Main.unlimited_words with Unified.unlimited_keywords.
      rewrite Hk, Hp. destruct r; reflexivity.
    + apply TwiceFacts.main_data_clean.
  - exists (T "fri" ++ "010"%char :: T "data"). vm_compute. discriminate.
  - exists (T "uten" ++ "010"%char :: T "grense"). vm_compute. discriminate.
Qed.
(** ** A data amount that a keyword or a pattern has decided *)

Module FixedFacts.
Import Text Regex RegexSem Patterns TextFacts RegexFacts NormalizerFacts.
Import PatternFacts WordsFacts AmountFacts AlignFacts GreedyFacts.

(** *** The characters of a number, whitespace and a unit *)

Lemma lower_plain (c : ascii) :
  isdigit c || is_sep c || isspace c = true -> lower_char c = c.
Proof. destruct c as [[] [] [] [] [] [] [] []]; vm_compute; congruence. Qed.

Lemma lower_sep (c : ascii) : is_sep (lower_char c) = is_sep c.
Proof. destruct c as [[] [] [] [] [] [] [] []]; vm_compute; reflexivity. Qed.

Lemma lower_letter_word (x c : ascii) :
  lower_char x = lower_char c -> isword c = true -> isword x = true.
Proof.
  assert (H : forall y, isword (lower_char y) = isword y).
  { intros y. destruct y as [[] [] [] [] [] [] [] []]; vm_compute; reflexivity. }
  intros E Hc. rewrite <- H, E, H. exact Hc.
Qed.

Lemma lower_same (w : text) :
  forallb (fun c => isdigit c || is_sep c || isspace c) w = true -> lower w = w.
Proof.
  induction w as [|c w IH]; simpl; [reflexivity|].
  intros H. apply andb_prop in H as [Hc Hw]. rewrite (lower_plain c Hc), (IH Hw).
  reflexivity.
Qed.

Lemma comma_sep (c : ascii) : is_comma c = true -> is_sep c = true.
Proof. unfold is_comma, is_sep. intros ->. reflexivity. Qed.

Lemma number_comma_sep (n : text) : number is_comma n -> number is_sep n.
Proof.
  intros [H|(a & c & b & E & Ha & Hc & Hb)]; [left; exact H|right].
  exists a, c, b. auto using comma_sep.
Qed.

Lemma number_head (sep : ascii -> bool) (n : text) :
  number sep n -> exists d n1, n = d :: n1 /\ isdigit d = true.
Proof.
  intros [[Hne Hd]|(a & c & b & -> & [Hne Hd] & _)].
  - destruct n as [|d n]; [congruence|]. simpl in Hd.
    apply andb_prop in Hd as [Hd _]. eauto.
  - destruct a as [|d a]; [congruence|]. simpl in Hd.
    apply andb_prop in Hd as [Hd _]. eauto.
Qed.

Lemma number_lower (n : text) : number is_sep n -> lower n = n.
Proof.
  intros Hn. apply lower_same. pose proof (number_chars is_sep n Hn) as H.
  rewrite List.forallb_forall in *. intros c Hc. rewrite (H c Hc). reflexivity.
Qed.

Lemma spaces_lower (sp : text) : spaces sp -> lower sp = sp.
Proof.
  unfold spaces. intros H. apply lower_same.
  rewrite List.forallb_forall in *. intros c Hc. rewrite (H c Hc). apply orb_true_r.
Qed.

Lemma amount_lower (n sp u X : text) :
  number is_sep n -> spaces sp -> same_word X u ->
  lower (n ++ sp ++ u) = n ++ sp ++ lower X.
Proof.
  intros Hn Hsp Hu. rewrite !lower_app, (number_lower n Hn), (spaces_lower sp Hsp).
  unfold same_word in Hu. unfold lower at 1. rewrite Hu. reflexivity.
Qed.

(** A character of the field, in lower case, is a digit, a separator,
    whitespace, or a letter of the unit. *)
Lemma amount_char (n sp u X : text) (e : ascii) :
  number is_sep n -> spaces sp -> same_word X u ->
  In e (lower (n ++ sp ++ u)) ->
  isdigit e || is_sep e = true \/ isspace e = true \/ In e (lower X).
Proof.
  intros Hn Hsp Hu. rewrite (amount_lower n sp u X Hn Hsp Hu), !in_app_iff.
  intros [H|[H|H]].
  - left. pose proof (number_chars is_sep n Hn) as Hc.
    rewrite List.forallb_forall in Hc. auto.
  - right. left. unfold spaces in Hsp. rewrite List.forallb_forall in Hsp. auto.
  - auto.
Qed.

Lemma contains_head (e : ascii) (k t : text) :
  contains (e :: k) t = true -> In e t.
Proof.
  intros H. apply contains_spec in H as (pre & post & ->).
  apply in_app_iff. right. left. reflexivity.
Qed.

Lemma unit_first (c : ascii) (w0 u : text) :
  same_word (c :: w0) u ->
  exists x u', u = x :: u' /\ lower_char x = lower_char c /\ same_word w0 u'.
Proof.
  unfold same_word. destruct u as [|x u]; [discriminate|]. simpl.
  intros [= Hx Hu]. eauto.
Qed.

(** The letter with which a unit starts is in the text that has the
    unit. *)
Lemma unit_letter (c : ascii) (w0 u pre post r : text) :
  same_word (c :: w0) u -> r = pre ++ u ++ post -> In (lower_char c) (lower r).
Proof.
  intros Hu ->. destruct (unit_first c w0 u Hu) as (x & u' & -> & Hx & _).
  rewrite <- Hx. apply in_map. rewrite in_app_iff. right. left. reflexivity.
Qed.

Lemma followed_letter (sep : ascii -> bool) (c : ascii) (w0 r : text) :
  occurs (followed_by (Grp (number_body sep)) (lits c w0)) r ->
  In (lower_char c) (lower r).
Proof.
  intros (pre & w & g & next & E & Hm).
  apply followed_shape in Hm as (n & sp & u & -> & _ & _ & Hu & _).
  apply (unit_letter c w0 u (pre ++ n ++ sp) next r Hu).
  rewrite E, <- !app_assoc. reflexivity.
Qed.

Lemma followed_word_letter (sep : ascii -> bool) (c : ascii) (w0 r : text) :
  occurs (Seq (followed_by (Grp (number_body sep)) (lits c w0)) WordB) r ->
  In (lower_char c) (lower r).
Proof.
  intros (pre & w & g & next & E & Hm).
  apply followed_word_shape in Hm as (n & sp & u & -> & _ & _ & Hu & _).
  apply (unit_letter c w0 u (pre ++ n ++ sp) next r Hu).
  rewrite E, <- !app_assoc. reflexivity.
Qed.

Lemma followed_digit (sep : ascii -> bool) (c : ascii) (w0 r : text) :
  occurs (followed_by (Grp (number_body sep)) (lits c w0)) r ->
  exists d, In d r /\ isdigit d = true.
Proof.
  intros (pre & w & g & next & E & Hm).
  apply followed_shape in Hm as (n & sp & u & -> & Hn & _).
  destruct (number_head sep n Hn) as (d & n1 & -> & Hd). exists d.
  split; [|exact Hd]. rewrite E, in_app_iff. right. left. reflexivity.
Qed.

Lemma integer_digit (c : ascii) (w0 r : text) :
  occurs (followed_by integer (lits c w0)) r ->
  exists d, In d r /\ isdigit d = true.
Proof.
  intros (pre & w & g & next & E & Hm).
  apply integer_shape in Hm as (n & sp & u & -> & Hn & _).
  destruct (number_head is_sep n (digits_number is_sep n Hn)) as (d & n1 & -> & Hd).
  exists d. split; [|exact Hd]. rewrite E, in_app_iff. right. left. reflexivity.
Qed.

(** *** Reading the field again *)

(** The field splits in one way into a number, whitespace and the
    unit. *)
Lemma amount_parse (c : ascii) (w0 n sp u n' sp' u' next : text) :
  isdigit (lower_char c) || is_sep (lower_char c) = false ->
  isspace (lower_char c) = false ->
  number is_sep n -> spaces sp -> same_word (c :: w0) u ->
  number is_sep n' -> spaces sp' -> same_word (c :: w0) u' ->
  n ++ sp ++ u = n' ++ sp' ++ u' ++ next ->
  n' = n /\ sp' = sp /\ u' = u /\ next = [].
Proof.
  intros Hc1 Hc2 Hn Hsp Hu Hn' Hsp' Hu' E.
  destruct (unit_first c w0 u Hu) as (x & u1 & -> & Hx & Hu1).
  destruct (unit_first c w0 u' Hu') as (x' & u1' & -> & Hx' & Hu1').
  assert (Hd : forall y, lower_char y = lower_char c -> isdigit y || is_sep y = false).
  { intros y Hy. rewrite <- lower_digit, <- lower_sep, Hy. exact Hc1. }
  assert (Hs : forall y, lower_char y = lower_char c -> isspace y = false).
  { intros y Hy. rewrite <- lower_space, Hy. exact Hc2. }
  assert (Hafter : forall (g : text) y rest,
             spaces g ->
             lower_char y = lower_char c ->
             exists z r1, g ++ y :: rest = z :: r1 /\ isdigit z || is_sep z = false).
  { intros g y rest Hg Hy. destruct g as [|z g].
    - exists y, rest. split; [reflexivity|]. apply Hd. exact Hy.
    - exists z, (g ++ y :: rest). split; [reflexivity|].
      unfold spaces in Hg. simpl in Hg. apply andb_prop in Hg as [Hz _].
      rewrite (space_not_digit z Hz). simpl.
      destruct (is_sep z) eqn:Es; [|reflexivity].
      rewrite (sep_not_space z Es) in Hz. discriminate. }
  destruct (Hafter sp x u1 Hsp Hx) as (z & r1 & E1 & Hz).
  destruct (Hafter sp' x' (u1' ++ next) Hsp' Hx') as (z' & r1' & E1' & Hz').
  assert (En : n' = n).
  { apply (prefix_unique (fun c => isdigit c || is_sep c) n' n
             (number_chars is_sep n' Hn') (number_chars is_sep n Hn) z' r1' z r1);
      [|exact Hz'|exact Hz].
    rewrite <- E1, <- E1'. symmetry. exact E. }
  subst n'. apply app_inv_head in E.
  assert (Esp : sp' = sp).
  { apply (prefix_unique isspace sp' sp Hsp' Hsp x' (u1' ++ next) x u1);
      [symmetry; exact E|apply Hs; exact Hx'|apply Hs; exact Hx]. }
  subst sp'. apply app_inv_head in E.
  assert (Hlen : List.length (x :: u1) = List.length (x' :: u1')).
  { rewrite (same_word_length _ _ Hu), (same_word_length _ _ Hu'). reflexivity. }
  rewrite <- (app_nil_r (x :: u1)) in E.
  destruct (app_inj_1 _ _ _ _ Hlen E) as [Eu Enext].
  split; [reflexivity|]. split; [reflexivity|]. split; congruence.
Qed.

(** The unlimited words are not in a number with a unit: they have a
    letter that the field does not have. *)
Lemma amount_no_keyword (c : ascii) (n sp u : text) :
  In c [ "G"; "T"; "M" ]%char ->
  number is_sep n -> spaces sp -> same_word [c; "B"%char] u ->
  any_in Unified.unlimited_keywords (lower (n ++ sp ++ u)) = false.
Proof.
  intros Hc Hn Hsp Hu.
  assert (Hno : forall e, In e [ "u"; "f" ]%char -> ~ In e (lower (n ++ sp ++ u))).
  { intros e He Hin.
    destruct (amount_char n sp u _ e Hn Hsp Hu Hin) as [H|[H|H]];
      simpl in He, Hc; destruct He as [<-|[<-|[]]];
      try (vm_compute in H; discriminate);
      destruct Hc as [<-|[<-|[<-|[]]]]; vm_compute in H;
      repeat (destruct H as [H|H]; [discriminate|]); destruct H. }
  unfold any_in, Unified.unlimited_keywords. cbn [existsb].
  repeat match goal with
         | |- context [contains (T ?k) ?t] =>
             let E := fresh "E" in
             destruct (contains (T k) t) eqn:E;
             [exfalso; apply contains_head in E; revert E; apply Hno; simpl; auto|]
         end.
  reflexivity.
Qed.

(** *** [unified_parser.py] *)

Lemma unified_amount_fixed (i : nat) (c : ascii) (n u : text) :
  [ "G"; "T"; "M" ]%char !! i = Some c ->
  number is_sep n -> same_word [c; "B"%char] u ->
  Unified.extract_data_amount (n ++ T " " ++ u) = comma_to_dot n ++ T " " ++ u.
Proof.
  intros Hi Hn Hu.
  assert (Hc : In c [ "G"; "T"; "M" ]%char) by (eapply lookup_In; exact Hi).
  pose proof (amount_no_keyword c n (T " ") u Hc Hn eq_refl Hu) as Hkw.
  assert (Hlen : List.length u = 2%nat) by (apply (same_word_length _ _ Hu)).
  set (p := Seq (followed_by number_sep (lits c (T "B"))) WordB).
  assert (Hp : Unified.data_patterns !! i = Some (false, p)).
  { destruct i as [|[|[|i]]]; simpl in Hi; try discriminate;
      injection Hi as <-; reflexivity. }
  assert (Hocc : match_at p (n ++ T " " ++ u) [] (n ++ T " " ++ u) (Some n)).
  { exists []. split; [rewrite app_nil_r; reflexivity|].
    apply (followed_word_shape is_sep c (T "B")). exists n, (T " "), u.
    split; [reflexivity|]. split; [exact Hn|]. split; [reflexivity|].
    split; [exact Hu|]. split; [|reflexivity].
    destruct u as [|x [|y [|z u]]]; try discriminate.
    rewrite !last_char_app. cbn [last_char fold_left].
    unfold at_boundary. cbn [head word_opt].
    unfold same_word in Hu. simpl in Hu. injection Hu as _ Hy.
    rewrite (lower_letter_word y "B" Hy eq_refl). reflexivity. }
  assert (Hbefore : forall j b q, (j < i)%nat ->
             Unified.data_patterns !! j = Some (b, q) ->
             ~ occurs q (n ++ T " " ++ u)).
  { intros j b q Hj Hq Ho.
    assert (Hin : exists e, In e [ "g"; "t" ]%char /\ In e (lower (n ++ T " " ++ u)) /\
                            (j < i)%nat /\ [ "g"; "t"; "m" ]%char !! j = Some e).
    { destruct j as [|[|j]]; simpl in Hq.
      - injection Hq as _ <-. exists "g"%char. split; [simpl; auto|].
        split; [|auto]. apply (followed_word_letter is_sep "G" (T "B") _ Ho).
      - injection Hq as _ <-. exists "t"%char. split; [simpl; auto|].
        split; [|auto]. apply (followed_word_letter is_sep "T" (T "B") _ Ho).
      - destruct i as [|[|[|i]]]; simpl in Hi; try discriminate; lia. }
    destruct Hin as (e & He & Hin & _ & Hje).
    destruct (amount_char n (T " ") u _ e Hn eq_refl Hu Hin) as [H|[H|H]].
    - simpl in He. destruct He as [<-|[<-|[]]]; vm_compute in H; discriminate.
    - simpl in He. destruct He as [<-|[<-|[]]]; vm_compute in H; discriminate.
    - destruct i as [|[|[|i]]]; simpl in Hi; try discriminate; injection Hi as <-;
        destruct j as [|[|j]]; simpl in Hje; try lia; try discriminate;
        injection Hje as <-; vm_compute in H;
        repeat (destruct H as [H|H]; [discriminate|]); destruct H. }
  destruct (first_match_at Unified.data_patterns (n ++ T " " ++ u) i false p
              Hp (ex_intro _ _ (ex_intro _ _ (ex_intro _ _ Hocc))) Hbefore)
    as (m & pre & Hfm & Hl & Hleft).
  specialize (Hleft _ _ _ Hocc). destruct pre; [|simpl in Hleft; lia].
  destruct Hl as (next & E & Hmt). simpl in E, Hmt.
  apply (followed_word_shape is_sep c (T "B")) in Hmt
    as (n' & sp' & u' & Ew & Hn' & Hsp' & Hu' & _ & Hg).
  rewrite Ew, <- !app_assoc in E.
  assert (Hc1 : isdigit (lower_char c) || is_sep (lower_char c) = false).
  { simpl in Hc. destruct Hc as [<-|[<-|[<-|[]]]]; reflexivity. }
  assert (Hc2 : isspace (lower_char c) = false).
  { simpl in Hc. destruct Hc as [<-|[<-|[<-|[]]]]; reflexivity. }
  destruct (amount_parse c (T "B") n (T " ") u n' sp' u' next Hc1 Hc2
              Hn eq_refl Hu Hn' Hsp' Hu' E) as (-> & -> & -> & ->).
  unfold Unified.extract_data_amount, group1, group0. rewrite Hkw, Hfm, Hg, Ew.
  assert (Hf : falsy (n ++ T " " ++ u) = false).
  { destruct n; [|reflexivity]. destruct u; [discriminate|reflexivity]. }
  rewrite Hf. rewrite (app_assoc n (T " ") u), (last2_app _ u Hlen). reflexivity.
Qed.

(** What a data pattern of [unified_parser.py] returns. *)
Lemma unified_data_form (s : text) (b : bool) (m : text * option text) :
  first_match Unified.data_patterns s = Some (b, m) ->
  exists i c n u,
    [ "G"; "T"; "M" ]%char !! i = Some c /\ number is_sep n /\
    same_word [c; "B"%char] u /\
    comma_to_dot (group1 m) ++ T " " ++ (if b then T "GB" else Unified.last2 (group0 m))
    = comma_to_dot n ++ T " " ++ u.
Proof.
  intros H. apply first_match_some in H as (i & p & pre & Hi & _ & (next & _ & Hm) & _).
  destruct m as [w g]. unfold group1, group0. cbn [fst snd] in *.
  destruct i as [|[|[|[|i]]]]; simpl in Hi; try discriminate;
    injection Hi as <- <-.
  - apply (followed_word_shape is_sep "G" (T "B")) in Hm
      as (n & sp & u & -> & Hn & _ & Hu & _ & ->).
    exists 0%nat, "G"%char, n, u. split; [reflexivity|]. split; [exact Hn|].
    split; [exact Hu|].
    rewrite (app_assoc n sp u), (last2_app (n ++ sp) u); [reflexivity|].
    apply (same_word_length _ _ Hu).
  - apply (followed_word_shape is_sep "T" (T "B")) in Hm
      as (n & sp & u & -> & Hn & _ & Hu & _ & ->).
    exists 1%nat, "T"%char, n, u. split; [reflexivity|]. split; [exact Hn|].
    split; [exact Hu|].
    rewrite (app_assoc n sp u), (last2_app (n ++ sp) u); [reflexivity|].
    apply (same_word_length _ _ Hu).
  - apply (followed_word_shape is_sep "M" (T "B")) in Hm
      as (n & sp & u & -> & Hn & _ & Hu & _ & ->).
    exists 2%nat, "M"%char, n, u. split; [reflexivity|]. split; [exact Hn|].
    split; [exact Hu|].
    rewrite (app_assoc n sp u), (last2_app (n ++ sp) u); [reflexivity|].
    apply (same_word_length _ _ Hu).
  - apply (integer_word_shape "g" (T "iga")) in Hm
      as (n & sp & u & -> & Hn & _ & Hu & _ & ->).
    exists 0%nat, "G"%char, n, (T "GB"). split; [reflexivity|].
    split; [apply digits_number; exact Hn|]. split; reflexivity.
Qed.

(** *** [main.py] *)

Lemma main_amount_fixed (i : nat) (c : ascii) (n sp u : text) :
  [ "G"; "T"; "M" ]%char !! i = Some c ->
  number is_comma n -> spaces sp -> same_word [c; "B"%char] u ->
  Main.extract_data_amount (n ++ sp ++ u) = n ++ sp ++ u.
Proof.
  intros Hi Hn0 Hsp Hu. pose proof (number_comma_sep n Hn0) as Hn.
  assert (Hc : In c [ "G"; "T"; "M" ]%char) by (eapply lookup_In; exact Hi).
  pose proof (amount_no_keyword c n sp u Hc Hn Hsp Hu) as Hkw.
  set (p := followed_by number_comma (lits c (T "B"))).
  assert (Hp : Main.data_patterns !! i = Some (false, p)).
  { destruct i as [|[|[|i]]]; simpl in Hi; try discriminate;
      injection Hi as <-; reflexivity. }
  assert (Hocc : match_at p (n ++ sp ++ u) [] (n ++ sp ++ u) (Some n)).
  { exists []. split; [rewrite app_nil_r; reflexivity|].
    apply (followed_shape is_comma c (T "B")). exists n, sp, u. auto. }
  assert (Hbefore : forall j b q, (j < i)%nat ->
             Main.data_patterns !! j = Some (b, q) ->
             ~ occurs q (n ++ sp ++ u)).
  { intros j b q Hj Hq Ho.
    assert (Hin : exists e, In e [ "g"; "t" ]%char /\ In e (lower (n ++ sp ++ u)) /\
                            (j < i)%nat /\ [ "g"; "t"; "m" ]%char !! j = Some e).
    { destruct j as [|[|j]]; simpl in Hq.
      - injection Hq as _ <-. exists "g"%char. split; [simpl; auto|].
        split; [|auto]. apply (followed_letter is_comma "G" (T "B") _ Ho).
      - injection Hq as _ <-. exists "t"%char. split; [simpl; auto|].
        split; [|auto]. apply (followed_letter is_comma "T" (T "B") _ Ho).
      - destruct i as [|[|[|i]]]; simpl in Hi; try discriminate; lia. }
    destruct Hin as (e & He & Hin & _ & Hje).
    destruct (amount_char n sp u _ e Hn Hsp Hu Hin) as [H|[H|H]].
    - simpl in He. destruct He as [<-|[<-|[]]]; vm_compute in H; discriminate.
    - simpl in He. destruct He as [<-|[<-|[]]]; vm_compute in H; discriminate.
    - destruct i as [|[|[|i]]]; simpl in Hi; try discriminate; injection Hi as <-;
        destruct j as [|[|j]]; simpl in Hje; try lia; try discriminate;
        injection Hje as <-; vm_compute in H;
        repeat (destruct H as [H|H]; [discriminate|]); destruct H. }
  destruct (first_match_at Main.data_patterns (n ++ sp ++ u) i false p
              Hp (ex_intro _ _ (ex_intro _ _ (ex_intro _ _ Hocc))) Hbefore)
    as (m & pre & Hfm & Hl & Hleft).
  specialize (Hleft _ _ _ Hocc). destruct pre; [|simpl in Hleft; lia].
  destruct Hl as (next & E & Hmt). simpl in E, Hmt.
  apply (followed_shape is_comma c (T "B")) in Hmt
    as (n' & sp' & u' & Ew & Hn' & Hsp' & Hu' & Hg).
  rewrite Ew, <- !app_assoc in E.
  assert (Hc1 : isdigit (lower_char c) || is_sep (lower_char c) = false).
  { simpl in Hc. destruct Hc as [<-|[<-|[<-|[]]]]; reflexivity. }
  assert (Hc2 : isspace (lower_char c) = false).
  { simpl in Hc. destruct Hc as [<-|[<-|[<-|[]]]]; reflexivity. }
  destruct (amount_parse c (T "B") n sp u n' sp' u' next Hc1 Hc2
              Hn Hsp Hu (number_comma_sep n' Hn') Hsp' Hu' E) as (-> & -> & -> & ->).
  unfold Main.extract_data_amount, group0.
  change Main.unlimited_words with Unified.unlimited_keywords.
  rewrite Hkw, Hfm, Ew.
  destruct (number_head is_sep n Hn) as (d & n1 & -> & _). reflexivity.
Qed.

(** The words "fri" and "data" with other whitespace than one space
    between them. *)
Lemma phrase_lower (a sp b : text) :
  same_word (T "fri") a -> spaces sp -> same_word (T "data") b ->
  lower (a ++ sp ++ b) = T "fri" ++ sp ++ T "data".
Proof.
  intros Ha Hsp Hb. rewrite !lower_app, (spaces_lower sp Hsp).
  unfold same_word in Ha, Hb. unfold lower. rewrite Ha, Hb. reflexivity.
Qed.

Lemma phrase_char (a sp b : text) (e : ascii) :
  same_word (T "fri") a -> spaces sp -> same_word (T "data") b ->
  In e (lower (a ++ sp ++ b)) -> isspace e = true \/ In e (T "fridata").
Proof.
  intros Ha Hsp Hb. rewrite (phrase_lower a sp b Ha Hsp Hb), !in_app_iff.
  intros [H|[H|H]].
  - right. simpl in *. tauto.
  - left. unfold spaces in Hsp. rewrite List.forallb_forall in Hsp. auto.
  - right. simpl in *. tauto.
Qed.

Lemma phrase_no_keyword (a sp b : text) :
  same_word (T "fri") a -> spaces sp -> sp <> T " " -> same_word (T "data") b ->
  any_in Main.unlimited_words (lower (a ++ sp ++ b)) = false.
Proof.
  intros Ha Hsp Hne Hb.
  assert (Hu : ~ In "u"%char (lower (a ++ sp ++ b))).
  { intros Hin. destruct (phrase_char a sp b _ Ha Hsp Hb Hin) as [H|H].
    - vm_compute in H. discriminate.
    - simpl in H. repeat (destruct H as [H|H]; [discriminate|]). destruct H. }
  unfold any_in, Main.unlimited_words. cbn [existsb].
  destruct (contains (T "ubegrenset") _) eqn:E1;
    [exfalso; apply contains_head in E1; contradiction|].
  destruct (contains (T "unlimited") _) eqn:E2;
    [exfalso; apply contains_head in E2; contradiction|].
  destruct (contains (T "uten grense") _) eqn:E4;
    [exfalso; apply contains_head in E4; contradiction|].
  destruct (contains (T "fri data") _) eqn:E3; [|reflexivity].
  exfalso. apply contains_spec in E3 as (pre & post & E).
  rewrite (phrase_lower a sp b Ha Hsp Hb) in E.
  destruct pre as [|x pre].
  - simpl in E. injection E as E.
    destruct sp as [|y sp]; [discriminate|]. simpl in E. injection E as -> E.
    destruct sp as [|z sp]; [apply Hne; reflexivity|].
    simpl in E. injection E as -> _. unfold spaces in Hsp. simpl in Hsp. discriminate.
  - simpl in E. injection E as _ E.
    assert (Hin : In "f"%char ("r"%char :: "i"%char :: sp ++ T "data")).
    { cbn [T list_ascii_of_string]. rewrite E, in_app_iff. right. left. reflexivity. }
    simpl in Hin.
    destruct Hin as [H|[H|H]]; try discriminate.
    rewrite in_app_iff in H. destruct H as [H|H].
    + unfold spaces in Hsp. rewrite List.forallb_forall in Hsp.
      specialize (Hsp _ H). vm_compute in Hsp. discriminate.
    + simpl in H. repeat (destruct H as [H|H]; [discriminate|]). destruct H.
Qed.

Lemma phrase_no_digit (a sp b : text) (d : ascii) :
  same_word (T "fri") a -> spaces sp -> same_word (T "data") b ->
  In d (a ++ sp ++ b) -> isdigit d = false.
Proof.
  intros Ha Hsp Hb Hin. apply (in_map lower_char) in Hin.
  destruct (phrase_char a sp b _ Ha Hsp Hb Hin) as [H|H].
  - rewrite lower_space in H. apply space_not_digit. exact H.
  - rewrite <- lower_digit. simpl in H.
    repeat (destruct H as [<-|H]; [reflexivity|]). destruct H.
Qed.

Lemma main_phrase_fixed (a sp b : text) :
  same_word (T "fri") a -> spaces sp -> sp <> T " " -> same_word (T "data") b ->
  Main.extract_data_amount (a ++ sp ++ b) = a ++ sp ++ b.
Proof.
  intros Ha Hsp Hne Hb.
  pose proof (phrase_no_keyword a sp b Ha Hsp Hne Hb) as Hkw.
  assert (Hocc : match_at Main.unlimited_pattern (a ++ sp ++ b) [] (a ++ sp ++ b) None).
  { exists []. split; [rewrite app_nil_r; reflexivity|].
    apply M_alt_r, M_alt_r. apply matches_seq.
    exists a, (sp ++ b), None, None. split; [reflexivity|].
    split; [apply (matches_lits "f" (T "ri")); auto|]. split; [|reflexivity].
    apply matches_seq. exists sp, b, None, None. split; [reflexivity|].
    split; [apply matches_ws; auto|]. split; [|reflexivity].
    apply (matches_lits "d" (T "ata")). auto. }
  assert (Hbefore : forall j f q, (j < 3)%nat ->
             Main.data_patterns !! j = Some (f, q) ->
             ~ occurs q (a ++ sp ++ b)).
  { intros j f q Hj Hq Ho.
    assert (Hd : exists d, In d (a ++ sp ++ b) /\ isdigit d = true).
    { destruct j as [|[|[|j]]]; simpl in Hq; try lia; injection Hq as _ <-;
        eapply followed_digit; exact Ho. }
    destruct Hd as (d & Hin & Hd).
    rewrite (phrase_no_digit a sp b d Ha Hsp Hb Hin) in Hd. discriminate. }
  destruct (first_match_at Main.data_patterns (a ++ sp ++ b) 3 false
              Main.unlimited_pattern eq_refl
              (ex_intro _ _ (ex_intro _ _ (ex_intro _ _ Hocc))) Hbefore)
    as (m & pre & Hfm & Hl & Hleft).
  specialize (Hleft _ _ _ Hocc). destruct pre; [|simpl in Hleft; lia].
  destruct Hl as (next & E & Hmt). simpl in E, Hmt.
  destruct (unit_first "f" (T "ri") a Ha) as (x & a1 & Ea & Hx & Ha1).
  assert (Ew : fst m = a ++ sp ++ b).
  { apply unlimited_shape in Hmt as [H|[H|(a' & sp' & b' & Ew & Ha' & Hsp' & Hb')]].
    - exfalso. destruct (unit_first "u" (T "begrenset") _ H) as (y & w1 & Ey & Hy & _).
      rewrite Ey, Ea in E. simpl in E. injection E as E _. subst y.
      rewrite Hx in Hy. discriminate.
    - exfalso. destruct (unit_first "u" (T "nlimited") _ H) as (y & w1 & Ey & Hy & _).
      rewrite Ey, Ea in E. simpl in E. injection E as E _. subst y.
      rewrite Hx in Hy. discriminate.
    - rewrite Ew, <- !app_assoc in E.
      assert (Hla : List.length a = List.length a').
      { rewrite (same_word_length _ _ Ha), (same_word_length _ _ Ha'). reflexivity. }
      destruct (app_inj_1 _ _ _ _ Hla E) as [<- E1].
      destruct (unit_first "d" (T "ata") b Hb) as (y & b1 & Eb & Hy & _).
      destruct (unit_first "d" (T "ata") b' Hb') as (y' & b1' & Eb' & Hy' & _).
      assert (Hs : forall z, lower_char z = lower_char "d" -> isspace z = false).
      { intros z Hz. rewrite <- lower_space, Hz. reflexivity. }
      assert (Esp : sp' = sp).
      { rewrite Eb, Eb' in E1.
        apply (prefix_unique isspace sp' sp Hsp' Hsp y' (b1' ++ next) y b1);
          [symmetry; exact E1|apply Hs; exact Hy'|apply Hs; exact Hy]. }
      subst sp'. apply app_inv_head in E1.
      assert (Hlb : List.length b = List.length b').
      { rewrite (same_word_length _ _ Hb), (same_word_length _ _ Hb'). reflexivity. }
      rewrite <- (app_nil_r b) in E1.
      destruct (app_inj_1 _ _ _ _ Hlb E1) as [<- _]. exact Ew. }
  unfold Main.extract_data_amount, group0. rewrite Hkw, Hfm, Ew, Ea. reflexivity.
Qed.

(** What a data pattern of [main.py] returns on a text without an
    unlimited keyword. *)
Lemma main_data_form (s : text) (f : bool) (m : text * option text) :
  any_in Main.unlimited_words (lower s) = false ->
  first_match Main.data_patterns s = Some (f, m) ->
  let r := if f then group1 m ++ T " GB" else group0 m in
  (exists i c n sp u,
      [ "G"; "T"; "M" ]%char !! i = Some c /\ number is_comma n /\ spaces sp /\
      same_word [c; "B"%char] u /\ r = n ++ sp ++ u) \/
  (exists a sp b,
      same_word (T "fri") a /\ spaces sp /\ sp <> T " " /\
      same_word (T "data") b /\ r = a ++ sp ++ b).
Proof.
  intros Hkw H.
  apply first_match_some in H as (i & p & pre & Hi & _ & (next & Es & Hm) & _).
  destruct m as [w g]. unfold group1, group0. cbn [fst snd] in *.
  destruct i as [|[|[|[|[|i]]]]]; simpl in Hi; try discriminate;
    injection Hi as <- <-; cbv zeta.
  - apply (followed_shape is_comma "G" (T "B")) in Hm
      as (n & sp & u & -> & Hn & Hsp & Hu & ->).
    left. exists 0%nat, "G"%char, n, sp, u. auto 10.
  - apply (followed_shape is_comma "T" (T "B")) in Hm
      as (n & sp & u & -> & Hn & Hsp & Hu & ->).
    left. exists 1%nat, "T"%char, n, sp, u. auto 10.
  - apply (followed_shape is_comma "M" (T "B")) in Hm
      as (n & sp & u & -> & Hn & Hsp & Hu & ->).
    left. exists 2%nat, "M"%char, n, sp, u. auto 10.
  - right. apply unlimited_shape in Hm as [Hu|[Hu|(a & sp & b & -> & Ha & Hsp & Hb)]].
    + exfalso. apply (keyword_absent Main.unlimited_words s pre w next (T "ubegrenset"));
        [exact Hkw|simpl; auto|exact Es|].
      apply same_word_lower; [reflexivity|exact Hu].
    + exfalso. apply (keyword_absent Main.unlimited_words s pre w next (T "unlimited"));
        [exact Hkw|simpl; auto|exact Es|].
      apply same_word_lower; [reflexivity|exact Hu].
    + exists a, sp, b. split; [exact Ha|]. split; [exact Hsp|].
      split; [|split; [exact Hb|reflexivity]].
      intros ->.
      apply (keyword_absent Main.unlimited_words s pre (a ++ T " " ++ b) next
               (T "fri data")); [exact Hkw|simpl; auto|exact Es|].
      apply (phrase_lower a (T " ") b Ha eq_refl Hb).
  - apply (integer_shape "g" (T "iga")) in Hm
      as (n & sp & u & -> & Hn & _ & _ & ->).
    left. exists 0%nat, "G"%char, n, (T " "), (T "GB").
    split; [reflexivity|]. split; [left; exact Hn|]. split; [reflexivity|].
    split; reflexivity.
Qed.

End FixedFacts.

(** X24.  A data amount that [_extract_data_amount] has read from a
    keyword or from a pattern does not change when it is normalised
    again, in either file: "Unlimited" stays, and so does a number with
    its unit, in [unified_parser.py] in its normal form and in [main.py]
    as the text has it, with its whitespace, or the words "fri" and "data"
    as written.  So the function can only fail to be idempotent on the
    cleaned text that it returns when nothing matches. *)
Theorem X24_data_amount_fixed (s : text) :
  (Text.any_in Unified.unlimited_keywords (Text.lower s) = true \/
   first_match Unified.data_patterns s <> None ->
   Unified.extract_data_amount (Unified.extract_data_amount s)
   = Unified.extract_data_amount s) /\
  (Text.any_in Main.unlimited_words (Text.lower s) = true \/
   first_match Main.data_patterns s <> None ->
   Main.extract_data_amount (Main.extract_data_amount s)
   = Main.extract_data_amount s) /\
  (Unified.extract_data_amount (Unified.extract_data_amount s)
   <> Unified.extract_data_amount s ->
   Unified.extract_data_amount s = clean_text s /\
   Unified.extract_data_amount (Unified.extract_data_amount s) = T "Unlimited") /\
  (Main.extract_data_amount (Main.extract_data_amount s)
   <> Main.extract_data_amount s ->
   Main.extract_data_amount s = clean_text s /\
   Main.extract_data_amount (Main.extract_data_amount s) = T "Unlimited").
Proof.
  assert (HU : Text.any_in Unified.unlimited_keywords (Text.lower s) = true \/
               first_match Unified.data_patterns s <> None ->
               Unified.extract_data_amount (Unified.extract_data_amount s)
               = Unified.extract_data_amount s).
  { intros H. destruct s as [|c0 s0]; [reflexivity|]. set (s := c0 :: s0) in *.
    unfold Unified.extract_data_amount at 2 3. cbn [Text.falsy s].
    destruct (Text.any_in Unified.unlimited_keywords (Text.lower s)) eqn:Ek;
      [reflexivity|].
    destruct (first_match Unified.data_patterns s) as [[b m]|] eqn:Ef;
      [|destruct H as [H|H]; [discriminate|congruence]].
    destruct (FixedFacts.unified_data_form s b m Ef) as (i & c & n & u & Hi & Hn & Hu & ->).
    rewrite (FixedFacts.unified_amount_fixed i c _ u Hi (AlignFacts.dotted_number n Hn) Hu).
    rewrite AlignFacts.comma_to_dot_twice. reflexivity. }
  assert (HM : Text.any_in Main.unlimited_words (Text.lower s) = true \/
               first_match Main.data_patterns s <> None ->
               Main.extract_data_amount (Main.extract_data_amount s)
               = Main.extract_data_amount s).
  { intros H. destruct s as [|c0 s0]; [reflexivity|]. set (s := c0 :: s0) in *.
    unfold Main.extract_data_amount at 2 3. cbn [Text.falsy s].
    destruct (Text.any_in Main.unlimited_words (Text.lower s)) eqn:Ek;
      [reflexivity|].
    destruct (first_match Main.data_patterns s) as [[b m]|] eqn:Ef;
      [|destruct H as [H|H]; [discriminate|congruence]].
    pose proof (FixedFacts.main_data_form s b m Ek Ef) as Hform. cbv zeta in Hform.
    assert (Er : (if b then Regex.group1 m ++ T " GB" else Regex.group0 m)
                 = match b with
                   | true => Regex.group1 m ++ T " GB"
                   | false => Regex.group0 m
                   end) by reflexivity.
    destruct b;
      (destruct Hform as [(i & c & n & sp & u & Hi & Hn & Hsp & Hu & ->)
                         |(a & sp & b' & Ha & Hsp & Hne & Hb & ->)];
       [apply (FixedFacts.main_amount_fixed i c n sp u Hi Hn Hsp Hu)
       |apply (FixedFacts.main_phrase_fixed a sp b' Ha Hsp Hne Hb)]). }
  split; [exact HU|]. split; [exact HM|]. split.
  - intros Hd.
    destruct (Text.any_in Unified.unlimited_keywords (Text.lower s)) eqn:Ek;
      [exfalso; apply Hd, HU; auto|].
    destruct (first_match Unified.data_patterns s) as [bm|] eqn:Ef;
      [exfalso; apply Hd, HU; right; discriminate|].
    destruct (TwiceFacts.fallback_twice Unified.extract_data_amount Unified.data_patterns)
      with (s := s) as (E1 & _ & E3); auto.
    + intros r Hne H. unfold Unified.extract_data_amount.
      rewrite (NormalizerFacts.falsy_false r Hne), H. reflexivity.
    + intros r Hk Hp. unfold Unified.extract_data_amount.
      rewrite Hk, Hp. destruct r; reflexivity.
    + apply TwiceFacts.unified_data_clean.
  - intros Hd.
    destruct (Text.any_in Main.unlimited_words (Text.lower s)) eqn:Ek;
      [exfalso; apply Hd, HM; auto|].
    destruct (first_match Main.data_patterns s) as [bm|] eqn:Ef;
      [exfalso; apply Hd, HM; right; discriminate|].
    destruct (TwiceFacts.fallback_twice Main.extract_data_amount Main.data_patterns)
      with (s := s) as (E1 & _ & E3); auto.
    + intros r Hne H. unfold Main.extract_data_amount.
      rewrite (NormalizerFacts.falsy_false r Hne).
      change Main.unlimited_words with Unified.unlimited_keywords. rewrite H.
      reflexivity.
    + intros r Hk Hp. unfold Main.extract_data_amount.
      change Main.unlimited_words with Unified.unlimited_keywords.
      rewrite Hk, Hp. destruct r; reflexivity.
    + apply TwiceFacts.main_data_clean.
Qed.
(** ** The summary of the results *)

Module SummaryFacts.
Import Results ResultsFacts.

(** The plans of a key, none for a key that is not there. *)
Local Abbreviation members k d := (default [] (get k d)).

(** The number of plans in the groups. *)
Local Abbreviation size d := (List.length (List.concat (map snd d))).

Local Abbreviation of_operator k :=
  (fun p : Orchestrator.MobilePlan => Scraper.text_eqb k (Orchestrator.operator p)).

Local Abbreviation fields :=
  (fun p : Orchestrator.MobilePlan =>
     (Orchestrator.name p, Orchestrator.price p, Orchestrator.data p)).

Lemma get_In {V : Type} (d : dict V) (k : text) (v : V) :
  List.NoDup (map fst d) -> (In (k, v) d <-> get k d = Some v).
Proof.
  induction d as [|[k' v'] d IH]; cbn [map fst get In]; intros Hnd.
  - split; [tauto|discriminate].
  - apply List.NoDup_cons_iff in Hnd as [Hk Hnd].
    destruct (Scraper.text_eqb k k') eqn:E.
    + apply text_eqb_eq in E. subst k'. split.
      * intros [[= ->]|H]; [reflexivity|]. exfalso. apply Hk.
        apply in_map_iff. exists (k, v). auto.
      * intros [= ->]. auto.
    + apply text_eqb_neq in E. rewrite <- (IH Hnd). split; [|auto].
      intros [[= -> ->]|H]; [congruence|exact H].
Qed.

Lemma size_set (k : text) (v : list Orchestrator.MobilePlan)
    (d : dict (list Orchestrator.MobilePlan)) :
  (size (set k v d) + List.length (members k d) = size d + List.length v)%nat.
Proof.
  induction d as [|[k' v'] d IH]; cbn [set get map snd List.concat].
  - simpl. rewrite app_nil_r. lia.
  - destruct (Scraper.text_eqb k k') eqn:E; cbn [map snd List.concat];
      rewrite !length_app; simpl default; lia.
Qed.

(** One plan more: it goes to the end of the plans of its operator, and a
    new operator goes to the end of the keys. *)
Lemma group_plan_spec (d : dict (list Orchestrator.MobilePlan))
    (p : Orchestrator.MobilePlan) :
  let op := Orchestrator.operator p in
  (forall k, members k (group_plan d p)
             = members k d ++ if Scraper.text_eqb k op then [p] else []) /\
  map fst (group_plan d p)
  = (if existsb (Scraper.text_eqb op) (map fst d) then map fst d else map fst d ++ [op]) /\
  size (group_plan d p) = (size d + 1)%nat.
Proof.
  cbv zeta. unfold group_plan. set (op := Orchestrator.operator p).
  rewrite existsb_keys.
  destruct (get op d) as [l|] eqn:E.
  - rewrite E. split; [|split].
    + intros k. destruct (Scraper.text_eqb k op) eqn:Ek.
      * apply text_eqb_eq in Ek. subst k. rewrite get_set_same, E. reflexivity.
      * apply text_eqb_neq in Ek. rewrite get_set_other by congruence.
        rewrite app_nil_r. reflexivity.
    + rewrite keys_set, existsb_keys, E. reflexivity.
    + pose proof (size_set op (l ++ [p]) d) as H. rewrite E in H.
      simpl default in H. rewrite length_app in H. simpl in H. lia.
  - rewrite get_set_same. split; [|split].
    + intros k. destruct (Scraper.text_eqb k op) eqn:Ek.
      * apply text_eqb_eq in Ek. subst k. rewrite get_set_same, E. reflexivity.
      * apply text_eqb_neq in Ek. rewrite !get_set_other by congruence.
        rewrite app_nil_r. reflexivity.
    + rewrite keys_set, existsb_keys, get_set_same, keys_set, existsb_keys, E.
      reflexivity.
    + pose proof (size_set op ([] ++ [p]) (set op [] d)) as H1.
      pose proof (size_set op [] d) as H2.
      rewrite get_set_same in H1. rewrite E in H2. simpl in H1, H2. simpl. lia.
Qed.

Lemma fold_groups (plans : list Orchestrator.MobilePlan) :
  forall d,
    let out := fold_left group_plan plans d in
    (forall k, members k out = members k d ++ List.filter (of_operator k) plans) /\
    map fst out
    = map fst d ++ first_occurrences (map fst d) (map Orchestrator.operator plans) /\
    size out = (size d + List.length plans)%nat.
Proof.
  induction plans as [|p plans IH]; intros d; cbv zeta.
  - cbn. rewrite !app_nil_r. repeat split; auto. intros k. rewrite app_nil_r. reflexivity.
  - cbn [fold_left map List.filter List.length first_occurrences].
    destruct (IH (group_plan d p)) as (H1 & H2 & H3). cbv zeta in H1, H2, H3.
    destruct (group_plan_spec d p) as (C1 & C2 & C3). cbv zeta in C1, C2, C3.
    split; [|split].
    + intros k. rewrite H1, C1, <- app_assoc.
      destruct (Scraper.text_eqb k (Orchestrator.operator p)); reflexivity.
    + rewrite H2, C2.
      destruct (existsb (Scraper.text_eqb (Orchestrator.operator p)) (map fst d));
        [reflexivity|]. rewrite <- app_assoc. reflexivity.
    + rewrite H3, C3. lia.
Qed.

Lemma filter_operator (op : text) (plans : list Orchestrator.MobilePlan) :
  List.filter (of_operator op) plans <> [] <-> In op (map Orchestrator.operator plans).
Proof.
  induction plans as [|p plans IH]; cbn [List.filter map In]; [tauto|].
  destruct (Scraper.text_eqb op (Orchestrator.operator p)) eqn:E.
  - apply text_eqb_eq in E. split; [auto|discriminate].
  - apply text_eqb_neq in E. rewrite IH. split; [auto|].
    intros [H|H]; [congruence|exact H].
Qed.

(** *** The lines *)

Lemma shown_app (a b : list line) : shown (a ++ b) = shown a ++ shown b.
Proof. unfold shown. apply flat_map_app. Qed.

Lemma counted_app (a b : list line) : counted (a ++ b) = (counted a + counted b)%nat.
Proof.
  unfold counted. induction a as [|l a IH]; cbn [app fold_right]; [reflexivity|].
  rewrite IH. destruct l; lia.
Qed.

Lemma plans_lines (with_info : bool) (l : list Orchestrator.MobilePlan) :
  shown (flat_map (plan_lines with_info) l) = map fields l /\
  counted (flat_map (plan_lines with_info) l) = 0%nat.
Proof.
  induction l as [|p l [IH1 IH2]]; [split; reflexivity|].
  cbn [flat_map map]. rewrite shown_app, counted_app, IH1, IH2. unfold plan_lines.
  destruct (with_info && negb (Text.falsy (Orchestrator.additional_info p)));
    split; reflexivity.
Qed.

Lemma operator_lines_spec (with_info : bool) (op : text)
    (l : list Orchestrator.MobilePlan) :
  shown (operator_lines with_info op l) = map fields (firstn 3 l) /\
  counted (operator_lines with_info op l) = (List.length l - 3)%nat.
Proof.
  unfold operator_lines.
  destruct (plans_lines with_info (firstn 3 l)) as [H1 H2].
  change (Operator op (List.length l) :: ?x) with ([Operator op (List.length l)] ++ x).
  rewrite !shown_app, !counted_app, H1, H2.
  destruct (3 <? List.length l)%nat eqn:E.
  - split; [apply app_nil_r|]. simpl. lia.
  - apply Nat.ltb_ge in E. split; [apply app_nil_r|]. simpl. lia.
Qed.

Lemma groups_lines_spec (with_info : bool) (d : dict (list Orchestrator.MobilePlan)) :
  let lines := flat_map (fun g => operator_lines with_info (fst g) (snd g)) d in
  shown lines = flat_map (fun g => map fields (firstn 3 (snd g))) d /\
  (List.length (shown lines) + counted lines = size d)%nat /\
  (List.length (shown lines) <= 3 * List.length d)%nat.
Proof.
  cbv zeta. induction d as [|[op l] d (IH1 & IH2 & IH3)]; [repeat split; simpl; lia|].
  cbn [flat_map fst snd map List.concat List.length].
  destruct (operator_lines_spec with_info op l) as [H1 H2].
  rewrite shown_app, counted_app, H1, H2, IH1.
  split; [reflexivity|]. rewrite <- IH1, !length_app, length_map, length_firstn.
  split; lia.
Qed.

End SummaryFacts.

(** X25.  The summary that [print_summary] of [main.py] and the end of
    [print_analysis_summary] of [unified_parser.py] print groups the plans
    by operator: the operators come in the order in which they first
    occur, each once, and the plans of an operator are its plans in the
    order of the list.  Under every operator the first three of its plans
    are shown and the others are counted, so that the plans shown and the
    plans counted are all the plans, and three plans at most are shown for
    an operator.  Without plans [print_summary] prints that there are none
    and no total; [print_analysis_summary] prints the total 0 first. *)
Theorem X25_summary_groups (plans : list Orchestrator.MobilePlan) (with_info : bool) :
  let groups := Results.by_operator plans in
  let lines := Results.groups_lines with_info plans in
  map fst groups = Results.first_occurrences [] (map Orchestrator.operator plans) /\
  List.NoDup (map fst groups) /\
  (forall op l,
      In (op, l) groups <->
      l <> [] /\
      l = List.filter (fun p => Scraper.text_eqb op (Orchestrator.operator p)) plans) /\
  Results.shown lines
  = flat_map
      (fun g => map (fun p => (Orchestrator.name p, Orchestrator.price p,
                               Orchestrator.data p))
                  (firstn 3 (snd g)))
      groups /\
  (List.length (Results.shown lines) + Results.counted lines = List.length plans)%nat /\
  (List.length (Results.shown lines) <= 3 * List.length groups)%nat /\
  (plans <> [] ->
   Results.print_summary plans
   = Results.Heading :: Results.Total (List.length plans)
     :: Results.groups_lines false plans /\
   Results.print_analysis_summary plans
   = Results.Heading :: Results.Total (List.length plans)
     :: Results.groups_lines true plans) /\
  Results.print_summary [] = [Results.NoPlans] /\
  Results.print_analysis_summary []
  = [Results.Heading; Results.Total 0; Results.NoPlans].
Proof.
  cbv zeta. unfold Results.groups_lines, Results.by_operator.
  destruct (SummaryFacts.fold_groups plans []) as (H1 & H2 & H3).
  cbv zeta in H1, H2, H3. simpl in H1, H2, H3.
  destruct (SummaryFacts.groups_lines_spec with_info
              (fold_left Results.group_plan plans [])) as (L1 & L2 & L3).
  cbv zeta in L1, L2, L3.
  assert (Hnd : List.NoDup (map fst (fold_left Results.group_plan plans []))).
  { rewrite H2. apply ResultsFacts.first_occurrences_NoDup. }
  assert (Hkeys : forall op, In op (map fst (fold_left Results.group_plan plans []))
                             <-> In op (map Orchestrator.operator plans)).
  { intros op. rewrite H2, ResultsFacts.first_occurrences_In. cbn. tauto. }
  split; [exact H2|]. split; [exact Hnd|]. split; [|split; [exact L1|]].
  - intros op l. rewrite (SummaryFacts.get_In _ op l Hnd). split.
    + intros Hg. pose proof (H1 op) as Hm. rewrite Hg in Hm. simpl default in Hm.
      split; [|exact Hm]. rewrite Hm. apply SummaryFacts.filter_operator.
      apply Hkeys. apply Decidable.not_not.
      { unfold Decidable.decidable.
        destruct (existsb (Scraper.text_eqb op)
                    (map fst (fold_left Results.group_plan plans []))) eqn:Ex.
        - left. apply ResultsFacts.existsb_In. exact Ex.
        - right. intros H. apply ResultsFacts.existsb_In in H. congruence. }
      intros H. apply ResultsFacts.get_none in H. congruence.
    + intros [Hne ->].
      destruct (Results.get op (fold_left Results.group_plan plans [])) as [l|] eqn:Hg.
      * f_equal. pose proof (H1 op) as Hm. rewrite Hg in Hm. exact Hm.
      * exfalso. apply ResultsFacts.get_none in Hg. apply Hg, Hkeys.
        apply SummaryFacts.filter_operator. exact Hne.
  - split; [rewrite L2, H3; reflexivity|]. split; [exact L3|].
    split; [|split; reflexivity].
    intros Hne. destruct plans; [congruence|]. split; reflexivity.
Qed.
(** ** The containers of the survey and the candidates of the parser *)

Module ContainerFacts.
Import Text Dom.

(** A selector of the survey is kept when it selects something. *)
Local Abbreviation selects soup :=
  (fun s : string => match select soup s with Some (_ :: _) => true | _ => false end).

Lemma plan_containers_selectors (soup : tag) (ss : list string) :
  map Survey.p_selector (Survey.plan_containers soup ss) = List.filter (selects soup) ss.
Proof.
  induction ss as [|s ss IH]; cbn [Survey.plan_containers List.filter map];
    [reflexivity|].
  destruct (select soup s) as [[|e els]|]; cbn [map Survey.p_selector]; rewrite IH;
    reflexivity.
Qed.

Lemma plan_containers_In (soup : tag) (ss : list string) (p : Survey.potential) :
  In p (Survey.plan_containers soup ss) <->
  exists s e els,
    In s ss /\ select soup s = Some (e :: els) /\
    p = Survey.Potential s (S (List.length els)) (prefix 100 (get_text e)).
Proof.
  induction ss as [|s ss IH]; cbn [Survey.plan_containers In].
  - split; [tauto|]. intros (s & e & els & [] & _).
  - destruct (select soup s) as [[|e els]|] eqn:E; cbn [In]; rewrite ?IH; split.
    + intros (s' & e' & els' & Hin & Hs & Hp). eauto 10.
    + intros (s' & e' & els' & [<-|Hin] & Hs & Hp); [congruence|eauto 10].
    + intros [<-|(s' & e' & els' & Hin & Hs & Hp)]; [|eauto 10].
      exists s, e, els. auto.
    + intros (s' & e' & els' & [<-|Hin] & Hs & Hp); [|eauto 10].
      left. rewrite E in Hs. injection Hs as <- <-. symmetry. exact Hp.
    + intros (s' & e' & els' & Hin & Hs & Hp). eauto 10.
    + intros (s' & e' & els' & [<-|Hin] & Hs & Hp); [congruence|eauto 10].
Qed.

(** A candidate of the parser, with its sample. *)
Lemma collect_entry (soup : tag) (ps : list string) (c : Analyzer.container) :
  In c (Analyzer.collect soup ps) <->
  exists s e els,
    In s ps /\ select soup s = Some (e :: els) /\ els <> [] /\
    c = Analyzer.Container s (S (List.length els)) (prefix 100 (get_text e))
          (Analyzer.calculate_container_confidence (e :: els)).
Proof.
  induction ps as [|s ps IH]; cbn [Analyzer.collect In].
  - split; [tauto|]. intros (s & e & els & [] & _).
  - destruct (select soup s) as [[|e [|e2 els]]|] eqn:E; cbn [List.length Nat.leb In];
      rewrite ?IH; split.
    + intros (s' & e' & els' & Hin & Hs & Hp). eauto 10.
    + intros (s' & e' & els' & [<-|Hin] & Hs & Hp); [congruence|eauto 10].
    + intros (s' & e' & els' & Hin & Hs & Hp). eauto 10.
    + intros (s' & e' & els' & [<-|Hin] & Hs & Hne & Hp); [|eauto 10].
      rewrite E in Hs. injection Hs as <- <-. congruence.
    + intros [<-|(s' & e' & els' & Hin & Hs & Hp)]; [|eauto 10].
      exists s, e, (e2 :: els). split; [auto|]. split; [exact E|].
      split; [discriminate|reflexivity].
    + intros (s' & e' & els' & [<-|Hin] & Hs & Hne & Hp); [|eauto 10].
      left. rewrite E in Hs. injection Hs as <- <-. symmetry. exact Hp.
    + intros (s' & e' & els' & Hin & Hs & Hp). eauto 10.
    + intros (s' & e' & els' & [<-|Hin] & Hs & Hp); [congruence|eauto 10].
Qed.

(** The patterns of the parser are selectors of the survey. *)
Lemma patterns_surveyed (s : string) :
  In s Analyzer.container_patterns -> In s Survey.container_selectors.
Proof.
  intros H. simpl in H.
  repeat (destruct H as [<-|H];
          [simpl; repeat first [left; reflexivity | right]|]).
  destruct H.
Qed.

End ContainerFacts.

(** X26.  The survey of [several_site_analyzer.py] finds every container
    that the parser of [unified_parser.py] can use: each candidate of
    [_analyze_plan_containers] is an entry of [potential_plan_containers]
    with the same selector, the same count and the same sample text, and an
    entry of the survey for a pattern of the parser with two elements or
    more is a candidate.  The survey lists its selectors in their order,
    each once at most, and keeps one as soon as it selects an element. *)
Theorem X26_survey_containers (soup : Dom.tag) :
  let survey := Survey.potential_plan_containers soup in
  let candidates := Analyzer.analyze_plan_containers soup in
  sublist (map Survey.p_selector survey) Survey.container_selectors /\
  List.NoDup (map Survey.p_selector survey) /\
  (forall s, In s (map Survey.p_selector survey) <->
     In s Survey.container_selectors /\
     exists e els, Dom.select soup s = Some (e :: els)) /\
  (forall c, In c candidates ->
     In (Survey.Potential (Analyzer.selector c) (Analyzer.count c)
           (Analyzer.sample_text c)) survey) /\
  (forall p, In p survey ->
     In (Survey.p_selector p) Analyzer.container_patterns ->
     (2 <= Survey.p_count p)%nat ->
     exists c, In c candidates /\
               Analyzer.selector c = Survey.p_selector p /\
               Analyzer.count c = Survey.p_count p /\
               Analyzer.sample_text c = Survey.p_sample_text p) /\
  (List.length candidates <= List.length survey)%nat.
Proof.
  cbv zeta. unfold Survey.potential_plan_containers.
  rewrite ContainerFacts.plan_containers_selectors.
  assert (Hin : forall c, In c (Analyzer.analyze_plan_containers soup) ->
            In (Survey.Potential (Analyzer.selector c) (Analyzer.count c)
                  (Analyzer.sample_text c))
               (Survey.plan_containers soup Survey.container_selectors)).
  { intros c Hc. unfold Analyzer.analyze_plan_containers in Hc.
    apply (proj1 (AnalyzerFacts.sorted_desc_In _ _)) in Hc.
    apply ContainerFacts.collect_entry in Hc as (s & e & els & Hs & Hsel & _ & ->).
    apply ContainerFacts.plan_containers_In. exists s, e, els.
    split; [apply ContainerFacts.patterns_surveyed; exact Hs|]. split; [exact Hsel|].
    reflexivity. }
  split; [apply PageFacts.filter_sublist|].
  split; [apply List.NoDup_filter; vm_compute;
          repeat (constructor; [simpl; intuition discriminate|]); constructor|].
  split; [|split; [exact Hin|split]].
  - intros s. rewrite filter_In. split.
    + intros [H1 H2]. split; [exact H1|].
      destruct (Dom.select soup s) as [[|e els]|]; try discriminate. eauto.
    + intros [H1 (e & els & ->)]. auto.
  - intros p Hp Hpat Hcount.
    apply ContainerFacts.plan_containers_In in Hp as (s & e & els & Hs & Hsel & ->).
    cbn [Survey.p_selector Survey.p_count Survey.p_sample_text] in *.
    exists (Analyzer.Container s (S (List.length els)) (Text.prefix 100 (Dom.get_text e))
              (Analyzer.calculate_container_confidence (e :: els))).
    split; [|repeat split].
    unfold Analyzer.analyze_plan_containers. apply AnalyzerFacts.sorted_desc_In.
    apply ContainerFacts.collect_entry. exists s, e, els.
    split; [exact Hpat|]. split; [exact Hsel|]. split; [|reflexivity].
    destruct els; [simpl in Hcount; lia|discriminate].
  - unfold Analyzer.analyze_plan_containers.
    rewrite (Permutation_length (AnalyzerFacts.sorted_desc_perm _)).
    rewrite <- (length_map Analyzer.selector), <- (length_map Survey.p_selector).
    rewrite ContainerFacts.plan_containers_selectors.
    apply sublist_length.
    assert (Hsub : forall ps,
               sublist (map Analyzer.selector (Analyzer.collect soup ps))
                 (List.filter
                    (fun s => match Dom.select soup s with
                              | Some (_ :: _) => true
                              | _ => false
                              end) ps)).
    { induction ps as [|p ps IH]; cbn [Analyzer.collect List.filter map]; [constructor|].
      destruct (Dom.select soup p) as [[|e [|e2 els]]|];
        cbn [List.length Nat.leb map Analyzer.selector]; try exact IH.
      - apply sublist_cons. exact IH.
      - apply sublist_skip. exact IH. }
    etransitivity; [apply Hsub|].
    assert (Hf : forall (f : string -> bool) (a b : list string),
               sublist a b -> sublist (List.filter f a) (List.filter f b)).
    { intros f a b H. induction H as [|x a b H IH|x a b H IH]; cbn [List.filter].
      - constructor.
      - destruct (f x); [apply sublist_skip|]; exact IH.
      - destruct (f x); [apply sublist_cons|]; exact IH. }
    apply Hf.
    vm_compute.
    repeat first [apply sublist_nil | apply sublist_skip | apply sublist_cons].
Qed.
